(** * Mango-Go source adapters: WeebCentral, Webtoons, MangaDex

    A shallow embedding of the three adapter plugins
    ([weebcentral/index.js], [webtoons/index.js], [mangadex/index.js]) and
    of the JavaScript built-ins they rely on, followed by the properties of
    the adapter contract that the specification states and by further
    properties of the code: its requests and errors, what it reads from a
    page, and what it builds.

    Conventions of the embedding.
    - A JavaScript string is a [string] of 8-bit characters: the adapters'
      own literals and all protocol syntax are ASCII, other text is carried
      as its UTF-8 bytes.  Strings holding a lone surrogate do not exist in
      this type.  Where the language treats a code point beyond U+007F
      specially (white space, line terminators), the embedding reads its
      bytes.
    - A JavaScript number that is only compared or subtracted is a binary64
      [float]; a number that comes from a JSON integer field (an id, a
      counter, a cursor, epoch milliseconds) is the [Z] that the field
      holds, and what is printed of it is the binary64 number nearest to
      it.
    - A field that the source guards with [||], [?.] or [if] is an [option]
      ([None] is an absent or null field); a field that the source writes
      into a template literal is a [Js.nullable], which keeps the two
      apart; a field the source reads without a guard is typed as
      present.
    - Records keep the field names of the source; where two records of a
      module share a field name, a short prefix tells them apart.
    - [mango.log.*] only writes to the host log and never influences a
      result; it is left out.
    - An [async] function is a computation in the monad [M]: it issues HTTP
      requests through the injected [mango.http] and either returns or
      throws. *)

From Stdlib Require Import ZArith Lia List Bool Ascii String Floats QArith Sorted.
From stdpp Require Import base option list gmap strings.

Local Open Scope Z_scope.

(** ** JavaScript strings *)

Module Js.

Definition chr (n : nat) : ascii := ascii_of_nat n.

Definition is_digit (c : ascii) : bool :=
  (48 <=? nat_of_ascii c)%nat && (nat_of_ascii c <=? 57)%nat.

(** [LineTerminator]: whether the input begins with one of U+000A, U+000D,
    U+2028 and U+2029, the last two being the bytes [E2 80 A8] and
    [E2 80 A9].  These are the characters that [.] does not match. *)
Definition line_terminator_at (s : string) : bool :=
  match s with
  | String a r =>
      Ascii.eqb a (chr 10) || Ascii.eqb a (chr 13)
      || match r with
         | String b (String c _) =>
             Ascii.eqb a (chr 226) && Ascii.eqb b (chr 128)
             && (Ascii.eqb c (chr 168) || Ascii.eqb c (chr 169))
         | _ => false
         end
  | EmptyString => false
  end.

(** [WhiteSpace] and [LineTerminator], as stripped by [trim] and skipped by
    [parseFloat].  The code points of one byte: U+0009 to U+000D and
    U+0020. *)
Definition is_space (c : ascii) : bool :=
  let n := nat_of_ascii c in
  ((9 <=? n)%nat && (n <=? 13)%nat) || (n =? 32)%nat.

(** The code point of two bytes: U+00A0, [C2 A0]. *)
Definition is_space2 (a b : ascii) : bool :=
  (nat_of_ascii a =? 194)%nat && (nat_of_ascii b =? 160)%nat.

(** The code points of three bytes: U+1680 [E1 9A 80], U+2000 to U+200A
    [E2 80 80] to [E2 80 8A], U+2028 and U+2029 [E2 80 A8] and [E2 80 A9],
    U+202F [E2 80 AF], U+205F [E2 81 9F], U+3000 [E3 80 80] and U+FEFF
    [EF BB BF]. *)
Definition is_space3 (a b c : ascii) : bool :=
  let x := nat_of_ascii a in
  let y := nat_of_ascii b in
  let z := nat_of_ascii c in
  ((x =? 225) && (y =? 154) && (z =? 128))%nat
  || ((x =? 226) && (y =? 128)
      && (((128 <=? z) && (z <=? 138)) || (z =? 168) || (z =? 169) || (z =? 175)))%nat
  || ((x =? 226) && (y =? 129) && (z =? 159))%nat
  || ((x =? 227) && (y =? 128) && (z =? 128))%nat
  || ((x =? 239) && (y =? 187) && (z =? 191))%nat.

Definition is_alnum (c : ascii) : bool :=
  let n := nat_of_ascii c in
  ((48 <=? n)%nat && (n <=? 57)%nat) ||
  ((65 <=? n)%nat && (n <=? 90)%nat) ||
  ((97 <=? n)%nat && (n <=? 122)%nat).

Definition to_lower (c : ascii) : ascii :=
  let n := nat_of_ascii c in
  if ((65 <=? n)%nat && (n <=? 90)%nat) then ascii_of_nat (n + 32) else c.

(** [s.startsWith(p)] *)
Fixpoint startsWith (p s : string) : bool :=
  match p, s with
  | EmptyString, _ => true
  | String a p', String b s' => Ascii.eqb a b && startsWith p' s'
  | String _ _, EmptyString => false
  end.

(** [s.includes(p)] *)
Fixpoint includes (p s : string) : bool :=
  startsWith p s ||
  match s with
  | EmptyString => false
  | String _ s' => includes p s'
  end.

(** [s.slice(n)] *)
Fixpoint drop (n : nat) (s : string) : string :=
  match n, s with
  | O, _ => s
  | S n', String _ s' => drop n' s'
  | S _, EmptyString => EmptyString
  end.

(** [s.slice(0, n)] *)
Fixpoint take (n : nat) (s : string) : string :=
  match n, s with
  | O, _ => EmptyString
  | S n', String a s' => String a (take n' s')
  | S _, EmptyString => EmptyString
  end.

Fixpoint map_chars (f : ascii -> ascii) (s : string) : string :=
  match s with
  | EmptyString => EmptyString
  | String a s' => String (f a) (map_chars f s')
  end.

Fixpoint all_chars (p : ascii -> bool) (s : string) : bool :=
  match s with
  | EmptyString => true
  | String a s' => p a && all_chars p s'
  end.

(** [s.replace(pat, rep)] with a string pattern: the first occurrence only. *)
Fixpoint replace_first (pat rep s : string) : string :=
  if startsWith pat s then rep +:+ drop (String.length pat) s
  else match s with
       | EmptyString => EmptyString
       | String a s' => String a (replace_first pat rep s')
       end.

(** [s.replace(/c/g, d)] for a one-character pattern. *)
Definition replace_all_char (c d : ascii) (s : string) : string :=
  map_chars (fun a => if Ascii.eqb a c then d else a) s.

(** [s.split(sep)] for a non-empty separator.  [skip] counts the characters
    of a separator occurrence that are still to be passed over; [cur] is the
    piece being collected. *)
Fixpoint split_go (sep : string) (skip : nat) (cur : string) (s : string)
  : list string :=
  match s with
  | EmptyString => [cur]
  | String a s' =>
      match skip with
      | S k => split_go sep k cur s'
      | O =>
          if startsWith sep s
          then cur :: split_go sep (String.length sep - 1) EmptyString s'
          else split_go sep O (cur +:+ String a EmptyString) s'
      end
  end.

Definition split (sep s : string) : list string := split_go sep O EmptyString s.

(** [s.trimStart()] *)
Fixpoint trimStart (s : string) : string :=
  match s with
  | String a s1 =>
      if is_space a then trimStart s1
      else
        match s1 with
        | String b s2 =>
            if is_space2 a b then trimStart s2
            else
              match s2 with
              | String c s3 => if is_space3 a b c then trimStart s3 else s
              | EmptyString => s
              end
        | EmptyString => s
        end
  | EmptyString => EmptyString
  end.

(** [trimStart] on a string read backwards: the bytes of a code point come
    last byte first. *)
Fixpoint trimStart_backwards (s : string) : string :=
  match s with
  | String c s1 =>
      if is_space c then trimStart_backwards s1
      else
        match s1 with
        | String b s2 =>
            if is_space2 b c then trimStart_backwards s2
            else
              match s2 with
              | String a s3 =>
                  if is_space3 a b c then trimStart_backwards s3 else s
              | EmptyString => s
              end
        | EmptyString => s
        end
  | EmptyString => EmptyString
  end.

Fixpoint rev_string (acc s : string) : string :=
  match s with
  | EmptyString => acc
  | String a s' => rev_string (String a acc) s'
  end.

(** [s.trimEnd()] *)
Definition trimEnd (s : string) : string :=
  rev_string EmptyString (trimStart_backwards (rev_string EmptyString s)).

(** [s.trim()] *)
Definition trim (s : string) : string := trimEnd (trimStart s).

(** [arr.join(sep)] *)
Fixpoint join (sep : string) (l : list string) : string :=
  match l with
  | [] => EmptyString
  | [x] => x
  | x :: l' => x +:+ sep +:+ join sep l'
  end.

(** A string is truthy when it is not empty. *)
Definition nonempty (s : string) : bool :=
  match s with EmptyString => false | String _ _ => true end.

(** [a || b] on strings. *)
Definition str_or (a b : string) : string := if nonempty a then a else b.

(** [o || ""] for a field that may be absent. *)
Definition opt_str (o : option string) : string := default EmptyString o.

(** A field whose value is written into a template literal, which tells a
    missing field from a [null] one. *)
Inductive nullable (A : Type) : Type :=
| Undefined
| Null
| Value (a : A).
Arguments Undefined {A}.
Arguments Null {A}.
Arguments Value {A} a.

(** [`${x}`] *)
Definition template (x : nullable string) : string :=
  match x with
  | Undefined => "undefined"
  | Null => "null"
  | Value s => s
  end.

(** ** [encodeURIComponent] *)

Definition hex_digit (n : nat) : ascii :=
  if (n <? 10)%nat then ascii_of_nat (48 + n) else ascii_of_nat (55 + n).

(** [uriUnreserved] plus the marks that [encodeURIComponent] keeps:
    [A-Z a-z 0-9 - _ . ! ~ * ' ( )]. *)
Definition uri_unescaped (c : ascii) : bool :=
  is_alnum c ||
  existsb (Ascii.eqb c) ["-"; "_"; "."; "!"; "~"; "*"; "'"; "("; ")"]%char.

Fixpoint encodeURIComponent (s : string) : string :=
  match s with
  | EmptyString => EmptyString
  | String a s' =>
      if uri_unescaped a then String a (encodeURIComponent s')
      else
        let n := nat_of_ascii a in
        String "%" (String (hex_digit (n / 16)) (String (hex_digit (n mod 16))
          (encodeURIComponent s')))
  end.

(** ** [String(n)] for a number given as an integer

    A number that is read from a JSON integer is the binary64 number nearest
    to the integer, ties to even: the integer itself below [2 ^ 53] in
    magnitude, and infinite from [2 ^ 1024 - 2 ^ 970] on.  [String] prints
    the shortest decimal that reads back as that number, the nearest to it
    when there are several: in full below [10 ^ 21], with an exponent from
    there on. *)

Fixpoint digits_of_pos (fuel : nat) (n : N) (acc : string) : string :=
  match fuel with
  | O => acc
  | S f =>
      let d := ascii_of_nat (48 + N.to_nat (n mod 10)%N) in
      if (n <? 10)%N then String d acc
      else digits_of_pos f (n / 10)%N (String d acc)
  end.

Definition string_of_N (n : N) : string :=
  digits_of_pos (S (N.to_nat (N.log2 n))) n EmptyString.

(** The integer that the binary64 number nearest to [n] is. *)
Definition to_binary64 (n : N) : N :=
  let e := (N.log2 n - 52)%N in
  if (e =? 0)%N then n
  else
    let q := N.shiftr n e in
    let r := (n - N.shiftl q e)%N in
    let half := N.shiftl 1 (e - 1) in
    let q' := if (half <? r)%N || ((r =? half)%N && N.odd q) then (q + 1)%N else q in
    N.shiftl q' e.

(** Whether the integer [w] reads back as the binary64 number [x], of
    [2 ^ 53] or more: whether [x] is the number nearest to [w].  The numbers
    next to [x] are [2 ^ e] away, the one below a power of two half of
    that; a tie goes to [x] when its significand is even. *)
Definition reads_as (x w : N) : bool :=
  let e := (N.log2 x - 52)%N in
  let m := N.shiftr x e in
  let above := N.shiftl 1 e in
  let below := if (m =? N.shiftl 1 52)%N then N.shiftl 1 (e - 1) else above in
  if (x <=? w)%N
  then let d := (2 * (w - x))%N in (d <? above)%N || ((d =? above)%N && N.even m)
  else let d := (2 * (x - w))%N in (d <? below)%N || ((d =? below)%N && N.even m).

(** The shortest decimal that reads back as [x]: its digits [s] and the
    number [p] of zeros that follow them, found by trying the multiples of
    [10 ^ p] next to [x] for [p] from the greatest down. *)
Fixpoint shortest (fuel : nat) (x p : N) : N * N :=
  match fuel with
  | O => (x, 0%N)
  | S f =>
      let t := (10 ^ p)%N in
      let lo := (x / t * t)%N in
      let hi := (lo + t)%N in
      let ok_lo := (0 <? lo)%N && reads_as x lo in
      let ok_hi := reads_as x hi in
      if ok_lo && ok_hi then
        if (x - lo <? hi - x)%N || ((x - lo =? hi - x)%N && N.even (lo / t))
        then ((lo / t)%N, p) else ((hi / t)%N, p)
      else if ok_lo then ((lo / t)%N, p)
      else if ok_hi then ((hi / t)%N, p)
      else shortest f x (N.pred p)
  end.

Fixpoint zeros (n : nat) : string :=
  match n with
  | O => EmptyString
  | S n' => String "0" (zeros n')
  end.

(** [String(x)] for a finite binary64 number [x] that is a positive
    integer. *)
Definition string_of_binary64 (x : N) : string :=
  if (N.log2 x <? 53)%N then string_of_N x
  else
    let p0 := (N.log2 x / 3 + 1)%N in
    let '(s, p) := shortest (S (N.to_nat p0)) x p0 in
    let digits := string_of_N s in
    let n := (String.length digits + N.to_nat p)%nat in
    if (n <=? 21)%nat then digits +:+ zeros (N.to_nat p)
    else
      match digits with
      | String d EmptyString =>
          String d ("e+" +:+ string_of_N (N.of_nat (n - 1)))
      | String d more =>
          String d ("." +:+ more +:+ "e+" +:+ string_of_N (N.of_nat (n - 1)))
      | EmptyString => EmptyString
      end.

(** [String(n)] for the number read from the integer [n]. *)
Definition string_of_magnitude (n : N) : string :=
  let x := to_binary64 n in
  if (1024 <=? N.log2 x)%N then "Infinity" else string_of_binary64 x.

Definition string_of_Z (z : Z) : string :=
  match z with
  | Z0 => "0"
  | Zpos p => string_of_magnitude (Npos p)
  | Zneg p => String "-" (string_of_magnitude (Npos p))
  end.

End Js.

(** ** Regular expressions

    The fragment of ECMAScript regular expressions that the adapters use:
    characters and character classes, [^], concatenation, greedy [*] and [+]
    and lazy [*?] over a class, greedy [?], and capture groups.  Matching
    is the backtracking semantics of the language: the matcher of a term
    takes the continuation that matches the rest of the pattern, and a
    quantifier tries its alternatives in priority order.

    A class is a set of bytes where membership shows in one byte.  The class
    [.] leaves out two code points of three bytes, so it is a condition on
    the input from the position on ([ChrAt], [StarAt]); it passes over the
    input byte by byte, which ends where passing over it code unit by code
    unit does, since what follows [.] in a pattern begins with a character
    of one byte. *)

Module Regex.

Inductive regex : Type :=
| Eps
| Chr (p : ascii -> bool)
| Bol
| Seq (r1 r2 : regex)
| Star (p : ascii -> bool)
| LazyStar (p : ascii -> bool)
| Opt (r : regex)
| Group (i : nat) (r : regex)
| ChrAt (q : string -> bool)
| StarAt (q : string -> bool).

Definition captures : Type := list (nat * string).

(** End position of the match and the captures. *)
Definition matched : Type := (nat * captures)%type.

Definition cont : Type := nat -> string -> captures -> option matched.

Fixpoint star_greedy (p : ascii -> bool) (k : cont)
  (pos : nat) (s : string) (c : captures) : option matched :=
  match s with
  | String a s' =>
      if p a then
        match star_greedy p k (S pos) s' c with
        | Some m => Some m
        | None => k pos s c
        end
      else k pos s c
  | EmptyString => k pos s c
  end.

Fixpoint star_greedy_at (q : string -> bool) (k : cont)
  (pos : nat) (s : string) (c : captures) : option matched :=
  match s with
  | String a s' =>
      if q s then
        match star_greedy_at q k (S pos) s' c with
        | Some m => Some m
        | None => k pos s c
        end
      else k pos s c
  | EmptyString => k pos s c
  end.

Fixpoint star_lazy (p : ascii -> bool) (k : cont)
  (pos : nat) (s : string) (c : captures) : option matched :=
  match k pos s c with
  | Some m => Some m
  | None =>
      match s with
      | String a s' => if p a then star_lazy p k (S pos) s' c else None
      | EmptyString => None
      end
  end.

Fixpoint rmatch (r : regex) (k : cont) (pos : nat) (s : string) (c : captures)
  : option matched :=
  match r with
  | Eps => k pos s c
  | Chr p =>
      match s with
      | String a s' => if p a then k (S pos) s' c else None
      | EmptyString => None
      end
  | Bol => if (pos =? 0)%nat then k pos s c else None
  | Seq r1 r2 => rmatch r1 (rmatch r2 k) pos s c
  | Star p => star_greedy p k pos s c
  | LazyStar p => star_lazy p k pos s c
  | Opt r' =>
      match rmatch r' k pos s c with
      | Some m => Some m
      | None => k pos s c
      end
  | Group i r' =>
      rmatch r' (fun pos' s' c' => k pos' s' ((i, Js.take (pos' - pos) s) :: c'))
        pos s c
  | ChrAt q =>
      match s with
      | String a s' => if q s then k (S pos) s' c else None
      | EmptyString => None
      end
  | StarAt q => star_greedy_at q k pos s c
  end.

Definition accept : cont := fun pos _ c => Some (pos, c).

Record match_result : Type := MatchResult {
  index : nat;          (* where the match starts *)
  lastIndex : nat;      (* where it ends *)
  groups : captures
}.

(** [re.exec(str)] scanning from position [pos], where [s] is the input from
    [pos] on: the leftmost position at which the pattern matches. *)
Fixpoint exec_from (r : regex) (pos : nat) (s : string) : option match_result :=
  match rmatch r accept pos s [] with
  | Some (e, c) => Some (MatchResult pos e c)
  | None =>
      match s with
      | String _ s' => exec_from r (S pos) s'
      | EmptyString => None
      end
  end.

(** [str.match(re)] for a pattern without the [g] flag. *)
Definition exec (r : regex) (s : string) : option match_result := exec_from r 0 s.

(** [m[i]]: the text of capture group [i], when the group took part. *)
Fixpoint group (i : nat) (c : captures) : option string :=
  match c with
  | [] => None
  | (j, t) :: c' => if (i =? j)%nat then Some t else group i c'
  end.

(** [str.replace(re, rep)] for a pattern without the [g] flag. *)
Definition replace (r : regex) (rep s : string) : string :=
  match exec r s with
  | None => s
  | Some m => Js.take (index m) s +:+ rep +:+ Js.drop (lastIndex m) s
  end.

(** The loop [while ((m = re.exec(str)) !== null)] for a pattern with the
    [g] flag whose matches are never empty: each round resumes where the
    previous match ended, so [String.length str + 1] rounds are enough. *)
Fixpoint exec_loop (fuel : nat) (r : regex) (s : string) (from : nat)
  : list match_result :=
  match fuel with
  | O => []
  | S f =>
      match exec_from r from (Js.drop from s) with
      | None => []
      | Some m => m :: exec_loop f r s (lastIndex m)
      end
  end.

Definition exec_all (r : regex) (s : string) : list match_result :=
  exec_loop (S (String.length s)) r s 0.

(** *** Pattern syntax *)

Definition char (a : ascii) : regex := Chr (Ascii.eqb a).

(** A character under the [i] flag. *)
Definition char_i (a : ascii) : regex :=
  Chr (fun b => Ascii.eqb (Js.to_lower a) (Js.to_lower b)).

Fixpoint lit (s : string) : regex :=
  match s with
  | EmptyString => Eps
  | String a s' => Seq (char a) (lit s')
  end.

Fixpoint lit_i (s : string) : regex :=
  match s with
  | EmptyString => Eps
  | String a s' => Seq (char_i a) (lit_i s')
  end.

Definition Plus (p : ascii -> bool) : regex := Seq (Chr p) (Star p).

Definition PlusAt (q : string -> bool) : regex := Seq (ChrAt q) (StarAt q).

Fixpoint seq (l : list regex) : regex :=
  match l with
  | [] => Eps
  | r :: l' => Seq r (seq l')
  end.

(** [\d], [.], [[^c]], [[\s\S]] and the class of the two quote characters. *)
Definition digit : ascii -> bool := Js.is_digit.
Definition dot : string -> bool := fun s => negb (Js.line_terminator_at s).
Definition not_char (c : ascii) : ascii -> bool := fun a => negb (Ascii.eqb a c).
Definition any : ascii -> bool := fun _ => true.
Definition quote : ascii -> bool :=
  fun a => Ascii.eqb a (Js.chr 34) || Ascii.eqb a (Js.chr 39).
Definition not_quote : ascii -> bool := fun a => negb (quote a).

End Regex.

(** ** Numbers: [parseFloat], [x || 0] and [Array.prototype.sort] *)

Module Number.

Definition digit_val (c : ascii) : N := N.of_nat (nat_of_ascii c - 48).

(** Reads a run of decimal digits: the number they denote when appended to
    the digits already read ([acc]), how many were read, and the rest. *)
Fixpoint span_digits (s : string) (acc : N) (count : nat) : N * nat * string :=
  match s with
  | String a s' =>
      if Js.is_digit a then span_digits s' (acc * 10 + digit_val a)%N (S count)
      else (acc, count, s)
  | EmptyString => (acc, count, s)
  end.

(** [ExponentPart], when one follows; the exponent is 0 otherwise. *)
Definition exponent_part (s : string) : Z :=
  match s with
  | String a r =>
      if Ascii.eqb a "e" || Ascii.eqb a "E" then
        let '(neg, r') :=
          match r with
          | String "-" t => (true, t)
          | String "+" t => (false, t)
          | _ => (false, r)
          end in
        let '(e, n, _) := span_digits r' 0%N O in
        if (n =? 0)%nat then 0 else if neg then - Z.of_N e else Z.of_N e
      else 0
  | EmptyString => 0
  end.

(** The binary64 number nearest to [m * 10 ^ e10] (ties to even). *)
Definition of_decimal (neg : bool) (m : N) (e10 : Z) : float :=
  match m with
  | N0 => if neg then neg_zero else zero
  | Npos p =>
      if 0 <=? e10 then
        SF2Prim (binary_normalize prec emax
                   (cond_Zopp neg (Zpos p * 10 ^ e10)) 0 false)
      else
        SF2Prim (SFdiv prec emax (S754_finite neg p 0)
                   (S754_finite false (Z.to_pos (10 ^ (- e10))) 0))
  end.

(** [parseFloat(s)]: the longest prefix of the trimmed input that is a
    [StrDecimalLiteral], or [NaN] when there is none. *)
Definition parseFloat (s : string) : float :=
  let s1 := Js.trimStart s in
  let '(neg, s2) :=
    match s1 with
    | String "-" r => (true, r)
    | String "+" r => (false, r)
    | _ => (false, s1)
    end in
  if Js.startsWith "Infinity" s2 then (if neg then neg_infinity else infinity)
  else
    let '(ip, ni, s3) := span_digits s2 0%N O in
    let '(m, nf, s4) :=
      match s3 with
      | String "." r => span_digits r ip O
      | _ => (ip, O, s3)
      end in
    if (ni + nf =? 0)%nat then nan
    else of_decimal neg m (exponent_part s4 - Z.of_nat nf).

(** [x || 0] on a number: [NaN], [+0] and [-0] are falsy. *)
Definition or_zero (x : float) : float :=
  if is_nan x || is_zero x then zero else x.

(** What [sort] makes of the number [v] its comparator returned: a negative
    [v] puts the first argument first, a positive [v] the second, and
    anything else (zero or [NaN]) leaves the two in place. *)
Definition order_of (v : float) : comparison :=
  if (v <? zero)%float then Lt
  else if (zero <? v)%float then Gt
  else Eq.

Section Sort.
Context {A : Type} (comparefn : A -> A -> float).

Fixpoint insert (x : A) (l : list A) : list A :=
  match l with
  | [] => [x]
  | y :: l' =>
      match order_of (comparefn x y) with
      | Gt => y :: insert x l'
      | _ => x :: l
      end
  end.

(** [arr.sort(comparefn)].  The language requires the sort to be stable; for
    a comparator that orders the elements consistently every stable sort
    yields the same array, the one straight insertion builds. *)
Definition sort (l : list A) : list A := foldr insert [] l.

End Sort.

End Number.

(** ** The document interface consumed through [mango.utils.parseHTML]

    The adapters use a parsed document only through [querySelectorAll],
    [querySelector], [getAttribute] and [textContent].  An element is
    therefore its attributes, its text content and, for each selector, the
    elements the selector yields below it, in document order. *)

Module Dom.

#[warnings="-register-all"]
Inductive element : Type :=
| Element (attributes : list (string * string))
          (text : string)
          (selected : list (string * list element)).

Fixpoint assoc {V : Type} (k : string) (l : list (string * V)) : option V :=
  match l with
  | [] => None
  | (k', v) :: l' => if String.eqb k k' then Some v else assoc k l'
  end.

Definition getAttribute (name : string) (e : element) : option string :=
  let 'Element attrs _ _ := e in assoc name attrs.

Definition textContent (e : element) : string :=
  let 'Element _ t _ := e in t.

Definition querySelectorAll (selector : string) (e : element) : list element :=
  let 'Element _ _ sel := e in default [] (assoc selector sel).

Definition querySelector (selector : string) (e : element) : option element :=
  head (querySelectorAll selector e).

End Dom.

(** ** The host: the injected [mango] object and the request monad *)

Module Host.

Inductive exn_kind : Type := JsError | JsTypeError | JsRangeError.

(** A thrown exception, with its [message]. *)
Record exn : Type := Exn { kind : exn_kind; message : string }.

Definition Error (msg : string) : exn := Exn JsError msg.
Definition TypeError (msg : string) : exn := Exn JsTypeError msg.
Definition RangeError (msg : string) : exn := Exn JsRangeError msg.

Inductive method : Type := GET | POST.

Record request : Type := Request {
  req_method : method;
  req_url : string;
  req_body : option string;
  req_headers : list (string * string);
  req_timeout : option Q                 (* [options.timeout], in seconds *)
}.

(** The response object, with its body already decoded to the shape [B]
    the endpoint serves. *)
Record response (B : Type) : Type := Response {
  status : Z;
  statusText : string;
  data : B
}.
Arguments Response {B} _ _ _.
Arguments status {B} _.
Arguments statusText {B} _.
Arguments data {B} _.

(** The [mango] object.  [http] answers a request, or fails as the transport
    does, and may depend on the requests made before; [config_timeout] is
    [mango.config?.timeout]; [parseHTML] is [mango.utils.parseHTML], when the
    host provides it, and yields [None] for a null document. *)
Record Mango (B : Type) : Type := {
  http : list request -> request -> exn + response B;
  config_timeout : option Z;
  parseHTML : option (B -> option Dom.element)
}.
Arguments http {B} _ _ _.
Arguments config_timeout {B} _.
Arguments parseHTML {B} _.

(** Built-ins of the JavaScript runtime that are used but not modelled:
    [new URL(s).origin] ([None] when the constructor throws), and the ISO
    rendering of the current time, of a time in epoch milliseconds and of a
    date string ([None] for an invalid date). *)
Record Runtime : Type := {
  url_origin : string -> option string;
  date_now : string;
  date_of_millis : Z -> option string;
  date_of_string : string -> option string
}.

Inductive outcome (A : Type) : Type :=
| Return (a : A)
| Throw (e : exn)
| OutOfFuel.
Arguments Return {A} _.
Arguments Throw {A} _.
Arguments OutOfFuel {A}.

(** A computation maps the requests issued so far to its outcome and the
    requests issued when it ends. *)
Definition M (A : Type) : Type := list request -> outcome A * list request.

Definition ret {A : Type} (a : A) : M A := fun tr => (Return a, tr).

Definition throw {A : Type} (e : exn) : M A := fun tr => (Throw e, tr).

Definition out_of_fuel {A : Type} : M A := fun tr => (OutOfFuel, tr).

Definition bind {A B : Type} (m : M A) (k : A -> M B) : M B :=
  fun tr =>
    match m tr with
    | (Return a, tr') => k a tr'
    | (Throw e, tr') => (Throw e, tr')
    | (OutOfFuel, tr') => (OutOfFuel, tr')
    end.

(** [try { m } catch (error) { h error }] *)
Definition try_catch {A : Type} (m : M A) (h : exn -> M A) : M A :=
  fun tr =>
    match m tr with
    | (Throw e, tr') => h e tr'
    | r => r
    end.

Definition send {B : Type} (mango : Mango B) (req : request) : M (response B) :=
  fun tr =>
    match http mango tr req with
    | inl e => (Throw e, tr ++ [req])
    | inr r => (Return r, tr ++ [req])
    end.

(** [await mango.http.get(url, { headers, timeout })] *)
Definition http_get {B : Type} (mango : Mango B) (url : string)
  (headers : list (string * string)) (timeout : option Q) : M (response B) :=
  send mango (Request GET url None headers timeout).

(** [await mango.http.post(url, body, { headers })] *)
Definition http_post {B : Type} (mango : Mango B) (url body : string)
  (headers : list (string * string)) : M (response B) :=
  send mango (Request POST url (Some body) headers None).

(** Runs a call that starts with no request issued. *)
Definition run {A : Type} (m : M A) : outcome A * list request := m [].

(** [mango.config?.timeout || 20000], converted from milliseconds to
    seconds. *)
Definition timeoutSec {B : Type} (mango : Mango B) : Q :=
  let timeoutMs :=
    match config_timeout mango with
    | Some t => if t =? 0 then 20000 else t
    | None => 20000
    end in
  (inject_Z timeoutMs / inject_Z 1000)%Q.

(** The series DTO that every [search] returns. *)
Record SearchResult : Type := {
  title : string;
  cover_url : string;
  identifier : string
}.

(** The options of [constructProxyUrl]; an absent option is [""]. *)
Record ProxyOptions : Type := {
  referer : string;
  userAgent : string;
  origin : string
}.

End Host.

Notation "x <- m ;; k" := (Host.bind m (fun x => k))
  (at level 100, m at next level, right associativity).

(** ** WeebCentral ([weebcentral/index.js]) *)

Module WeebCentral.
Import Host.

Definition BASE_URL : string := "https://weebcentral.com".
Definition PROXY_BASE_URL : string := "http://localhost:8080/api/proxy/resource".

Definition constructProxyUrl (imageUrl : string) (options : ProxyOptions) : string :=
  let params :=
    ["url=" +:+ Js.encodeURIComponent imageUrl]
    ++ (if Js.nonempty (referer options)
        then ["referer=" +:+ Js.encodeURIComponent (referer options)] else [])
    ++ (if Js.nonempty (userAgent options)
        then ["user-agent=" +:+ Js.encodeURIComponent (userAgent options)] else [])
    ++ (if Js.nonempty (origin options)
        then ["origin=" +:+ Js.encodeURIComponent (origin options)] else []) in
  PROXY_BASE_URL +:+ "?" +:+ Js.join "&" params.

(** [/^0+/] *)
Definition leadingZeros : Regex.regex :=
  Regex.Seq Regex.Bol (Regex.Plus (Ascii.eqb "0")).

Definition cleanChapterNumber (chapterStr : string) : string :=
  let cleaned := Regex.replace leadingZeros "" chapterStr in
  if String.eqb cleaned "" then "0" else cleaned.

(** [/\/series\/([^\/]+)/] *)
Definition seriesRegex : Regex.regex :=
  Regex.Seq (Regex.lit "/series/")
            (Regex.Group 1 (Regex.Plus (Regex.not_char "/"))).

(** [/(\d+(?:\.\d+)?)/] *)
Definition chapterRegex : Regex.regex :=
  Regex.Group 1
    (Regex.Seq (Regex.Plus Regex.digit)
       (Regex.Opt (Regex.Seq (Regex.char ".") (Regex.Plus Regex.digit)))).

(** The body of the loop over the search links: the entry a link yields, if
    it yields one. *)
Definition searchEntry (link : Dom.element) : option SearchResult :=
  let href := Js.opt_str (Dom.getAttribute "href" link) in
  if negb (Js.nonempty href) then None
  else
    let title0 :=
      match Dom.querySelector ".flex-1" link with
      | Some titleElement => Js.trim (Dom.textContent titleElement)
      | None => ""
      end in
    let title1 :=
      if Js.nonempty title0 then title0 else Js.trim (Dom.textContent link) in
    let title2 :=
      if Js.nonempty title1 then title1
      else match Dom.querySelector "span, div" link with
           | Some titleSpan => Js.trim (Dom.textContent titleSpan)
           | None => ""
           end in
    let image0 :=
      match Dom.querySelector "source" link with
      | Some source =>
          let image :=
            Js.str_or (Js.opt_str (Dom.getAttribute "srcset" source))
                      (Js.opt_str (Dom.getAttribute "src" source)) in
          if Js.includes "," image
          then default "" (head (Js.split " "
                 (Js.trim (default "" (head (Js.split "," image))))))
          else image
      | None => ""
      end in
    let image1 :=
      if Js.nonempty image0 then image0
      else match Dom.querySelector "img" link with
           | Some img =>
               Js.str_or (Js.opt_str (Dom.getAttribute "src" img))
                         (Js.opt_str (Dom.getAttribute "data-src" img))
           | None => ""
           end in
    let idPart :=
      match Js.split "/series/" href with
      | _ :: part :: _ => default "" (head (Js.split "/" part))
      | _ =>
          match Regex.exec seriesRegex href with
          | Some m => Js.opt_str (Regex.group 1 (Regex.groups m))
          | None => ""
          end
      end in
    if Js.nonempty idPart && Js.nonempty title2 then
      Some {| title := Js.str_or title2 "Untitled";
              cover_url := image1;
              identifier := idPart |}
    else None.

(** The links the search fragment is read from: the first of the three
    selectors that yields any. *)
Definition searchLinks (doc : Dom.element) : list Dom.element :=
  let links := Dom.querySelectorAll "#quick-search-result > div > a" doc in
  let links1 :=
    match links with
    | [] => Dom.querySelectorAll "#quick-search-result a" doc
    | _ => links
    end in
  match links1 with
  | [] => Dom.querySelectorAll ".search-result a, [data-series-id]" doc
  | _ => links1
  end.

Definition searchHeaders : list (string * string) :=
  [("Content-Type", "application/x-www-form-urlencoded");
   ("HX-Request", "true");
   ("HX-Trigger", "quick-search-input");
   ("HX-Trigger-Name", "text");
   ("HX-Target", "quick-search-result");
   ("HX-Current-URL", BASE_URL +:+ "/");
   ("Referer", BASE_URL +:+ "/");
   ("Origin", BASE_URL)].

(** [exports.search].  The body is a string here, so the branch that
    coerces another kind of body to a string is not taken; the [catch]
    block logs and rethrows. *)
Definition search (mango : Mango string) (query : string) : M (list SearchResult) :=
  let searchURL := BASE_URL +:+ "/search/simple?location=main" in
  let formData := "text=" +:+ Js.encodeURIComponent query in
  response <- http_post mango searchURL formData searchHeaders ;;
  if negb (status response =? 200) then
    throw (Error ("Search failed: " +:+ statusText response))
  else
    let html := data response in
    if negb (Js.nonempty html) || (String.length (Js.trim html) =? 0)%nat then ret []
    else
      match parseHTML mango with
      | None => throw (Error "parseHTML not available in mango.utils")
      | Some parse =>
          match parse html with
          | None => throw (Error "Failed to parse HTML response")
          | Some doc => ret (omap searchEntry (searchLinks doc))
          end
      end.

(** The chapter DTO this adapter builds. *)
Record Chapter : Type := {
  identifier : string;
  title : string;
  chapter : string;
  published_at : string
}.

(** The body of the loop over the chapter rows. *)
Definition chapterEntry (item : Dom.element) : option Chapter :=
  match Dom.querySelector "a" item with
  | None => None
  | Some a =>
      let chapterLink := Js.opt_str (Dom.getAttribute "href" a) in
      if negb (Js.nonempty chapterLink) then None
      else
        let chapterTitle :=
          match Dom.querySelector "span.grow > span" a with
          | Some titleSpan =>
              if Js.nonempty (Dom.textContent titleSpan)
              then Js.trim (Dom.textContent titleSpan) else ""
          | None => ""
          end in
        let chapterNumber :=
          match Regex.exec chapterRegex chapterTitle with
          | Some m =>
              let m1 := Js.opt_str (Regex.group 1 (Regex.groups m)) in
              if Js.nonempty m1 then cleanChapterNumber m1 else ""
          | None => ""
          end in
        let chapterId :=
          match Js.split "/chapters/" chapterLink with
          | _ :: part :: _ => part
          | _ => ""
          end in
        let publishedAt :=
          match Dom.querySelector "time" item with
          | Some timeTag => Js.opt_str (Dom.getAttribute "datetime" timeTag)
          | None => ""
          end in
        if Js.nonempty chapterId then
          Some {| identifier := chapterId;
                  title := chapterTitle;
                  chapter := chapterNumber;
                  published_at := publishedAt |}
        else None
  end.

(** The rows scraped from the chapter list, in document order. *)
Definition scrapeChapters (doc : Dom.element) : list Chapter :=
  omap chapterEntry (Dom.querySelectorAll "div.flex.items-center" doc).

(** The comparator handed to [sort]. *)
Definition byChapter (a b : Chapter) : float :=
  (Number.or_zero (Number.parseFloat (chapter a))
   - Number.or_zero (Number.parseFloat (chapter b)))%float.

Definition chapterHeaders (seriesIdentifier : string) : list (string * string) :=
  [("HX-Request", "true");
   ("HX-Target", "chapter-list");
   ("HX-Current-URL", BASE_URL +:+ "/series/" +:+ seriesIdentifier);
   ("Referer", BASE_URL +:+ "/series/" +:+ seriesIdentifier)].

(** [exports.getChapters] *)
Definition getChapters (mango : Mango string) (seriesIdentifier : string)
  : M (list Chapter) :=
  let chapterURL :=
    BASE_URL +:+ "/series/" +:+ seriesIdentifier +:+ "/full-chapter-list" in
  response <- http_get mango chapterURL (chapterHeaders seriesIdentifier) None ;;
  if negb (status response =? 200) then
    throw (Error ("Failed to fetch chapters: " +:+ statusText response))
  else
    let html := data response in
    match parseHTML mango with
    | None => throw (Error "parseHTML not available in mango.utils")
    | Some parse =>
        match parse html with
        | None => throw (TypeError "Cannot read properties of null (reading 'querySelectorAll')")
        | Some doc =>
            let chapters := scrapeChapters doc in
            if (length chapters =? 0)%nat then throw (Error "No chapters found")
            else ret (Number.sort byChapter (reverse chapters))
        end
    end.

Definition USER_AGENT : string :=
  "Mozilla/5.0 (Windows NT 10.0; Win64; x64) AppleWebKit/537.36 (KHTML, like Gecko) Chrome/120.0.0.0 Safari/537.36".

(** The body of the loop over the images: the proxied URL of an image that
    has a non-blank [src]. *)
Definition pageEntry (rt : Runtime) (chapterIdentifier : string) (img : Dom.element)
  : option string :=
  let src := Js.opt_str (Dom.getAttribute "src" img) in
  if Js.nonempty src && negb (String.eqb (Js.trim src) "") then
    let '(imageOrigin, imageReferer) :=
      match url_origin rt src with
      | Some o => (o, o +:+ "/")
      | None => (BASE_URL, BASE_URL +:+ "/chapters/" +:+ chapterIdentifier)
      end in
    Some (constructProxyUrl src
            {| referer := imageReferer;
               userAgent := USER_AGENT;
               origin := imageOrigin |})
  else None.

(** The page URLs resolved from the image list page. *)
Definition scrapePages (rt : Runtime) (chapterIdentifier : string) (doc : Dom.element)
  : list string :=
  let images :=
    match Dom.querySelectorAll "section.flex-1 img" doc with
    | [] => Dom.querySelectorAll "img" doc
    | imgs => imgs
    end in
  omap (pageEntry rt chapterIdentifier) images.

Definition pageHeaders (chapterIdentifier : string) : list (string * string) :=
  [("HX-Request", "true");
   ("HX-Current-URL", BASE_URL +:+ "/chapters/" +:+ chapterIdentifier);
   ("Referer", BASE_URL +:+ "/chapters/" +:+ chapterIdentifier)].

(** [exports.getPageURLs] *)
Definition getPageURLs (mango : Mango string) (rt : Runtime)
  (chapterIdentifier : string) : M (list string) :=
  let pageURL :=
    BASE_URL +:+ "/chapters/" +:+ chapterIdentifier
    +:+ "/images?is_prev=False&reading_style=long_strip" in
  response <- http_get mango pageURL (pageHeaders chapterIdentifier) None ;;
  if negb (status response =? 200) then
    throw (Error ("Failed to fetch page URLs: " +:+ statusText response))
  else
    let html := data response in
    match parseHTML mango with
    | None => throw (Error "parseHTML not available in mango.utils")
    | Some parse =>
        match parse html with
        | None => throw (TypeError "Cannot read properties of null (reading 'querySelectorAll')")
        | Some doc =>
            let pages := scrapePages rt chapterIdentifier doc in
            if (length pages =? 0)%nat then throw (Error "No pages found")
            else ret pages
        end
    end.

End WeebCentral.

(** ** WeebCentral, the revision without the image proxy

    The earlier revision of [weebcentral/index.js] differs from the later
    one in [getPageURLs] only: it returns the [src] of an image as it is. *)

Module WeebCentralDirect.
Import Host.

(** The body of the loop over the images. *)
Definition pageEntry (img : Dom.element) : option string :=
  let src := Js.opt_str (Dom.getAttribute "src" img) in
  if Js.nonempty src && negb (String.eqb (Js.trim src) "") then Some src else None.

Definition scrapePages (doc : Dom.element) : list string :=
  let images :=
    match Dom.querySelectorAll "section.flex-1 img" doc with
    | [] => Dom.querySelectorAll "img" doc
    | imgs => imgs
    end in
  omap pageEntry images.

(** [exports.getPageURLs] *)
Definition getPageURLs (mango : Mango string) (chapterIdentifier : string)
  : M (list string) :=
  let pageURL :=
    WeebCentral.BASE_URL +:+ "/chapters/" +:+ chapterIdentifier
    +:+ "/images?is_prev=False&reading_style=long_strip" in
  response <- http_get mango pageURL (WeebCentral.pageHeaders chapterIdentifier) None ;;
  if negb (status response =? 200) then
    throw (Error ("Failed to fetch page URLs: " +:+ statusText response))
  else
    let html := data response in
    match parseHTML mango with
    | None => throw (Error "parseHTML not available in mango.utils")
    | Some parse =>
        match parse html with
        | None => throw (TypeError "Cannot read properties of null (reading 'querySelectorAll')")
        | Some doc =>
            let pages := scrapePages doc in
            if (length pages =? 0)%nat then throw (Error "No pages found")
            else ret pages
        end
    end.

End WeebCentralDirect.

(** ** Webtoons ([webtoons/index.js]) *)

Module Webtoons.
Import Host.

Definition BASE_URL : string := "https://www.webtoons.com".
Definition MOBILE_URL : string := "https://m.webtoons.com".
Definition SEARCH_URL : string :=
  "https://www.webtoons.com/en/search/immediate?keyword=".
Definition SEARCH_PARAMS : string := "&q_enc=UTF-8&st=1&r_format=json&r_enc=UTF-8".
Definition THUMBNAIL_URL : string := "https://webtoon-phinf.pstatic.net".
Definition PROXY_BASE_URL : string := "http://localhost:8080/api/proxy/resource".

Definition constructProxyUrl (imageUrl : string) (options : ProxyOptions) : string :=
  let params :=
    ["url=" +:+ Js.encodeURIComponent imageUrl]
    ++ (if Js.nonempty (referer options)
        then ["referer=" +:+ Js.encodeURIComponent (referer options)] else [])
    ++ (if Js.nonempty (userAgent options)
        then ["user-agent=" +:+ Js.encodeURIComponent (userAgent options)] else [])
    ++ (if Js.nonempty (origin options)
        then ["origin=" +:+ Js.encodeURIComponent (origin options)] else []) in
  PROXY_BASE_URL +:+ "?" +:+ Js.join "&" params.

(** [{ referer: BASE_URL + "/" }] *)
Definition refererOnly : ProxyOptions :=
  {| referer := BASE_URL +:+ "/"; userAgent := ""; origin := "" |}.

(** *** search *)

Record SearchItem : Type := {
  titleNo : option Z;
  item_title : option string;
  thumbnailImage2 : option string;
  thumbnailMobile : option string
}.

Record SearchList : Type := {
  total : option Z;
  searchedList : option (list SearchItem)
}.

(** [response.data] of the search endpoint. *)
Record SearchData : Type := { result : option SearchList }.

(** The cover URL built from the thumbnail of an item, before proxying. *)
Definition coverUrlOf (item : SearchItem) : string :=
  let thumbnail :=
    Js.str_or (Js.opt_str (thumbnailImage2 item)) (Js.opt_str (thumbnailMobile item)) in
  if Js.nonempty thumbnail then
    if Js.startsWith "http://" thumbnail || Js.startsWith "https://" thumbnail
    then thumbnail
    else THUMBNAIL_URL +:+
         (if Js.startsWith "/" thumbnail then thumbnail else "/" +:+ thumbnail)
  else "".

(** Whether the adapter routes a cover URL through the proxy. *)
Definition proxied (coverUrl : string) : bool :=
  Js.nonempty coverUrl && Js.includes "webtoon-phinf.pstatic.net" coverUrl.

Definition finalCoverUrlOf (coverUrl : string) : string :=
  if proxied coverUrl
  then Js.replace_first "http://localhost:8080" ""
         (constructProxyUrl coverUrl refererOnly)
  else coverUrl.

(** The [filter] and the [map] of [search] on one item. *)
Definition searchEntry (item : SearchItem) : option SearchResult :=
  match titleNo item with
  | None => None
  | Some n =>
      Some {| title := Js.str_or (Js.opt_str (item_title item)) "Untitled";
              cover_url := finalCoverUrlOf (coverUrlOf item);
              identifier := Js.string_of_Z n |}
  end.

(** [exports.search] *)
Definition search (mango : Mango SearchData) (query : string) : M (list SearchResult) :=
  try_catch
    (let searchUrl := SEARCH_URL +:+ Js.encodeURIComponent query +:+ SEARCH_PARAMS in
     response <- http_get mango searchUrl [("Referer", BASE_URL +:+ "/")] None ;;
     if negb (status response =? 200) then
       throw (Error ("Search failed: " +:+ statusText response))
     else
       match result (data response) with
       | None => ret []
       | Some res =>
           if bool_decide (total res = Some 0) then ret []
           else ret (omap searchEntry (default [] (searchedList res)))
       end)
    (fun error => throw (Error ("Failed to search: " +:+ message error))).

(** *** getChapters *)

Record Episode : Type := {
  episodeNo : option Z;
  episodeTitle : option string;
  viewerLink : Js.nullable string;
  exposureDateMillis : option Z
}.

Record EpisodePage : Type := {
  episodeList : option (list Episode);
  nextCursor : option Z
}.

(** [response.data] of the episodes endpoint. *)
Record EpisodesData : Type := {
  success : bool;
  ep_result : option EpisodePage
}.

Record Chapter : Type := {
  identifier : string;
  title : string;
  volume : string;
  chapter : string;
  pages : Z;
  language : string;
  group_id : string;
  published_at : string
}.

(** The chapter identifier:
    [`id${seriesId}viewerLink${viewerLink}chNum${episodeNo}`.replace(/-/g, "_")] *)
Definition encodeChapterId (seriesId viewerLink episodeNo : string) : string :=
  Js.replace_all_char "-" "_"
    ("id" +:+ seriesId +:+ "viewerLink" +:+ viewerLink +:+ "chNum" +:+ episodeNo).

(** [/id(\d+)viewerLink(.+)chNum(.+)/] *)
Definition chapterIdRegex : Regex.regex :=
  Regex.seq [Regex.lit "id"; Regex.Group 1 (Regex.Plus Regex.digit);
             Regex.lit "viewerLink"; Regex.Group 2 (Regex.PlusAt Regex.dot);
             Regex.lit "chNum"; Regex.Group 3 (Regex.PlusAt Regex.dot)].

(** [chapterId.match(...)] and the three groups of the match. *)
Definition decodeChapterId (chapterId : string) : option (string * string * string) :=
  match Regex.exec chapterIdRegex chapterId with
  | None => None
  | Some idMatch =>
      let g i := Js.opt_str (Regex.group i (Regex.groups idMatch)) in
      Some (g 1%nat, g 2%nat, g 3%nat)
  end.

(** The [map] of [getChapters] on one episode. *)
Definition toChapter (rt : Runtime) (seriesId : string) (episode : Episode) : Chapter :=
  let episodeNo :=
    match episodeNo episode with
    | Some n => if n =? 0 then "0" else Js.string_of_Z n
    | None => "0"
    end in
  let title :=
    Js.str_or (Js.opt_str (episodeTitle episode)) ("Episode " +:+ episodeNo) in
  let publishedAt :=
    match exposureDateMillis episode with
    | Some ms =>
        if ms =? 0 then date_now rt
        else default (date_now rt) (date_of_millis rt ms)
    | None => date_now rt
    end in
  {| identifier :=
       encodeChapterId seriesId (Js.template (viewerLink episode)) episodeNo;
     title := Js.trim title;
     volume := "";
     chapter := episodeNo;
     pages := 0;
     language := "en";
     group_id := "";
     published_at := publishedAt |}.

Definition byChapter (a b : Chapter) : float :=
  (Number.or_zero (Number.parseFloat (chapter a))
   - Number.or_zero (Number.parseFloat (chapter b)))%float.

(** The [do ... while (cursor !== null)] loop: one round per unit of fuel. *)
Fixpoint fetchEpisodes (fuel : nat) (mango : Mango (option EpisodesData))
  (seriesId : string) (cursor : Z) (allEpisodes : list Episode)
  : M (list Episode) :=
  match fuel with
  | O => out_of_fuel
  | S fuel' =>
      let episodesApiUrl :=
        MOBILE_URL +:+ "/api/v1/webtoon/" +:+ seriesId
        +:+ "/episodes?pageSize=" +:+ Js.string_of_Z 100
        +:+ "&cursor=" +:+ Js.string_of_Z cursor in
      episodesResponse <- http_get mango episodesApiUrl [] None ;;
      if negb (status episodesResponse =? 200) then
        throw (Error ("Episodes API returned status "
                      +:+ Js.string_of_Z (status episodesResponse) +:+ ": "
                      +:+ statusText episodesResponse))
      else
        match data episodesResponse with
        | None => throw (Error "Episodes API returned no data")
        | Some responseData =>
            if negb (success responseData) then
              throw (Error "Episodes API returned success=false")
            else
              match ep_result responseData with
              | None => throw (Error "Invalid API response structure")
              | Some page =>
                  match episodeList page with
                  | None => throw (Error "Invalid API response structure")
                  | Some episodes =>
                      let allEpisodes' := allEpisodes ++ episodes in
                      match nextCursor page with
                      | Some c =>
                          if c =? 0 then ret allEpisodes'
                          else fetchEpisodes fuel' mango seriesId c allEpisodes'
                      | None => ret allEpisodes'
                      end
                  end
              end
        end
  end.

(** [exports.getChapters] *)
Definition getChapters (fuel : nat) (mango : Mango (option EpisodesData))
  (rt : Runtime) (seriesId : string) : M (list Chapter) :=
  try_catch
    (allEpisodes <- fetchEpisodes fuel mango seriesId 0 [] ;;
     if (length allEpisodes =? 0)%nat then ret []
     else ret (Number.sort byChapter (map (toChapter rt seriesId) allEpisodes)))
    (fun error => throw (Error ("Failed to get chapters: " +:+ message error))).

(** *** getPageURLs *)

(** [/<div[^>]*id=[QUOTE]_imageList[QUOTE][^>]*>([\s\S]*?)<\/div>/i], where
    [QUOTE] is the class of the two quote characters. *)
Definition imageListDivRegex : Regex.regex :=
  Regex.seq [Regex.lit_i "<div"; Regex.Star (Regex.not_char ">");
             Regex.lit_i "id="; Regex.Chr Regex.quote;
             Regex.lit_i "_imageList"; Regex.Chr Regex.quote;
             Regex.Star (Regex.not_char ">"); Regex.char ">";
             Regex.Group 1 (Regex.LazyStar Regex.any);
             Regex.lit_i "</div>"].

(** [/<img[^>]+data-url=[QUOTE]([^QUOTE]+)[QUOTE]/gi] *)
Definition imageListRegex : Regex.regex :=
  Regex.seq [Regex.lit_i "<img"; Regex.Plus (Regex.not_char ">");
             Regex.lit_i "data-url="; Regex.Chr Regex.quote;
             Regex.Group 1 (Regex.Plus Regex.not_quote);
             Regex.Chr Regex.quote].

(** The [data-url] values found in the content of the image list. *)
Definition imageUrlsOf (imageListContent : string) : list string :=
  map (fun imgMatch => Js.opt_str (Regex.group 1 (Regex.groups imgMatch)))
      (Regex.exec_all imageListRegex imageListContent).

(** [exports.getPageURLs].  The body of the response is the text that
    [resp.text()] yields.  The function has no [catch] block. *)
Definition getPageURLs (mango : Mango string) (chapterId : string) : M (list string) :=
  match decodeChapterId chapterId with
  | None => throw (Error "Invalid chapter ID format")
  | Some (mangaID, viewerLink, _) =>
      let finalUrl :=
        if Js.startsWith "http://" viewerLink || Js.startsWith "https://" viewerLink
        then viewerLink
        else BASE_URL +:+
             (if Js.startsWith "/" viewerLink then viewerLink else "/" +:+ viewerLink) in
      resp <- http_get mango finalUrl [] None ;;
      if status resp =? 200 then
        let html := data resp in
        match Regex.exec imageListDivRegex html with
        | None => throw (Error "_imageList div not found in chapter viewer")
        | Some imageListDivMatch =>
            let imageListContent :=
              Js.opt_str (Regex.group 1 (Regex.groups imageListDivMatch)) in
            let imageUrls := imageUrlsOf imageListContent in
            if (length imageUrls =? 0)%nat then
              throw (Error "No images found in _imageList div")
            else
              ret (map (fun imageUrl => constructProxyUrl imageUrl refererOnly) imageUrls)
        end
      else
        throw (Error ("Failed to get chapter viewer: "
                      +:+ Js.string_of_Z (status resp) +:+ " " +:+ statusText resp))
  end.

End Webtoons.

(** ** MangaDex ([mangadex/index.js]) *)

Module MangaDex.
Import Host.

Definition API_BASE_URL : string := "https://api.mangadex.org".
Definition COVER_ART_BASE_URL : string := "https://uploads.mangadex.org".
Definition MANGA_DEX_BASE_URL : string := "https://mangadex.org".
Definition PROXY_BASE_URL : string := "http://localhost:8080/api/proxy/resource".

(** This adapter's copy of [constructProxyUrl] reads the [referer] of its
    options and no other field. *)
Definition constructProxyUrl (imageUrl : string) (options : Host.ProxyOptions) : string :=
  let params :=
    ["url=" +:+ Js.encodeURIComponent imageUrl]
    ++ (if Js.nonempty (Host.referer options)
        then ["referer=" +:+ Js.encodeURIComponent (Host.referer options)] else []) in
  PROXY_BASE_URL +:+ "?" +:+ Js.join "&" params.

(** [{ referer: `${MANGA_DEX_BASE_URL}/` }] *)
Definition mangadexReferer : Host.ProxyOptions :=
  {| Host.referer := MANGA_DEX_BASE_URL +:+ "/";
     Host.userAgent := ""; Host.origin := "" |}.

(** *** search *)

Record CoverAttributes : Type := {
  fileName : option string;
  file_name : option string
}.

(** An entry of [included] or of [relationships]. *)
Record Related : Type := {
  rel_type : string;
  rel_id : option string;
  rel_attributes : option CoverAttributes
}.

(** [attributes.title] maps a locale to the title in that locale; the pairs
    are in the order of [Object.keys]. *)
Record MangaAttributes : Type := {
  attr_title : option (list (string * string))
}.

Record MangaData : Type := {
  id : option string;
  attributes : option MangaAttributes;
  relationships : option (list Related)
}.

(** [response.data] of the search endpoint; an entry of [data] may be null. *)
Record SearchData : Type := {
  sd_data : option (list (option MangaData));
  included : option (list Related)
}.

(** [attributes?.fileName || attributes?.file_name || ""] *)
Definition coverFileOf (attrs : option CoverAttributes) : string :=
  match attrs with
  | Some a => Js.str_or (Js.opt_str (fileName a)) (Js.opt_str (file_name a))
  | None => ""
  end.

(** The loop that fills [coverArtMap] from [included]. *)
Definition coverArtMapOf (items : list Related) : gmap string string :=
  foldl (fun (m : gmap string string) item =>
           if String.eqb (rel_type item) "cover_art"
              && Js.nonempty (Js.opt_str (rel_id item))
           then
             let fileName := coverFileOf (rel_attributes item) in
             if Js.nonempty fileName
             then <[Js.opt_str (rel_id item) := fileName]> m
             else m
           else m)
        ∅ items.

(** The loop over the relationships of a manga, up to its [break]. *)
Fixpoint findCover (coverArtMap : gmap string string) (rels : list Related) : string :=
  match rels with
  | [] => ""
  | rel :: rest =>
      if String.eqb (rel_type rel) "cover_art" then
        let direct := coverFileOf (rel_attributes rel) in
        if Js.nonempty direct then direct
        else
          match rel_id rel with
          | Some i =>
              if Js.nonempty i then
                match coverArtMap !! i with
                | Some f => f
                | None => findCover coverArtMap rest
                end
              else findCover coverArtMap rest
          | None => findCover coverArtMap rest
          end
      else findCover coverArtMap rest
  end.

(** The title: English when there is one, else that of the first locale. *)
Definition titleOf (titles : list (string * string)) : string :=
  let en := Js.opt_str (Dom.assoc "en" titles) in
  if Js.nonempty en then en
  else match titles with
       | (_, t) :: _ => t
       | [] => ""
       end.

(** The [filter] and the [map] of [search] on one entry. *)
Definition searchEntry (coverArtMap : gmap string string)
  (entry : option MangaData) : option SearchResult :=
  match entry with
  | None => None
  | Some mangaData =>
      match attributes mangaData with
      | None => None
      | Some attrs =>
          match attr_title attrs with
          | None => None
          | Some titles =>
              let mangaId := Js.opt_str (id mangaData) in
              if negb (Js.nonempty mangaId) then None
              else
                let title := titleOf titles in
                let coverFileName :=
                  findCover coverArtMap (default [] (relationships mangaData)) in
                let coverURL :=
                  if Js.nonempty coverFileName && Js.nonempty mangaId then
                    let originalCoverURL :=
                      COVER_ART_BASE_URL +:+ "/covers/" +:+ mangaId +:+ "/"
                      +:+ coverFileName +:+ ".256.jpg" in
                    Js.replace_first "http://localhost:8080" ""
                      (constructProxyUrl originalCoverURL mangadexReferer)
                  else "" in
                Some {| title := Js.str_or title "Untitled";
                        cover_url := coverURL;
                        identifier := mangaId |}
          end
      end
  end.

(** [exports.search]; the [catch] block logs and rethrows. *)
Definition search (mango : Mango (option SearchData)) (query : string)
  : M (list SearchResult) :=
  let url :=
    API_BASE_URL +:+ "/manga?title=" +:+ Js.encodeURIComponent query
    +:+ "&limit=25&includes[]=cover_art" in
  response <- http_get mango url [] (Some (timeoutSec mango)) ;;
  if negb (status response =? 200) then
    throw (Error ("Search failed: " +:+ statusText response))
  else
    match data response with
    | None => ret []
    | Some apiResponse =>
        match sd_data apiResponse with
        | None | Some [] => ret []
        | Some entries =>
            let coverArtMap := coverArtMapOf (default [] (included apiResponse)) in
            ret (omap (searchEntry coverArtMap) entries)
        end
    end.

(** *** getChapters *)

Record ChapterAttributes : Type := {
  at_volume : option string;
  at_chapter : option string;
  at_title : option string;
  at_pages : option Z;
  translatedLanguage : option string;
  publishAt : option string
}.

Record ChapterData : Type := {
  cd_id : string;
  cd_attributes : ChapterAttributes
}.

(** [response.data] of the feed endpoint. *)
Record FeedData : Type := { fd_data : option (list ChapterData) }.

Record Chapter : Type := {
  identifier : string;
  title : string;
  volume : string;
  chapter : string;
  pages : Z;
  language : string;
  published_at : string
}.

Definition formatChapterTitle (attrs : ChapterAttributes) : string :=
  let parts :=
    (if Js.nonempty (Js.opt_str (at_volume attrs))
     then ["Vol. " +:+ Js.opt_str (at_volume attrs)] else [])
    ++ (if Js.nonempty (Js.opt_str (at_chapter attrs))
        then ["Ch. " +:+ Js.opt_str (at_chapter attrs)] else [])
    ++ (if Js.nonempty (Js.opt_str (at_title attrs))
        then [Js.opt_str (at_title attrs)] else []) in
  Js.join " " parts.

(** The object pushed for one entry of a page; [toISOString] throws a
    [RangeError] on an invalid date. *)
Definition toChapter (rt : Runtime) (chapterData : ChapterData) : exn + Chapter :=
  let attrs := cd_attributes chapterData in
  let published :=
    let p := Js.opt_str (publishAt attrs) in
    if Js.nonempty p then
      match date_of_string rt p with
      | Some iso => inr iso
      | None => inl (RangeError "Invalid time value")
      end
    else inr "" in
  match published with
  | inl e => inl e
  | inr publishedAt =>
      inr {| identifier := cd_id chapterData;
             title := formatChapterTitle attrs;
             volume := Js.opt_str (at_volume attrs);
             chapter := Js.opt_str (at_chapter attrs);
             pages := default 0 (at_pages attrs);
             language := Js.opt_str (translatedLanguage attrs);
             published_at := publishedAt |}
  end.

(** The [for ... of] loop that pushes the entries of a page. *)
Fixpoint pushAll (rt : Runtime) (entries : list ChapterData) (allChapters : list Chapter)
  : M (list Chapter) :=
  match entries with
  | [] => ret allChapters
  | chapterData :: rest =>
      match toChapter rt chapterData with
      | inl e => throw e
      | inr c => pushAll rt rest (allChapters ++ [c])
      end
  end.

Definition limit : Z := 500.

(** The [while (true)] loop: one round per unit of fuel. *)
Fixpoint fetchChapters (fuel : nat) (mango : Mango FeedData) (rt : Runtime)
  (seriesIdentifier : string) (offset : Z) (allChapters : list Chapter)
  : M (list Chapter) :=
  match fuel with
  | O => out_of_fuel
  | S fuel' =>
      let url :=
        API_BASE_URL +:+ "/manga/" +:+ seriesIdentifier
        +:+ "/feed?limit=" +:+ Js.string_of_Z limit
        +:+ "&offset=" +:+ Js.string_of_Z offset
        +:+ "&order[volume]=desc&order[chapter]=desc&translatedLanguage[]=en" in
      response <- http_get mango url [] (Some (timeoutSec mango)) ;;
      if negb (status response =? 200) then
        throw (Error ("Failed to fetch chapters: " +:+ statusText response))
      else
        match fd_data (data response) with
        | None | Some [] => ret allChapters
        | Some entries =>
            allChapters' <- pushAll rt entries allChapters ;;
            if Z.of_nat (length entries) <? limit then ret allChapters'
            else fetchChapters fuel' mango rt seriesIdentifier (offset + limit) allChapters'
        end
  end.

(** [exports.getChapters]; the [catch] block logs and rethrows. *)
Definition getChapters (fuel : nat) (mango : Mango FeedData) (rt : Runtime)
  (seriesIdentifier : string) : M (list Chapter) :=
  allChapters <- fetchChapters fuel mango rt seriesIdentifier 0 [] ;;
  ret (reverse allChapters).

(** *** getPageURLs *)

Record AtHomeChapter : Type := {
  hash : string;
  ah_data : option (list string)
}.

(** [response.data] of the at-home endpoint. *)
Record AtHome : Type := {
  baseUrl : string;
  ah_chapter : AtHomeChapter
}.

(** [exports.getPageURLs]; the [catch] block logs and rethrows. *)
Definition getPageURLs (mango : Mango AtHome) (chapterIdentifier : string)
  : M (list string) :=
  let url := API_BASE_URL +:+ "/at-home/server/" +:+ chapterIdentifier in
  response <- http_get mango url [] (Some (timeoutSec mango)) ;;
  if negb (status response =? 200) then
    throw (Error ("Failed to fetch page URLs: " +:+ statusText response))
  else
    let apiResponse := data response in
    let baseURL := baseUrl apiResponse in
    let hash := hash (ah_chapter apiResponse) in
    let pageFiles := default [] (ah_data (ah_chapter apiResponse)) in
    ret (map (fun pageFile =>
                constructProxyUrl (baseURL +:+ "/data/" +:+ hash +:+ "/" +:+ pageFile)
                  mangadexReferer)
             pageFiles).

End MangaDex.

(** * Statements

    The notions in which the properties are stated: ranks and orders,
    the requests of each call, the guarantees of a source, and the hosts and
    responses that the examples use. *)

(** ** The rank of a binary64 number *)

Module FloatRank.

(** The rank of a number that is not [NaN]: a finite number in units of
    [2 ^ emin], and the infinities beyond every finite number. *)
Definition rank (x : spec_float) : Z :=
  match x with
  | S754_zero _ => 0
  | S754_nan => 0
  | S754_infinity s => cond_Zopp s (2 ^ (emax - emin))
  | S754_finite s m e => cond_Zopp s (Zpos m * 2 ^ (e - emin))
  end.

(** The magnitude of the finite number of mantissa [m] and exponent [e], in
    units of [2 ^ emin]. *)
Definition mag (m : positive) (e : Z) : Z := Zpos m * 2 ^ (e - emin).

(** The rank of a primitive float. *)
Definition frank (x : float) : Z := rank (Prim2SF x).

End FloatRank.

(** ** Orders and strings *)

(** Ascending order of an integer rank. *)
Definition rank_le {A : Type} (rk : A -> Z) (a b : A) : Prop := rk a <= rk b.

(** The length of the longest prefix in the class. *)
Fixpoint run_length (p : ascii -> bool) (s : string) : nat :=
  match s with
  | String a s' => if p a then S (run_length p s') else O
  | EmptyString => O
  end.

(** Following the specification: the input without its leading ['0']
    characters. *)
Fixpoint stripLeadingZeros (s : string) : string :=
  match s with
  | String a s' => if Ascii.eqb "0" a then stripLeadingZeros s' else s
  | EmptyString => EmptyString
  end.

(** The query parameter an option contributes: [&name=value], with the
    value percent-encoded, when the option is not empty. *)
Definition proxyParam (name value : string) : string :=
  if Js.nonempty value
  then "&" +:+ name +:+ "=" +:+ Js.encodeURIComponent value
  else "".

(** The substitution the encoder applies: every [-] becomes [_]. *)
Definition underscored (s : string) : string := Js.replace_all_char "-" "_" s.

(** A string without [-]. *)
Definition hyphen_free (s : string) : Prop :=
  Js.all_chars (fun c => negb (Ascii.eqb c "-")) s = true.

(** A string that holds no line terminator. *)
Fixpoint no_line_terminator (s : string) : bool :=
  match s with
  | String _ r => negb (Js.line_terminator_at s) && no_line_terminator r
  | EmptyString => true
  end.

(** A string that does not begin in the middle of a code point: it is empty
    or begins with a character of one byte. *)
Definition begins_plain (s : string) : Prop :=
  match s with
  | String a _ => (nat_of_ascii a < 128)%nat
  | EmptyString => True
  end.

(** U+2028, the line separator, as its bytes. *)
Definition lineSeparator : string :=
  String (Js.chr 226) (String (Js.chr 128) (String (Js.chr 168) "")).

(** ** Requests, hosts and responses *)

(** A host without network, used to exercise the calls that issue no
    request. *)
Definition offline : Host.Mango string :=
  {| Host.http := fun _ _ => inl (Host.Error "offline");
     Host.config_timeout := None;
     Host.parseHTML := None |}.

(** The request of the WeebCentral [getPageURLs]. *)
Definition weebcentralPageRequest (chapterIdentifier : string) : Host.request :=
  Host.Request Host.GET
    (WeebCentral.BASE_URL +:+ "/chapters/" +:+ chapterIdentifier
     +:+ "/images?is_prev=False&reading_style=long_strip")
    None (WeebCentral.pageHeaders chapterIdentifier) None.

(** The request of the MangaDex [getPageURLs]. *)
Definition mangadexPageRequest (mango : Host.Mango MangaDex.AtHome)
  (chapterIdentifier : string) : Host.request :=
  Host.Request Host.GET
    (MangaDex.API_BASE_URL +:+ "/at-home/server/" +:+ chapterIdentifier)
    None [] (Some (Host.timeoutSec mango)).

(** The request of the Webtoons [getPageURLs] for a decoded viewer link. *)
Definition webtoonsViewerRequest (viewerLink : string) : Host.request :=
  Host.Request Host.GET
    (if Js.startsWith "http://" viewerLink || Js.startsWith "https://" viewerLink
     then viewerLink
     else Webtoons.BASE_URL +:+
          (if Js.startsWith "/" viewerLink then viewerLink else "/" +:+ viewerLink))
    None [] None.

(** A host that answers every request with the success response [html],
    parsed into a document that selects nothing. *)
Definition noPagesHtmlHost (html : string) : Host.Mango string :=
  {| Host.http := fun _ _ => inr (Host.Response 200 "OK" html);
     Host.config_timeout := None;
     Host.parseHTML := Some (fun _ => Some (Dom.Element [] "" [])) |}.

(** An at-home server that answers every request with an empty list of
    page files. *)
Definition noPagesAtHome : Host.Mango MangaDex.AtHome :=
  {| Host.http := fun _ _ =>
       inr (Host.Response 200 "OK"
              {| MangaDex.baseUrl := "https://s2.mangadex.org";
                 MangaDex.ah_chapter :=
                   {| MangaDex.hash := "abc123"; MangaDex.ah_data := Some [] |} |});
     Host.config_timeout := None;
     Host.parseHTML := None |}.

(** A runtime whose dates and URL origins are fixed. *)
Definition fixedRuntime : Host.Runtime :=
  {| Host.url_origin := fun _ => None;
     Host.date_now := "2024-01-01T00:00:00.000Z";
     Host.date_of_millis := fun _ => Some "2024-01-01T00:00:00.000Z";
     Host.date_of_string := fun s => Some s |}.

(** The request of the WeebCentral [getChapters]. *)
Definition weebcentralChaptersRequest (seriesIdentifier : string) : Host.request :=
  Host.Request Host.GET
    (WeebCentral.BASE_URL +:+ "/series/" +:+ seriesIdentifier +:+ "/full-chapter-list")
    None (WeebCentral.chapterHeaders seriesIdentifier) None.

(** An episodes endpoint whose only page is empty and last. *)
Definition noEpisodes : Host.Mango (option Webtoons.EpisodesData) :=
  {| Host.http := fun _ _ =>
       inr (Host.Response 200 "OK"
              (Some {| Webtoons.success := true;
                       Webtoons.ep_result :=
                         Some {| Webtoons.episodeList := Some [];
                                 Webtoons.nextCursor := None |} |}));
     Host.config_timeout := None;
     Host.parseHTML := None |}.

(** A feed whose only page is empty. *)
Definition noFeed : Host.Mango MangaDex.FeedData :=
  {| Host.http := fun _ _ =>
       inr (Host.Response 200 "OK" {| MangaDex.fd_data := Some [] |});
     Host.config_timeout := None;
     Host.parseHTML := None |}.

(** The request of the WeebCentral [search]. *)
Definition weebcentralSearchRequest (query : string) : Host.request :=
  Host.Request Host.POST (WeebCentral.BASE_URL +:+ "/search/simple?location=main")
    (Some ("text=" +:+ Js.encodeURIComponent query)) WeebCentral.searchHeaders None.

(** The request of the Webtoons [search]. *)
Definition webtoonsSearchRequest (query : string) : Host.request :=
  Host.Request Host.GET
    (Webtoons.SEARCH_URL +:+ Js.encodeURIComponent query +:+ Webtoons.SEARCH_PARAMS)
    None [("Referer", Webtoons.BASE_URL +:+ "/")] None.

(** The request of the MangaDex [search]. *)
Definition mangadexSearchRequest (mango : Host.Mango (option MangaDex.SearchData))
  (query : string) : Host.request :=
  Host.Request Host.GET
    (MangaDex.API_BASE_URL +:+ "/manga?title=" +:+ Js.encodeURIComponent query
     +:+ "&limit=25&includes[]=cover_art")
    None [] (Some (Host.timeoutSec mango)).

(** The title that the WeebCentral [search] reads from a link: the first
    that is not empty of the trimmed texts of its [.flex-1] element, of the
    link itself and of its first [span] or [div]. *)
Definition linkTitle (link : Dom.element) : string :=
  let text selector :=
    match Dom.querySelector selector link with
    | Some element => Js.trim (Dom.textContent element)
    | None => ""
    end in
  Js.str_or (text ".flex-1")
    (Js.str_or (Js.trim (Dom.textContent link)) (text "span, div")).

(** The identifier that it reads from the [href] of a link: what stands
    between the first [/series/] and the next [/]. *)
Definition linkId (link : Dom.element) : string :=
  let href := Js.opt_str (Dom.getAttribute "href" link) in
  match Js.split "/series/" href with
  | _ :: part :: _ => default "" (head (Js.split "/" part))
  | _ =>
      match Regex.exec WeebCentral.seriesRegex href with
      | Some m => Js.opt_str (Regex.group 1 (Regex.groups m))
      | None => ""
      end
  end.

(** An anchor of a search fragment, with the text of its [.flex-1]
    element. *)
Definition anchor (href title : string) : Dom.element :=
  Dom.Element [("href", href)] "" [(".flex-1", [Dom.Element [] title []])].

(** A WeebCentral search fragment with four anchors: one to
    [/series/abc-1/] titled "Foo", one to [/series/xyz-2/] whose title is
    blank, one to [/invalid-link] titled "Bar", and one to [/about] without
    any text. *)
Definition fourAnchors : Dom.element :=
  Dom.Element [] ""
    [("#quick-search-result > div > a",
      [anchor "/series/abc-1/" "Foo";
       anchor "/series/xyz-2/" "  ";
       anchor "/invalid-link" "Bar";
       Dom.Element [("href", "/about")] "" []])].

(** A host whose search fragment parses into [fourAnchors]. *)
Definition fourAnchorsHost : Host.Mango string :=
  {| Host.http := fun _ _ => inr (Host.Response 200 "OK" "<div>results</div>");
     Host.config_timeout := None;
     Host.parseHTML := Some (fun _ => Some fourAnchors) |}.

(** A Webtoons search item that has a [titleNo] and no title. *)
Definition untitledItem : Webtoons.SearchItem :=
  {| Webtoons.titleNo := Some 6795;
     Webtoons.item_title := None;
     Webtoons.thumbnailImage2 := None;
     Webtoons.thumbnailMobile := None |}.

(** A search endpoint whose only item is [untitledItem]. *)
Definition untitledHost : Host.Mango Webtoons.SearchData :=
  {| Host.http := fun _ _ =>
       inr (Host.Response 200 "OK"
              {| Webtoons.result :=
                   Some {| Webtoons.total := Some 1;
                           Webtoons.searchedList := Some [untitledItem] |} |});
     Host.config_timeout := None;
     Host.parseHTML := None |}.

(** A search endpoint whose only item has its thumbnail on another host
    than the thumbnail host of the site. *)
Definition foreignCoverHost : Host.Mango Webtoons.SearchData :=
  {| Host.http := fun _ _ =>
       inr (Host.Response 200 "OK"
              {| Webtoons.result :=
                   Some {| Webtoons.total := Some 1;
                           Webtoons.searchedList :=
                             Some [{| Webtoons.titleNo := Some 6795;
                                      Webtoons.item_title := Some "unOrdinary";
                                      Webtoons.thumbnailImage2 :=
                                        Some "https://cdn.example.com/thumb.jpg";
                                      Webtoons.thumbnailMobile := None |}] |} |});
     Host.config_timeout := None;
     Host.parseHTML := None |}.

(** A MangaDex search response with a manga whose cover is found through
    [included], and an entry without attributes. *)
Definition coverResponse : MangaDex.SearchData :=
  {| MangaDex.sd_data :=
       Some [Some {| MangaDex.id := Some "manga-1";
                     MangaDex.attributes :=
                       Some {| MangaDex.attr_title := Some [("ja", "Ore"); ("en", "Solo")] |};
                     MangaDex.relationships :=
                       Some [{| MangaDex.rel_type := "author";
                                MangaDex.rel_id := Some "a1";
                                MangaDex.rel_attributes := None |};
                             {| MangaDex.rel_type := "cover_art";
                                MangaDex.rel_id := Some "c1";
                                MangaDex.rel_attributes := None |}] |};
             Some {| MangaDex.id := Some "manga-2";
                     MangaDex.attributes := None;
                     MangaDex.relationships := None |}];
     MangaDex.included :=
       Some [{| MangaDex.rel_type := "cover_art";
                MangaDex.rel_id := Some "c1";
                MangaDex.rel_attributes :=
                  Some {| MangaDex.fileName := Some "cover.jpg";
                          MangaDex.file_name := None |} |}] |}.

(** A search endpoint that answers with [coverResponse]. *)
Definition coverHost : Host.Mango (option MangaDex.SearchData) :=
  {| Host.http := fun _ _ => inr (Host.Response 200 "OK" (Some coverResponse));
     Host.config_timeout := None;
     Host.parseHTML := None |}.

(** A Webtoons search response with a relative thumbnail path. *)
Definition thumbnailHost : Host.Mango Webtoons.SearchData :=
  {| Host.http := fun _ _ =>
       inr (Host.Response 200 "OK"
              {| Webtoons.result :=
                   Some {| Webtoons.total := Some 1;
                           Webtoons.searchedList :=
                             Some [{| Webtoons.titleNo := Some 6795;
                                      Webtoons.item_title := Some "unOrdinary";
                                      Webtoons.thumbnailImage2 := Some "/thumb.jpg";
                                      Webtoons.thumbnailMobile := None |}] |} |});
     Host.config_timeout := None;
     Host.parseHTML := None |}.

(** ** Pagination

    The two loops ask a source page by page.  A source is the sequence of
    the pages it serves, one for each request of the loop; it is under no
    obligation of the code.  What it guarantees is stated on the sequence:
    every page is the last one or leaves less to fetch. *)

(** The request of a round of the Webtoons loop. *)
Definition episodesRequest (seriesId : string) (cursor : Z) : Host.request :=
  Host.Request Host.GET
    (Webtoons.MOBILE_URL +:+ "/api/v1/webtoon/" +:+ seriesId
     +:+ "/episodes?pageSize=" +:+ Js.string_of_Z 100
     +:+ "&cursor=" +:+ Js.string_of_Z cursor)
    None [] None.

(** The request of a round of the MangaDex loop. *)
Definition feedRequest (mango : Host.Mango MangaDex.FeedData)
  (seriesIdentifier : string) (offset : Z) : Host.request :=
  Host.Request Host.GET
    (MangaDex.API_BASE_URL +:+ "/manga/" +:+ seriesIdentifier
     +:+ "/feed?limit=" +:+ Js.string_of_Z MangaDex.limit
     +:+ "&offset=" +:+ Js.string_of_Z offset
     +:+ "&order[volume]=desc&order[chapter]=desc&translatedLanguage[]=en")
    None [] (Some (Host.timeoutSec mango)).

(** A page of the Webtoons source: its episodes and its [nextCursor].  The
    loop ends on a page whose [nextCursor] is null, or 0, which [||] turns
    into null. *)
Definition webtoons_last (page : list Webtoons.Episode * option Z) : Prop :=
  page.2 = None \/ page.2 = Some 0.

(** The cursor of the request number [i] of the Webtoons loop: 0, and then
    the [nextCursor] of the page before. *)
Definition webtoonsCursor (pages : nat -> list Webtoons.Episode * option Z)
  (i : nat) : Z :=
  match i with
  | O => 0
  | S j => default 0 (pages j).2
  end.

(** The first [n] requests of the Webtoons loop. *)
Definition webtoonsRequests (seriesId : string)
  (pages : nat -> list Webtoons.Episode * option Z) (n : nat) : list Host.request :=
  map (fun i => episodesRequest seriesId (webtoonsCursor pages i)) (seq 0 n).

(** A success response that carries a page. *)
Definition webtoons_success (resp : Host.response (option Webtoons.EpisodesData))
  (page : list Webtoons.Episode * option Z) : Prop :=
  Host.status resp = 200
  /\ exists d p,
       Host.data resp = Some d /\ Webtoons.success d = true
       /\ Webtoons.ep_result d = Some p
       /\ Webtoons.episodeList p = Some page.1 /\ Webtoons.nextCursor p = page.2.

(** The host answers the requests of the loop with the pages of the
    sequence, as long as no page was the last. *)
Definition webtoons_answers (mango : Host.Mango (option Webtoons.EpisodesData))
  (seriesId : string) (pages : nat -> list Webtoons.Episode * option Z) : Prop :=
  forall i,
    (forall j, (j < i)%nat -> ~ webtoons_last (pages j)) ->
    exists resp,
      Host.http mango (webtoonsRequests seriesId pages i)
        (episodesRequest seriesId (webtoonsCursor pages i)) = inr resp
      /\ webtoons_success resp (pages i).

(** A page of the MangaDex feed is the last one when it is shorter than the
    limit; an empty page is. *)
Definition mangadex_last (page : list MangaDex.ChapterData) : Prop :=
  Z.of_nat (length page) < MangaDex.limit.

(** The first [n] requests of the MangaDex loop: the offsets 0, 500, 1000
    and so on. *)
Definition mangadexRequests (mango : Host.Mango MangaDex.FeedData)
  (seriesIdentifier : string) (n : nat) : list Host.request :=
  map (fun i => feedRequest mango seriesIdentifier (MangaDex.limit * Z.of_nat i))
      (seq 0 n).

(** The host answers the requests of the loop with the pages of the feed,
    as long as no page was the last. *)
Definition mangadex_answers (mango : Host.Mango MangaDex.FeedData)
  (seriesIdentifier : string) (pages : nat -> list MangaDex.ChapterData) : Prop :=
  forall i,
    (forall j, (j < i)%nat -> ~ mangadex_last (pages j)) ->
    exists resp,
      Host.http mango (mangadexRequests mango seriesIdentifier i)
        (feedRequest mango seriesIdentifier (MangaDex.limit * Z.of_nat i)) = inr resp
      /\ Host.status resp = 200
      /\ default [] (MangaDex.fd_data (Host.data resp)) = pages i.

(** The exhaustion guarantee of a source, with [remaining i] the size of
    what is left to fetch before the page number [i]: every page is the
    last one or leaves less to fetch. *)
Definition exhausts {P : Type} (last : P -> Prop) (pages : nat -> P)
  (remaining : nat -> nat) : Prop :=
  forall i, last (pages i) \/ (remaining (S i) < remaining i)%nat.

(** The page number [k] is the first that is the last one. *)
Definition first_last {P : Type} (last : P -> Prop) (pages : nat -> P) (k : nat) : Prop :=
  last (pages k) /\ forall i, (i < k)%nat -> ~ last (pages i).

(** The episode numbered [n], with its viewer link. *)
Definition episode (n : Z) (link : string) : Webtoons.Episode :=
  {| Webtoons.episodeNo := Some n;
     Webtoons.episodeTitle := Some ("Episode " +:+ Js.string_of_Z n);
     Webtoons.viewerLink := Js.Value link;
     Webtoons.exposureDateMillis := Some 1464048000000 |}.

(** A success response with a page of episodes and its [nextCursor]. *)
Definition episodePage (episodes : list Webtoons.Episode) (cursor : option Z)
  : Host.response (option Webtoons.EpisodesData) :=
  Host.Response 200 "OK"
    (Some {| Webtoons.success := true;
             Webtoons.ep_result :=
               Some {| Webtoons.episodeList := Some episodes;
                       Webtoons.nextCursor := cursor |} |}).

(** An episodes endpoint that answers the first request with two episodes
    and [nextCursor: 100], and the next with one episode and
    [nextCursor: null]. *)
Definition twoPages : Host.Mango (option Webtoons.EpisodesData) :=
  {| Host.http := fun tr _ =>
       match tr with
       | [] => inr (episodePage [episode 2 "/en/a/ep-2/viewer?episode_no=2";
                                 episode 1 "/en/a/ep-1/viewer?episode_no=1"]
                                (Some 100))
       | _ => inr (episodePage [episode 3 "/en/a/ep-3/viewer?episode_no=3"] None)
       end;
     Host.config_timeout := None;
     Host.parseHTML := None |}.

(** An episodes endpoint whose cursor is never null. *)
Definition endless : Host.Mango (option Webtoons.EpisodesData) :=
  {| Host.http := fun _ _ => inr (episodePage [] (Some 100));
     Host.config_timeout := None;
     Host.parseHTML := None |}.

(** ** Chapter order *)

(** The sort key of a chapter: [parseFloat(chapter) || 0]. *)
Definition chapterKey (chapter : string) : float :=
  Number.or_zero (Number.parseFloat chapter).

(** The rank of the sort key of an entry. *)
Definition key_rank {C : Type} (chapter : C -> string) (c : C) : Z :=
  FloatRank.frank (chapterKey (chapter c)).

(** Every adjacent pair of the list is in ascending order of the key. *)
Definition ascending_by {C : Type} (chapter : C -> string) (l : list C) : Prop :=
  forall i a b,
    l !! i = Some a -> l !! S i = Some b ->
    PrimFloat.leb (chapterKey (chapter a)) (chapterKey (chapter b)) = true.

(** The entries of [output] whose key equals a given number are those of
    [input], in the same order. *)
Definition ties_in_order_of {C : Type} (chapter : C -> string)
  (input output : list C) : Prop :=
  forall k : float,
    filter (fun c => PrimFloat.eqb (chapterKey (chapter c)) k = true) output
    = filter (fun c => PrimFloat.eqb (chapterKey (chapter c)) k = true) input.

(** The feed entry [i] of volume [v] and chapter [c]. *)
Definition feedChapter (i v c : string) : MangaDex.ChapterData :=
  {| MangaDex.cd_id := i;
     MangaDex.cd_attributes :=
       {| MangaDex.at_volume := Some v;
          MangaDex.at_chapter := Some c;
          MangaDex.at_title := None;
          MangaDex.at_pages := Some 20;
          MangaDex.translatedLanguage := Some "en";
          MangaDex.publishAt := None |} |}.

(** The chapter that [feedChapter i v c] becomes. *)
Definition fedChapter (i v c : string) : MangaDex.Chapter :=
  {| MangaDex.identifier := i;
     MangaDex.title := "Vol. " +:+ v +:+ " Ch. " +:+ c;
     MangaDex.volume := v;
     MangaDex.chapter := c;
     MangaDex.pages := 20;
     MangaDex.language := "en";
     MangaDex.published_at := "" |}.

(** A MangaDex feed, ordered as requested by volume and then by chapter,
    both descending, of a series whose chapter numbers restart in every
    volume. *)
Definition volumesFeed : Host.Mango MangaDex.FeedData :=
  {| Host.http := fun _ _ =>
       inr (Host.Response 200 "OK"
              {| MangaDex.fd_data :=
                   Some [feedChapter "v2c1" "2" "1"; feedChapter "v1c5" "1" "5"] |});
     Host.config_timeout := None;
     Host.parseHTML := None |}.

(** *** Sources that answer by the request *)

(** The episodes endpoint of a series of two pages that answers by the
    cursor of the request, whatever was asked before. *)
Definition cursorMock : Host.Mango (option Webtoons.EpisodesData) :=
  {| Host.http := fun _ req =>
       if Js.includes "cursor=0" (Host.req_url req)
       then inr (episodePage [episode 1 "/en/a/ep-1/viewer?episode_no=1"] (Some 100))
       else if Js.includes "cursor=100" (Host.req_url req)
       then inr (episodePage [episode 2 "/en/a/ep-2/viewer?episode_no=2"] None)
       else inl (Host.Error ("Unexpected URL: " +:+ Host.req_url req));
     Host.config_timeout := None;
     Host.parseHTML := None |}.

(** The pages that [cursorMock] serves to the loop. *)
Definition cursorMockPages (i : nat) : list Webtoons.Episode * option Z :=
  match i with
  | O => ([episode 1 "/en/a/ep-1/viewer?episode_no=1"], Some 100)
  | S _ => ([episode 2 "/en/a/ep-2/viewer?episode_no=2"], None)
  end.

(** The feed entry of the chapter numbered [n], and its chapter. *)
Definition numberedEntry (n : nat) : MangaDex.ChapterData :=
  feedChapter ("chapter-" +:+ Js.string_of_Z (Z.of_nat n)) "1"
    (Js.string_of_Z (Z.of_nat n)).

Definition numberedChapter (n : nat) : MangaDex.Chapter :=
  fedChapter ("chapter-" +:+ Js.string_of_Z (Z.of_nat n)) "1"
    (Js.string_of_Z (Z.of_nat n)).

(** The pages of a feed of 501 chapters: the chapters 500 down to 1, then
    the chapter 501, then nothing. *)
Definition offsetMockNumbers (i : nat) : list nat :=
  match i with
  | O => reverse (seq 1 500)
  | S O => [501%nat]
  | S (S _) => []
  end.

Definition offsetMockPages (i : nat) : list MangaDex.ChapterData :=
  map numberedEntry (offsetMockNumbers i).

Definition offsetMockChapters (i : nat) : list MangaDex.Chapter :=
  map numberedChapter (offsetMockNumbers i).

(** The feed endpoint that answers by the offset of the request, whatever
    was asked before. *)
Definition offsetMock : Host.Mango MangaDex.FeedData :=
  {| Host.http := fun _ req =>
       inr (Host.Response 200 "OK"
              {| MangaDex.fd_data :=
                   Some (if Js.includes "offset=0" (Host.req_url req)
                         then offsetMockPages 0
                         else if Js.includes "offset=500" (Host.req_url req)
                         then offsetMockPages 1
                         else []) |});
     Host.config_timeout := None;
     Host.parseHTML := None |}.

(** A row of the WeebCentral chapter list. *)
Definition chapterRow (href text : string) : Dom.element :=
  Dom.Element [] ""
    [("a", [Dom.Element [("href", href)] ""
              [("span.grow > span", [Dom.Element [] text []])]])].

(** A WeebCentral chapter list, newest first, with two rows of the same
    chapter number: chapter 9 and, above it, its second version. *)
Definition tiedRows : Dom.element :=
  Dom.Element [] ""
    [("div.flex.items-center",
      [chapterRow "/chapters/ch10" "Chapter 10";
       chapterRow "/chapters/ch9b" "Chapter 9 v2";
       chapterRow "/chapters/ch9a" "Chapter 009"])].

Definition tiedRowsHost : Host.Mango string :=
  {| Host.http := fun _ _ => inr (Host.Response 200 "OK" "<div>rows</div>");
     Host.config_timeout := None;
     Host.parseHTML := Some (fun _ => Some tiedRows) |}.

(** The chapter of a row that has no date. *)
Definition rowChapter (i title number : string) : WeebCentral.Chapter :=
  {| WeebCentral.identifier := i;
     WeebCentral.title := title;
     WeebCentral.chapter := number;
     WeebCentral.published_at := "" |}.

(** ** Hosts, pages and inputs of the further properties *)

(** *** Hosts that fail or answer every request *)

(** A host whose transport fails every request with [e]. *)
Definition failing {B : Type} (e : Host.exn) : Host.Mango B :=
  {| Host.http := fun _ _ => inl e;
     Host.config_timeout := None;
     Host.parseHTML := None |}.

(** A host that answers every request with the given status line and body. *)
Definition answering {B : Type} (st : Z) (text : string) (body : B) : Host.Mango B :=
  {| Host.http := fun _ _ => inr (Host.Response st text body);
     Host.config_timeout := None;
     Host.parseHTML := None |}.

(** *** The parameters of a proxy URL *)

(** The characters of a percent-encoded string. *)
Definition uri_encoded_char (c : ascii) : bool :=
  Js.uri_unescaped c || Ascii.eqb c "%".

(** The parameters that the options contribute to a proxy URL, in the order
    of the query string. *)
Definition optionParams (o : Host.ProxyOptions) : list string :=
  (if Js.nonempty (Host.referer o)
   then ["referer=" +:+ Js.encodeURIComponent (Host.referer o)] else [])
  ++ (if Js.nonempty (Host.userAgent o)
      then ["user-agent=" +:+ Js.encodeURIComponent (Host.userAgent o)] else [])
  ++ (if Js.nonempty (Host.origin o)
      then ["origin=" +:+ Js.encodeURIComponent (Host.origin o)] else []).

(** The characters of a parameter: those of a percent-encoded string and
    the [=] after the name. *)
Definition param_char (c : ascii) : bool := uri_encoded_char c || Ascii.eqb c "=".

(** *** The text after a chapter number *)

(** Whether a string begins with a decimal digit, and whether it begins
    with a fraction: a point and a digit. *)
Definition starts_with_digit (s : string) : bool :=
  match s with
  | String x _ => Js.is_digit x
  | EmptyString => false
  end.

Definition starts_with_fraction (s : string) : bool :=
  match s with
  | String x s' => Ascii.eqb "." x && starts_with_digit s'
  | EmptyString => false
  end.

(** *** Paginated hosts *)

(** The feed of a series whose chapters are [all], in the order of the
    feed, served in pages of 500 entries: the request number [k] is
    answered with the entries from [500 k] on. *)
Definition feedOf (all : list MangaDex.ChapterData) : Host.Mango MangaDex.FeedData :=
  {| Host.http := fun tr _ =>
       inr (Host.Response 200 "OK"
              {| MangaDex.fd_data := Some (take 500 (drop (500 * length tr) all)) |});
     Host.config_timeout := None;
     Host.parseHTML := None |}.

(** An episodes endpoint that serves the given pages, each with its
    [nextCursor], one per request. *)
Definition episodesOf (pages : list (list Webtoons.Episode * option Z))
  : Host.Mango (option Webtoons.EpisodesData) :=
  {| Host.http := fun tr _ =>
       let page := default ([], None) (pages !! length tr) in
       inr (episodePage page.1 page.2);
     Host.config_timeout := None;
     Host.parseHTML := None |}.

(** *** Covers *)

(** An entry of [included] that gives the cover file [f] of the cover [i]:
    a [cover_art] entry with that id and a file name. *)
Definition covers (item : MangaDex.Related) (i f : string) : Prop :=
  MangaDex.rel_type item = "cover_art"
  /\ MangaDex.rel_id item = Some i /\ i <> ""
  /\ MangaDex.coverFileOf (MangaDex.rel_attributes item) = f /\ f <> "".

(** *** Numbers as strings *)

(** The characters of what [String] prints for a number: digits, a sign, a
    point, an exponent mark and the letters of [Infinity]. *)
Definition number_char (c : ascii) : bool :=
  Js.is_digit c
  || existsb (Ascii.eqb c) ["-"; "+"; "."; "e"; "I"; "n"; "f"; "i"; "t"; "y"]%char.

(** *** The options of a WeebCentral image *)

(** The options under which the later revision of the WeebCentral adapter
    proxies the image [src]. *)
Definition imageOptions (rt : Host.Runtime) (chapterIdentifier src : string)
  : Host.ProxyOptions :=
  match Host.url_origin rt src with
  | Some o =>
      {| Host.referer := o +:+ "/";
         Host.userAgent := WeebCentral.USER_AGENT;
         Host.origin := o |}
  | None =>
      {| Host.referer := WeebCentral.BASE_URL +:+ "/chapters/" +:+ chapterIdentifier;
         Host.userAgent := WeebCentral.USER_AGENT;
         Host.origin := WeebCentral.BASE_URL |}
  end.

(** *** The image list of a Webtoons viewer *)

(** An image of the image list, as the viewer page writes it: the text
    that the pattern matches, up to the closing quote of [data-url], and
    the whole tag. *)
Definition imgMatched (q : ascii) (before url : string) : string :=
  "<img" +:+ before +:+ "data-url=" +:+ String q (url +:+ String q "").

Definition imgTag (q : ascii) (before url after : string) : string :=
  imgMatched q before url +:+ after +:+ ">".

(** An image preceded by some text, and the content of an image list. *)
Record image : Type := Image {
  img_gap : string;       (* the text before the tag *)
  img_before : string;    (* the attributes before [data-url] *)
  img_url : string;
  img_after : string      (* the attributes after it *)
}.

Fixpoint imageList (q : ascii) (images : list image) (rest : string) : string :=
  match images with
  | [] => rest
  | i :: images' =>
      img_gap i +:+ imgTag q (img_before i) (img_url i) (img_after i)
      +:+ imageList q images' rest
  end.

Definition lower (s : string) : string := Js.map_chars Js.to_lower s.

(** The tags that the pattern reads as they are meant: no [<] before the
    tag, at least one character between [<img] and [data-url], no [>]
    inside the tag, a URL without quotes, and no second [data-url=] after
    the first. *)
Definition image_ok (q : ascii) (i : image) : Prop :=
  Js.all_chars (Regex.not_char "<") (img_gap i) = true
  /\ img_before i <> ""
  /\ Js.all_chars (Regex.not_char ">") (img_before i) = true
  /\ img_url i <> ""
  /\ Js.all_chars (fun c => Regex.not_quote c && Regex.not_char ">" c) (img_url i) = true
  /\ Js.all_chars (fun c => Regex.not_char "<" c && Regex.not_char ">" c) (img_after i)
     = true
  /\ Js.includes "data-url=" (lower (img_url i +:+ String q (img_after i))) = false.

(** The part of the pattern of an image after [<img[^>]+]. *)
Definition dataUrlRegex : Regex.regex :=
  Regex.seq [Regex.lit_i "data-url="; Regex.Chr Regex.quote;
             Regex.Group 1 (Regex.Plus Regex.not_quote); Regex.Chr Regex.quote].

(** *** The viewer page *)

(** The opening tag of the image list, and a viewer page around the
    content of the list. *)
Definition imageListOpen (q : ascii) (a1 a2 : string) : string :=
  "<div" +:+ a1 +:+ "id=" +:+ String q ("_imageList" +:+ String q (a2 +:+ ">")).

Definition viewerPage (q : ascii) (pre a1 a2 content post : string) : string :=
  pre +:+ imageListOpen q a1 a2 +:+ content +:+ "</div>" +:+ post.

(** The part of the pattern of the image list after [<div[^>]*]. *)
Definition imageListIdRegex : Regex.regex :=
  Regex.seq [Regex.lit_i "id="; Regex.Chr Regex.quote;
             Regex.lit_i "_imageList"; Regex.Chr Regex.quote;
             Regex.Star (Regex.not_char ">"); Regex.char ">";
             Regex.Group 1 (Regex.LazyStar Regex.any);
             Regex.lit_i "</div>"].

(** A viewer page that the two patterns read as it is meant: the page does
    not name [_imageList] before the opening tag of the image list, in
    whatever case; that tag holds no [id=] after the id of the list; and
    the images of the list are well formed and hold no [</div>]. *)
Definition viewer_ok (q : ascii) (pre a1 a2 : string) (images : list image)
  (rest : string) : Prop :=
  Regex.quote q = true
  /\ Js.includes "_imagelist" (lower pre) = false
  /\ Js.all_chars (Regex.not_char ">") a1 = true
  /\ Js.all_chars (Regex.not_char ">") a2 = true
  /\ Js.includes "id=" (lower a2) = false
  /\ Forall (image_ok q) images
  /\ Js.all_chars (Regex.not_char "<") rest = true
  /\ Js.includes "</div>" (lower (imageList q images rest +:+ "</div")) = false.

(** The double quote. *)
Definition dquote : ascii := Js.chr 34.

(** A viewer page with three images. *)
Definition threeImages : list image :=
  [Image " " " " "https://webtoon-phinf.pstatic.net/image1.jpg" " /";
   Image " " " " "https://webtoon-phinf.pstatic.net/image2.jpg" " /";
   Image " " " class='_images' " "https://webtoon-phinf.pstatic.net/image3.jpg" ""].

Definition threeImagesPage : string :=
  viewerPage dquote "<html><body><div class='viewer'>" " " ""
    (imageList dquote threeImages " ") "</div></body></html>".

(** A viewer page laid out over several lines, as the site serves it: an
    unrelated [div] and a line break come before the image list. *)
Definition newline : ascii := Js.chr 10.

Definition spacedHead : string :=
  "<html><body>" +:+ String newline "  <div class='subj_info'>"
  +:+ "<span class='subj_episode'>Episode 1</span></div>" +:+ String newline "  ".

Definition spacedImages : list image :=
  [Image (String newline "    ") " " "https://webtoon-phinf.pstatic.net/image1.jpg" " /";
   Image (String newline "    ") " " "https://webtoon-phinf.pstatic.net/image2.jpg" " /";
   Image (String newline "    ") " " "https://webtoon-phinf.pstatic.net/image3.jpg" " /"].

Definition spacedViewerPage : string :=
  viewerPage dquote spacedHead " " ""
    (imageList dquote spacedImages (String newline "  "))
    (String newline "</body></html>").

(** *** Responsive images *)

(** A search link with a responsive image. *)
Definition pictureLink (href title srcset : string) : Dom.element :=
  Dom.Element [("href", href)] title
    [("source", [Dom.Element [("srcset", srcset)] "" []])].

(** *** Bodies and parsers *)

(** An episodes page in the envelope of the endpoint. *)
Definition episodesBody (ok : bool) (page : option Webtoons.EpisodePage)
  : option Webtoons.EpisodesData :=
  Some {| Webtoons.success := ok; Webtoons.ep_result := page |}.

(** A host that answers every request with the given body and parses it
    with [parse]. *)
Definition parsing (body : string) (parse : string -> option Dom.element)
  : Host.Mango string :=
  {| Host.http := fun _ _ => inr (Host.Response 200 "OK" body);
     Host.config_timeout := None;
     Host.parseHTML := Some parse |}.

(** *** The pages of a MangaDex chapter *)

(** The page URL of a file of a MangaDex chapter. *)
Definition mangadexPageUrl (d : MangaDex.AtHome) (pageFile : string) : string :=
  "http://localhost:8080/api/proxy/resource?url="
  +:+ Js.encodeURIComponent
        (MangaDex.baseUrl d +:+ "/data/" +:+ MangaDex.hash (MangaDex.ah_chapter d)
         +:+ "/" +:+ pageFile)
  +:+ "&referer=https%3A%2F%2Fmangadex.org%2F".

(** *** Inputs of the examples *)

(** A runtime that takes no string for a date. *)
Definition noDates : Host.Runtime :=
  {| Host.url_origin := fun _ => None;
     Host.date_now := "2024-01-01T00:00:00.000Z";
     Host.date_of_millis := fun _ => None;
     Host.date_of_string := fun _ => None |}.

(** A feed entry with a publication date. *)
Definition datedChapter (i c date : string) : MangaDex.ChapterData :=
  {| MangaDex.cd_id := i;
     MangaDex.cd_attributes :=
       {| MangaDex.at_volume := None;
          MangaDex.at_chapter := Some c;
          MangaDex.at_title := None;
          MangaDex.at_pages := Some 20;
          MangaDex.translatedLanguage := Some "en";
          MangaDex.publishAt := Some date |} |}.

(** An at-home server with two page files. *)
Definition twoFiles : Host.Mango MangaDex.AtHome :=
  answering 200 "OK"
    {| MangaDex.baseUrl := "https://s2.mangadex.org";
       MangaDex.ah_chapter :=
         {| MangaDex.hash := "abc123";
            MangaDex.ah_data := Some ["1-a.png"; "2-b.png"] |} |}.

(** A search entry whose cover file is named in its relationships. *)
Definition coveredManga (i file : string) : MangaDex.MangaData :=
  {| MangaDex.id := Some i;
     MangaDex.attributes := Some {| MangaDex.attr_title := Some [("en", "Solo")] |};
     MangaDex.relationships :=
       Some [{| MangaDex.rel_type := "cover_art";
                MangaDex.rel_id := Some "c1";
                MangaDex.rel_attributes :=
                  Some {| MangaDex.fileName := Some file;
                          MangaDex.file_name := None |} |}] |}.

(** The result of [coveredManga i file]. *)
Definition coveredResult (i file : string) : Host.SearchResult :=
  default {| Host.title := String.EmptyString; Host.cover_url := String.EmptyString;
             Host.identifier := String.EmptyString |}
    (MangaDex.searchEntry ∅ (Some (coveredManga i file))).

(** A Webtoons search item with a thumbnail. *)
Definition thumbnailItem (n : Z) (thumbnail : string) : Webtoons.SearchItem :=
  {| Webtoons.titleNo := Some n;
     Webtoons.item_title := Some "unOrdinary";
     Webtoons.thumbnailImage2 := Some thumbnail;
     Webtoons.thumbnailMobile := None |}.

(** The result of [thumbnailItem n thumbnail]. *)
Definition thumbnailResult (n : Z) (thumbnail : string) : Host.SearchResult :=
  default {| Host.title := String.EmptyString; Host.cover_url := String.EmptyString;
             Host.identifier := String.EmptyString |}
    (Webtoons.searchEntry (thumbnailItem n thumbnail)).

(** * Properties *)

(** ** The order of binary64 numbers

    A number that is not [NaN] has a rank, an integer, such that comparing
    two numbers is comparing their ranks, and such that the sign of a
    difference [x - y] is the sign of the difference of the ranks.  The rank
    of a finite number is the number itself in units of [2 ^ emin]. *)

Module FloatOrder.
Import FloatRank.

Lemma digits2_size p : digits2_pos p = Pos.size p.
Proof. induction p; simpl; congruence. Qed.

Lemma digits2_bounds p :
  2 ^ (Zpos (digits2_pos p) - 1) <= Zpos p < 2 ^ Zpos (digits2_pos p).
Proof.
  rewrite digits2_size. split.
  - pose proof (Pos.size_le p) as H.
    assert (Hs : Zpos (2 ^ Pos.size p) <= Zpos p~0) by exact H.
    rewrite Pos2Z.inj_pow in Hs.
    replace (Zpos (Pos.size p)) with (Z.succ (Zpos (Pos.size p) - 1)) in Hs by lia.
    rewrite Z.pow_succ_r in Hs by lia. lia.
  - pose proof (Pos.size_gt p) as H.
    assert (Hs : Zpos p < Zpos (2 ^ Pos.size p)) by exact H.
    now rewrite Pos2Z.inj_pow in Hs.
Qed.

Lemma bounded_inv m e :
  bounded prec emax m e = true ->
  emin <= e <= emax - prec /\ Zpos m < 2 ^ prec /\ (emin < e -> 2 ^ (prec - 1) <= Zpos m).
Proof.
  unfold bounded, canonical_mantissa, fexp. intros H.
  apply andb_prop in H as [H1 H2].
  apply Z.eqb_eq in H1. apply Z.leb_le in H2.
  pose proof (digits2_bounds m) as [Hlo Hhi].
  set (d := Zpos (digits2_pos m)) in *.
  assert (Hd : 0 < d) by (unfold d; lia).
  split; [lia|]. split.
  - apply Z.lt_le_trans with (1 := Hhi). apply Z.pow_le_mono_r; lia.
  - intros He. assert (d = prec) by lia. subst d. rewrite <- H. exact Hlo.
Qed.

Lemma mag_pos m e : emin <= e -> 0 < mag m e.
Proof.
  intros He. unfold mag. apply Z.mul_pos_pos; [lia|].
  apply Z.pow_pos_nonneg; lia.
Qed.

Lemma mag_lt_inf m e :
  bounded prec emax m e = true -> mag m e < 2 ^ (emax - emin).
Proof.
  intros H. apply bounded_inv in H as (He & Hm & _). unfold mag.
  replace (emax - emin) with (prec + (emax - prec - emin)) by lia.
  assert (Hp : 0 < prec) by reflexivity.
  rewrite Z.pow_add_r by lia.
  assert (0 < 2 ^ (e - emin)) by (apply Z.pow_pos_nonneg; lia).
  assert (2 ^ (e - emin) <= 2 ^ (emax - prec - emin)) by (apply Z.pow_le_mono_r; lia).
  assert (0 < 2 ^ prec) by (apply Z.pow_pos_nonneg; lia).
  nia.
Qed.

Lemma mag_lt_exp m1 e1 m2 e2 :
  bounded prec emax m1 e1 = true -> bounded prec emax m2 e2 = true ->
  e1 < e2 -> mag m1 e1 < mag m2 e2.
Proof.
  intros H1 H2 Hlt.
  apply bounded_inv in H1 as (He1 & Hm1 & _).
  apply bounded_inv in H2 as (He2 & _ & Hm2).
  specialize (Hm2 ltac:(lia)). unfold mag.
  assert (Hp : 0 < prec) by reflexivity.
  replace (e2 - emin) with ((e2 - e1 - 1) + 1 + (e1 - emin)) by lia.
  rewrite !Z.pow_add_r by lia.
  assert (Hpp : 2 ^ prec = 2 * 2 ^ (prec - 1)) by reflexivity.
  assert (0 < 2 ^ (e1 - emin)) by (apply Z.pow_pos_nonneg; lia).
  assert (0 < 2 ^ (e2 - e1 - 1)) by (apply Z.pow_pos_nonneg; lia).
  change (2 ^ 1) with 2.
  assert (Hq : 1 <= 2 ^ (e2 - e1 - 1)) by lia.
  assert (Hm : Z.pos m1 < Z.pos m2 * (2 ^ (e2 - e1 - 1) * 2)) by nia.
  rewrite Z.mul_assoc. apply Z.mul_lt_mono_pos_r; assumption.
Qed.

Lemma mag_compare_same_exp m1 m2 e :
  emin <= e -> (mag m1 e ?= mag m2 e) = (m1 ?= m2)%positive.
Proof.
  intros He. unfold mag.
  assert (0 < 2 ^ (e - emin)) by (apply Z.pow_pos_nonneg; lia).
  rewrite <- Zmult_compare_compat_r by lia. reflexivity.
Qed.

Lemma mag_compare m1 e1 m2 e2 :
  bounded prec emax m1 e1 = true -> bounded prec emax m2 e2 = true ->
  (mag m1 e1 ?= mag m2 e2) =
  match e1 ?= e2 with
  | Lt => Lt
  | Gt => Gt
  | Eq => Pos.compare_cont Eq m1 m2
  end.
Proof.
  intros H1 H2. destruct (Z.compare_spec e1 e2) as [He|He|He].
  - subst e2. apply mag_compare_same_exp. apply bounded_inv in H1. lia.
  - apply Z.compare_lt_iff. now apply mag_lt_exp.
  - apply Z.compare_gt_iff. now apply mag_lt_exp.
Qed.

Lemma compare_opp a b : (- a ?= - b) = CompOpp (a ?= b).
Proof. rewrite Z.compare_opp. apply Z.compare_antisym. Qed.

Ltac solve_cmp :=
  f_equal; symmetry;
  first [ apply Z.compare_eq_iff; lia
        | apply Z.compare_lt_iff; lia
        | apply Z.compare_gt_iff; lia ].

Lemma rank_compare x y :
  valid_binary x = true -> valid_binary y = true ->
  x <> S754_nan -> y <> S754_nan ->
  SFcompare x y = Some (rank x ?= rank y).
Proof.
  intros Vx Vy Nx Ny.
  assert (Hinf : 0 < 2 ^ (emax - emin)) by (apply Z.pow_pos_nonneg; reflexivity || discriminate).
  destruct x as [sx|sx| |sx mx ex], y as [sy|sy| |sy my ey];
    try congruence; simpl in Vx, Vy; cbn [SFcompare rank];
    try (pose proof (mag_pos mx ex ltac:(apply bounded_inv in Vx; lia)) as Hpx;
         pose proof (mag_lt_inf mx ex Vx) as Hqx; fold (mag mx ex));
    try (pose proof (mag_pos my ey ltac:(apply bounded_inv in Vy; lia)) as Hpy;
         pose proof (mag_lt_inf my ey Vy) as Hqy; fold (mag my ey)).
  - reflexivity.
  - destruct sy; cbn [cond_Zopp]; solve_cmp.
  - destruct sy; cbn [cond_Zopp]; solve_cmp.
  - destruct sx; cbn [cond_Zopp]; solve_cmp.
  - destruct sx, sy; cbn [cond_Zopp]; solve_cmp.
  - destruct sx, sy; cbn [cond_Zopp]; solve_cmp.
  - destruct sx; cbn [cond_Zopp]; solve_cmp.
  - destruct sx, sy; cbn [cond_Zopp]; solve_cmp.
  - destruct sx, sy; cbn [cond_Zopp]; try solve_cmp; f_equal.
    + rewrite compare_opp, mag_compare by assumption.
      destruct (ex ?= ey); reflexivity.
    + now rewrite mag_compare.
Qed.

(** Rounding a non-zero integer multiple of [2 ^ e], [emin <= e], keeps its
    sign: the result is neither a zero nor a [NaN]. *)

Lemma shr_1_m r : 0 <= shr_m r -> shr_m (shr_1 r) = shr_m r / 2.
Proof.
  destruct r as [m rb sb]. cbn [shr_m]. intros Hm.
  destruct m as [|p|p]; [reflexivity| |lia].
  destruct p as [p|p|]; cbn [shr_1 shr_m].
  - rewrite Pos2Z.inj_xI. apply Z.div_unique with (r := 1); lia.
  - rewrite Pos2Z.inj_xO. apply Z.div_unique with (r := 0); lia.
  - reflexivity.
Qed.

Lemma iter_shr_1_m k : forall r,
  0 <= shr_m r -> shr_m (SpecFloat.iter_pos shr_1 k r) = shr_m r / 2 ^ Zpos k.
Proof.
  induction k as [k IH|k IH|]; intros r Hr; cbn [SpecFloat.iter_pos].
  - assert (H1 : 0 <= shr_m (shr_1 r)) by (rewrite shr_1_m by assumption; apply Z.div_pos; lia).
    assert (H2 : 0 <= shr_m (SpecFloat.iter_pos shr_1 k (shr_1 r)))
      by (rewrite IH by assumption; apply Z.div_pos; [assumption | apply Z.pow_pos_nonneg; lia]).
    rewrite IH, IH, shr_1_m by assumption.
    rewrite !Z.div_div by (try apply Z.pow_pos_nonneg; lia).
    f_equal. rewrite (Pos2Z.inj_xI k).
    replace (2 * Zpos k + 1) with (1 + Zpos k + Zpos k) by lia.
    rewrite !Z.pow_add_r by lia. change (2 ^ 1) with 2. ring.
  - assert (H2 : 0 <= shr_m (SpecFloat.iter_pos shr_1 k r))
      by (rewrite IH by assumption; apply Z.div_pos; [assumption | apply Z.pow_pos_nonneg; lia]).
    rewrite IH, IH by assumption.
    rewrite !Z.div_div by (try apply Z.pow_pos_nonneg; lia).
    f_equal. rewrite (Pos2Z.inj_xO k).
    replace (2 * Zpos k) with (Zpos k + Zpos k) by lia.
    rewrite !Z.pow_add_r by lia. ring.
  - now apply shr_1_m.
Qed.

Lemma shr_fexp_pos p e l :
  emin <= e ->
  exists r e' q, shr_fexp prec emax (Zpos p) e l = (r, e') /\ shr_m r = Zpos q /\ emin <= e'.
Proof.
  intros He. unfold shr_fexp, shr, fexp. cbn [Zdigits2].
  pose proof (digits2_bounds p) as [Hlo _].
  set (d := Zpos (digits2_pos p)) in *.
  assert (Hm : shr_m (shr_record_of_loc (Zpos p) l) = Zpos p)
    by (destruct l as [|[]]; reflexivity).
  destruct (Z.max (d + e - prec) emin - e) as [|k|k] eqn:Hn.
  - eexists _, _, p. split; [reflexivity|]. split; [exact Hm | exact He].
  - eexists _, _, (Z.to_pos (Zpos p / 2 ^ Zpos k)). split; [reflexivity|]. split; [|lia].
    rewrite iter_shr_1_m by (rewrite Hm; lia). rewrite Hm.
    assert (Hp : 0 < prec) by reflexivity.
    assert (Hk : Zpos k <= d - 1) by lia.
    assert (H2 : 0 < Zpos p / 2 ^ Zpos k).
    { apply Z.div_str_pos. split; [apply Z.pow_pos_nonneg; lia|].
      apply Z.le_trans with (2 := Hlo). apply Z.pow_le_mono_r; lia. }
    rewrite Z2Pos.id by assumption. reflexivity.
  - eexists _, _, p. split; [reflexivity|]. split; [exact Hm | exact He].
Qed.

Lemma round_nearest_even_pos p l : exists q, round_nearest_even (Zpos p) l = Zpos q.
Proof.
  destruct l as [|[]]; cbn [round_nearest_even];
    try destruct (Z.even (Zpos p));
    first [ exists p; reflexivity | exists (p + 1)%positive; reflexivity ].
Qed.

Lemma binary_round_aux_sign s p e l :
  emin <= e ->
  match binary_round_aux prec emax s (Zpos p) e l with
  | S754_finite s' _ _ | S754_infinity s' => s' = s
  | _ => False
  end.
Proof.
  intros He. unfold binary_round_aux.
  destruct (shr_fexp_pos p e l He) as (r1 & e1 & q1 & -> & Hq1 & He1).
  rewrite Hq1.
  destruct (round_nearest_even_pos q1 (loc_of_shr_record r1)) as (q2 & ->).
  destruct (shr_fexp_pos q2 e1 loc_Exact He1) as (r2 & e2 & q3 & -> & -> & He2).
  destruct (e2 <=? emax - prec); reflexivity.
Qed.

Lemma binary_round_sign s m e :
  emin <= e ->
  match binary_round prec emax s m e with
  | S754_finite s' _ _ | S754_infinity s' => s' = s
  | _ => False
  end.
Proof.
  intros He. unfold binary_round, shl_align.
  destruct (fexp prec emax (Zpos (digits2_pos m) + e) - e) as [|k|k] eqn:Hk.
  - now apply binary_round_aux_sign.
  - now apply binary_round_aux_sign.
  - apply binary_round_aux_sign. unfold fexp; lia.
Qed.

Lemma shl_align_fst m e ez :
  ez <= e -> Zpos (fst (shl_align m e ez)) = Zpos m * 2 ^ (e - ez).
Proof.
  intros He. unfold shl_align.
  destruct (ez - e) as [|k|k] eqn:Hk; cbn [fst]; try lia.
  - replace (e - ez) with 0 by lia. lia.
  - replace (e - ez) with (Zpos k) by lia.
    change (Pos.iter xO m k) with (shift_pos k m).
    rewrite shift_pos_correct, Zpower_pos_nat, Zpower_nat_Z, positive_nat_Z. lia.
Qed.

Lemma rank_aligned s m e ez :
  emin <= ez <= e ->
  rank (S754_finite s m e) =
  cond_Zopp s (Zpos (fst (shl_align m e ez))) * 2 ^ (ez - emin).
Proof.
  intros H. cbn [rank]. rewrite shl_align_fst by lia.
  replace (e - emin) with ((e - ez) + (ez - emin)) by lia.
  rewrite Z.pow_add_r by lia.
  destruct s; cbn [cond_Zopp]; ring.
Qed.

Lemma binary_normalize_sign d e :
  emin <= e ->
  match binary_normalize prec emax d e false with
  | S754_nan => False
  | S754_zero _ => d = 0
  | S754_finite s _ _ | S754_infinity s => if s then d < 0 else 0 < d
  end.
Proof.
  intros He. destruct d as [|p|p]; cbn [binary_normalize].
  - reflexivity.
  - pose proof (binary_round_sign false p e He) as H.
    destruct (binary_round prec emax false p e); try contradiction; subst; reflexivity.
  - pose proof (binary_round_sign true p e He) as H.
    destruct (binary_round prec emax true p e); try contradiction; subst; reflexivity.
Qed.

Lemma SFsub_sign x y :
  valid_binary x = true -> valid_binary y = true ->
  x <> S754_nan -> y <> S754_nan ->
  match SF64sub x y with
  | S754_nan | S754_zero _ => rank x = rank y
  | S754_finite s _ _ | S754_infinity s =>
      if s then rank x < rank y else rank y < rank x
  end.
Proof.
  intros Vx Vy Nx Ny.
  assert (Hinf : 0 < 2 ^ (emax - emin)) by (apply Z.pow_pos_nonneg; reflexivity || discriminate).
  destruct x as [sx|sx| |sx mx ex], y as [sy|sy| |sy my ey];
    try congruence; simpl in Vx, Vy;
    try (pose proof (mag_pos mx ex ltac:(apply bounded_inv in Vx; lia)) as Hpx;
         pose proof (mag_lt_inf mx ex Vx) as Hqx);
    try (pose proof (mag_pos my ey ltac:(apply bounded_inv in Vy; lia)) as Hpy;
         pose proof (mag_lt_inf my ey Vy) as Hqy);
    unfold SF64sub; cbn [SFsub].
  - destruct sx, sy; reflexivity.
  - destruct sy; cbn [negb rank cond_Zopp]; lia.
  - fold (mag my ey). destruct sy; cbn [negb rank cond_Zopp]; fold (mag my ey); lia.
  - destruct sx; cbn [rank cond_Zopp]; lia.
  - destruct sx, sy; cbn [rank cond_Zopp]; lia.
  - destruct sx; cbn [rank cond_Zopp]; fold (mag my ey); destruct sy; cbn [cond_Zopp]; lia.
  - destruct sx; cbn [rank cond_Zopp]; fold (mag mx ex); lia.
  - destruct sy; cbn [negb rank cond_Zopp]; fold (mag mx ex); destruct sx; cbn [cond_Zopp]; lia.
  - apply bounded_inv in Vx as (Hex & _), Vy as (Hey & _).
    set (ez := Z.min ex ey).
    assert (Hez : emin <= ez <= ex /\ ez <= ey) by (unfold ez; lia).
    rewrite (rank_aligned sx mx ex ez), (rank_aligned sy my ey ez) by lia.
    set (ax := cond_Zopp sx (Zpos (fst (shl_align mx ex ez)))).
    set (ay := cond_Zopp sy (Zpos (fst (shl_align my ey ez)))).
    assert (HP : 0 < 2 ^ (ez - emin)) by (apply Z.pow_pos_nonneg; lia).
    pose proof (binary_normalize_sign (ax - ay) ez ltac:(lia)) as H.
    destruct (binary_normalize prec emax (ax - ay) ez false) as [s|s| |s m e];
      try contradiction.
    + f_equal; lia.
    + destruct s; nia.
    + destruct s; nia.
Qed.

(** *** Primitive floats *)

Lemma is_nan_spec x : is_nan x = false -> Prim2SF x <> S754_nan.
Proof.
  unfold is_nan. rewrite FloatAxioms.eqb_spec. intros H Hx. rewrite Hx in H. discriminate.
Qed.

Lemma Prim2SF_zero : Prim2SF zero = S754_zero false.
Proof. reflexivity. Qed.

Lemma or_zero_not_nan x : is_nan (Number.or_zero x) = false.
Proof.
  unfold Number.or_zero. destruct (is_nan x) eqn:Hx; cbn [orb]; [reflexivity|].
  destruct (is_zero x); [reflexivity | exact Hx].
Qed.

Lemma compare_frank x y :
  is_nan x = false -> is_nan y = false ->
  SFcompare (Prim2SF x) (Prim2SF y) = Some (frank x ?= frank y).
Proof.
  intros Hx Hy. apply rank_compare; auto using Prim2SF_valid, is_nan_spec.
Qed.

Lemma leb_frank x y :
  is_nan x = false -> is_nan y = false ->
  (x <=? y)%float = (frank x <=? frank y).
Proof.
  intros Hx Hy. rewrite FloatAxioms.leb_spec. unfold SFleb. rewrite compare_frank by assumption.
  unfold Z.leb. destruct (frank x ?= frank y); reflexivity.
Qed.

Lemma eqb_frank x y :
  is_nan x = false -> is_nan y = false ->
  (x =? y)%float = (frank x =? frank y).
Proof.
  intros Hx Hy. rewrite FloatAxioms.eqb_spec. unfold SFeqb. rewrite compare_frank by assumption.
  unfold Z.eqb. destruct (frank x ?= frank y) eqn:Hc.
  - apply Z.compare_eq in Hc. rewrite Hc. destruct (frank y); try reflexivity;
      symmetry; apply Pos.eqb_refl.
  - destruct (frank x), (frank y); try reflexivity; try discriminate;
      symmetry; apply Pos.eqb_neq; intros ->; cbn in Hc;
      rewrite ?Pos.compare_refl, ?Pos.compare_cont_refl in Hc; discriminate.
  - destruct (frank x), (frank y); try reflexivity; try discriminate;
      symmetry; apply Pos.eqb_neq; intros ->; cbn in Hc;
      rewrite ?Pos.compare_refl, ?Pos.compare_cont_refl in Hc; discriminate.
Qed.

(** The sign of a difference, as [sort] reads it, is the order of the
    ranks. *)
Lemma order_of_sub x y :
  is_nan x = false -> is_nan y = false ->
  Number.order_of (x - y)%float = (frank x ?= frank y).
Proof.
  intros Hx Hy. unfold Number.order_of.
  rewrite !FloatAxioms.ltb_spec, FloatAxioms.sub_spec, Prim2SF_zero.
  pose proof (SFsub_sign (Prim2SF x) (Prim2SF y) (Prim2SF_valid x) (Prim2SF_valid y)
                (is_nan_spec x Hx) (is_nan_spec y Hy)) as H.
  fold (frank x) (frank y) in H.
  destruct (SF64sub (Prim2SF x) (Prim2SF y)) as [s|s| |s m e]; cbn.
  - symmetry. now apply Z.compare_eq_iff.
  - destruct s; cbn; symmetry; [apply Z.compare_lt_iff | apply Z.compare_gt_iff]; lia.
  - symmetry. now apply Z.compare_eq_iff.
  - destruct s; cbn; symmetry; [apply Z.compare_lt_iff | apply Z.compare_gt_iff]; lia.
Qed.

End FloatOrder.

(** ** [sort] with a comparator that follows a rank

    When the comparator orders the elements as an integer rank does, the
    result of [sort] is ascending in the rank, is a rearrangement of the
    input, and keeps the elements of equal rank in their input order. *)

Section SortFacts.
Context {A : Type} (comparefn : A -> A -> float) (rk : A -> Z).
Hypothesis comparefn_rank :
  forall a b, Number.order_of (comparefn a b) = (rk a ?= rk b).

Lemma insert_HdRel y x l :
  rank_le rk y x -> HdRel (rank_le rk) y l -> HdRel (rank_le rk) y (Number.insert comparefn x l).
Proof.
  intros Hyx Hy. destruct l as [|z l]; cbn.
  - now constructor.
  - destruct (Number.order_of (comparefn x z)); constructor;
      solve [assumption | now inversion Hy].
Qed.

Lemma insert_Sorted x l :
  Sorted (rank_le rk) l -> Sorted (rank_le rk) (Number.insert comparefn x l).
Proof.
  induction l as [|y l IH]; intros Hs; cbn.
  - repeat constructor.
  - rewrite comparefn_rank.
    apply Sorted_inv in Hs as [Hs Hy].
    destruct (Z.compare_spec (rk x) (rk y)) as [Hc|Hc|Hc].
    + constructor; [now constructor|]. constructor. unfold rank_le. lia.
    + constructor; [now constructor|]. constructor. unfold rank_le. lia.
    + constructor; [now apply IH|]. apply insert_HdRel; [|assumption].
      unfold rank_le. lia.
Qed.

Lemma sort_Sorted l : Sorted (rank_le rk) (Number.sort comparefn l).
Proof.
  induction l as [|x l IH]; cbn; [constructor | now apply insert_Sorted].
Qed.

Lemma Sorted_adjacent (l : list A) i a b :
  Sorted (rank_le rk) l -> l !! i = Some a -> l !! S i = Some b -> rk a <= rk b.
Proof.
  intros Hs. revert i. induction Hs as [|x l Hs IH Hx]; intros i Ha Hb.
  - discriminate.
  - destruct i as [|i]; cbn in Ha, Hb.
    + injection Ha as ->. destruct l as [|y l]; [discriminate|].
      cbn in Hb. injection Hb as ->. now inversion Hx.
    + now apply (IH i).
Qed.

Lemma sort_ascending l i a b :
  Number.sort comparefn l !! i = Some a ->
  Number.sort comparefn l !! S i = Some b ->
  rk a <= rk b.
Proof. apply Sorted_adjacent, sort_Sorted. Qed.

Lemma insert_Permutation x l : Number.insert comparefn x l ≡ₚ x :: l.
Proof.
  induction l as [|y l IH]; cbn; [reflexivity|].
  destruct (Number.order_of (comparefn x y)); try reflexivity.
  rewrite IH. apply Permutation_swap.
Qed.

Lemma sort_Permutation l : Number.sort comparefn l ≡ₚ l.
Proof.
  induction l as [|x l IH]; cbn; [reflexivity|].
  rewrite insert_Permutation. now rewrite IH.
Qed.

Lemma insert_filter_rank z x l :
  filter (fun a => rk a = z) (Number.insert comparefn x l)
  = filter (fun a => rk a = z) (x :: l).
Proof.
  induction l as [|y l IH]; cbn [Number.insert]; [reflexivity|].
  rewrite comparefn_rank.
  destruct (Z.compare_spec (rk x) (rk y)) as [Hc|Hc|Hc]; try reflexivity.
  rewrite (filter_cons _ y), IH, !(filter_cons _ x), !(filter_cons _ y).
  repeat case_decide; try reflexivity; lia.
Qed.

Lemma sort_filter_rank z l :
  filter (fun a => rk a = z) (Number.sort comparefn l)
  = filter (fun a => rk a = z) l.
Proof.
  induction l as [|x l IH]; cbn [Number.sort foldr]; [reflexivity|].
  fold (Number.sort comparefn l).
  rewrite insert_filter_rank, !(filter_cons _ x), IH. reflexivity.
Qed.

End SortFacts.

(** Closes a goal on closed terms, an equation or a disequation, by
    evaluation. *)
Ltac by_computation :=
  first [ reflexivity
        | let H := fresh in intro H; vm_compute in H; discriminate H ].

(** ** Strings *)

#[local] Arguments String.append : simpl nomatch.

Section StringFacts.

Lemma string_app_assoc (a b c : string) : (a +:+ b) +:+ c = a +:+ (b +:+ c).
Proof. induction a as [|x a IH]; simpl; [reflexivity | now rewrite IH]. Qed.

Lemma string_app_nil_r (a : string) : a +:+ "" = a.
Proof. induction a as [|x a IH]; simpl; [reflexivity | now rewrite IH]. Qed.

Lemma string_app_length (a b : string) :
  String.length (a +:+ b) = (String.length a + String.length b)%nat.
Proof. induction a as [|x a IH]; simpl; [reflexivity | now rewrite IH]. Qed.

Lemma startsWith_app (p s : string) : Js.startsWith p (p +:+ s) = true.
Proof.
  induction p as [|x p IH]; simpl; [reflexivity|].
  now rewrite Ascii.eqb_refl, IH.
Qed.

Lemma drop_app_length (p s : string) : Js.drop (String.length p) (p +:+ s) = s.
Proof. induction p as [|x p IH]; simpl; [now destruct s | exact IH]. Qed.

Lemma take_app_length (p s : string) : Js.take (String.length p) (p +:+ s) = p.
Proof. induction p as [|x p IH]; simpl; [now destruct s | now rewrite IH]. Qed.

Lemma drop_0 (s : string) : Js.drop 0 s = s.
Proof. now destruct s. Qed.

Lemma take_0 (s : string) : Js.take 0 s = "".
Proof. now destruct s. Qed.

Lemma replace_first_prefix (p s : string) : Js.replace_first p "" (p +:+ s) = s.
Proof.
  destruct p as [|x p].
  - cbn. destruct s; cbn; now rewrite ?drop_0.
  - cbn [Js.replace_first append]. change (String x (p +:+ s)) with (String x p +:+ s).
    rewrite startsWith_app. cbn [append]. apply (drop_app_length (String x p)).
Qed.

Lemma map_chars_app f (a b : string) :
  Js.map_chars f (a +:+ b) = Js.map_chars f a +:+ Js.map_chars f b.
Proof. induction a as [|x a IH]; simpl; [reflexivity | now rewrite IH]. Qed.

Lemma map_chars_id f (a : string) :
  Js.all_chars (fun c => Ascii.eqb (f c) c) a = true -> Js.map_chars f a = a.
Proof.
  induction a as [|x a IH]; simpl; [reflexivity|].
  intros H. apply andb_prop in H as [Hx Ha]. apply Ascii.eqb_eq in Hx.
  now rewrite Hx, IH.
Qed.

Lemma map_chars_length f (a : string) :
  String.length (Js.map_chars f a) = String.length a.
Proof. induction a as [|x a IH]; simpl; [reflexivity | now rewrite IH]. Qed.

Lemma all_chars_impl (p q : ascii -> bool) (a : string) :
  (forall c, p c = true -> q c = true) ->
  Js.all_chars p a = true -> Js.all_chars q a = true.
Proof.
  intros Hpq. induction a as [|x a IH]; simpl; [reflexivity|].
  intros H. apply andb_prop in H as [Hx Ha]. now rewrite (Hpq x Hx), IH.
Qed.

Lemma all_chars_map (p : ascii -> bool) f (a : string) :
  Js.all_chars (fun c => p (f c)) a = true -> Js.all_chars p (Js.map_chars f a) = true.
Proof.
  induction a as [|x a IH]; simpl; [reflexivity|].
  intros H. apply andb_prop in H as [Hx Ha]. now rewrite Hx, IH.
Qed.

Lemma nonempty_true (s : string) : Js.nonempty s = true <-> s <> "".
Proof. destruct s; cbn; split; congruence. Qed.

End StringFacts.

(** ** The matcher *)

Section RegexFacts.
Import Regex.

(** A literal that is a prefix of the input is passed over. *)
Lemma rmatch_lit_app (t s : string) k pos c :
  rmatch (lit t) k pos (t +:+ s) c = k (pos + String.length t)%nat s c.
Proof.
  revert pos. induction t as [|x t IH]; intros pos; simpl.
  - now rewrite Nat.add_0_r.
  - unfold char. simpl. rewrite Ascii.eqb_refl, IH. f_equal. lia.
Qed.

(** A literal that is not a prefix of the input fails. *)
Lemma rmatch_lit_fail (t s : string) k pos c :
  Js.startsWith t s = false -> rmatch (lit t) k pos s c = None.
Proof.
  revert s pos. induction t as [|x t IH]; intros s pos; simpl; [discriminate|].
  destruct s as [|y s]; [reflexivity|]. unfold char. simpl.
  destruct (Ascii.eqb x y); simpl; [apply IH | reflexivity].
Qed.

(** The greedy star passes over a run of the class when the rest of the
    pattern matches after it. *)
Lemma star_greedy_app p (t u : string) k pos c m :
  Js.all_chars p t = true ->
  star_greedy p k (pos + String.length t) u c = Some m ->
  star_greedy p k pos (t +:+ u) c = Some m.
Proof.
  revert pos. induction t as [|x t IH]; intros pos Ht Hk; simpl in *.
  - now rewrite Nat.add_0_r in Hk.
  - apply andb_prop in Ht as [Hx Ht]. rewrite Hx.
    rewrite (IH (S pos) Ht); [reflexivity|].
    now replace (S pos + String.length t)%nat with (pos + S (String.length t))%nat by lia.
Qed.

(** The greedy star stops where it stands when the rest of the pattern
    matches nowhere further on. *)
Lemma star_greedy_here p (u : string) k pos c :
  (forall j, (0 < j <= String.length u)%nat ->
             k (pos + j)%nat (Js.drop j u) c = None) ->
  star_greedy p k pos u c = k pos u c.
Proof.
  revert pos. induction u as [|x u IH]; intros pos Hk; simpl; [reflexivity|].
  destruct (p x); [|reflexivity].
  rewrite IH.
  - specialize (Hk 1%nat). simpl in Hk.
    replace (pos + 1)%nat with (S pos) in Hk by lia.
    rewrite ?drop_0 in Hk. rewrite Hk; [reflexivity | lia].
  - intros j Hj. specialize (Hk (S j)). simpl in Hk.
    replace (pos + S j)%nat with (S pos + j)%nat in Hk by lia.
    apply Hk. lia.
Qed.

(** With nothing left to match, the greedy star takes the whole run. *)
Lemma star_greedy_accept p (t : string) pos c :
  Js.all_chars p t = true ->
  star_greedy p accept pos t c = Some ((pos + String.length t)%nat, c).
Proof.
  intros Ht. rewrite <- (string_app_nil_r t) at 1.
  apply star_greedy_app; [assumption | reflexivity].
Qed.

Lemma star_greedy_accept_run p (s : string) pos c :
  star_greedy p accept pos s c = Some ((pos + run_length p s)%nat, c).
Proof.
  revert pos. induction s as [|x s IH]; intros pos; simpl.
  - unfold accept. now rewrite Nat.add_0_r.
  - destruct (p x).
    + rewrite IH. do 2 f_equal. lia.
    + unfold accept. now rewrite Nat.add_0_r.
Qed.

(** The same for a class that is a condition on the input. *)
Lemma star_greedy_at_app q (t u : string) k pos c m :
  (forall j, (j < String.length t)%nat -> q (Js.drop j (t +:+ u)) = true) ->
  star_greedy_at q k (pos + String.length t) u c = Some m ->
  star_greedy_at q k pos (t +:+ u) c = Some m.
Proof.
  revert pos. induction t as [|x t IH]; intros pos Ht Hk.
  - cbn [String.length] in Hk. now rewrite Nat.add_0_r in Hk.
  - cbn [String.append star_greedy_at].
    pose proof (Ht O ltac:(cbn; lia)) as H0. cbn [Js.drop String.append] in H0.
    rewrite H0, (IH (S pos)); [reflexivity | |].
    + intros j Hj. apply (Ht (S j)). cbn [String.length]. lia.
    + cbn [String.length] in Hk.
      now replace (S pos + String.length t)%nat
        with (pos + S (String.length t))%nat by lia.
Qed.

Lemma star_greedy_at_here q (u : string) k pos c :
  (forall j, (0 < j <= String.length u)%nat ->
             k (pos + j)%nat (Js.drop j u) c = None) ->
  star_greedy_at q k pos u c = k pos u c.
Proof.
  revert pos. induction u as [|x u IH]; intros pos Hk; [reflexivity|].
  cbn [star_greedy_at]. destruct (q (String x u)); [|reflexivity].
  rewrite IH.
  - specialize (Hk 1%nat). cbn [Js.drop String.length] in Hk.
    replace (pos + 1)%nat with (S pos) in Hk by lia.
    rewrite ?drop_0 in Hk. rewrite Hk; [reflexivity | lia].
  - intros j Hj. specialize (Hk (S j)). cbn [Js.drop String.length] in Hk.
    replace (pos + S j)%nat with (S pos + j)%nat in Hk by lia.
    apply Hk. lia.
Qed.

(** A pattern anchored with [^] matches only at the start. *)
Lemma exec_from_bol r pos (s : string) :
  exec_from (Seq Bol r) (S pos) s = None.
Proof.
  revert pos. induction s as [|x s IH]; intros pos; simpl; [reflexivity | apply IH].
Qed.

End RegexFacts.

(** ** [cleanChapterNumber] *)

Lemma stripLeadingZeros_drop (s : string) :
  stripLeadingZeros s = Js.drop (run_length (Ascii.eqb "0") s) s.
Proof.
  induction s as [|a s IH]; cbn [stripLeadingZeros run_length]; [reflexivity|].
  destruct (Ascii.eqb "0" a); [exact IH | reflexivity].
Qed.

Lemma replace_leadingZeros (s : string) :
  Regex.replace WeebCentral.leadingZeros "" s = stripLeadingZeros s.
Proof.
  unfold Regex.replace, Regex.exec, WeebCentral.leadingZeros, Regex.Plus.
  destruct s as [|a s]; [reflexivity|].
  cbn [Regex.exec_from Regex.rmatch Nat.eqb stripLeadingZeros].
  destruct (Ascii.eqb "0" a).
  - rewrite star_greedy_accept_run.
    cbn [Regex.index Regex.lastIndex Js.take Js.drop Nat.add String.append].
    apply eq_sym, stripLeadingZeros_drop.
  - now rewrite exec_from_bol.
Qed.

(** C8: [cleanChapterNumber] removes every leading ['0'] of its input and
    returns ["0"] when nothing is left; in particular it maps ["007"] to
    ["7"] and the empty string to ["0"]. *)
Theorem C8_cleanChapterNumber_strips_leading_zeros :
  (forall s : string,
     WeebCentral.cleanChapterNumber s =
     if String.eqb (stripLeadingZeros s) "" then "0" else stripLeadingZeros s)
  /\ WeebCentral.cleanChapterNumber "007" = "7"
  /\ WeebCentral.cleanChapterNumber "" = "0".
Proof.
  split; [|split; reflexivity].
  intros s. unfold WeebCentral.cleanChapterNumber.
  now rewrite replace_leadingZeros.
Qed.

(** ** [constructProxyUrl] *)

(** C6: the proxy URL is the proxy base, then [?url=] and the
    percent-encoded original URL as first parameter, then the parameters of
    the options that are not empty, each percent-encoded.  The WeebCentral
    and Webtoons copies of the function append [referer], [user-agent] and
    [origin], in that order, each exactly when its option is not empty; the
    MangaDex copy appends [referer] exactly when it is not empty, and
    nothing for the other two options. *)
Theorem C6_constructProxyUrl_format :
  (forall (imageUrl : string) (o : Host.ProxyOptions),
     WeebCentral.constructProxyUrl imageUrl o =
       WeebCentral.PROXY_BASE_URL +:+ "?url=" +:+ Js.encodeURIComponent imageUrl
       +:+ proxyParam "referer" (Host.referer o)
       +:+ proxyParam "user-agent" (Host.userAgent o)
       +:+ proxyParam "origin" (Host.origin o)
     /\ Webtoons.constructProxyUrl imageUrl o =
       Webtoons.PROXY_BASE_URL +:+ "?url=" +:+ Js.encodeURIComponent imageUrl
       +:+ proxyParam "referer" (Host.referer o)
       +:+ proxyParam "user-agent" (Host.userAgent o)
       +:+ proxyParam "origin" (Host.origin o))
  /\ (forall (imageUrl : string) (o : Host.ProxyOptions),
     MangaDex.constructProxyUrl imageUrl o =
       MangaDex.PROXY_BASE_URL +:+ "?url=" +:+ Js.encodeURIComponent imageUrl
       +:+ proxyParam "referer" (Host.referer o)).
Proof.
  split.
  - intros imageUrl [r u o].
    unfold WeebCentral.constructProxyUrl, Webtoons.constructProxyUrl, proxyParam.
    cbn [Host.referer Host.userAgent Host.origin].
    destruct (Js.nonempty r), (Js.nonempty u), (Js.nonempty o);
      cbn [app Js.join]; split;
      rewrite ?string_app_assoc, ?string_app_nil_r; reflexivity.
  - intros imageUrl [r u o].
    unfold MangaDex.constructProxyUrl, proxyParam. cbn [Host.referer].
    destruct (Js.nonempty r); cbn [app Js.join];
      rewrite ?string_app_assoc, ?string_app_nil_r; reflexivity.
Qed.

(** C6, the MangaDex copy: an option that names a user agent contributes no
    [user-agent] parameter. *)
Lemma C6_mangadex_drops_user_agent :
  let o := {| Host.referer := ""; Host.userAgent := "Mozilla/5.0";
              Host.origin := "" |} in
  let imageUrl := "https://uploads.mangadex.org/covers/m1/c.jpg" in
  Js.nonempty (Host.userAgent o) = true
  /\ MangaDex.constructProxyUrl imageUrl o
     = "http://localhost:8080/api/proxy/resource?url=https%3A%2F%2Fuploads.mangadex.org%2Fcovers%2Fm1%2Fc.jpg"
  /\ MangaDex.constructProxyUrl imageUrl o
     <> MangaDex.PROXY_BASE_URL +:+ "?url=" +:+ Js.encodeURIComponent imageUrl
        +:+ proxyParam "referer" (Host.referer o)
        +:+ proxyParam "user-agent" (Host.userAgent o)
        +:+ proxyParam "origin" (Host.origin o)
  /\ WeebCentral.constructProxyUrl imageUrl o
     = "http://localhost:8080/api/proxy/resource?url=https%3A%2F%2Fuploads.mangadex.org%2Fcovers%2Fm1%2Fc.jpg&user-agent=Mozilla%2F5.0".
Proof. cbv zeta. repeat split; try (vm_compute; reflexivity). vm_compute. discriminate. Qed.

(** ** The Webtoons chapter identifier *)

Section ChapterIdFacts.
Import Regex.

Lemma rmatch_group_plus p i (t u : string) k pos c m :
  t <> "" -> Js.all_chars p t = true ->
  star_greedy p
    (fun pos' s' c' => k pos' s' ((i, Js.take (pos' - pos) (t +:+ u)) :: c'))
    (pos + String.length t) u c = Some m ->
  rmatch (Group i (Plus p)) k pos (t +:+ u) c = Some m.
Proof.
  intros Hne Ht Hk. destruct t as [|x t]; [congruence|].
  cbn [Js.all_chars] in Ht. apply andb_prop in Ht as [Hx Ht].
  unfold Plus. cbn [rmatch String.append]. rewrite Hx.
  apply star_greedy_app; [assumption|].
  cbn [String.length] in Hk.
  now replace (S pos + String.length t)%nat with (pos + S (String.length t))%nat by lia.
Qed.

Lemma star_greedy_stop p x (u : string) k pos c :
  p x = false -> star_greedy p k pos (String x u) c = k pos (String x u) c.
Proof. intros Hx. cbn [star_greedy]. now rewrite Hx. Qed.

Lemma includes_drop (t s : string) j :
  Js.includes t s = false -> Js.startsWith t (Js.drop j s) = false.
Proof.
  revert j. induction s as [|x s IH]; intros j H.
  - destruct j; exact (proj1 (orb_false_elim _ _ H)).
  - cbn [Js.includes] in H. apply orb_false_elim in H as [H1 H2].
    destruct j as [|j]; [exact H1 | apply IH, H2].
Qed.

Lemma chNum_not_later (n : string) j :
  Js.includes "chNum" n = false -> (0 < j)%nat ->
  Js.startsWith "chNum" (Js.drop j ("chNum" +:+ n)) = false.
Proof.
  intros Hn Hj.
  destruct j as [|[|[|[|[|j]]]]]; [lia | try reflexivity ..].
  change (Js.drop (S (S (S (S (S j))))) ("chNum" +:+ n)) with (Js.drop j n).
  now apply includes_drop.
Qed.

Lemma underscored_app (a b : string) :
  underscored (a +:+ b) = underscored a +:+ underscored b.
Proof. apply map_chars_app. Qed.

Lemma underscored_digits (s : string) :
  Js.all_chars Js.is_digit s = true -> underscored s = s.
Proof.
  intros H. apply map_chars_id.
  apply all_chars_impl with (2 := H). intros c Hc.
  destruct (Ascii.eqb c "-") eqn:E; [|apply Ascii.eqb_refl].
  apply Ascii.eqb_eq in E. subst c. discriminate.
Qed.

Lemma rmatch_group_plus_at q i (t u : string) k pos c m :
  t <> "" ->
  (forall j, (j < String.length t)%nat -> q (Js.drop j (t +:+ u)) = true) ->
  star_greedy_at q
    (fun pos' s' c' => k pos' s' ((i, Js.take (pos' - pos) (t +:+ u)) :: c'))
    (pos + String.length t) u c = Some m ->
  rmatch (Group i (PlusAt q)) k pos (t +:+ u) c = Some m.
Proof.
  intros Hne Ht Hk. destruct t as [|x t]; [congruence|].
  pose proof (Ht O ltac:(cbn; lia)) as H0. cbn [Js.drop] in H0.
  unfold PlusAt. cbn [rmatch]. cbn [String.append] in *. rewrite H0.
  apply star_greedy_at_app.
  - intros j Hj. apply (Ht (S j)). cbn [String.length]. lia.
  - cbn [String.length] in Hk.
    now replace (S pos + String.length t)%nat
      with (pos + S (String.length t))%nat by lia.
Qed.

(** A string without line terminator, followed by a string that begins
    with a character of one byte, is in the class [.] at each of its
    positions. *)
Lemma line_terminator_at_app (x u : string) :
  x <> "" -> begins_plain u ->
  Js.line_terminator_at (x +:+ u) = Js.line_terminator_at x.
Proof.
  intros Hx Hu. destruct x as [|a [|b [|c x]]]; [congruence | | | reflexivity].
  - cbn [String.append Js.line_terminator_at].
    destruct u as [|b [|c u]]; [reflexivity | reflexivity |].
    cbn [begins_plain] in Hu.
    assert (E : Ascii.eqb b (Js.chr 128) = false).
    { apply Ascii.eqb_neq. intros ->. vm_compute in Hu. lia. }
    now rewrite E, andb_false_r.
  - cbn [String.append Js.line_terminator_at].
    destruct u as [|c u]; [reflexivity|].
    cbn [begins_plain] in Hu.
    assert (E1 : Ascii.eqb c (Js.chr 168) = false).
    { apply Ascii.eqb_neq. intros ->. vm_compute in Hu. lia. }
    assert (E2 : Ascii.eqb c (Js.chr 169) = false).
    { apply Ascii.eqb_neq. intros ->. vm_compute in Hu. lia. }
    now rewrite E1, E2, andb_false_r.
Qed.

Lemma no_line_terminator_dot (t u : string) :
  no_line_terminator t = true -> begins_plain u ->
  forall j, (j < String.length t)%nat -> dot (Js.drop j (t +:+ u)) = true.
Proof.
  intros Ht Hu. induction t as [|x t IH]; intros j Hj; [cbn in Hj; lia|].
  cbn [no_line_terminator] in Ht. apply andb_prop in Ht as [H0 Ht].
  destruct j as [|j].
  - cbn [Js.drop]. unfold dot.
    now rewrite (line_terminator_at_app (String x t) u) by (discriminate || assumption).
  - cbn [String.append Js.drop]. apply (IH Ht). cbn [String.length] in Hj. lia.
Qed.

(** The substitution touches no byte of a line terminator. *)
Lemma underscored_char_eqb (a c : ascii) :
  c <> "-"%char -> c <> "_"%char ->
  Ascii.eqb (if Ascii.eqb a "-" then "_"%char else a) c = Ascii.eqb a c.
Proof.
  intros H1 H2. destruct (Ascii.eqb a "-") eqn:E; [|reflexivity].
  apply Ascii.eqb_eq in E. subst a.
  transitivity false; [|symmetry]; apply Ascii.eqb_neq; congruence.
Qed.

Lemma underscored_line_terminator_at (s : string) :
  Js.line_terminator_at (underscored s) = Js.line_terminator_at s.
Proof.
  unfold underscored, Js.replace_all_char.
  destruct s as [|a [|b [|c s]]]; cbn [Js.map_chars Js.line_terminator_at];
    rewrite ?underscored_char_eqb by discriminate; reflexivity.
Qed.

Lemma underscored_no_line_terminator (s : string) :
  no_line_terminator s = true -> no_line_terminator (underscored s) = true.
Proof.
  induction s as [|a s IH]; [reflexivity|].
  intros H. cbn [no_line_terminator] in H. apply andb_prop in H as [H0 H].
  change (underscored (String a s))
    with (String (if Ascii.eqb a "-" then "_"%char else a) (underscored s)).
  cbn [no_line_terminator].
  change (String (if Ascii.eqb a "-" then "_"%char else a) (underscored s))
    with (underscored (String a s)).
  now rewrite underscored_line_terminator_at, H0, IH.
Qed.

Lemma underscored_nonempty (s : string) : s <> "" -> underscored s <> "".
Proof. destruct s; [congruence | discriminate]. Qed.

Lemma underscored_startsWith_chNum (s : string) :
  Js.startsWith "chNum" (underscored s) = Js.startsWith "chNum" s.
Proof.
  assert (Hc : forall a c : ascii, c <> "-"%char -> c <> "_"%char ->
            Ascii.eqb c (if Ascii.eqb a "-" then "_"%char else a) = Ascii.eqb c a).
  { intros a c H1 H2. destruct (Ascii.eqb a "-") eqn:E; [|reflexivity].
    apply Ascii.eqb_eq in E. subst a.
    transitivity false; [|symmetry]; now apply Ascii.eqb_neq. }
  unfold underscored, Js.replace_all_char.
  do 5 (destruct s as [|? s]; [reflexivity|];
        cbn [Js.map_chars Js.startsWith]; rewrite Hc by discriminate; f_equal).
Qed.

Lemma underscored_includes_chNum (s : string) :
  Js.includes "chNum" (underscored s) = Js.includes "chNum" s.
Proof.
  induction s as [|x s IH]; [reflexivity|].
  pose proof (underscored_startsWith_chNum (String x s)) as Hx.
  unfold underscored, Js.replace_all_char in *.
  cbn [Js.map_chars Js.includes] in *. now rewrite IH, Hx.
Qed.

(** The identifier the encoder produces, spelled out. *)
Lemma encodeChapterId_shape (S V N : string) :
  Js.all_chars Js.is_digit S = true ->
  Webtoons.encodeChapterId S V N =
  "id" +:+ S +:+ "viewerLink" +:+ underscored V +:+ "chNum" +:+ underscored N.
Proof.
  intros HS. unfold Webtoons.encodeChapterId. fold (underscored
    ("id" +:+ S +:+ "viewerLink" +:+ V +:+ "chNum" +:+ N)).
  rewrite !underscored_app, (underscored_digits S HS). reflexivity.
Qed.

Lemma rmatch_seq r1 r2 k pos (s : string) c :
  rmatch (Seq r1 r2) k pos s c = rmatch r1 (rmatch r2 k) pos s c.
Proof. reflexivity. Qed.

Lemma star_greedy_stop' p (s : string) k pos c :
  match s with String x _ => p x = false | EmptyString => True end ->
  star_greedy p k pos s c = k pos s c.
Proof. destruct s as [|x s]; [reflexivity | apply star_greedy_stop]. Qed.

Lemma take_split pos (t u : string) :
  Js.take (pos + String.length t - pos) (t +:+ u) = t.
Proof.
  replace (pos + String.length t - pos)%nat with (String.length t) by lia.
  apply take_app_length.
Qed.

Lemma exec_from_here r pos (s : string) e c :
  rmatch r accept pos s [] = Some (e, c) ->
  exec_from r pos s = Some (MatchResult pos e c).
Proof. intros H. destruct s; cbn [exec_from]; now rewrite H. Qed.

Lemma exec_from_none r pos (s : string) :
  exec_from r pos s = None -> rmatch r accept pos s [] = None.
Proof.
  destruct s; cbn [exec_from]; destruct (rmatch r accept pos _ []) as [[e c]|];
    congruence.
Qed.

(** Decoding an identifier of that shape splits it where it was joined. *)
Lemma decode_shape (S V N : string) :
  S <> "" -> Js.all_chars Js.is_digit S = true ->
  V <> "" -> no_line_terminator V = true ->
  N <> "" -> no_line_terminator N = true ->
  Js.includes "chNum" N = false ->
  Webtoons.decodeChapterId ("id" +:+ S +:+ "viewerLink" +:+ V +:+ "chNum" +:+ N)
  = Some (S, V, N).
Proof.
  intros HS1 HS2 HV1 HV2 HN1 HN2 HN3.
  unfold Webtoons.decodeChapterId, exec.
  assert (Hm : exists e,
             rmatch Webtoons.chapterIdRegex accept 0
               ("id" +:+ S +:+ "viewerLink" +:+ V +:+ "chNum" +:+ N) [] =
             Some (e, [(3, N); (2, V); (1, S)]%nat)).
  { eexists. unfold Webtoons.chapterIdRegex. cbn [seq].
    rewrite rmatch_seq, rmatch_lit_app, rmatch_seq.
    apply rmatch_group_plus; [assumption..|].
    rewrite star_greedy_stop' by reflexivity. cbv beta.
    rewrite take_split, rmatch_seq, rmatch_lit_app, rmatch_seq.
    apply rmatch_group_plus_at;
      [assumption | apply no_line_terminator_dot; [assumption | vm_compute; lia] |].
    rewrite star_greedy_at_here.
    - cbv beta. rewrite take_split, rmatch_seq, rmatch_lit_app, rmatch_seq.
      rewrite <- (string_app_nil_r N) at 1.
      apply rmatch_group_plus_at;
        [assumption | apply no_line_terminator_dot; [assumption | exact I] |].
      cbn [star_greedy_at rmatch accept]. rewrite take_split. reflexivity.
    - intros j Hj. cbv beta. rewrite rmatch_seq. apply rmatch_lit_fail.
      apply chNum_not_later; [assumption | lia]. }
  destruct Hm as [e Hm]. now rewrite (exec_from_here _ _ _ _ _ Hm).
Qed.

End ChapterIdFacts.

Lemma underscored_hyphen_free (s : string) : hyphen_free s -> underscored s = s.
Proof.
  intros H. apply map_chars_id. apply all_chars_impl with (2 := H). intros c Hc.
  destruct (Ascii.eqb c "-"); [discriminate | apply Ascii.eqb_refl].
Qed.

Lemma underscored_fixed (s : string) : underscored s = s -> hyphen_free s.
Proof.
  unfold hyphen_free, underscored, Js.replace_all_char.
  induction s as [|a s IH]; [reflexivity|].
  cbn [Js.map_chars Js.all_chars]. intros [= Ha Hs].
  rewrite (IH Hs), andb_true_r.
  destruct (Ascii.eqb a "-") eqn:E; [|reflexivity].
  apply Ascii.eqb_eq in E. subst a. discriminate.
Qed.

(** C2, as the code has it: for a series id [S] of one or more digits, a
    viewer link [V] and an episode number [N] that are not empty, hold no
    line terminator and, for [N], no occurrence of [chNum], decoding the
    encoded identifier yields [S] and yields [V] and [N] with every [-]
    replaced by [_]; it yields [V] and [N] themselves exactly when they hold
    no [-]. *)
Theorem C2_chapter_id_roundtrip_up_to_hyphens (S V N : string) :
  S <> "" -> Js.all_chars Js.is_digit S = true ->
  V <> "" -> no_line_terminator V = true ->
  N <> "" -> no_line_terminator N = true ->
  Js.includes "chNum" N = false ->
  Webtoons.decodeChapterId (Webtoons.encodeChapterId S V N)
    = Some (S, underscored V, underscored N)
  /\ (Webtoons.decodeChapterId (Webtoons.encodeChapterId S V N) = Some (S, V, N)
      <-> hyphen_free V /\ hyphen_free N).
Proof.
  intros HS1 HS2 HV1 HV2 HN1 HN2 HN3.
  assert (H : Webtoons.decodeChapterId (Webtoons.encodeChapterId S V N)
              = Some (S, underscored V, underscored N)).
  { rewrite encodeChapterId_shape by assumption.
    apply decode_shape;
      auto using underscored_nonempty, underscored_no_line_terminator.
    now rewrite underscored_includes_chNum. }
  split; [exact H|]. rewrite H. split.
  - intros [= EV EN]. split; now apply underscored_fixed.
  - intros [FV FN].
    now rewrite (underscored_hyphen_free V FV), (underscored_hyphen_free N FN).
Qed.

Lemma C2_chapter_id_roundtrip_witness :
  Webtoons.decodeChapterId
    (Webtoons.encodeChapterId "6795" "/en/drama/title/ep-1/viewer?title_no=6795" "1")
  = Some ("6795", "/en/drama/title/ep_1/viewer?title_no=6795", "1")
  /\ Webtoons.decodeChapterId
       (Webtoons.encodeChapterId "6795" "/en/viewer?title_no=6795&episode_no=1" "1")
     = Some ("6795", "/en/viewer?title_no=6795&episode_no=1", "1").
Proof.
  split.
  - apply (C2_chapter_id_roundtrip_up_to_hyphens
             "6795" "/en/drama/title/ep-1/viewer?title_no=6795" "1");
      first [discriminate | reflexivity].
  - apply (C2_chapter_id_roundtrip_up_to_hyphens
             "6795" "/en/viewer?title_no=6795&episode_no=1" "1");
      first [discriminate | reflexivity | split; reflexivity].
Defined.

(** A viewer link with hyphens, as the site serves them, is not recovered:
    the decoder returns the link with underscores. *)
Lemma C2_hyphens_not_recovered :
  Webtoons.decodeChapterId
    (Webtoons.encodeChapterId "6795"
       "/en/super-hero/unordinary/episode-1/viewer?title_no=6795&episode_no=1" "1")
  <> Some ("6795",
           "/en/super-hero/unordinary/episode-1/viewer?title_no=6795&episode_no=1",
           "1").
Proof. vm_compute. discriminate. Qed.

(** ** Requests *)

Section MonadFacts.
Import Host.
Context {A B : Type}.

Lemma bind_Return (m : M A) (k : A -> M B) tr b tr' :
  bind m k tr = (Return b, tr') ->
  exists a tr1, m tr = (Return a, tr1) /\ k a tr1 = (Return b, tr').
Proof.
  unfold bind. destruct (m tr) as [[a|e|] tr1]; intros H; try discriminate.
  eauto.
Qed.

Lemma try_catch_Return (m : M A) (h : exn -> M A) tr a tr' :
  (forall e tr1 tr2 x, h e tr1 <> (Return x, tr2)) ->
  try_catch m h tr = (Return a, tr') -> m tr = (Return a, tr').
Proof.
  intros Hh. unfold try_catch. destruct (m tr) as [[x|e|] tr1]; intros H;
    try assumption. now apply Hh in H.
Qed.

End MonadFacts.

(** C9: when the identifier does not match the pattern of the chapter
    identifier, [/id(\d+)viewerLink(.+)chNum(.+)/], the Webtoons
    [getPageURLs] throws "Invalid chapter ID format" and has issued no
    request.  An identifier does not match, for one, when only a line
    terminator stands between [viewerLink] and [chNum], or after
    [chNum]. *)
Theorem C9_invalid_chapter_id_no_request
  (mango : Host.Mango string) (chapterId : string) :
  Regex.exec Webtoons.chapterIdRegex chapterId = None ->
  Host.run (Webtoons.getPageURLs mango chapterId)
  = (Host.Throw (Host.Error "Invalid chapter ID format"), []).
Proof.
  intros H. unfold Webtoons.getPageURLs, Webtoons.decodeChapterId.
  now rewrite H.
Qed.

Lemma C9_invalid_chapter_id_witness :
  Host.run (Webtoons.getPageURLs offline "chapter-1")
  = (Host.Throw (Host.Error "Invalid chapter ID format"), [])
  /\ Host.run (Webtoons.getPageURLs offline
                 ("id1viewerLink/a" +:+ lineSeparator +:+ "bchNum1"))
     = (Host.Throw (Host.Error "Invalid chapter ID format"), []).
Proof. split; apply C9_invalid_chapter_id_no_request; reflexivity. Defined.

(** ** Page lists *)

Section PageFacts.
Import Host.

Lemma length_eqb_0 {X : Type} (l : list X) : (length l =? 0)%nat = true <-> l = [].
Proof. destruct l; cbn; split; congruence. Qed.

Lemma weebcentral_pages_not_empty mango rt chapterIdentifier out tr :
  run (WeebCentral.getPageURLs mango rt chapterIdentifier) = (Return out, tr) ->
  out <> [].
Proof.
  unfold run, WeebCentral.getPageURLs. intros H.
  apply bind_Return in H as (response & tr1 & _ & H).
  destruct (negb (status response =? 200)); [discriminate|].
  destruct (parseHTML mango) as [parse|]; [|discriminate].
  destruct (parse (data response)) as [doc|]; [|discriminate].
  destruct (length _ =? 0)%nat eqn:E; [discriminate|].
  injection H as <- _. intros Hnil. rewrite Hnil in E. discriminate.
Qed.

Lemma weebcentral_no_pages mango rt chapterIdentifier response parse doc :
  http mango [] (weebcentralPageRequest chapterIdentifier) = inr response ->
  status response = 200 ->
  parseHTML mango = Some parse -> parse (data response) = Some doc ->
  WeebCentral.scrapePages rt chapterIdentifier doc = [] ->
  run (WeebCentral.getPageURLs mango rt chapterIdentifier)
  = (Throw (Error "No pages found"), [weebcentralPageRequest chapterIdentifier]).
Proof.
  intros Hhttp Hst Hparse Hdoc Hpages.
  unfold run, WeebCentral.getPageURLs, bind, http_get, send.
  fold (weebcentralPageRequest chapterIdentifier).
  rewrite Hhttp, Hst, Hparse, Hdoc. cbv beta iota zeta.
  rewrite Hpages. reflexivity.
Qed.

Lemma webtoons_pages_not_empty mango chapterId out tr :
  run (Webtoons.getPageURLs mango chapterId) = (Return out, tr) -> out <> [].
Proof.
  unfold run, Webtoons.getPageURLs. intros H.
  destruct (Webtoons.decodeChapterId chapterId) as [[[mangaID viewerLink] n]|];
    [|discriminate].
  apply bind_Return in H as (resp & tr1 & _ & H).
  destruct (status resp =? 200); [|discriminate].
  destruct (Regex.exec Webtoons.imageListDivRegex (data resp)); [|discriminate].
  destruct (length _ =? 0)%nat eqn:E; [discriminate|].
  injection H as <- _. intros Hmap. apply map_eq_nil in Hmap.
  rewrite Hmap in E. discriminate.
Qed.

Lemma mangadex_no_pages mango chapterIdentifier response :
  http mango [] (mangadexPageRequest mango chapterIdentifier) = inr response ->
  status response = 200 ->
  default [] (MangaDex.ah_data (MangaDex.ah_chapter (data response))) = [] ->
  run (MangaDex.getPageURLs mango chapterIdentifier)
  = (Return [], [mangadexPageRequest mango chapterIdentifier]).
Proof.
  intros Hhttp Hst Hdata.
  unfold run, MangaDex.getPageURLs, bind, http_get, send.
  fold (mangadexPageRequest mango chapterIdentifier).
  rewrite Hhttp, Hst. cbv beta iota zeta. rewrite Hdata. reflexivity.
Qed.

End PageFacts.

Lemma webtoons_no_pages (mango : Host.Mango string) chapterId
  mangaID viewerLink n resp m :
  Webtoons.decodeChapterId chapterId = Some (mangaID, viewerLink, n) ->
  Host.http mango [] (webtoonsViewerRequest viewerLink) = inr resp ->
  Host.status resp = 200 ->
  Regex.exec Webtoons.imageListDivRegex (Host.data resp) = Some m ->
  Webtoons.imageUrlsOf (Js.opt_str (Regex.group 1 (Regex.groups m))) = [] ->
  Host.run (Webtoons.getPageURLs mango chapterId)
  = (Host.Throw (Host.Error "No images found in _imageList div"),
     [webtoonsViewerRequest viewerLink]).
Proof.
  intros Hdec Hhttp Hst Hdiv Hurls.
  unfold Host.run, Webtoons.getPageURLs, Host.bind, Host.http_get, Host.send.
  rewrite Hdec. fold (webtoonsViewerRequest viewerLink).
  rewrite Hhttp, Hst. cbv beta iota zeta. rewrite Hdiv. cbv beta iota zeta.
  rewrite Hurls. reflexivity.
Qed.




(** ** Search results *)

Lemma weebcentral_search_success (mango : Host.Mango string) query response parse doc :
  Host.http mango [] (weebcentralSearchRequest query) = inr response ->
  Host.status response = 200 ->
  Js.trim (Host.data response) <> "" ->
  Host.parseHTML mango = Some parse -> parse (Host.data response) = Some doc ->
  Host.run (WeebCentral.search mango query)
  = (Host.Return (omap WeebCentral.searchEntry (WeebCentral.searchLinks doc)),
     [weebcentralSearchRequest query]).
Proof.
  intros Hhttp Hst Hblank Hparse Hdoc.
  unfold Host.run, WeebCentral.search, Host.bind, Host.http_post, Host.send.
  fold (weebcentralSearchRequest query).
  rewrite Hhttp, Hst, Hparse, Hdoc. cbv beta iota zeta.
  assert (Hne : Js.nonempty (Host.data response) = true).
  { destruct (Host.data response); [now elim Hblank | reflexivity]. }
  rewrite Hne.
  destruct (Js.trim (Host.data response)); [now elim Hblank | reflexivity].
Qed.

Lemma webtoons_search_success (mango : Host.Mango Webtoons.SearchData) query response res :
  Host.http mango [] (webtoonsSearchRequest query) = inr response ->
  Host.status response = 200 ->
  Webtoons.result (Host.data response) = Some res ->
  Webtoons.total res <> Some 0 ->
  Host.run (Webtoons.search mango query)
  = (Host.Return (omap Webtoons.searchEntry (default [] (Webtoons.searchedList res))),
     [webtoonsSearchRequest query]).
Proof.
  intros Hhttp Hst Hres Htotal.
  unfold Host.run, Webtoons.search, Host.try_catch, Host.bind, Host.http_get, Host.send.
  fold (webtoonsSearchRequest query).
  rewrite Hhttp, Hst, Hres. cbv beta iota zeta.
  now rewrite bool_decide_eq_false_2.
Qed.

Lemma mangadex_search_success (mango : Host.Mango (option MangaDex.SearchData))
  query response apiResponse entries :
  Host.http mango [] (mangadexSearchRequest mango query) = inr response ->
  Host.status response = 200 ->
  Host.data response = Some apiResponse ->
  MangaDex.sd_data apiResponse = Some entries -> entries <> [] ->
  Host.run (MangaDex.search mango query)
  = (Host.Return
       (omap (MangaDex.searchEntry
                (MangaDex.coverArtMapOf (default [] (MangaDex.included apiResponse))))
             entries),
     [mangadexSearchRequest mango query]).
Proof.
  intros Hhttp Hst Hdata Hentries Hne.
  unfold Host.run, MangaDex.search, Host.bind, Host.http_get, Host.send.
  fold (mangadexSearchRequest mango query).
  rewrite Hhttp, Hst, Hdata, Hentries. cbv beta iota zeta.
  destruct entries; [now elim Hne | reflexivity].
Qed.

Lemma title_chain (t0 t1 t2 : string) :
  (if Js.nonempty (if Js.nonempty t0 then t0 else t1)
   then if Js.nonempty t0 then t0 else t1
   else t2)
  = Js.str_or t0 (Js.str_or t1 t2).
Proof.
  unfold Js.str_or. destruct (Js.nonempty t0) eqn:H0; [now rewrite H0|].
  now destruct (Js.nonempty t1).
Qed.

Lemma weebcentral_entry link :
  exists cover,
    WeebCentral.searchEntry link
    = if Js.nonempty (linkId link) && Js.nonempty (linkTitle link)
      then Some {| Host.title := linkTitle link;
                   Host.cover_url := cover;
                   Host.identifier := linkId link |}
      else None.
Proof.
  unfold WeebCentral.searchEntry, linkId, linkTitle. cbv zeta.
  destruct (Js.opt_str (Dom.getAttribute "href" link)) as [|a href] eqn:Hhref.
  { exists "". reflexivity. }
  cbn [Js.nonempty negb].
  match goal with
  | |- context [Js.nonempty ?i && _] => generalize i
  end.
  intros idPart. eexists. rewrite !title_chain.
  match goal with
  | |- context [Js.nonempty idPart && Js.nonempty ?t] =>
      generalize t; intros title
  end.
  destruct (Js.nonempty idPart); [|reflexivity].
  destruct title; reflexivity.
Qed.

Lemma weebcentral_entry_kept link r :
  WeebCentral.searchEntry link = Some r ->
  Host.identifier r <> "" /\ Host.title r <> ""
  /\ Host.identifier r = linkId link /\ Host.title r = linkTitle link.
Proof.
  destruct (weebcentral_entry link) as (cover & ->).
  destruct (Js.nonempty (linkId link)) eqn:Hi; [|discriminate].
  destruct (Js.nonempty (linkTitle link)) eqn:Ht; [|discriminate].
  intros [= <-]. cbn [Host.identifier Host.title].
  repeat split; now apply nonempty_true.
Qed.

Lemma weebcentral_entry_dropped link :
  linkId link = "" \/ linkTitle link = "" -> WeebCentral.searchEntry link = None.
Proof.
  destruct (weebcentral_entry link) as (cover & ->).
  intros [-> | ->]; [reflexivity | now rewrite andb_false_r].
Qed.

Lemma weebcentral_entry_made link :
  linkId link <> "" -> linkTitle link <> "" ->
  exists r, WeebCentral.searchEntry link = Some r.
Proof.
  destruct (weebcentral_entry link) as (cover & ->). intros Hi Ht.
  destruct (linkId link); [congruence|]. destruct (linkTitle link); [congruence|].
  eexists. reflexivity.
Qed.

Lemma webtoons_entry_kept item :
  Webtoons.searchEntry item =
  match Webtoons.titleNo item with
  | None => None
  | Some n =>
      Some {| Host.title := Js.str_or (Js.opt_str (Webtoons.item_title item)) "Untitled";
              Host.cover_url := Webtoons.finalCoverUrlOf (Webtoons.coverUrlOf item);
              Host.identifier := Js.string_of_Z n |}
  end.
Proof. reflexivity. Qed.

Lemma mangadex_entry_kept m entry r :
  MangaDex.searchEntry m entry = Some r ->
  Host.identifier r <> "" /\
  exists mangaData attrs titles,
    entry = Some mangaData /\ MangaDex.id mangaData = Some (Host.identifier r) /\
    MangaDex.attributes mangaData = Some attrs /\
    MangaDex.attr_title attrs = Some titles /\
    Host.title r = Js.str_or (MangaDex.titleOf titles) "Untitled".
Proof.
  unfold MangaDex.searchEntry. destruct entry as [mangaData|]; [|discriminate].
  destruct (MangaDex.attributes mangaData) as [attrs|] eqn:Ha; [|discriminate].
  destruct (MangaDex.attr_title attrs) as [titles|] eqn:Ht; [|discriminate].
  cbv zeta. destruct (Js.nonempty (Js.opt_str (MangaDex.id mangaData))) eqn:Hi;
    [|discriminate].
  cbn [negb]. intros [= <-]. cbn [Host.identifier Host.title].
  split; [now apply nonempty_true|].
  exists mangaData, attrs, titles. repeat split; try assumption.
  destruct (MangaDex.id mangaData); [reflexivity | discriminate].
Qed.

(** C5, as the code has it: on a success response every [search] returns,
    without raising an error, the entries it keeps, in source order.
    WeebCentral keeps a link exactly when it yields an identifier and a
    title, and a kept entry carries them: a link without identifier or
    without title is dropped.  MangaDex keeps an entry only when it has an
    id and a title object, and titles it "Untitled" when the object holds no
    text; Webtoons keeps exactly the items that have a [titleNo], and titles
    an item without a title "Untitled". *)
Theorem C5_search_keeps_identified_entries :
  (forall (mango : Host.Mango string) query response parse doc,
     Host.http mango [] (weebcentralSearchRequest query) = inr response ->
     Host.status response = 200 ->
     Js.trim (Host.data response) <> "" ->
     Host.parseHTML mango = Some parse -> parse (Host.data response) = Some doc ->
     Host.run (WeebCentral.search mango query)
     = (Host.Return (omap WeebCentral.searchEntry (WeebCentral.searchLinks doc)),
        [weebcentralSearchRequest query]))
  /\ (forall link r,
     WeebCentral.searchEntry link = Some r ->
     Host.identifier r <> "" /\ Host.title r <> ""
     /\ Host.identifier r = linkId link /\ Host.title r = linkTitle link)
  /\ (forall link,
     linkId link = "" \/ linkTitle link = "" -> WeebCentral.searchEntry link = None)
  /\ (forall link,
     linkId link <> "" -> linkTitle link <> "" ->
     exists r, WeebCentral.searchEntry link = Some r)
  /\ (forall (mango : Host.Mango (option MangaDex.SearchData))
        query response apiResponse entries,
     Host.http mango [] (mangadexSearchRequest mango query) = inr response ->
     Host.status response = 200 ->
     Host.data response = Some apiResponse ->
     MangaDex.sd_data apiResponse = Some entries -> entries <> [] ->
     Host.run (MangaDex.search mango query)
     = (Host.Return
          (omap (MangaDex.searchEntry
                   (MangaDex.coverArtMapOf (default [] (MangaDex.included apiResponse))))
                entries),
        [mangadexSearchRequest mango query]))
  /\ (forall m entry r,
     MangaDex.searchEntry m entry = Some r ->
     Host.identifier r <> "" /\
     exists mangaData attrs titles,
       entry = Some mangaData /\ MangaDex.id mangaData = Some (Host.identifier r) /\
       MangaDex.attributes mangaData = Some attrs /\
       MangaDex.attr_title attrs = Some titles /\
       Host.title r = Js.str_or (MangaDex.titleOf titles) "Untitled")
  /\ (forall (mango : Host.Mango Webtoons.SearchData) query response res,
     Host.http mango [] (webtoonsSearchRequest query) = inr response ->
     Host.status response = 200 ->
     Webtoons.result (Host.data response) = Some res ->
     Webtoons.total res <> Some 0 ->
     Host.run (Webtoons.search mango query)
     = (Host.Return (omap Webtoons.searchEntry (default [] (Webtoons.searchedList res))),
        [webtoonsSearchRequest query]))
  /\ (forall item,
     Webtoons.searchEntry item =
     match Webtoons.titleNo item with
     | None => None
     | Some n =>
         Some {| Host.title :=
                   Js.str_or (Js.opt_str (Webtoons.item_title item)) "Untitled";
                 Host.cover_url := Webtoons.finalCoverUrlOf (Webtoons.coverUrlOf item);
                 Host.identifier := Js.string_of_Z n |}
     end).
Proof.
  split; [|split; [|split; [|split; [|split; [|split; [|split]]]]]].
  - intros. eapply weebcentral_search_success; eassumption.
  - apply weebcentral_entry_kept.
  - apply weebcentral_entry_dropped.
  - apply weebcentral_entry_made.
  - intros. eapply mangadex_search_success; eassumption.
  - apply mangadex_entry_kept.
  - intros. eapply webtoons_search_success; eassumption.
  - apply webtoons_entry_kept.
Qed.

Lemma C5_search_keeps_identified_entries_witness :
  Host.run (WeebCentral.search fourAnchorsHost "foo")
  = (Host.Return [{| Host.title := "Foo"; Host.cover_url := "";
                     Host.identifier := "abc-1" |}],
     [weebcentralSearchRequest "foo"])
  /\ (linkId (anchor "/series/xyz-2/" "  ") = "xyz-2"
      /\ WeebCentral.searchEntry (anchor "/series/xyz-2/" "  ") = None)
  /\ (linkTitle (anchor "/invalid-link" "Bar") = "Bar"
      /\ WeebCentral.searchEntry (anchor "/invalid-link" "Bar") = None)
  /\ (exists r, WeebCentral.searchEntry (anchor "/series/abc-1/" "Foo") = Some r)
  /\ Host.run (MangaDex.search coverHost "solo")
     = (Host.Return
          [{| Host.title := "Solo";
              Host.cover_url :=
                "/api/proxy/resource?url=https%3A%2F%2Fuploads.mangadex.org%2Fcovers%2Fmanga-1%2Fcover.jpg.256.jpg&referer=https%3A%2F%2Fmangadex.org%2F";
              Host.identifier := "manga-1" |}],
        [mangadexSearchRequest coverHost "solo"])
  /\ Host.run (Webtoons.search untitledHost "x")
     = (Host.Return [{| Host.title := "Untitled"; Host.cover_url := "";
                        Host.identifier := "6795" |}],
        [webtoonsSearchRequest "x"]).
Proof.
  destruct C5_search_keeps_identified_entries
    as (HW & _ & Hdrop & Hmade & HM & _ & HT & _).
  split; [|split; [|split; [|split; [|split]]]].
  - etransitivity; [eapply HW; by_computation | reflexivity].
  - split; [reflexivity | apply Hdrop; now right].
  - split; [reflexivity | apply Hdrop; now left].
  - apply Hmade; discriminate.
  - etransitivity; [eapply HM; by_computation | reflexivity].
  - etransitivity; [eapply HT; by_computation | reflexivity].
Defined.

(** An item without a title is not dropped by the Webtoons [search]: it is
    returned under the title "Untitled". *)
Lemma C5_webtoons_keeps_untitled_item :
  Webtoons.item_title untitledItem = None
  /\ exists tr,
       Host.run (Webtoons.search untitledHost "x")
       = (Host.Return [{| Host.title := "Untitled"; Host.cover_url := "";
                          Host.identifier := "6795" |}], tr).
Proof. split; [reflexivity | eexists; reflexivity]. Qed.

(** ** Cover URLs *)

Lemma strip_proxy_host (rest : string) :
  Js.replace_first "http://localhost:8080" ""
    ("http://localhost:8080/api/proxy/resource" +:+ rest)
  = "/api/proxy/resource" +:+ rest.
Proof.
  change ("http://localhost:8080/api/proxy/resource" +:+ rest)
    with ("http://localhost:8080" +:+ ("/api/proxy/resource" +:+ rest)).
  apply replace_first_prefix.
Qed.

Lemma webtoons_proxied_cover coverUrl :
  Webtoons.proxied coverUrl = true ->
  Webtoons.finalCoverUrlOf coverUrl
  = "/api/proxy/resource?url=" +:+ Js.encodeURIComponent coverUrl
    +:+ "&referer=https%3A%2F%2Fwww.webtoons.com%2F".
Proof.
  intros H. unfold Webtoons.finalCoverUrlOf. rewrite H.
  unfold Webtoons.constructProxyUrl, Webtoons.PROXY_BASE_URL.
  change (Js.nonempty (Host.referer Webtoons.refererOnly)) with true.
  change (Js.nonempty (Host.userAgent Webtoons.refererOnly)) with false.
  change (Js.nonempty (Host.origin Webtoons.refererOnly)) with false.
  cbn [app Js.join]. rewrite strip_proxy_host.
  change (Js.encodeURIComponent (Host.referer Webtoons.refererOnly))
    with "https%3A%2F%2Fwww.webtoons.com%2F".
  rewrite !string_app_assoc. reflexivity.
Qed.

Lemma startsWith_app_l (p a b : string) :
  Js.startsWith p a = true -> Js.startsWith p (a +:+ b) = true.
Proof.
  revert a. induction p as [|x p IH]; intros a; [reflexivity|].
  destruct a as [|y a]; [discriminate|]. cbn [Js.startsWith String.append].
  intros H. apply andb_prop in H as [H1 H2]. now rewrite H1, IH.
Qed.

Lemma includes_app_l (p a b : string) :
  Js.includes p a = true -> Js.includes p (a +:+ b) = true.
Proof.
  induction a as [|x a IH].
  - cbn [Js.includes]. rewrite orb_false_r. intros H.
    destruct p; [|discriminate]. now destruct b.
  - cbn [Js.includes String.append]. intros H. apply orb_true_iff in H as [H|H].
    + change (String x (a +:+ b)) with (String x a +:+ b).
      now rewrite startsWith_app_l.
    + rewrite IH by assumption. apply orb_true_r.
Qed.

Lemma webtoons_cover_of item :
  let thumbnail :=
    Js.str_or (Js.opt_str (Webtoons.thumbnailImage2 item))
              (Js.opt_str (Webtoons.thumbnailMobile item)) in
  Js.startsWith "http://" thumbnail || Js.startsWith "https://" thumbnail = true ->
  Js.includes "webtoon-phinf.pstatic.net" thumbnail = false ->
  Webtoons.finalCoverUrlOf (Webtoons.coverUrlOf item) = thumbnail.
Proof.
  cbv zeta. unfold Webtoons.coverUrlOf. cbv zeta.
  set (thumbnail := Js.str_or _ _). intros Habs Hhost.
  destruct (Js.nonempty thumbnail) eqn:Hne.
  - rewrite Habs. unfold Webtoons.finalCoverUrlOf, Webtoons.proxied.
    now rewrite Hhost, andb_false_r.
  - now destruct thumbnail.
Qed.

Lemma webtoons_cover_shape item r :
  Webtoons.searchEntry item = Some r ->
  Host.cover_url r = ""
  \/ Js.startsWith "/api/proxy/resource?" (Host.cover_url r) = true
  \/ (Js.startsWith "http://" (Host.cover_url r)
      || Js.startsWith "https://" (Host.cover_url r) = true
      /\ Js.includes "webtoon-phinf.pstatic.net" (Host.cover_url r) = false).
Proof.
  rewrite webtoons_entry_kept. destruct (Webtoons.titleNo item); [|discriminate].
  intros [= <-]. cbn [Host.cover_url].
  destruct (Webtoons.proxied (Webtoons.coverUrlOf item)) eqn:Hp.
  - right; left. rewrite webtoons_proxied_cover by assumption. reflexivity.
  - unfold Webtoons.finalCoverUrlOf. rewrite Hp.
    unfold Webtoons.proxied in Hp. apply andb_false_iff in Hp as [Hp|Hp].
    + left. now destruct (Webtoons.coverUrlOf item).
    + revert Hp. unfold Webtoons.coverUrlOf. cbv zeta.
      set (thumbnail := Js.str_or _ _).
      destruct (Js.nonempty thumbnail); [|now left].
      destruct (Js.startsWith "http://" thumbnail || Js.startsWith "https://" thumbnail)
        eqn:Habs.
      * intros Hp. right; right. now split.
      * intros Hp. exfalso.
        rewrite (includes_app_l "webtoon-phinf.pstatic.net" Webtoons.THUMBNAIL_URL) in Hp;
          [discriminate | reflexivity].
Qed.

Lemma mangadex_cover_shape m entry r :
  MangaDex.searchEntry m entry = Some r ->
  Host.cover_url r = ""
  \/ Js.startsWith "/api/proxy/resource?" (Host.cover_url r) = true.
Proof.
  unfold MangaDex.searchEntry. destruct entry as [mangaData|]; [|discriminate].
  destruct (MangaDex.attributes mangaData) as [attrs|]; [|discriminate].
  destruct (MangaDex.attr_title attrs) as [titles|]; [|discriminate].
  cbv zeta. destruct (negb _); [discriminate|].
  intros [= <-]. cbn [Host.cover_url].
  destruct (_ && _); [right | now left].
  reflexivity.
Qed.

Lemma webtoons_search_Return (mango : Host.Mango Webtoons.SearchData) query out tr :
  Host.run (Webtoons.search mango query) = (Host.Return out, tr) ->
  exists items, out = omap Webtoons.searchEntry items.
Proof.
  unfold Host.run, Webtoons.search. intros H.
  apply try_catch_Return in H; [|discriminate].
  apply bind_Return in H as (response & tr1 & _ & H).
  destruct (negb _); [discriminate|].
  destruct (Webtoons.result _) as [res|].
  - destruct (bool_decide _); injection H as <- _; [now exists [] | eauto].
  - injection H as <- _. now exists [].
Qed.

Lemma mangadex_search_Return (mango : Host.Mango (option MangaDex.SearchData))
  query out tr :
  Host.run (MangaDex.search mango query) = (Host.Return out, tr) ->
  exists m entries, out = omap (MangaDex.searchEntry m) entries.
Proof.
  unfold Host.run, MangaDex.search. intros H.
  apply bind_Return in H as (response & tr1 & _ & H).
  destruct (negb _); [discriminate|].
  destruct (Host.data response) as [apiResponse|].
  - destruct (MangaDex.sd_data apiResponse) as [[|e entries]|];
      injection H as <- _; [now exists ∅, [] | | now exists ∅, []].
    exists (MangaDex.coverArtMapOf (default [] (MangaDex.included apiResponse))),
           (e :: entries).
    reflexivity.
  - injection H as <- _. now exists ∅, [].
Qed.

(** C10, as the code has it: a cover URL that an adapter routes through
    the proxy is returned relative to the host.  Every [cover_url] of the
    MangaDex [search] is empty or begins with [/api/proxy/resource?].
    Every [cover_url] of the Webtoons [search] is empty, or begins with
    [/api/proxy/resource?], or is an absolute URL outside the thumbnail
    host: a thumbnail that is served as such a URL is returned as it
    is. *)
Theorem C10_proxied_cover_is_host_relative :
  (forall (mango : Host.Mango (option MangaDex.SearchData)) query out tr r,
     Host.run (MangaDex.search mango query) = (Host.Return out, tr) ->
     r ∈ out ->
     Host.cover_url r = ""
     \/ Js.startsWith "/api/proxy/resource?" (Host.cover_url r) = true)
  /\ (forall (mango : Host.Mango Webtoons.SearchData) query out tr r,
     Host.run (Webtoons.search mango query) = (Host.Return out, tr) ->
     r ∈ out ->
     Host.cover_url r = ""
     \/ Js.startsWith "/api/proxy/resource?" (Host.cover_url r) = true
     \/ (Js.startsWith "http://" (Host.cover_url r)
         || Js.startsWith "https://" (Host.cover_url r) = true
         /\ Js.includes "webtoon-phinf.pstatic.net" (Host.cover_url r) = false))
  /\ (forall item r,
     Webtoons.searchEntry item = Some r ->
     let thumbnail :=
       Js.str_or (Js.opt_str (Webtoons.thumbnailImage2 item))
                 (Js.opt_str (Webtoons.thumbnailMobile item)) in
     Js.startsWith "http://" thumbnail || Js.startsWith "https://" thumbnail = true ->
     Js.includes "webtoon-phinf.pstatic.net" thumbnail = false ->
     Host.cover_url r = thumbnail)
  /\ (forall coverUrl,
     Webtoons.proxied coverUrl = true ->
     Webtoons.finalCoverUrlOf coverUrl
     = "/api/proxy/resource?url=" +:+ Js.encodeURIComponent coverUrl
       +:+ "&referer=https%3A%2F%2Fwww.webtoons.com%2F").
Proof.
  split; [|split; [|split]].
  - intros mango query out tr r H Hr.
    apply mangadex_search_Return in H as (m & entries & ->).
    apply list_elem_of_omap in Hr as (entry & _ & Hr).
    now apply mangadex_cover_shape in Hr.
  - intros mango query out tr r H Hr.
    apply webtoons_search_Return in H as (items & ->).
    apply list_elem_of_omap in Hr as (item & _ & Hr).
    now apply webtoons_cover_shape in Hr.
  - intros item r H. rewrite webtoons_entry_kept in H.
    destruct (Webtoons.titleNo item); [|discriminate].
    injection H as <-. cbn [Host.cover_url]. apply webtoons_cover_of.
  - apply webtoons_proxied_cover.
Qed.

Lemma C10_proxied_cover_witness :
  (forall r,
     r ∈ [{| Host.title := "Solo";
             Host.cover_url :=
               "/api/proxy/resource?url=https%3A%2F%2Fuploads.mangadex.org%2Fcovers%2Fmanga-1%2Fcover.jpg.256.jpg&referer=https%3A%2F%2Fmangadex.org%2F";
             Host.identifier := "manga-1" |}] ->
     Host.cover_url r = ""
     \/ Js.startsWith "/api/proxy/resource?" (Host.cover_url r) = true)
  /\ (forall r,
     r ∈ [{| Host.title := "unOrdinary";
             Host.cover_url := "https://cdn.example.com/thumb.jpg";
             Host.identifier := "6795" |}] ->
     Host.cover_url r = ""
     \/ Js.startsWith "/api/proxy/resource?" (Host.cover_url r) = true
     \/ (Js.startsWith "http://" (Host.cover_url r)
         || Js.startsWith "https://" (Host.cover_url r) = true
         /\ Js.includes "webtoon-phinf.pstatic.net" (Host.cover_url r) = false))
  /\ Webtoons.finalCoverUrlOf "https://webtoon-phinf.pstatic.net/thumb.jpg"
     = "/api/proxy/resource?url="
       +:+ Js.encodeURIComponent "https://webtoon-phinf.pstatic.net/thumb.jpg"
       +:+ "&referer=https%3A%2F%2Fwww.webtoons.com%2F".
Proof.
  destruct C10_proxied_cover_is_host_relative as (HM & HT & _ & HP).
  split; [|split].
  - intros r. apply (HM coverHost "solo" _ [mangadexSearchRequest coverHost "solo"]).
    reflexivity.
  - intros r. apply (HT foreignCoverHost "x" _ [webtoonsSearchRequest "x"]).
    reflexivity.
  - apply HP. reflexivity.
Defined.

(** The Webtoons [search] returns the thumbnail of an item that is served
    from another host as it is: an absolute URL, which does not begin with
    [/api/proxy/resource?]. *)
Lemma C10_webtoons_absolute_cover :
  Host.run (Webtoons.search foreignCoverHost "x")
  = (Host.Return [{| Host.title := "unOrdinary";
                     Host.cover_url := "https://cdn.example.com/thumb.jpg";
                     Host.identifier := "6795" |}],
     [webtoonsSearchRequest "x"])
  /\ Js.startsWith "/api/proxy/resource?" "https://cdn.example.com/thumb.jpg" = false
  /\ Js.startsWith "https://" "https://cdn.example.com/thumb.jpg" = true.
Proof. repeat split. Qed.

(** ** Numbers as strings *)

Section NumberStrings.

Lemma digits_of_pos_nonempty fuel n (acc : string) :
  acc <> "" -> Js.digits_of_pos fuel n acc <> "".
Proof.
  revert n acc. induction fuel as [|fuel IH]; intros n acc Hacc; [exact Hacc|].
  cbn [Js.digits_of_pos]. destruct (n <? 10)%N; [discriminate | now apply IH].
Qed.

Lemma string_of_N_nonempty n : Js.string_of_N n <> "".
Proof.
  unfold Js.string_of_N. cbn [Js.digits_of_pos].
  destruct (n <? 10)%N; [discriminate | now apply digits_of_pos_nonempty].
Qed.

Lemma string_of_binary64_nonempty x : Js.string_of_binary64 x <> "".
Proof.
  unfold Js.string_of_binary64.
  destruct (N.log2 x <? 53)%N; [apply string_of_N_nonempty|].
  destruct (Js.shortest _ x _) as [s p].
  pose proof (string_of_N_nonempty s) as Hs.
  destruct (_ <=? 21)%nat.
  { destruct (Js.string_of_N s); [congruence | discriminate]. }
  destruct (Js.string_of_N s) as [|d [|d' more]]; [congruence | discriminate..].
Qed.

Lemma string_of_Z_nonempty z : Js.string_of_Z z <> "".
Proof.
  destruct z; cbn [Js.string_of_Z]; [discriminate | | discriminate].
  unfold Js.string_of_magnitude. cbv zeta.
  destruct (1024 <=? _)%N; [discriminate | apply string_of_binary64_nonempty].
Qed.

End NumberStrings.

(** ** Pagination *)

Section PaginationFacts.
Import Host.

(** A round of the Webtoons loop on a well-formed success page: the loop
    ends when [nextCursor] is null (or 0) and goes on from the cursor
    otherwise. *)
Lemma webtoons_round fuel mango seriesId cursor allEpisodes tr resp d page episodes :
  http mango tr (episodesRequest seriesId cursor) = inr resp ->
  status resp = 200 -> data resp = Some d -> Webtoons.success d = true ->
  Webtoons.ep_result d = Some page -> Webtoons.episodeList page = Some episodes ->
  Webtoons.fetchEpisodes (S fuel) mango seriesId cursor allEpisodes tr =
  match Webtoons.nextCursor page with
  | Some c =>
      if c =? 0
      then (Return (allEpisodes ++ episodes), tr ++ [episodesRequest seriesId cursor])
      else Webtoons.fetchEpisodes fuel mango seriesId c (allEpisodes ++ episodes)
             (tr ++ [episodesRequest seriesId cursor])
  | None => (Return (allEpisodes ++ episodes), tr ++ [episodesRequest seriesId cursor])
  end.
Proof.
  intros Hhttp Hst Hd Hs Hp He.
  cbn [Webtoons.fetchEpisodes]. unfold bind, http_get, send.
  fold (episodesRequest seriesId cursor).
  rewrite Hhttp, Hst, Hd. cbv beta iota zeta. rewrite Hs, Hp. cbv beta iota zeta.
  rewrite He. destruct (Webtoons.nextCursor page) as [c|]; [|reflexivity].
  destruct (c =? 0); reflexivity.
Qed.

(** A round of the MangaDex loop on a success page: the loop ends on an
    empty page and after a page shorter than the limit, and goes on from
    the next offset after a full page. *)
Lemma mangadex_round fuel mango rt seriesIdentifier offset allChapters tr resp :
  http mango tr (feedRequest mango seriesIdentifier offset) = inr resp ->
  status resp = 200 ->
  MangaDex.fetchChapters (S fuel) mango rt seriesIdentifier offset allChapters tr =
  match MangaDex.fd_data (data resp) with
  | None | Some [] => (Return allChapters, tr ++ [feedRequest mango seriesIdentifier offset])
  | Some entries =>
      match MangaDex.pushAll rt entries allChapters
              (tr ++ [feedRequest mango seriesIdentifier offset]) with
      | (Return allChapters', tr') =>
          if Z.of_nat (length entries) <? MangaDex.limit
          then (Return allChapters', tr')
          else MangaDex.fetchChapters fuel mango rt seriesIdentifier
                 (offset + MangaDex.limit) allChapters' tr'
      | (Throw e, tr') => (Throw e, tr')
      | (OutOfFuel, tr') => (OutOfFuel, tr')
      end
  end.
Proof.
  intros Hhttp Hst.
  cbn [MangaDex.fetchChapters]. unfold bind at 1. unfold http_get, send.
  fold (feedRequest mango seriesIdentifier offset).
  rewrite Hhttp, Hst. change (negb (200 =? 200)) with false. cbv beta iota zeta.
  destruct (MangaDex.fd_data (data resp)) as [[|c entries]|]; try reflexivity.
  unfold bind.
  destruct (MangaDex.pushAll rt (c :: entries) allChapters _) as [[a|e|] tr'];
    try reflexivity.
  destruct (_ <? _); reflexivity.
Qed.

Lemma pushAll_Forall2 rt entries cs allChapters tr :
  Forall2 (fun cd c => MangaDex.toChapter rt cd = inr c) entries cs ->
  MangaDex.pushAll rt entries allChapters tr = (Return (allChapters ++ cs), tr).
Proof.
  intros H. revert allChapters.
  induction H as [|cd c entries cs Hc _ IH]; intros allChapters.
  - cbn. now rewrite app_nil_r.
  - cbn [MangaDex.pushAll]. rewrite Hc, IH, <- app_assoc. reflexivity.
Qed.

Lemma exhausts_first_last {P : Type} (last : P -> Prop) pages remaining :
  (forall p, Decision (last p)) ->
  exhausts last pages remaining ->
  exists k, (k <= remaining O)%nat /\ first_last last pages k.
Proof.
  intros Hdec Hex.
  assert (H : forall n i, (remaining i <= n)%nat ->
                exists k, (i <= k <= i + remaining i)%nat /\ last (pages k)
                          /\ forall j, (i <= j < k)%nat -> ~ last (pages j)).
  { induction n as [|n IH]; intros i Hn.
    - destruct (Hex i) as [Hl|Hlt]; [|lia].
      exists i. split; [lia|]. split; [exact Hl|]. intros j Hj. lia.
    - destruct (Hdec (pages i)) as [Hl|Hnl].
      + exists i. split; [lia|]. split; [exact Hl|]. intros j Hj. lia.
      + destruct (Hex i) as [Hl|Hlt]; [contradiction|].
        destruct (IH (S i)) as (k & Hk & Hl & Hfirst); [lia|].
        exists k. split; [lia|]. split; [exact Hl|].
        intros j Hj. destruct (decide (j = i)) as [->|Hne]; [exact Hnl|].
        apply Hfirst. lia. }
  destruct (H (remaining O) O) as (k & Hk & Hl & Hfirst); [lia|].
  exists k. split; [lia|]. split; [exact Hl|]. intros i Hi. apply Hfirst. lia.
Qed.

Lemma webtoons_last_dec page : Decision (webtoons_last page).
Proof.
  unfold webtoons_last. destruct page.2 as [c|].
  - destruct (decide (c = 0)) as [->|Hc]; [left; now right|].
    right. intros [H|H]; [discriminate | congruence].
  - left. now left.
Qed.

Lemma mangadex_last_dec page : Decision (mangadex_last page).
Proof. unfold mangadex_last. apply Z_lt_dec. Qed.

Lemma webtoonsRequests_S seriesId pages i :
  webtoonsRequests seriesId pages (S i)
  = webtoonsRequests seriesId pages i
    ++ [episodesRequest seriesId (webtoonsCursor pages i)].
Proof. unfold webtoonsRequests. now rewrite seq_S, map_app. Qed.

Lemma mangadexRequests_S mango seriesIdentifier i :
  mangadexRequests mango seriesIdentifier (S i)
  = mangadexRequests mango seriesIdentifier i
    ++ [feedRequest mango seriesIdentifier (MangaDex.limit * Z.of_nat i)].
Proof. unfold mangadexRequests. now rewrite seq_S, map_app. Qed.

(** The Webtoons loop from the page number [i] on, when the page number
    [i + m] is the first that is the last one. *)
Lemma webtoons_fetch_pages mango seriesId pages :
  webtoons_answers mango seriesId pages ->
  forall m i fuel allEpisodes,
    first_last webtoons_last pages (i + m) ->
    (m < fuel)%nat ->
    Webtoons.fetchEpisodes fuel mango seriesId (webtoonsCursor pages i) allEpisodes
      (webtoonsRequests seriesId pages i)
    = (Return (allEpisodes ++ concat (map (fun j => (pages j).1) (seq i (S m)))),
       webtoonsRequests seriesId pages (S (i + m))).
Proof.
  intros Hans. induction m as [|m IH]; intros i fuel allEpisodes [Hl Hfirst] Hfuel;
    (destruct fuel as [|fuel]; [lia|]);
    (destruct (Hans i) as (resp & Hhttp & Hst & d & p & Hd & Hs & Hp & He & Hc);
     [intros j Hj; apply Hfirst; lia|]);
    rewrite (webtoons_round _ _ _ _ _ _ _ _ _ _ Hhttp Hst Hd Hs Hp He), Hc.
  - rewrite Nat.add_0_r in *. cbn [seq map concat]. rewrite app_nil_r.
    rewrite webtoonsRequests_S. destruct Hl as [-> | ->]; reflexivity.
  - assert (Hnl : ~ webtoons_last (pages i)) by (apply Hfirst; lia).
    destruct (pages i).2 as [c|] eqn:Hci; [|exfalso; apply Hnl; now left].
    destruct (c =? 0) eqn:Hc0.
    { apply Z.eqb_eq in Hc0. subst c. exfalso. apply Hnl. now right. }
    rewrite <- webtoonsRequests_S.
    replace c with (webtoonsCursor pages (S i)) by (cbn; now rewrite Hci).
    rewrite IH.
    + replace (S i + m)%nat with (i + S m)%nat by lia.
      cbn [seq map concat]. now rewrite <- app_assoc.
    + replace (S i + m)%nat with (i + S m)%nat by lia. now split.
    + lia.
Qed.

Lemma webtoons_getChapters_pages mango rt seriesId pages k fuel :
  webtoons_answers mango seriesId pages ->
  first_last webtoons_last pages k ->
  (k < fuel)%nat ->
  run (Webtoons.getChapters fuel mango rt seriesId)
  = (Return
       (Number.sort Webtoons.byChapter
          (map (Webtoons.toChapter rt seriesId)
             (concat (map (fun i => (pages i).1) (seq 0 (S k)))))),
     webtoonsRequests seriesId pages (S k)).
Proof.
  intros Hans Hk Hfuel.
  unfold run, Webtoons.getChapters, try_catch, bind.
  pose proof (webtoons_fetch_pages mango seriesId pages Hans k O fuel [] Hk Hfuel) as H.
  cbn [webtoonsCursor webtoonsRequests seq map app Nat.add] in H.
  rewrite H. fold (webtoonsRequests seriesId pages (S k)).
  destruct (concat _); reflexivity.
Qed.

(** The MangaDex loop from the page number [i] on. *)
Lemma mangadex_fetch_pages mango rt seriesIdentifier pages chapters :
  mangadex_answers mango seriesIdentifier pages ->
  forall m i fuel allChapters,
    first_last mangadex_last pages (i + m) ->
    (forall j, (j <= i + m)%nat ->
       Forall2 (fun cd c => MangaDex.toChapter rt cd = inr c) (pages j) (chapters j)) ->
    (m < fuel)%nat ->
    MangaDex.fetchChapters fuel mango rt seriesIdentifier
      (MangaDex.limit * Z.of_nat i) allChapters
      (mangadexRequests mango seriesIdentifier i)
    = (Return (allChapters ++ concat (map chapters (seq i (S m)))),
       mangadexRequests mango seriesIdentifier (S (i + m))).
Proof.
  intros Hans. induction m as [|m IH];
    intros i fuel allChapters [Hl Hfirst] Hconv Hfuel;
    (destruct fuel as [|fuel]; [lia|]);
    (destruct (Hans i) as (resp & Hhttp & Hst & Hd);
     [intros j Hj; apply Hfirst; lia|]);
    rewrite (mangadex_round _ _ _ _ _ _ _ _ Hhttp Hst);
    pose proof (Hconv i ltac:(lia)) as Hci;
    rewrite <- mangadexRequests_S.
  - rewrite Nat.add_0_r in *. cbn [seq map concat]. rewrite app_nil_r.
    destruct (MangaDex.fd_data (data resp)) as [[|c entries]|];
      cbn [from_option id] in Hd; rewrite <- Hd in Hci, Hl;
      try (apply Forall2_nil_inv_l in Hci; rewrite Hci, app_nil_r; reflexivity).
    rewrite (pushAll_Forall2 _ _ _ _ _ Hci).
    unfold mangadex_last in Hl. apply Z.ltb_lt in Hl. now rewrite Hl.
  - assert (Hnl : ~ mangadex_last (pages i)) by (apply Hfirst; lia).
    unfold mangadex_last in Hnl.
    destruct (MangaDex.fd_data (data resp)) as [[|c entries]|];
      cbn [from_option id] in Hd; rewrite <- Hd in Hci, Hnl;
      try (exfalso; apply Hnl; unfold MangaDex.limit; cbn; lia).
    rewrite (pushAll_Forall2 _ _ _ _ _ Hci).
    apply Z.nlt_ge, Z.ltb_ge in Hnl. rewrite Hnl.
    replace (MangaDex.limit * Z.of_nat i + MangaDex.limit)
      with (MangaDex.limit * Z.of_nat (S i)) by lia.
    rewrite IH.
    + replace (S i + m)%nat with (i + S m)%nat by lia.
      cbn [seq map concat]. now rewrite <- app_assoc.
    + replace (S i + m)%nat with (i + S m)%nat by lia. now split.
    + intros j Hj. apply Hconv. lia.
    + lia.
Qed.

Lemma mangadex_getChapters_pages mango rt seriesIdentifier pages chapters k fuel :
  mangadex_answers mango seriesIdentifier pages ->
  first_last mangadex_last pages k ->
  (forall j, (j <= k)%nat ->
     Forall2 (fun cd c => MangaDex.toChapter rt cd = inr c) (pages j) (chapters j)) ->
  (k < fuel)%nat ->
  run (MangaDex.getChapters fuel mango rt seriesIdentifier)
  = (Return (reverse (concat (map chapters (seq 0 (S k))))),
     mangadexRequests mango seriesIdentifier (S k)).
Proof.
  intros Hans Hk Hconv Hfuel.
  unfold run, MangaDex.getChapters, bind.
  pose proof (mangadex_fetch_pages mango rt seriesIdentifier pages chapters Hans
                k O fuel [] Hk Hconv Hfuel) as H.
  change (MangaDex.limit * Z.of_nat 0) with 0 in H.
  change (mangadexRequests mango seriesIdentifier 0) with (@nil request) in H.
  cbn [app Nat.add] in H. now rewrite H.
Qed.

Lemma first_last_unique {P : Type} (last : P -> Prop) pages k k' :
  first_last last pages k -> first_last last pages k' -> k = k'.
Proof.
  intros [Hk Hfirst] [Hk' Hfirst'].
  destruct (lt_eq_lt_dec k k') as [[Hlt | ->] | Hlt]; [|reflexivity|].
  - now apply Hfirst' in Hlt.
  - now apply Hfirst in Hlt.
Qed.

Lemma toChapter_feedChapter rt (i v c : string) :
  v <> "" -> c <> "" ->
  MangaDex.toChapter rt (feedChapter i v c) = inr (fedChapter i v c).
Proof.
  intros Hv Hc. unfold MangaDex.toChapter, MangaDex.formatChapterTitle, fedChapter.
  cbn. destruct v as [|a v]; [congruence|]. destruct c as [|b c]; [congruence|].
  cbn. do 2 f_equal.
Qed.

Lemma numbered_chapters rt (l : list nat) :
  Forall2 (fun cd c => MangaDex.toChapter rt cd = inr c)
    (map numberedEntry l) (map numberedChapter l).
Proof.
  apply Forall2_fmap, Forall_Forall2_diag, Forall_forall. intros n _.
  apply toChapter_feedChapter; [discriminate | apply string_of_Z_nonempty].
Qed.

End PaginationFacts.

(** ** Empty chapter lists *)

Lemma weebcentral_no_chapters (mango : Host.Mango string) seriesIdentifier
  response parse doc :
  Host.http mango [] (weebcentralChaptersRequest seriesIdentifier) = inr response ->
  Host.status response = 200 ->
  Host.parseHTML mango = Some parse -> parse (Host.data response) = Some doc ->
  WeebCentral.scrapeChapters doc = [] ->
  Host.run (WeebCentral.getChapters mango seriesIdentifier)
  = (Host.Throw (Host.Error "No chapters found"),
     [weebcentralChaptersRequest seriesIdentifier]).
Proof.
  intros Hhttp Hst Hparse Hdoc Hchapters.
  unfold Host.run, WeebCentral.getChapters, Host.bind, Host.http_get, Host.send.
  fold (weebcentralChaptersRequest seriesIdentifier).
  rewrite Hhttp, Hst, Hparse, Hdoc. cbv beta iota zeta.
  rewrite Hchapters. reflexivity.
Qed.

Lemma webtoons_no_episodes fuel (mango : Host.Mango (option Webtoons.EpisodesData))
  rt seriesId tr :
  Webtoons.fetchEpisodes fuel mango seriesId 0 [] [] = (Host.Return [], tr) ->
  Host.run (Webtoons.getChapters fuel mango rt seriesId) = (Host.Return [], tr).
Proof.
  intros H. unfold Host.run, Webtoons.getChapters, Host.try_catch, Host.bind.
  now rewrite H.
Qed.

Lemma mangadex_no_chapters fuel (mango : Host.Mango MangaDex.FeedData)
  rt seriesIdentifier tr :
  MangaDex.fetchChapters fuel mango rt seriesIdentifier 0 [] [] = (Host.Return [], tr) ->
  Host.run (MangaDex.getChapters fuel mango rt seriesIdentifier) = (Host.Return [], tr).
Proof.
  intros H. unfold Host.run, MangaDex.getChapters, Host.bind.
  now rewrite H.
Qed.

Lemma webtoons_empty_page fuel (mango : Host.Mango (option Webtoons.EpisodesData))
  rt seriesId resp d page :
  Host.http mango [] (episodesRequest seriesId 0) = inr resp ->
  Host.status resp = 200 -> Host.data resp = Some d ->
  Webtoons.success d = true -> Webtoons.ep_result d = Some page ->
  Webtoons.episodeList page = Some [] ->
  Webtoons.nextCursor page = None \/ Webtoons.nextCursor page = Some 0 ->
  Host.run (Webtoons.getChapters (S fuel) mango rt seriesId)
  = (Host.Return [], [episodesRequest seriesId 0]).
Proof.
  intros Hhttp Hst Hd Hs Hp He Hc.
  apply webtoons_no_episodes.
  rewrite (webtoons_round _ _ _ _ _ _ _ _ _ _ Hhttp Hst Hd Hs Hp He).
  destruct Hc as [-> | ->]; reflexivity.
Qed.

Lemma mangadex_empty_page fuel (mango : Host.Mango MangaDex.FeedData)
  rt seriesIdentifier resp :
  Host.http mango [] (feedRequest mango seriesIdentifier 0) = inr resp ->
  Host.status resp = 200 ->
  default [] (MangaDex.fd_data (Host.data resp)) = [] ->
  Host.run (MangaDex.getChapters (S fuel) mango rt seriesIdentifier)
  = (Host.Return [], [feedRequest mango seriesIdentifier 0]).
Proof.
  intros Hhttp Hst Hd.
  apply mangadex_no_chapters.
  rewrite (mangadex_round _ _ _ _ _ _ _ _ Hhttp Hst).
  destruct (MangaDex.fd_data (Host.data resp)) as [[|c entries]|];
    [reflexivity | discriminate | reflexivity].
Qed.

(** C4: when no chapter is resolved from success responses, the WeebCentral
    [getChapters] throws "No chapters found", while the Webtoons and the
    MangaDex [getChapters] return the empty list: whenever their pagination
    loop ends with nothing collected, and in particular on a first page
    that is empty and is the last. *)
Theorem C4_empty_chapters_policy :
  (forall (mango : Host.Mango string) seriesIdentifier response parse doc,
     Host.http mango [] (weebcentralChaptersRequest seriesIdentifier) = inr response ->
     Host.status response = 200 ->
     Host.parseHTML mango = Some parse -> parse (Host.data response) = Some doc ->
     WeebCentral.scrapeChapters doc = [] ->
     Host.run (WeebCentral.getChapters mango seriesIdentifier)
     = (Host.Throw (Host.Error "No chapters found"),
        [weebcentralChaptersRequest seriesIdentifier]))
  /\ (forall fuel (mango : Host.Mango (option Webtoons.EpisodesData)) rt seriesId tr,
     Webtoons.fetchEpisodes fuel mango seriesId 0 [] [] = (Host.Return [], tr) ->
     Host.run (Webtoons.getChapters fuel mango rt seriesId) = (Host.Return [], tr))
  /\ (forall fuel (mango : Host.Mango (option Webtoons.EpisodesData))
        rt seriesId resp d page,
     Host.http mango [] (episodesRequest seriesId 0) = inr resp ->
     Host.status resp = 200 -> Host.data resp = Some d ->
     Webtoons.success d = true -> Webtoons.ep_result d = Some page ->
     Webtoons.episodeList page = Some [] ->
     Webtoons.nextCursor page = None \/ Webtoons.nextCursor page = Some 0 ->
     Host.run (Webtoons.getChapters (S fuel) mango rt seriesId)
     = (Host.Return [], [episodesRequest seriesId 0]))
  /\ (forall fuel (mango : Host.Mango MangaDex.FeedData) rt seriesIdentifier tr,
     MangaDex.fetchChapters fuel mango rt seriesIdentifier 0 [] [] = (Host.Return [], tr) ->
     Host.run (MangaDex.getChapters fuel mango rt seriesIdentifier) = (Host.Return [], tr))
  /\ (forall fuel (mango : Host.Mango MangaDex.FeedData) rt seriesIdentifier resp,
     Host.http mango [] (feedRequest mango seriesIdentifier 0) = inr resp ->
     Host.status resp = 200 ->
     default [] (MangaDex.fd_data (Host.data resp)) = [] ->
     Host.run (MangaDex.getChapters (S fuel) mango rt seriesIdentifier)
     = (Host.Return [], [feedRequest mango seriesIdentifier 0])).
Proof.
  repeat split.
  - intros. eapply weebcentral_no_chapters; eassumption.
  - intros. now apply webtoons_no_episodes.
  - intros. eapply webtoons_empty_page; eassumption.
  - intros. now apply mangadex_no_chapters.
  - intros. eapply mangadex_empty_page; eassumption.
Qed.

Lemma C4_empty_chapters_policy_witness :
  Host.run (WeebCentral.getChapters (noPagesHtmlHost "<html></html>") "series-1")
  = (Host.Throw (Host.Error "No chapters found"), [weebcentralChaptersRequest "series-1"])
  /\ Host.run (Webtoons.getChapters 1 noEpisodes fixedRuntime "6795")
     = (Host.Return [], [episodesRequest "6795" 0])
  /\ Host.run (MangaDex.getChapters 1 noFeed fixedRuntime "manga-1")
     = (Host.Return [], [feedRequest noFeed "manga-1" 0]).
Proof.
  destruct C4_empty_chapters_policy as (HW & _ & HT & _ & HM).
  split; [|split].
  - eapply HW; reflexivity.
  - eapply HT; first [reflexivity | now left].
  - eapply HM; reflexivity.
Defined.




(** The endpoint [twoPages] is asked twice, and the chapters of both pages
    are returned. *)
Example webtoons_two_pages :
  exists c1 c2 c3,
    Host.run (Webtoons.getChapters 2 twoPages fixedRuntime "6795")
    = (Host.Return [c1; c2; c3],
       [episodesRequest "6795" 0; episodesRequest "6795" 100])
    /\ Webtoons.chapter c1 = "1" /\ Webtoons.chapter c2 = "2"
    /\ Webtoons.chapter c3 = "3".
Proof. do 3 eexists. split; [vm_compute; reflexivity | repeat split]. Qed.

(** The Webtoons loop does need the guarantee: against a source whose
    cursor is never null it uses up any fuel. *)
Lemma webtoons_endless_fetch fuel : forall seriesId cursor allEpisodes tr,
  fst (Webtoons.fetchEpisodes fuel endless seriesId cursor allEpisodes tr)
  = Host.OutOfFuel.
Proof.
  induction fuel as [|fuel IH]; intros seriesId cursor allEpisodes tr; [reflexivity|].
  erewrite webtoons_round; try reflexivity. cbn. apply IH.
Qed.

(** ** Chapter order *)

Section ChapterSort.
Context {C : Type} (chapter : C -> string) (comparefn : C -> C -> float).
Hypothesis comparefn_def :
  forall a b,
    comparefn a b = (chapterKey (chapter a) - chapterKey (chapter b))%float.

Lemma comparefn_key_rank a b :
  Number.order_of (comparefn a b) = (key_rank chapter a ?= key_rank chapter b).
Proof.
  rewrite comparefn_def.
  apply FloatOrder.order_of_sub; apply FloatOrder.or_zero_not_nan.
Qed.

Lemma sort_ascending_by l : ascending_by chapter (Number.sort comparefn l).
Proof.
  intros i a b Ha Hb.
  rewrite FloatOrder.leb_frank by apply FloatOrder.or_zero_not_nan.
  apply Z.leb_le.
  exact (sort_ascending comparefn (key_rank chapter) comparefn_key_rank l i a b Ha Hb).
Qed.

Lemma filter_none {X : Type} (P : X -> Prop) `{forall x, Decision (P x)} (l : list X) :
  (forall x, ~ P x) -> filter P l = [].
Proof.
  intros HP. induction l as [|x l IH]; [reflexivity|].
  rewrite filter_cons. destruct (decide (P x)) as [Hx|_]; [now apply HP in Hx | exact IH].
Qed.

Lemma is_nan_true k : is_nan k = true -> Prim2SF k = S754_nan.
Proof.
  unfold is_nan. rewrite FloatAxioms.eqb_spec. unfold SFeqb. intros Hk.
  destruct (Prim2SF k) eqn:E; try reflexivity; exfalso;
    rewrite <- E in Hk;
    rewrite (FloatOrder.rank_compare (Prim2SF k) (Prim2SF k)) in Hk
      by (try apply Prim2SF_valid; rewrite E; discriminate);
    rewrite Z.compare_refl in Hk; discriminate.
Qed.

Lemma eqb_nan_r x k : is_nan k = true -> PrimFloat.eqb x k = false.
Proof.
  intros Hk. rewrite FloatAxioms.eqb_spec, (is_nan_true k Hk). unfold SFeqb.
  now destruct (Prim2SF x).
Qed.

Lemma sort_ties_in_order l : ties_in_order_of chapter l (Number.sort comparefn l).
Proof.
  intros k. destruct (is_nan k) eqn:Hk.
  - rewrite !filter_none; [reflexivity | |]; intros c; now rewrite eqb_nan_r.
  - rewrite (list_filter_iff _ (fun c => key_rank chapter c = FloatRank.frank k)
               (Number.sort comparefn l)).
    + rewrite (list_filter_iff _ (fun c => key_rank chapter c = FloatRank.frank k) l).
      * apply (sort_filter_rank comparefn (key_rank chapter) comparefn_key_rank).
      * intros c. rewrite FloatOrder.eqb_frank by
          (try apply FloatOrder.or_zero_not_nan; assumption).
        apply Z.eqb_eq.
    + intros c. rewrite FloatOrder.eqb_frank by
        (try apply FloatOrder.or_zero_not_nan; assumption).
      apply Z.eqb_eq.
Qed.

End ChapterSort.

Lemma weebcentral_getChapters_Return (mango : Host.Mango string) seriesIdentifier out tr :
  Host.run (WeebCentral.getChapters mango seriesIdentifier) = (Host.Return out, tr) ->
  exists response parse doc,
    Host.http mango [] (weebcentralChaptersRequest seriesIdentifier) = inr response
    /\ Host.parseHTML mango = Some parse
    /\ parse (Host.data response) = Some doc
    /\ out = Number.sort WeebCentral.byChapter (reverse (WeebCentral.scrapeChapters doc)).
Proof.
  unfold Host.run, WeebCentral.getChapters, Host.bind, Host.http_get, Host.send.
  fold (weebcentralChaptersRequest seriesIdentifier).
  destruct (Host.http mango [] _) as [e|response]; [discriminate|].
  destruct (negb _); [discriminate|].
  destruct (Host.parseHTML mango) as [parse|]; [|discriminate].
  destruct (parse (Host.data response)) as [doc|] eqn:Hdoc; [|discriminate].
  cbv zeta. destruct (length _ =? 0)%nat; [discriminate|].
  intros H. injection H as <- _. now exists response, parse, doc.
Qed.

Lemma webtoons_getChapters_Return fuel mango rt seriesId out tr :
  Host.run (Webtoons.getChapters fuel mango rt seriesId) = (Host.Return out, tr) ->
  exists allEpisodes,
    Webtoons.fetchEpisodes fuel mango seriesId 0 [] [] = (Host.Return allEpisodes, tr)
    /\ out = Number.sort Webtoons.byChapter (map (Webtoons.toChapter rt seriesId) allEpisodes).
Proof.
  unfold Host.run, Webtoons.getChapters. intros H.
  apply try_catch_Return in H; [|discriminate].
  apply bind_Return in H as (allEpisodes & tr1 & Hf & H).
  exists allEpisodes. destruct allEpisodes as [|e l]; cbn [length Nat.eqb] in H;
    injection H as <- <-; now split.
Qed.

Lemma mangadex_getChapters_Return fuel mango rt seriesIdentifier out tr :
  Host.run (MangaDex.getChapters fuel mango rt seriesIdentifier) = (Host.Return out, tr) ->
  exists allChapters,
    MangaDex.fetchChapters fuel mango rt seriesIdentifier 0 [] []
      = (Host.Return allChapters, tr)
    /\ out = reverse allChapters.
Proof.
  unfold Host.run, MangaDex.getChapters. intros H.
  apply bind_Return in H as (allChapters & tr1 & Hf & H).
  injection H as <- <-. now exists allChapters.
Qed.




(** * Further properties *)

(** ** The built-ins beyond ASCII and beyond small numbers *)

(** [trim] strips the no-break space, U+00A0, and the line separator at
    either end, and a body that holds nothing else is blank to the
    WeebCentral [search]. *)
Example trim_no_break_space :
  Js.trim (String (Js.chr 194) (String (Js.chr 160) "a ")) = "a"
  /\ Js.trim ("a b" +:+ lineSeparator +:+ String (Js.chr 194) (String (Js.chr 160) ""))
     = "a b"
  /\ Host.run (WeebCentral.search
                 (answering 200 "OK" (String (Js.chr 194) (String (Js.chr 160) "")))
                 "foo")
     = (Host.Return [], [weebcentralSearchRequest "foo"]).
Proof. repeat split. Qed.

(** [.] does not match the line separator, U+2028. *)
Example dot_rejects_line_separator :
  Regex.exec Webtoons.chapterIdRegex ("id1viewerLink/a" +:+ lineSeparator +:+ "bchNum1")
  = None
  /\ Webtoons.decodeChapterId ("id1viewerLink/a" +:+ lineSeparator +:+ "bchNum1" +:+ "chNum2")
     = None.
Proof. split; reflexivity. Qed.

(** [String] prints the binary64 number nearest to an integer: rounded
    above [2 ^ 53], and with an exponent from [10 ^ 21] on. *)
Example string_of_large_integers :
  Js.string_of_Z 9007199254740993 = "9007199254740992"
  /\ Js.string_of_Z 123456789012345678901 = "123456789012345680000"
  /\ Js.string_of_Z (10 ^ 21) = "1e+21"
  /\ Js.string_of_Z (- 2 ^ 70) = "-1.1805916207174113e+21"
  /\ Js.string_of_Z (2 ^ 1024) = "Infinity".
Proof. repeat split; vm_compute; reflexivity. Qed.

(** A template literal prints a null viewer link as [null]. *)
Example null_viewer_link :
  Webtoons.identifier
    (Webtoons.toChapter fixedRuntime "6795"
       {| Webtoons.episodeNo := Some 1;
          Webtoons.episodeTitle := None;
          Webtoons.viewerLink := Js.Null;
          Webtoons.exposureDateMillis := None |})
  = "id6795viewerLinknullchNum1".
Proof. reflexivity. Qed.

(** ** Requests and errors *)

Section OneRequest.
Import Host.

Lemma send_trace {B : Type} (mango : Mango B) req tr :
  snd (send mango req tr) = tr ++ [req].
Proof. unfold send. now destruct (http mango tr req). Qed.

Lemma bind_send_trace {A B : Type} (mango : Mango B) req (k : response B -> M A) tr :
  (forall r tr', snd (k r tr') = tr') ->
  snd (bind (send mango req) k tr) = tr ++ [req].
Proof.
  intros Hk. unfold bind, send. destruct (http mango tr req); [reflexivity | apply Hk].
Qed.

End OneRequest.

Ltac no_request :=
  repeat match goal with
         | |- snd (Host.ret _ _) = _ => reflexivity
         | |- snd (Host.throw _ _) = _ => reflexivity
         | |- snd (if ?b then _ else _) = _ => destruct b
         | |- snd (match ?x with _ => _ end) = _ => destruct x
         | |- snd (match ?x with _ => _ end _) = _ => destruct x
         | |- snd ((if ?b then _ else _) _) = _ => destruct b
         end.

(** X1: every function of an adapter that does not paginate issues exactly
    one request, the one of its endpoint, whatever the host answers and
    whether the function returns or throws.  The Webtoons [getPageURLs]
    requests the viewer link held in the chapter identifier, and nothing
    when the identifier does not have the form of a chapter identifier. *)
Theorem X1_one_request_per_call :
  (forall (mango : Host.Mango string) query,
     snd (Host.run (WeebCentral.search mango query)) = [weebcentralSearchRequest query])
  /\ (forall (mango : Host.Mango string) seriesIdentifier,
     snd (Host.run (WeebCentral.getChapters mango seriesIdentifier))
     = [weebcentralChaptersRequest seriesIdentifier])
  /\ (forall (mango : Host.Mango string) rt chapterIdentifier,
     snd (Host.run (WeebCentral.getPageURLs mango rt chapterIdentifier))
     = [weebcentralPageRequest chapterIdentifier])
  /\ (forall (mango : Host.Mango Webtoons.SearchData) query,
     snd (Host.run (Webtoons.search mango query)) = [webtoonsSearchRequest query])
  /\ (forall (mango : Host.Mango string) chapterId,
     snd (Host.run (Webtoons.getPageURLs mango chapterId))
     = match Webtoons.decodeChapterId chapterId with
       | Some (_, viewerLink, _) => [webtoonsViewerRequest viewerLink]
       | None => []
       end)
  /\ (forall (mango : Host.Mango (option MangaDex.SearchData)) query,
     snd (Host.run (MangaDex.search mango query)) = [mangadexSearchRequest mango query])
  /\ (forall (mango : Host.Mango MangaDex.AtHome) chapterIdentifier,
     snd (Host.run (MangaDex.getPageURLs mango chapterIdentifier))
     = [mangadexPageRequest mango chapterIdentifier]).
Proof.
  repeat split; intros.
  - unfold Host.run, WeebCentral.search, Host.http_post. cbv zeta.
    apply (bind_send_trace mango (weebcentralSearchRequest query)).
    intros r tr'. no_request.
  - unfold Host.run, WeebCentral.getChapters, Host.http_get. cbv zeta.
    apply (bind_send_trace mango (weebcentralChaptersRequest seriesIdentifier)).
    intros r tr'. no_request.
  - unfold Host.run, WeebCentral.getPageURLs, Host.http_get. cbv zeta.
    apply (bind_send_trace mango (weebcentralPageRequest chapterIdentifier)).
    intros r tr'. no_request.
  - unfold Host.run, Webtoons.search, Host.try_catch, Host.http_get. cbv zeta.
    pose proof (bind_send_trace mango (webtoonsSearchRequest query)
      (fun response =>
         if negb (Host.status response =? 200)
         then Host.throw (Host.Error ("Search failed: " +:+ Host.statusText response))
         else match Webtoons.result (Host.data response) with
              | Some res =>
                  if bool_decide (Webtoons.total res = Some 0) then Host.ret []
                  else Host.ret (omap Webtoons.searchEntry
                                   (default [] (Webtoons.searchedList res)))
              | None => Host.ret []
              end) []) as H.
    match goal with
    | |- snd (match ?m with _ => _ end) = _ =>
        match type of H with
        | _ -> snd ?m' = _ => change m with m'
        end
    end.
    match goal with
    | |- snd (match ?m with _ => _ end) = _ => destruct m as [[a|e|] tr1]
    end; cbn [snd] in *; apply H; intros r tr'; no_request.
  - unfold Host.run, Webtoons.getPageURLs.
    destruct (Webtoons.decodeChapterId chapterId) as [[[mangaID viewerLink] n]|];
      [|reflexivity].
    unfold Host.http_get.
    apply (bind_send_trace mango (webtoonsViewerRequest viewerLink)).
    intros r tr'. no_request.
  - unfold Host.run, MangaDex.search, Host.http_get. cbv zeta.
    apply (bind_send_trace mango (mangadexSearchRequest mango query)).
    intros r tr'. no_request.
  - unfold Host.run, MangaDex.getPageURLs, Host.http_get. cbv zeta.
    apply (bind_send_trace mango (mangadexPageRequest mango chapterIdentifier)).
    intros r tr'. no_request.
Qed.

(** *** Failures *)

Section Failures.
Import Host.

Lemma status_not_200 {B : Type} (r : response B) :
  status r <> 200 -> negb (status r =? 200) = true.
Proof. intros H. now apply negb_true_iff, Z.eqb_neq. Qed.

End Failures.

Ltac run_with H :=
  unfold Host.run, Host.try_catch, Host.bind, Host.http_get, Host.http_post, Host.send;
  cbv zeta; rewrite H; cbv beta iota zeta.

(** X2: a response whose status is not 200 makes every function of every
    adapter throw an [Error] that carries the status text of the response;
    for the paginated functions this is the response to the first request.
    The message is that of the [throw] of the function; the Webtoons
    [search] and [getChapters] put the prefix of their [catch] block before
    it, and the Webtoons [getChapters] and [getPageURLs] report the status
    code too. *)
Theorem X2_failure_status_is_an_error :
  (forall (mango : Host.Mango string) query response,
     Host.http mango [] (weebcentralSearchRequest query) = inr response ->
     Host.status response <> 200 ->
     fst (Host.run (WeebCentral.search mango query))
     = Host.Throw (Host.Error ("Search failed: " +:+ Host.statusText response)))
  /\ (forall (mango : Host.Mango string) seriesIdentifier response,
     Host.http mango [] (weebcentralChaptersRequest seriesIdentifier) = inr response ->
     Host.status response <> 200 ->
     fst (Host.run (WeebCentral.getChapters mango seriesIdentifier))
     = Host.Throw (Host.Error ("Failed to fetch chapters: " +:+ Host.statusText response)))
  /\ (forall (mango : Host.Mango string) rt chapterIdentifier response,
     Host.http mango [] (weebcentralPageRequest chapterIdentifier) = inr response ->
     Host.status response <> 200 ->
     fst (Host.run (WeebCentral.getPageURLs mango rt chapterIdentifier))
     = Host.Throw (Host.Error ("Failed to fetch page URLs: " +:+ Host.statusText response)))
  /\ (forall (mango : Host.Mango Webtoons.SearchData) query response,
     Host.http mango [] (webtoonsSearchRequest query) = inr response ->
     Host.status response <> 200 ->
     fst (Host.run (Webtoons.search mango query))
     = Host.Throw (Host.Error ("Failed to search: Search failed: "
                               +:+ Host.statusText response)))
  /\ (forall fuel (mango : Host.Mango (option Webtoons.EpisodesData)) rt seriesId response,
     Host.http mango [] (episodesRequest seriesId 0) = inr response ->
     Host.status response <> 200 ->
     fst (Host.run (Webtoons.getChapters (S fuel) mango rt seriesId))
     = Host.Throw (Host.Error ("Failed to get chapters: Episodes API returned status "
                               +:+ Js.string_of_Z (Host.status response) +:+ ": "
                               +:+ Host.statusText response)))
  /\ (forall (mango : Host.Mango string) chapterId mangaID viewerLink n response,
     Webtoons.decodeChapterId chapterId = Some (mangaID, viewerLink, n) ->
     Host.http mango [] (webtoonsViewerRequest viewerLink) = inr response ->
     Host.status response <> 200 ->
     fst (Host.run (Webtoons.getPageURLs mango chapterId))
     = Host.Throw (Host.Error ("Failed to get chapter viewer: "
                               +:+ Js.string_of_Z (Host.status response) +:+ " "
                               +:+ Host.statusText response)))
  /\ (forall (mango : Host.Mango (option MangaDex.SearchData)) query response,
     Host.http mango [] (mangadexSearchRequest mango query) = inr response ->
     Host.status response <> 200 ->
     fst (Host.run (MangaDex.search mango query))
     = Host.Throw (Host.Error ("Search failed: " +:+ Host.statusText response)))
  /\ (forall fuel (mango : Host.Mango MangaDex.FeedData) rt seriesIdentifier response,
     Host.http mango [] (feedRequest mango seriesIdentifier 0) = inr response ->
     Host.status response <> 200 ->
     fst (Host.run (MangaDex.getChapters (S fuel) mango rt seriesIdentifier))
     = Host.Throw (Host.Error ("Failed to fetch chapters: " +:+ Host.statusText response)))
  /\ (forall (mango : Host.Mango MangaDex.AtHome) chapterIdentifier response,
     Host.http mango [] (mangadexPageRequest mango chapterIdentifier) = inr response ->
     Host.status response <> 200 ->
     fst (Host.run (MangaDex.getPageURLs mango chapterIdentifier))
     = Host.Throw (Host.Error ("Failed to fetch page URLs: " +:+ Host.statusText response))).
Proof.
  repeat split.
  - intros mango query response Hhttp Hst%status_not_200.
    unfold WeebCentral.search. fold (weebcentralSearchRequest query).
    unfold weebcentralSearchRequest in Hhttp.
    run_with Hhttp. now rewrite Hst.
  - intros mango seriesIdentifier response Hhttp Hst%status_not_200.
    unfold WeebCentral.getChapters. unfold weebcentralChaptersRequest in Hhttp.
    run_with Hhttp. now rewrite Hst.
  - intros mango rt chapterIdentifier response Hhttp Hst%status_not_200.
    unfold WeebCentral.getPageURLs. unfold weebcentralPageRequest in Hhttp.
    run_with Hhttp. now rewrite Hst.
  - intros mango query response Hhttp Hst%status_not_200.
    unfold Webtoons.search. unfold webtoonsSearchRequest in Hhttp.
    run_with Hhttp. rewrite Hst. cbn [Host.message Host.Error].
    reflexivity.
  - intros fuel mango rt seriesId response Hhttp Hst%status_not_200.
    unfold Webtoons.getChapters. cbn [Webtoons.fetchEpisodes].
    unfold episodesRequest in Hhttp.
    run_with Hhttp. rewrite Hst. cbn [Host.message Host.Error].
    reflexivity.
  - intros mango chapterId mangaID viewerLink n response Hdec Hhttp Hst.
    unfold Webtoons.getPageURLs. rewrite Hdec. unfold webtoonsViewerRequest in Hhttp.
    run_with Hhttp. apply Z.eqb_neq in Hst. now rewrite Hst.
  - intros mango query response Hhttp Hst%status_not_200.
    unfold MangaDex.search. unfold mangadexSearchRequest in Hhttp.
    run_with Hhttp. now rewrite Hst.
  - intros fuel mango rt seriesIdentifier response Hhttp Hst%status_not_200.
    unfold MangaDex.getChapters. cbn [MangaDex.fetchChapters].
    unfold feedRequest in Hhttp.
    run_with Hhttp. now rewrite Hst.
  - intros mango chapterIdentifier response Hhttp Hst%status_not_200.
    unfold MangaDex.getPageURLs. unfold mangadexPageRequest in Hhttp.
    run_with Hhttp. now rewrite Hst.
Qed.

Lemma X2_failure_status_witness :
  fst (Host.run (WeebCentral.search (answering 500 "Internal Server Error" "") "naruto"))
  = Host.Throw (Host.Error "Search failed: Internal Server Error")
  /\ fst (Host.run (Webtoons.getChapters 1
                      (answering 503 "Service Unavailable" None) fixedRuntime "6795"))
     = Host.Throw (Host.Error
         "Failed to get chapters: Episodes API returned status 503: Service Unavailable")
  /\ fst (Host.run (Webtoons.getPageURLs (answering 404 "Not Found" "")
                      "id1viewerLink/en/viewer?episode_no=1chNum1"))
     = Host.Throw (Host.Error "Failed to get chapter viewer: 404 Not Found")
  /\ fst (Host.run (MangaDex.getChapters 1
                      (answering 404 "Not Found" {| MangaDex.fd_data := None |})
                      fixedRuntime "manga-1"))
     = Host.Throw (Host.Error "Failed to fetch chapters: Not Found").
Proof.
  destruct X2_failure_status_is_an_error as (HW & _ & _ & _ & HC & HP & _ & HM & _).
  split; [|split; [|split]].
  - etransitivity; [eapply (HW (answering 500 "Internal Server Error" ""));
                    by_computation | reflexivity].
  - etransitivity; [eapply (HC O (answering 503 "Service Unavailable" None));
                    by_computation | reflexivity].
  - etransitivity; [eapply (HP (answering 404 "Not Found" ""));
                    by_computation | reflexivity].
  - etransitivity; [eapply (HM O (answering 404 "Not Found" {| MangaDex.fd_data := None |}));
                    by_computation | reflexivity].
Defined.

(** *** Errors of the transport *)

(** X3: an error that [mango.http] throws on the first request reaches the
    caller.  WeebCentral and MangaDex rethrow it as it is, and so does the
    Webtoons [getPageURLs], which has no [catch] block; the Webtoons
    [search] and [getChapters] throw a new [Error] whose message is that of
    the original after "Failed to search: " or "Failed to get chapters: ". *)
Theorem X3_transport_error_is_rethrown :
  (forall (mango : Host.Mango string) query e,
     Host.http mango [] (weebcentralSearchRequest query) = inl e ->
     fst (Host.run (WeebCentral.search mango query)) = Host.Throw e)
  /\ (forall (mango : Host.Mango string) seriesIdentifier e,
     Host.http mango [] (weebcentralChaptersRequest seriesIdentifier) = inl e ->
     fst (Host.run (WeebCentral.getChapters mango seriesIdentifier)) = Host.Throw e)
  /\ (forall (mango : Host.Mango string) rt chapterIdentifier e,
     Host.http mango [] (weebcentralPageRequest chapterIdentifier) = inl e ->
     fst (Host.run (WeebCentral.getPageURLs mango rt chapterIdentifier)) = Host.Throw e)
  /\ (forall (mango : Host.Mango string) chapterId mangaID viewerLink n e,
     Webtoons.decodeChapterId chapterId = Some (mangaID, viewerLink, n) ->
     Host.http mango [] (webtoonsViewerRequest viewerLink) = inl e ->
     fst (Host.run (Webtoons.getPageURLs mango chapterId)) = Host.Throw e)
  /\ (forall (mango : Host.Mango (option MangaDex.SearchData)) query e,
     Host.http mango [] (mangadexSearchRequest mango query) = inl e ->
     fst (Host.run (MangaDex.search mango query)) = Host.Throw e)
  /\ (forall fuel (mango : Host.Mango MangaDex.FeedData) rt seriesIdentifier e,
     Host.http mango [] (feedRequest mango seriesIdentifier 0) = inl e ->
     fst (Host.run (MangaDex.getChapters (S fuel) mango rt seriesIdentifier))
     = Host.Throw e)
  /\ (forall (mango : Host.Mango MangaDex.AtHome) chapterIdentifier e,
     Host.http mango [] (mangadexPageRequest mango chapterIdentifier) = inl e ->
     fst (Host.run (MangaDex.getPageURLs mango chapterIdentifier)) = Host.Throw e)
  /\ (forall (mango : Host.Mango Webtoons.SearchData) query e,
     Host.http mango [] (webtoonsSearchRequest query) = inl e ->
     fst (Host.run (Webtoons.search mango query))
     = Host.Throw (Host.Error ("Failed to search: " +:+ Host.message e)))
  /\ (forall fuel (mango : Host.Mango (option Webtoons.EpisodesData)) rt seriesId e,
     Host.http mango [] (episodesRequest seriesId 0) = inl e ->
     fst (Host.run (Webtoons.getChapters (S fuel) mango rt seriesId))
     = Host.Throw (Host.Error ("Failed to get chapters: " +:+ Host.message e))).
Proof.
  repeat split.
  - intros mango query e Hhttp. unfold WeebCentral.search.
    unfold weebcentralSearchRequest in Hhttp. now run_with Hhttp.
  - intros mango seriesIdentifier e Hhttp. unfold WeebCentral.getChapters.
    unfold weebcentralChaptersRequest in Hhttp. now run_with Hhttp.
  - intros mango rt chapterIdentifier e Hhttp. unfold WeebCentral.getPageURLs.
    unfold weebcentralPageRequest in Hhttp. now run_with Hhttp.
  - intros mango chapterId mangaID viewerLink n e Hdec Hhttp.
    unfold Webtoons.getPageURLs. rewrite Hdec.
    unfold webtoonsViewerRequest in Hhttp. now run_with Hhttp.
  - intros mango query e Hhttp. unfold MangaDex.search.
    unfold mangadexSearchRequest in Hhttp. now run_with Hhttp.
  - intros fuel mango rt seriesIdentifier e Hhttp. unfold MangaDex.getChapters.
    cbn [MangaDex.fetchChapters]. unfold feedRequest in Hhttp. now run_with Hhttp.
  - intros mango chapterIdentifier e Hhttp. unfold MangaDex.getPageURLs.
    unfold mangadexPageRequest in Hhttp. now run_with Hhttp.
  - intros mango query e Hhttp. unfold Webtoons.search.
    unfold webtoonsSearchRequest in Hhttp. now run_with Hhttp.
  - intros fuel mango rt seriesId e Hhttp. unfold Webtoons.getChapters.
    cbn [Webtoons.fetchEpisodes]. unfold episodesRequest in Hhttp. now run_with Hhttp.
Qed.

Lemma X3_transport_error_witness :
  fst (Host.run (WeebCentral.getChapters
                   (failing (Host.Error "connection refused")) "abc-1"))
  = Host.Throw (Host.Error "connection refused")
  /\ fst (Host.run (MangaDex.getPageURLs
                      (failing (Host.TypeError "fetch failed")) "chapter-123"))
     = Host.Throw (Host.TypeError "fetch failed")
  /\ fst (Host.run (Webtoons.search (failing (Host.TypeError "fetch failed")) "tower"))
     = Host.Throw (Host.Error "Failed to search: fetch failed").
Proof.
  destruct X3_transport_error_is_rethrown as (_ & HW & _ & _ & _ & _ & HM & HT & _).
  split; [|split].
  - etransitivity; [eapply (HW (failing (Host.Error "connection refused")));
                    by_computation | reflexivity].
  - etransitivity; [eapply (HM (failing (Host.TypeError "fetch failed")));
                    by_computation | reflexivity].
  - etransitivity; [eapply (HT (failing (Host.TypeError "fetch failed")));
                    by_computation | reflexivity].
Defined.

(** *** The errors of the Webtoons adapter *)

(** X4: whatever the host does, an error that the Webtoons [search] or
    [getChapters] throws is a plain [Error] whose message begins with
    "Failed to search: " or "Failed to get chapters: ": the kind of the
    original error is lost. *)
Theorem X4_webtoons_wraps_errors :
  (forall (mango : Host.Mango Webtoons.SearchData) query e tr,
     Host.run (Webtoons.search mango query) = (Host.Throw e, tr) ->
     Host.kind e = Host.JsError
     /\ Js.startsWith "Failed to search: " (Host.message e) = true)
  /\ (forall fuel (mango : Host.Mango (option Webtoons.EpisodesData)) rt seriesId e tr,
     Host.run (Webtoons.getChapters fuel mango rt seriesId) = (Host.Throw e, tr) ->
     Host.kind e = Host.JsError
     /\ Js.startsWith "Failed to get chapters: " (Host.message e) = true).
Proof.
  split.
  - intros mango query e tr. unfold Host.run, Webtoons.search, Host.try_catch.
    match goal with
    | |- match ?m with _ => _ end = _ -> _ => destruct m as [[a|e'|] tr1]
    end; try discriminate.
    intros [= <- _]. split; [reflexivity | apply (startsWith_app "Failed to search: ")].
  - intros fuel mango rt seriesId e tr.
    unfold Host.run, Webtoons.getChapters, Host.try_catch.
    match goal with
    | |- match ?m with _ => _ end = _ -> _ => destruct m as [[a|e'|] tr1]
    end; try discriminate.
    intros [= <- _]. split; [reflexivity | apply (startsWith_app "Failed to get chapters: ")].
Qed.

Lemma X4_webtoons_wraps_errors_witness :
  (Host.kind (Host.Error "Failed to search: fetch failed") = Host.JsError
   /\ Js.startsWith "Failed to search: "
        (Host.message (Host.Error "Failed to search: fetch failed")) = true)
  /\ (Host.kind (Host.Error "Failed to get chapters: Episodes API returned no data")
      = Host.JsError
      /\ Js.startsWith "Failed to get chapters: "
           (Host.message
              (Host.Error "Failed to get chapters: Episodes API returned no data"))
         = true).
Proof.
  destruct X4_webtoons_wraps_errors as (HS & HC).
  split.
  - apply (HS (failing (Host.TypeError "fetch failed")) "tower"
              (Host.Error "Failed to search: fetch failed")
              [webtoonsSearchRequest "tower"]).
    reflexivity.
  - apply (HC 1%nat (answering 200 "OK" None) fixedRuntime "6795"
              (Host.Error "Failed to get chapters: Episodes API returned no data")
              [episodesRequest "6795" 0]).
    reflexivity.
Defined.

(** *** A search that finds nothing *)

Lemma trim_blank_length (s : string) :
  Js.trim s = "" -> (String.length (Js.trim s) =? 0)%nat = true.
Proof. now intros ->. Qed.

(** X5: a search that finds nothing returns the empty list and throws
    nothing: WeebCentral on a blank body and on a document without a result
    link, Webtoons on a response without [result], with a [total] of 0 or
    with no item, MangaDex on a null body and on a [data] that is missing
    or empty. *)
Theorem X5_search_that_finds_nothing :
  (forall (mango : Host.Mango string) query response,
     Host.http mango [] (weebcentralSearchRequest query) = inr response ->
     Host.status response = 200 ->
     Js.trim (Host.data response) = "" ->
     Host.run (WeebCentral.search mango query)
     = (Host.Return [], [weebcentralSearchRequest query]))
  /\ (forall (mango : Host.Mango string) query response parse doc,
     Host.http mango [] (weebcentralSearchRequest query) = inr response ->
     Host.status response = 200 ->
     Js.trim (Host.data response) <> "" ->
     Host.parseHTML mango = Some parse -> parse (Host.data response) = Some doc ->
     WeebCentral.searchLinks doc = [] ->
     Host.run (WeebCentral.search mango query)
     = (Host.Return [], [weebcentralSearchRequest query]))
  /\ (forall (mango : Host.Mango Webtoons.SearchData) query response,
     Host.http mango [] (webtoonsSearchRequest query) = inr response ->
     Host.status response = 200 ->
     (Webtoons.result (Host.data response) = None
      \/ exists res, Webtoons.result (Host.data response) = Some res
                     /\ (Webtoons.total res = Some 0
                         \/ default [] (Webtoons.searchedList res) = [])) ->
     Host.run (Webtoons.search mango query)
     = (Host.Return [], [webtoonsSearchRequest query]))
  /\ (forall (mango : Host.Mango (option MangaDex.SearchData)) query response,
     Host.http mango [] (mangadexSearchRequest mango query) = inr response ->
     Host.status response = 200 ->
     (Host.data response = None
      \/ exists apiResponse, Host.data response = Some apiResponse
                             /\ default [] (MangaDex.sd_data apiResponse) = []) ->
     Host.run (MangaDex.search mango query)
     = (Host.Return [], [mangadexSearchRequest mango query])).
Proof.
  repeat split.
  - intros mango query response Hhttp Hst Hblank.
    unfold WeebCentral.search. unfold weebcentralSearchRequest in Hhttp.
    run_with Hhttp. rewrite Hst, Hblank. cbn [negb String.length Nat.eqb Z.eqb Pos.eqb].
    now rewrite orb_true_r.
  - intros mango query response parse doc Hhttp Hst Hblank Hparse Hdoc Hlinks.
    erewrite weebcentral_search_success by eassumption. now rewrite Hlinks.
  - intros mango query response Hhttp Hst Hres.
    unfold Webtoons.search. unfold webtoonsSearchRequest in Hhttp.
    run_with Hhttp. rewrite Hst. cbn [negb Z.eqb Pos.eqb].
    destruct Hres as [-> | (res & -> & [Ht | Hl])]; [reflexivity | |].
    + now rewrite bool_decide_eq_true_2.
    + rewrite Hl. now destruct (bool_decide _).
  - intros mango query response Hhttp Hst Hres.
    unfold MangaDex.search. unfold mangadexSearchRequest in Hhttp.
    run_with Hhttp. rewrite Hst. cbn [negb Z.eqb Pos.eqb].
    destruct Hres as [-> | (apiResponse & -> & Hd)]; [reflexivity|].
    destruct (MangaDex.sd_data apiResponse) as [[|x l]|]; try reflexivity.
    discriminate.
Qed.

Lemma X5_search_that_finds_nothing_witness :
  Host.run (WeebCentral.search (answering 200 "OK" "  ") "naruto")
  = (Host.Return [], [weebcentralSearchRequest "naruto"])
  /\ Host.run (Webtoons.search
                 (answering 200 "OK" {| Webtoons.result := None |}) "tower")
     = (Host.Return [], [webtoonsSearchRequest "tower"])
  /\ Host.run (MangaDex.search (answering 200 "OK" None) "solo")
     = (Host.Return [], [mangadexSearchRequest (answering 200 "OK" None) "solo"]).
Proof.
  destruct X5_search_that_finds_nothing as (HW & _ & HT & HM).
  split; [|split].
  - eapply (HW (answering 200 "OK" "  ")); reflexivity.
  - eapply (HT (answering 200 "OK" {| Webtoons.result := None |}));
      first [reflexivity | now left].
  - eapply (HM (answering 200 "OK" None)); first [reflexivity | now left].
Defined.

(** ** The query of a proxy URL *)

Section EncodeFacts.

Lemma string_app_inv_head (p a b : string) : p +:+ a = p +:+ b -> a = b.
Proof. induction p as [|x p IH]; cbn [String.append]; [auto | intros [= H]; auto]. Qed.

Lemma hex_digit_unescaped n : (n < 16)%nat -> Js.uri_unescaped (Js.hex_digit n) = true.
Proof.
  intros H. do 16 (destruct n as [|n]; [reflexivity|]). lia.
Qed.

Lemma hex_digit_inj n m :
  (n < 16)%nat -> (m < 16)%nat -> Js.hex_digit n = Js.hex_digit m -> n = m.
Proof.
  intros Hn Hm.
  do 16 (destruct n as [|n];
         [do 16 (destruct m as [|m]; [first [reflexivity | discriminate]|]); lia|]).
  lia.
Qed.

Lemma nat_of_ascii_lt a : (nat_of_ascii a < 256)%nat.
Proof. apply nat_ascii_bounded. Qed.

Lemma encodeURIComponent_chars (s : string) :
  Js.all_chars uri_encoded_char (Js.encodeURIComponent s) = true.
Proof.
  induction s as [|a s IH]; [reflexivity|].
  cbn [Js.encodeURIComponent]. destruct (Js.uri_unescaped a) eqn:E.
  - cbn [Js.all_chars]. unfold uri_encoded_char at 1. now rewrite E, IH.
  - cbn [Js.all_chars]. rewrite IH.
    pose proof (nat_of_ascii_lt a) as Ha.
    unfold uri_encoded_char.
    rewrite !hex_digit_unescaped; [reflexivity | |].
    + apply Nat.mod_upper_bound. lia.
    + apply Nat.Div0.div_lt_upper_bound. lia.
Qed.

Lemma encodeURIComponent_inj (s t : string) :
  Js.encodeURIComponent s = Js.encodeURIComponent t -> s = t.
Proof.
  revert t. induction s as [|a s IH]; intros [|b t]; cbn [Js.encodeURIComponent].
  - reflexivity.
  - destruct (Js.uri_unescaped b); discriminate.
  - destruct (Js.uri_unescaped a); discriminate.
  - destruct (Js.uri_unescaped a) eqn:Ea, (Js.uri_unescaped b) eqn:Eb.
    + intros [= -> H]. f_equal. now apply IH.
    + intros [= -> _]. discriminate.
    + intros [= <- _]. discriminate.
    + intros [= H1 H2 H]. f_equal; [|now apply IH].
      pose proof (nat_of_ascii_lt a) as Ha. pose proof (nat_of_ascii_lt b) as Hb.
      assert (Hd : (nat_of_ascii a / 16 = nat_of_ascii b / 16)%nat).
      { apply hex_digit_inj; [apply Nat.Div0.div_lt_upper_bound; lia ..| exact H1]. }
      assert (Hm : (nat_of_ascii a mod 16 = nat_of_ascii b mod 16)%nat).
      { apply hex_digit_inj; [apply Nat.mod_upper_bound; lia ..| exact H2]. }
      rewrite <- (ascii_nat_embedding a), <- (ascii_nat_embedding b). f_equal.
      rewrite (Nat.div_mod_eq (nat_of_ascii a) 16), (Nat.div_mod_eq (nat_of_ascii b) 16).
      now rewrite Hd, Hm.
Qed.

Lemma encodeURIComponent_nonempty (s : string) :
  Js.nonempty (Js.encodeURIComponent s) = Js.nonempty s.
Proof.
  destruct s as [|a s]; [reflexivity|]. cbn [Js.encodeURIComponent].
  now destruct (Js.uri_unescaped a).
Qed.

End EncodeFacts.

(** *** Splitting *)

Section SplitFacts.

Lemma split_go_skip sep k cur (s : string) :
  Js.split_go sep k cur s = Js.split_go sep 0 cur (Js.drop k s).
Proof.
  revert k. induction s as [|a s IH]; intros [|k]; try reflexivity.
  cbn [Js.split_go Js.drop]. apply IH.
Qed.

Lemma split_go_head sep k cur (s : string) :
  exists p more, Js.split_go sep k cur s = (cur +:+ p) :: more.
Proof.
  revert k cur. induction s as [|a s IH]; intros k cur.
  - exists "", []. destruct k; cbn; now rewrite string_app_nil_r.
  - destruct k as [|k]; cbn [Js.split_go].
    + destruct (Js.startsWith sep (String a s)).
      * exists "". eexists. now rewrite string_app_nil_r.
      * destruct (IH O (cur +:+ String a "")) as (p & more & ->).
        exists (String a p), more. now rewrite string_app_assoc.
    + apply IH.
Qed.

Lemma includes_startsWith (p s : string) :
  Js.includes p s = false -> Js.startsWith p s = false.
Proof. destruct s; cbn [Js.includes]; intros H; now apply orb_false_elim in H. Qed.

Lemma includes_tail (p : string) a (s : string) :
  Js.includes p (String a s) = false -> Js.includes p s = false.
Proof. cbn [Js.includes]. intros H. now apply orb_false_elim in H. Qed.

(** Without an occurrence of the separator there is one piece. *)
Lemma split_go_none sep cur (s : string) :
  Js.includes sep s = false -> Js.split_go sep 0 cur s = [cur +:+ s].
Proof.
  revert cur. induction s as [|a s IH]; intros cur H.
  - cbn. now rewrite string_app_nil_r.
  - cbn [Js.split_go]. rewrite (includes_startsWith _ _ H).
    rewrite IH by (eapply includes_tail; eassumption).
    now rewrite string_app_assoc.
Qed.

Lemma startsWith_window (p x y : string) :
  (String.length p <= String.length x)%nat ->
  Js.startsWith p (x +:+ y) = Js.startsWith p x.
Proof.
  revert x. induction p as [|a p IH]; intros x H; [reflexivity|].
  destruct x as [|b x]; [cbn in H; lia|].
  cbn [String.append Js.startsWith]. rewrite IH; [reflexivity | cbn in H; lia].
Qed.

Lemma string_take_drop (n : nat) (s : string) : Js.take n s +:+ Js.drop n s = s.
Proof.
  revert n. induction s as [|a s IH]; intros [|n]; try reflexivity.
  cbn [Js.take Js.drop String.append]. now rewrite IH.
Qed.

Lemma string_take_length (n : nat) (s : string) :
  (n <= String.length s)%nat -> String.length (Js.take n s) = n.
Proof.
  revert n. induction s as [|a s IH]; intros [|n] H; try reflexivity.
  - cbn in H. lia.
  - cbn [Js.take String.length]. rewrite IH; [reflexivity | cbn in H; lia].
Qed.

(** The first piece ends at the first occurrence of the separator: when no
    occurrence starts inside [a], the pieces of [a ++ sep ++ rest] are [a]
    and the pieces of [rest]. *)
Lemma split_go_first sep cur (a rest : string) :
  sep <> "" ->
  Js.includes sep (a +:+ Js.take (String.length sep - 1) sep) = false ->
  Js.split_go sep 0 cur (a +:+ sep +:+ rest)
  = (cur +:+ a) :: Js.split_go sep 0 "" rest.
Proof.
  intros Hsep. revert cur. induction a as [|y a IH]; intros cur H.
  - destruct sep as [|x sep]; [congruence|].
    cbn [String.append Js.split_go].
    change (String x (sep +:+ rest)) with (String x sep +:+ rest).
    rewrite startsWith_app, string_app_nil_r.
    cbn [String.length Nat.sub]. rewrite Nat.sub_0_r.
    rewrite split_go_skip, drop_app_length. reflexivity.
  - cbn [String.append Js.split_go].
    assert (Hw : Js.startsWith sep (String y (a +:+ sep +:+ rest)) = false).
    { apply includes_startsWith in H.
      assert (E : String y (a +:+ sep +:+ rest)
                  = (String y a +:+ Js.take (String.length sep - 1) sep)
                    +:+ (Js.drop (String.length sep - 1) sep +:+ rest)).
      { rewrite string_app_assoc. cbn [String.append]. do 2 f_equal.
        now rewrite <- string_app_assoc, string_take_drop. }
      rewrite E, startsWith_window; [exact H|].
      rewrite string_app_length, string_take_length by lia. cbn [String.length].
      destruct sep; [congruence | cbn [String.length]; lia]. }
    rewrite Hw. rewrite IH.
    + now rewrite string_app_assoc.
    + eapply includes_tail. exact H.
Qed.

Lemma split_first sep (a rest : string) :
  sep <> "" ->
  Js.includes sep (a +:+ Js.take (String.length sep - 1) sep) = false ->
  Js.split sep (a +:+ sep +:+ rest) = a :: Js.split sep rest.
Proof. intros. unfold Js.split. now rewrite split_go_first. Qed.

Lemma split_none sep (s : string) :
  Js.includes sep s = false -> Js.split sep s = [s].
Proof. intros. unfold Js.split. now rewrite split_go_none. Qed.

End SplitFacts.

Section ProxyFacts.

Lemma all_chars_app p (a b : string) :
  Js.all_chars p (a +:+ b) = Js.all_chars p a && Js.all_chars p b.
Proof.
  induction a as [|x a IH]; cbn [String.append Js.all_chars]; [reflexivity|].
  now rewrite IH, andb_assoc.
Qed.

Lemma all_chars_not_includes p c (s : string) :
  p c = false -> Js.all_chars p s = true -> Js.includes (String c "") s = false.
Proof.
  intros Hc. induction s as [|x s IH]; [reflexivity|].
  cbn [Js.all_chars Js.includes Js.startsWith]. intros H.
  apply andb_prop in H as [Hx Hs]. rewrite (IH Hs), andb_true_r, orb_false_r.
  apply Ascii.eqb_neq. intros ->. congruence.
Qed.

Lemma split_join_char c (l : list string) :
  l <> [] -> Forall (fun x => Js.includes (String c "") x = false) l ->
  Js.split (String c "") (Js.join (String c "") l) = l.
Proof.
  induction l as [|x l IH]; [congruence|]. intros _ H.
  apply Forall_cons in H as [Hx Hl].
  destruct l as [|y l].
  - cbn [Js.join]. now apply split_none.
  - cbn [Js.join]. rewrite split_first; [f_equal; now apply IH | discriminate |].
    cbn [String.length Nat.sub Js.take]. now rewrite string_app_nil_r.
Qed.

Lemma param_chars (name v : string) :
  Js.all_chars param_char name = true ->
  Js.all_chars param_char (name +:+ "=" +:+ Js.encodeURIComponent v) = true.
Proof.
  intros H. rewrite !all_chars_app, H. cbn [Js.all_chars andb].
  change (param_char "=") with true. cbn [andb].
  eapply all_chars_impl; [|apply encodeURIComponent_chars].
  intros c Hc. unfold param_char. now rewrite Hc.
Qed.

Lemma param_no_amp (name v : string) :
  Js.all_chars param_char name = true ->
  Js.includes "&" (name +:+ "=" +:+ Js.encodeURIComponent v) = false.
Proof.
  intros H. apply (all_chars_not_includes param_char); [reflexivity|].
  now apply param_chars.
Qed.

Lemma optionParams_no_amp o :
  Forall (fun x => Js.includes "&" x = false) (optionParams o).
Proof.
  unfold optionParams.
  destruct (Js.nonempty (Host.referer o)), (Js.nonempty (Host.userAgent o)),
    (Js.nonempty (Host.origin o)); cbn [app];
    repeat apply Forall_cons_2; try apply Forall_nil_2;
    first [apply (param_no_amp "referer") | apply (param_no_amp "user-agent")
          | apply (param_no_amp "origin")]; reflexivity.
Qed.

End ProxyFacts.

(** X6: the query of a proxy URL is the list of its parameters joined by
    [&], and splitting the query at [&] gives that list back: the
    percent-encoding leaves no [&] in a value, so the proxy reads each
    parameter as it was written. *)
Theorem X6_proxy_query_splits_into_its_parameters :
  (forall imageUrl o,
     WeebCentral.constructProxyUrl imageUrl o
     = WeebCentral.PROXY_BASE_URL +:+ "?"
       +:+ Js.join "&" (("url=" +:+ Js.encodeURIComponent imageUrl) :: optionParams o)
     /\ Webtoons.constructProxyUrl imageUrl o
        = Webtoons.PROXY_BASE_URL +:+ "?"
          +:+ Js.join "&" (("url=" +:+ Js.encodeURIComponent imageUrl) :: optionParams o)
     /\ Js.split "&"
          (Js.join "&" (("url=" +:+ Js.encodeURIComponent imageUrl) :: optionParams o))
        = ("url=" +:+ Js.encodeURIComponent imageUrl) :: optionParams o)
  /\ (forall imageUrl o,
     let params :=
       ("url=" +:+ Js.encodeURIComponent imageUrl)
       :: (if Js.nonempty (Host.referer o)
           then ["referer=" +:+ Js.encodeURIComponent (Host.referer o)] else []) in
     MangaDex.constructProxyUrl imageUrl o
     = MangaDex.PROXY_BASE_URL +:+ "?" +:+ Js.join "&" params
     /\ Js.split "&" (Js.join "&" params) = params).
Proof.
  split.
  - intros imageUrl o. split; [reflexivity | split; [reflexivity|]].
    apply split_join_char; [discriminate|].
    apply Forall_cons_2; [apply (param_no_amp "url"); reflexivity|].
    apply optionParams_no_amp.
  - intros imageUrl o. cbv zeta. split; [reflexivity|].
    apply split_join_char; [discriminate|].
    apply Forall_cons_2; [apply (param_no_amp "url"); reflexivity|].
    destruct (Js.nonempty (Host.referer o)); [|apply Forall_nil_2].
    apply Forall_cons_2; [|apply Forall_nil_2].
    apply (param_no_amp "referer"). reflexivity.
Qed.

Section ProxyInjective.

Lemma join_amp_inj (l1 l2 : list string) :
  l1 <> [] -> l2 <> [] ->
  Forall (fun x => Js.includes "&" x = false) l1 ->
  Forall (fun x => Js.includes "&" x = false) l2 ->
  Js.join "&" l1 = Js.join "&" l2 -> l1 = l2.
Proof.
  intros N1 N2 H1 H2 E.
  rewrite <- (split_join_char "&" l1 N1 H1), <- (split_join_char "&" l2 N2 H2).
  now rewrite E.
Qed.

Lemma url_param_inj (u1 u2 : string) :
  "url=" +:+ Js.encodeURIComponent u1 = "url=" +:+ Js.encodeURIComponent u2 -> u1 = u2.
Proof. intros H. apply string_app_inv_head in H. now apply encodeURIComponent_inj. Qed.

Lemma cons_eq_inv {X : Type} (x y : X) (l l' : list X) :
  x :: l = y :: l' -> x = y /\ l = l'.
Proof. intros [= -> ->]. now split. Qed.

Lemma optionParams_inj o1 o2 : optionParams o1 = optionParams o2 -> o1 = o2.
Proof.
  destruct o1 as [r1 u1 g1], o2 as [r2 u2 g2]. unfold optionParams.
  cbn [Host.referer Host.userAgent Host.origin].
  destruct r1 as [|? r1], u1 as [|? u1], g1 as [|? g1],
           r2 as [|? r2], u2 as [|? u2], g2 as [|? g2];
    cbn [Js.nonempty app]; intros H; try discriminate H;
    repeat match type of H with
           | _ :: _ = _ :: _ =>
               let H1 := fresh "H" in
               apply cons_eq_inv in H as [H1 H];
               first [discriminate H1
                     | apply (string_app_inv_head "referer=") in H1
                     | apply (string_app_inv_head "user-agent=") in H1
                     | apply (string_app_inv_head "origin=") in H1];
               apply encodeURIComponent_inj in H1
           end;
    try discriminate H; congruence.
Qed.

End ProxyInjective.

(** X7: [constructProxyUrl] is injective: two proxy URLs are equal only when
    they come from the same image URL and the same options; for the
    MangaDex copy, which reads the referer only, from the same image URL and
    the same referer. *)
Theorem X7_constructProxyUrl_injective :
  (forall u1 u2 o1 o2,
     WeebCentral.constructProxyUrl u1 o1 = WeebCentral.constructProxyUrl u2 o2 ->
     u1 = u2 /\ o1 = o2)
  /\ (forall u1 u2 o1 o2,
     Webtoons.constructProxyUrl u1 o1 = Webtoons.constructProxyUrl u2 o2 ->
     u1 = u2 /\ o1 = o2)
  /\ (forall u1 u2 o1 o2,
     MangaDex.constructProxyUrl u1 o1 = MangaDex.constructProxyUrl u2 o2 ->
     u1 = u2 /\ Host.referer o1 = Host.referer o2).
Proof.
  assert (Hfull : forall u1 u2 o1 o2,
            Js.join "&" (("url=" +:+ Js.encodeURIComponent u1) :: optionParams o1)
            = Js.join "&" (("url=" +:+ Js.encodeURIComponent u2) :: optionParams o2) ->
            u1 = u2 /\ o1 = o2).
  { intros u1 u2 o1 o2 H. apply join_amp_inj in H; try discriminate.
    - apply cons_eq_inv in H as [H1 H2].
      split; [now apply url_param_inj | now apply optionParams_inj].
    - apply Forall_cons_2; [apply (param_no_amp "url"); reflexivity|].
      apply optionParams_no_amp.
    - apply Forall_cons_2; [apply (param_no_amp "url"); reflexivity|].
      apply optionParams_no_amp. }
  split; [|split].
  - intros u1 u2 o1 o2 H. apply Hfull.
    now apply (string_app_inv_head (WeebCentral.PROXY_BASE_URL +:+ "?")).
  - intros u1 u2 o1 o2 H. apply Hfull.
    now apply (string_app_inv_head (Webtoons.PROXY_BASE_URL +:+ "?")).
  - intros u1 u2 o1 o2 H.
    destruct (Hfull u1 u2
                {| Host.referer := Host.referer o1; Host.userAgent := "";
                   Host.origin := "" |}
                {| Host.referer := Host.referer o2; Host.userAgent := "";
                   Host.origin := "" |}) as [Hu Ho].
    + apply (string_app_inv_head (MangaDex.PROXY_BASE_URL +:+ "?")).
      unfold MangaDex.constructProxyUrl in H. unfold optionParams.
      cbn [Host.referer Host.userAgent Host.origin Js.nonempty].
      rewrite !app_nil_r. exact H.
    + split; [exact Hu | congruence].
Qed.

Lemma X7_constructProxyUrl_injective_witness :
  "https://cdn.example/1.jpg" = "https://cdn.example/1.jpg"
  /\ Webtoons.refererOnly = Webtoons.refererOnly.
Proof.
  apply (proj1 X7_constructProxyUrl_injective
           "https://cdn.example/1.jpg" "https://cdn.example/1.jpg"
           Webtoons.refererOnly Webtoons.refererOnly).
  reflexivity.
Defined.

(** ** What the WeebCentral adapter reads from a page *)

Section MatcherInversion.
Import Regex.

Lemma star_greedy_inv p k pos (s : string) c m :
  star_greedy p k pos s c = Some m ->
  exists t s', s = t +:+ s' /\ Js.all_chars p t = true
               /\ k (pos + String.length t)%nat s' c = Some m.
Proof.
  revert pos. induction s as [|a s IH]; intros pos; cbn [star_greedy].
  - intros H. exists "", "". rewrite Nat.add_0_r. auto.
  - destruct (p a) eqn:Ha.
    + destruct (star_greedy p k (S pos) s c) as [m'|] eqn:E.
      * intros [= <-]. apply IH in E as (t & s' & -> & Ht & Hk).
        exists (String a t), s'. cbn [Js.all_chars String.length]. rewrite Ha, Ht.
        repeat split. now rewrite Nat.add_succ_r.
      * intros H. exists "", (String a s). rewrite Nat.add_0_r. auto.
    + intros H. exists "", (String a s). rewrite Nat.add_0_r. auto.
Qed.

Lemma rmatch_chr_inv p k pos (s : string) c m :
  rmatch (Chr p) k pos s c = Some m ->
  exists a s', s = String a s' /\ p a = true /\ k (S pos) s' c = Some m.
Proof.
  cbn [rmatch]. destruct s as [|a s]; [discriminate|].
  destruct (p a) eqn:Ha; [|discriminate]. eauto.
Qed.

Lemma rmatch_lit_inv (t : string) k pos (s : string) c m :
  rmatch (lit t) k pos s c = Some m ->
  exists s', s = t +:+ s' /\ k (pos + String.length t)%nat s' c = Some m.
Proof.
  revert pos s. induction t as [|x t IH]; intros pos s; cbn [lit rmatch].
  - intros H. exists s. now rewrite Nat.add_0_r.
  - intros H. apply rmatch_chr_inv in H as (a & s' & -> & Ha & H).
    apply Ascii.eqb_eq in Ha as <-. apply IH in H as (s'' & -> & H).
    exists s''. cbn [String.length]. now rewrite Nat.add_succ_r.
Qed.

Lemma rmatch_lit_i_inv (t : string) k pos (s : string) c m :
  rmatch (lit_i t) k pos s c = Some m ->
  exists t' s', s = t' +:+ s' /\ String.length t' = String.length t
                /\ k (pos + String.length t)%nat s' c = Some m.
Proof.
  revert pos s. induction t as [|x t IH]; intros pos s; cbn [lit_i rmatch].
  - intros H. exists "", s. now rewrite Nat.add_0_r.
  - intros H. apply rmatch_chr_inv in H as (a & s' & -> & Ha & H).
    apply IH in H as (t' & s'' & -> & Hl & H).
    exists (String a t'), s''. cbn [String.length]. rewrite Hl, Nat.add_succ_r. auto.
Qed.

Lemma rmatch_group_plus_inv p i k pos (s : string) c m :
  rmatch (Group i (Plus p)) k pos s c = Some m ->
  exists t s', s = t +:+ s' /\ t <> "" /\ Js.all_chars p t = true
               /\ k (pos + String.length t)%nat s' ((i, t) :: c) = Some m.
Proof.
  unfold Plus. cbn [rmatch]. destruct s as [|a s]; [discriminate|].
  destruct (p a) eqn:Ha; [|discriminate]. intros H.
  apply star_greedy_inv in H as (t & s' & -> & Ht & H).
  exists (String a t), s'. cbn [Js.all_chars String.length]. rewrite Ha, Ht.
  repeat split; [discriminate|].
  replace (S pos + String.length t - pos)%nat with (String.length (String a t)) in H
    by (cbn [String.length]; lia).
  change (String a (t +:+ s')) with (String a t +:+ s') in H.
  rewrite take_app_length in H. now rewrite Nat.add_succ_r.
Qed.

Lemma exec_from_inv r pos (s : string) m :
  exec_from r pos s = Some m ->
  exists s', rmatch r accept (index m) s' [] = Some (lastIndex m, groups m).
Proof.
  revert pos. induction s as [|a s IH]; intros pos; cbn [exec_from].
  - destruct (rmatch r accept pos "" []) as [[e c]|] eqn:E; [|discriminate].
    intros [= <-]. now exists "".
  - destruct (rmatch r accept pos (String a s) []) as [[e c]|] eqn:E.
    + intros [= <-]. now exists (String a s).
    + apply IH.
Qed.

(** A position at which the pattern does not match is passed over. *)
Lemma exec_from_step r pos a (s : string) :
  rmatch r accept pos (String a s) [] = None ->
  exec_from r pos (String a s) = exec_from r (S pos) s.
Proof. intros H. cbn [exec_from]. now rewrite H. Qed.

End MatcherInversion.

Section ChapterNumber.
Import Regex.

Lemma chapterRegex_no_digit pos a (s : string) :
  Js.is_digit a = false ->
  rmatch WeebCentral.chapterRegex accept pos (String a s) [] = None.
Proof.
  intros Ha. unfold WeebCentral.chapterRegex, Plus, digit. cbn [rmatch].
  now rewrite Ha.
Qed.

Lemma chapterRegex_end pos :
  rmatch WeebCentral.chapterRegex accept pos "" [] = None.
Proof. reflexivity. Qed.

Lemma rmatch_group i r k pos (s : string) c :
  rmatch (Group i r) k pos s c
  = rmatch r (fun pos' s' c' => k pos' s' ((i, Js.take (pos' - pos) s) :: c')) pos s c.
Proof. reflexivity. Qed.

Lemma rmatch_plus p k pos x (s : string) c :
  rmatch (Plus p) k pos (String x s) c
  = if p x then star_greedy p k (S pos) s c else None.
Proof. reflexivity. Qed.

Lemma rmatch_opt r k pos (s : string) c :
  rmatch (Opt r) k pos s c
  = match rmatch r k pos s c with Some m => Some m | None => k pos s c end.
Proof. reflexivity. Qed.

Lemma fraction_none k pos (r : string) c :
  starts_with_fraction r = false ->
  rmatch (Seq (char ".") (Plus digit)) k pos r c = None.
Proof.
  unfold starts_with_fraction, starts_with_digit, Plus, char, digit. cbn [rmatch].
  destruct r as [|x r]; [reflexivity|].
  destruct (Ascii.eqb "." x); [|reflexivity]. cbn [andb].
  destruct r as [|y r]; [reflexivity|]. now intros ->.
Qed.

(** At a run of digits that no fraction follows, the pattern takes the
    run. *)
Lemma chapterRegex_integer pos (d r : string) :
  d <> "" -> Js.all_chars Js.is_digit d = true ->
  starts_with_digit r = false -> starts_with_fraction r = false ->
  rmatch WeebCentral.chapterRegex accept pos (d +:+ r) []
  = Some ((pos + String.length d)%nat, [(1%nat, d)]).
Proof.
  intros Hne Hd Hr Hf. destruct d as [|x d]; [congruence|].
  cbn [Js.all_chars] in Hd. apply andb_prop in Hd as [Hx Hd].
  unfold WeebCentral.chapterRegex.
  rewrite rmatch_group, rmatch_seq. cbn [String.append]. rewrite rmatch_plus.
  unfold digit at 1. rewrite Hx.
  apply star_greedy_app; [exact Hd|].
  rewrite star_greedy_stop' by (destruct r; [exact I | exact Hr]).
  rewrite rmatch_opt, fraction_none by assumption.
  unfold accept. do 2 f_equal; [cbn [String.length]; lia|].
  do 2 f_equal.
  replace (S pos + String.length d - pos)%nat with (String.length (String x d))
    by (cbn [String.length]; lia).
  change (String x (d +:+ r)) with (String x d +:+ r).
  apply take_app_length.
Qed.

(** At a run of digits that a fraction follows, it takes both. *)
Lemma chapterRegex_decimal pos (d f r : string) :
  d <> "" -> Js.all_chars Js.is_digit d = true ->
  f <> "" -> Js.all_chars Js.is_digit f = true ->
  starts_with_digit r = false ->
  rmatch WeebCentral.chapterRegex accept pos (d +:+ "." +:+ f +:+ r) []
  = Some ((pos + String.length (d +:+ "." +:+ f))%nat, [(1%nat, d +:+ "." +:+ f)]).
Proof.
  intros Hne Hd Hnf Hf Hr. destruct d as [|x d]; [congruence|].
  destruct f as [|y f]; [congruence|].
  cbn [Js.all_chars] in Hd, Hf.
  apply andb_prop in Hd as [Hx Hd]. apply andb_prop in Hf as [Hy Hf].
  unfold WeebCentral.chapterRegex.
  rewrite rmatch_group, rmatch_seq. cbn [String.append]. rewrite rmatch_plus.
  unfold digit at 1. rewrite Hx.
  apply star_greedy_app; [exact Hd|].
  rewrite star_greedy_stop' by reflexivity.
  rewrite rmatch_opt, rmatch_seq.
  change (rmatch (char ".") ?k ?p (String "." ?s) ?c) with (k (S p) s c).
  rewrite rmatch_plus. unfold digit at 1. rewrite Hy.
  erewrite star_greedy_app; [reflexivity | exact Hf |].
  rewrite star_greedy_stop' by (destruct r; [exact I | exact Hr]).
  unfold accept.
  assert (E : String x (d +:+ String "." (String y (f +:+ r)))
              = String x (d +:+ String "." (String y f)) +:+ r).
  { cbn [String.append]. f_equal. rewrite string_app_assoc. reflexivity. }
  assert (L : String.length (String x (d +:+ String "." (String y f)))
              = S (S (S (String.length d + String.length f)))).
  { cbn [String.length]. rewrite string_app_length. cbn [String.length]. lia. }
  rewrite E.
  replace (S (S (S pos + String.length d)) + String.length f - pos)%nat
    with (String.length (String x (d +:+ String "." (String y f)))) by lia.
  rewrite take_app_length, L. do 2 f_equal. lia.
Qed.

(** The pattern matches at the first digit of the input. *)
Lemma exec_chapterRegex_skip (p s : string) pos :
  Js.all_chars (fun c => negb (Js.is_digit c)) p = true ->
  exec_from WeebCentral.chapterRegex pos (p +:+ s)
  = exec_from WeebCentral.chapterRegex (pos + String.length p)%nat s.
Proof.
  revert pos. induction p as [|a p IH]; intros pos Hp.
  - cbn. now rewrite Nat.add_0_r.
  - cbn [Js.all_chars] in Hp. apply andb_prop in Hp as [Ha Hp].
    apply negb_true_iff in Ha. cbn [String.append].
    rewrite exec_from_step by now apply chapterRegex_no_digit.
    rewrite IH by assumption. cbn [String.length]. f_equal. lia.
Qed.

End ChapterNumber.

Section RowFacts.

Lemma chapterEntry_chapter item c :
  WeebCentral.chapterEntry item = Some c ->
  WeebCentral.chapter c
  = match Regex.exec WeebCentral.chapterRegex (WeebCentral.title c) with
    | Some m =>
        let m1 := Js.opt_str (Regex.group 1 (Regex.groups m)) in
        if Js.nonempty m1 then WeebCentral.cleanChapterNumber m1 else ""
    | None => ""
    end.
Proof.
  unfold WeebCentral.chapterEntry.
  destruct (Dom.querySelector "a" item) as [a|]; [|discriminate].
  destruct (negb _); [discriminate|]. cbv zeta.
  match goal with
  | |- (if Js.nonempty ?x then _ else _) = _ -> _ =>
      destruct (Js.nonempty x); [|discriminate]
  end.
  now intros [= <-].
Qed.

Lemma exec_chapterRegex_none (p : string) pos :
  Js.all_chars (fun c => negb (Js.is_digit c)) p = true ->
  Regex.exec_from WeebCentral.chapterRegex pos p = None.
Proof.
  intros Hp. rewrite <- (string_app_nil_r p), exec_chapterRegex_skip by assumption.
  reflexivity.
Qed.

End RowFacts.

(** X8: the chapter number of a WeebCentral chapter is read from the first
    run of digits of its title: the run and, when a dot and further digits
    follow it, the dot and these digits, with the leading zeros removed by
    [cleanChapterNumber].  A title without a digit gives the empty chapter
    number. *)
Theorem X8_weebcentral_chapter_number item c :
  WeebCentral.chapterEntry item = Some c ->
  (forall p d r,
     WeebCentral.title c = p +:+ d +:+ r ->
     Js.all_chars (fun a => negb (Js.is_digit a)) p = true ->
     d <> "" -> Js.all_chars Js.is_digit d = true ->
     starts_with_digit r = false -> starts_with_fraction r = false ->
     WeebCentral.chapter c = WeebCentral.cleanChapterNumber d)
  /\ (forall p d f r,
     WeebCentral.title c = p +:+ d +:+ "." +:+ f +:+ r ->
     Js.all_chars (fun a => negb (Js.is_digit a)) p = true ->
     d <> "" -> Js.all_chars Js.is_digit d = true ->
     f <> "" -> Js.all_chars Js.is_digit f = true ->
     starts_with_digit r = false ->
     WeebCentral.chapter c = WeebCentral.cleanChapterNumber (d +:+ "." +:+ f))
  /\ (Js.all_chars (fun a => negb (Js.is_digit a)) (WeebCentral.title c) = true ->
     WeebCentral.chapter c = "").
Proof.
  intros Hc. rewrite (chapterEntry_chapter _ _ Hc). unfold Regex.exec.
  split; [|split].
  - intros p d r -> Hp Hne Hd Hr Hf.
    rewrite exec_chapterRegex_skip by assumption.
    rewrite (exec_from_here _ _ _ _ _ (chapterRegex_integer _ d r Hne Hd Hr Hf)).
    cbn [Regex.groups Regex.group Nat.eqb Js.opt_str default].
    cbv zeta. now destruct d.
  - intros p d f r -> Hp Hne Hd Hnf Hf Hr.
    rewrite exec_chapterRegex_skip by assumption.
    rewrite (exec_from_here _ _ _ _ _ (chapterRegex_decimal _ d f r Hne Hd Hnf Hf Hr)).
    cbn [Regex.groups Regex.group Nat.eqb Js.opt_str default].
    cbv zeta. now destruct d.
  - intros Hp. now rewrite exec_chapterRegex_none.
Qed.

Lemma X8_weebcentral_chapter_number_witness :
  WeebCentral.chapterEntry (chapterRow "/chapters/ch9" "Chapter 009.5 - Side story 2")
  = Some {| WeebCentral.identifier := "ch9";
            WeebCentral.title := "Chapter 009.5 - Side story 2";
            WeebCentral.chapter := "9.5";
            WeebCentral.published_at := "" |}
  /\ WeebCentral.chapter
       {| WeebCentral.identifier := "ch9";
          WeebCentral.title := "Chapter 009.5 - Side story 2";
          WeebCentral.chapter := "9.5";
          WeebCentral.published_at := "" |}
     = WeebCentral.cleanChapterNumber ("009" +:+ "." +:+ "5").
Proof.
  split; [reflexivity|].
  apply (proj1 (proj2 (X8_weebcentral_chapter_number
                         (chapterRow "/chapters/ch9" "Chapter 009.5 - Side story 2")
                         _ eq_refl))
           "Chapter " "009" "5" " - Side story 2");
    first [reflexivity | discriminate].
Defined.

(** *** Identifiers read from links *)

Section LinkFacts.

Lemma includes_char c (s : string) :
  Js.includes (String c "") s = negb (Js.all_chars (fun x => negb (Ascii.eqb c x)) s).
Proof.
  induction s as [|x s IH]; [reflexivity|].
  cbn [Js.includes Js.startsWith Js.all_chars]. rewrite IH, andb_true_r.
  now destruct (Ascii.eqb c x), (Js.all_chars _ s).
Qed.

Lemma no_char_app c (a b : string) :
  Js.includes (String c "") (a +:+ b) = false <->
  Js.includes (String c "") a = false /\ Js.includes (String c "") b = false.
Proof.
  rewrite !includes_char, all_chars_app.
  destruct (Js.all_chars _ a), (Js.all_chars _ b); cbn; intuition congruence.
Qed.

(** The first piece of a split on a character does not hold the
    character. *)
Lemma split_go_head_free c cur (s : string) :
  Js.includes (String c "") cur = false ->
  exists p more, Js.split_go (String c "") 0 cur s = p :: more
                 /\ Js.includes (String c "") p = false.
Proof.
  revert cur. induction s as [|a s IH]; intros cur Hcur.
  - exists cur, []. auto.
  - cbn [Js.split_go Js.startsWith]. rewrite andb_true_r.
    destruct (Ascii.eqb c a) eqn:E.
    + exists cur. eexists. auto.
    + apply IH. apply no_char_app. split; [assumption|].
      cbn [Js.includes Js.startsWith]. now rewrite E.
Qed.

Lemma split_head_free c (s : string) :
  Js.includes (String c "") (default "" (head (Js.split (String c "") s))) = false.
Proof.
  destruct (split_go_head_free c "" s eq_refl) as (p & more & E & Hp).
  unfold Js.split. now rewrite E.
Qed.

(** A segment that ends at a [/] or at the end of the input is the head of
    the first piece of a split on a separator that begins with [/]. *)
Lemma split_go_segment sep cur (seg b : string) :
  Js.includes "/" seg = false -> (b = "" \/ Js.startsWith "/" b = true) ->
  exists p more,
    Js.split_go (String "/" sep) 0 cur (seg +:+ b) = (cur +:+ seg +:+ p) :: more
    /\ (p = "" \/ Js.startsWith "/" p = true).
Proof.
  intros Hseg Hb. revert cur. induction seg as [|y seg IH]; intros cur.
  - cbn [String.append]. destruct b as [|x b].
    + exists "", []. cbn. rewrite string_app_nil_r. auto.
    + destruct Hb as [Hb|Hb]; [discriminate|].
      cbn [Js.split_go]. destruct (Js.startsWith (String "/" sep) (String x b)).
      * exists "". eexists. rewrite string_app_nil_r. auto.
      * destruct (split_go_head (String "/" sep) 0 (cur +:+ String x "") b)
          as (p & more & ->).
        exists (String x p), more. rewrite string_app_assoc. split; [reflexivity|].
        right. cbn [Js.startsWith] in Hb |- *. now rewrite andb_true_r in *.
  - cbn [Js.includes Js.startsWith] in Hseg. rewrite andb_true_r in Hseg.
    apply orb_false_elim in Hseg as [Hy Hseg].
    cbn [String.append Js.split_go Js.startsWith]. rewrite Hy. cbn [andb].
    destruct (IH Hseg (cur +:+ String y "")) as (p & more & -> & Hp).
    exists p, more. rewrite !string_app_assoc. auto.
Qed.

Lemma split_slash_segment (seg p : string) :
  Js.includes "/" seg = false -> (p = "" \/ Js.startsWith "/" p = true) ->
  head (Js.split "/" (seg +:+ p)) = Some seg.
Proof.
  intros Hseg [-> | Hp].
  - rewrite string_app_nil_r, split_none by assumption. reflexivity.
  - destruct p as [|x p]; [discriminate|].
    cbn [Js.startsWith] in Hp. rewrite andb_true_r in Hp.
    apply Ascii.eqb_eq in Hp as <-.
    change (String "/" p) with ("/" +:+ p).
    rewrite split_first; [reflexivity | discriminate |].
    cbn [String.length Nat.sub Js.take]. now rewrite string_app_nil_r.
Qed.

End LinkFacts.

Section SeriesId.
Import Regex.

Lemma seriesRegex_group pos (s : string) e c :
  rmatch WeebCentral.seriesRegex accept pos s [] = Some (e, c) ->
  exists t, group 1 c = Some t /\ Js.includes "/" t = false.
Proof.
  unfold WeebCentral.seriesRegex. rewrite rmatch_seq. intros H.
  apply rmatch_lit_inv in H as (s' & -> & H).
  apply rmatch_group_plus_inv in H as (t & s'' & -> & Hne & Ht & H).
  injection H as <- <-. exists t. split; [reflexivity|].
  rewrite includes_char. apply negb_false_iff.
  eapply all_chars_impl; [|exact Ht]. intros x Hx. unfold not_char in Hx.
  now rewrite Ascii.eqb_sym.
Qed.

(** The identifier part that [search] reads from an [href]. *)
Lemma series_id_free (href : string) :
  Js.includes "/"
    (match Js.split "/series/" href with
     | _ :: part :: _ => default "" (head (Js.split "/" part))
     | _ =>
         match exec WeebCentral.seriesRegex href with
         | Some m => Js.opt_str (group 1 (groups m))
         | None => ""
         end
     end) = false.
Proof.
  assert (Hre : Js.includes "/"
                  match exec WeebCentral.seriesRegex href with
                  | Some m => Js.opt_str (group 1 (groups m))
                  | None => ""
                  end = false).
  { unfold exec. destruct (exec_from _ 0 href) as [m|] eqn:E; [|reflexivity].
    apply exec_from_inv in E as (s' & E).
    apply seriesRegex_group in E as (t & -> & Ht). exact Ht. }
  destruct (Js.split "/series/" href) as [|x [|part l]]; try exact Hre.
  apply split_head_free.
Qed.

End SeriesId.

Lemma searchEntry_identifier link r :
  WeebCentral.searchEntry link = Some r ->
  Host.identifier r
  = match Js.split "/series/" (Js.opt_str (Dom.getAttribute "href" link)) with
    | _ :: part :: _ => default "" (head (Js.split "/" part))
    | _ =>
        match Regex.exec WeebCentral.seriesRegex
                (Js.opt_str (Dom.getAttribute "href" link)) with
        | Some m => Js.opt_str (Regex.group 1 (Regex.groups m))
        | None => ""
        end
    end.
Proof.
  unfold WeebCentral.searchEntry. cbv zeta.
  destruct (negb _); [discriminate|].
  match goal with
  | |- (if ?b then _ else _) = _ -> _ => destruct b; [|discriminate]
  end.
  now intros [= <-].
Qed.

(** X9: the identifier of a WeebCentral search result holds no [/]; when
    the link reads [a/series/seg] or [a/series/seg/...], and this is the
    first [/series/] of the link, the identifier is the segment [seg]. *)
Theorem X9_weebcentral_series_identifier link r :
  WeebCentral.searchEntry link = Some r ->
  Js.includes "/" (Host.identifier r) = false
  /\ (forall a seg b,
        Dom.getAttribute "href" link = Some (a +:+ "/series/" +:+ seg +:+ b) ->
        Js.includes "/series/" (a +:+ "/series") = false ->
        Js.includes "/" seg = false ->
        b = "" \/ Js.startsWith "/" b = true ->
        Host.identifier r = seg).
Proof.
  intros Hr. rewrite (searchEntry_identifier _ _ Hr). split.
  - apply series_id_free.
  - intros a seg b -> Ha Hseg Hb. cbn [Js.opt_str from_option id].
    rewrite split_first by (first [discriminate | exact Ha]).
    destruct (split_go_segment "series/" "" seg b Hseg Hb) as (p & more & E & Hp).
    unfold Js.split at 1. change ("/series/") with (String "/" "series/").
    rewrite E. cbn [String.append].
    now rewrite split_slash_segment.
Qed.

Lemma X9_weebcentral_series_identifier_witness :
  let link :=
    Dom.Element [("href", "https://weebcentral.com/series/01J76XY/One-Piece")] ""
      [(".flex-1", [Dom.Element [] "One Piece" []])] in
  let r := {| Host.title := "One Piece"; Host.cover_url := "";
              Host.identifier := "01J76XY" |} in
  WeebCentral.searchEntry link = Some r
  /\ Js.includes "/" (Host.identifier r) = false
  /\ Host.identifier r = "01J76XY".
Proof.
  cbv zeta. split; [reflexivity|].
  destruct (X9_weebcentral_series_identifier
              (Dom.Element [("href", "https://weebcentral.com/series/01J76XY/One-Piece")] ""
                 [(".flex-1", [Dom.Element [] "One Piece" []])])
              _ eq_refl) as [H1 H2].
  split; [exact H1|].
  apply (H2 "https://weebcentral.com" "01J76XY" "/One-Piece");
    first [reflexivity | now right].
Defined.

(** X10: the identifier of a WeebCentral chapter is what follows the
    [/chapters/] of the link of its row, when the link holds one
    [/chapters/] and something after it; a row whose link holds no
    [/chapters/], and a row without a link, give no chapter. *)
Theorem X10_weebcentral_chapter_identifier item :
  (forall anchor a seg,
     Dom.querySelector "a" item = Some anchor ->
     Dom.getAttribute "href" anchor = Some (a +:+ "/chapters/" +:+ seg) ->
     Js.includes "/chapters/" (a +:+ "/chapters") = false ->
     Js.includes "/chapters/" seg = false -> seg <> "" ->
     exists c, WeebCentral.chapterEntry item = Some c
               /\ WeebCentral.identifier c = seg)
  /\ (forall anchor href,
     Dom.querySelector "a" item = Some anchor ->
     Dom.getAttribute "href" anchor = Some href ->
     Js.includes "/chapters/" href = false ->
     WeebCentral.chapterEntry item = None)
  /\ (Dom.querySelector "a" item = None -> WeebCentral.chapterEntry item = None).
Proof.
  split; [|split].
  - intros anchor a seg Ha Hhref Hfirst Hseg Hne.
    unfold WeebCentral.chapterEntry. rewrite Ha, Hhref.
    cbn [Js.opt_str from_option id].
    rewrite split_first by (first [discriminate | exact Hfirst]).
    rewrite split_none by exact Hseg.
    assert (Hnon : Js.nonempty (a +:+ "/chapters/" +:+ seg) = true).
    { destruct a; reflexivity. }
    rewrite Hnon. cbn [negb]. cbv zeta.
    apply nonempty_true in Hne. rewrite Hne.
    eexists. split; reflexivity.
  - intros anchor href Ha Hhref Hnone.
    unfold WeebCentral.chapterEntry. rewrite Ha, Hhref.
    cbn [Js.opt_str from_option id].
    rewrite split_none by exact Hnone.
    destruct (negb (Js.nonempty href)); reflexivity.
  - intros Ha. unfold WeebCentral.chapterEntry. now rewrite Ha.
Qed.

Lemma X10_weebcentral_chapter_identifier_witness :
  (exists c,
     WeebCentral.chapterEntry
       (chapterRow "https://weebcentral.com/chapters/01J76XYCH1" "Chapter 1") = Some c
     /\ WeebCentral.identifier c = "01J76XYCH1")
  /\ WeebCentral.chapterEntry (chapterRow "/series/abc" "Chapter 1") = None.
Proof.
  destruct (X10_weebcentral_chapter_identifier
              (chapterRow "https://weebcentral.com/chapters/01J76XYCH1" "Chapter 1"))
    as (H1 & _ & _).
  destruct (X10_weebcentral_chapter_identifier (chapterRow "/series/abc" "Chapter 1"))
    as (_ & H2 & _).
  split.
  - eapply (fun anchor => H1 anchor "https://weebcentral.com" "01J76XYCH1");
      first [reflexivity | discriminate].
  - eapply H2; reflexivity.
Defined.

(** ** [cleanChapterNumber] and the number it keeps *)

Section CleanFacts.

Lemma cleanChapterNumber_strip (s : string) :
  WeebCentral.cleanChapterNumber s
  = if String.eqb (stripLeadingZeros s) "" then "0" else stripLeadingZeros s.
Proof. unfold WeebCentral.cleanChapterNumber. now rewrite replace_leadingZeros. Qed.

Lemma strip_no_zero (s : string) : Js.startsWith "0" (stripLeadingZeros s) = false.
Proof.
  induction s as [|a s IH]; [reflexivity|]. cbn [stripLeadingZeros].
  destruct (Ascii.eqb "0" a) eqn:E; [exact IH|].
  cbn [Js.startsWith]. now rewrite E.
Qed.

Lemma strip_fixed (s : string) :
  Js.startsWith "0" s = false -> stripLeadingZeros s = s.
Proof.
  destruct s as [|a s]; [reflexivity|]. cbn [Js.startsWith stripLeadingZeros].
  rewrite andb_true_r. now intros ->.
Qed.

End CleanFacts.

(** X11: [cleanChapterNumber] is idempotent, never returns the empty string,
    and returns a string that begins with [0] only when it returns ["0"]. *)
Theorem X11_cleanChapterNumber_is_canonical (s : string) :
  WeebCentral.cleanChapterNumber (WeebCentral.cleanChapterNumber s)
  = WeebCentral.cleanChapterNumber s
  /\ WeebCentral.cleanChapterNumber s <> ""
  /\ (Js.startsWith "0" (WeebCentral.cleanChapterNumber s) = true ->
      WeebCentral.cleanChapterNumber s = "0").
Proof.
  rewrite !cleanChapterNumber_strip.
  pose proof (strip_no_zero s) as Hz.
  destruct (String.eqb_spec (stripLeadingZeros s) "") as [E|E].
  - split; [reflexivity | split; [discriminate | reflexivity]].
  - rewrite (strip_fixed _ Hz).
    destruct (String.eqb_spec (stripLeadingZeros s) "") as [E'|_]; [congruence|].
    split; [reflexivity | split; [exact E | congruence]].
Qed.

Section ParseFacts.
Import Number.

(** Nothing is trimmed from a string that begins with a character of one
    byte that is not white space. *)
Lemma trimStart_plain a (s : string) :
  Js.is_space a || (128 <=? nat_of_ascii a)%nat = false ->
  Js.trimStart (String a s) = String a s.
Proof.
  intros H. apply orb_false_elim in H as [H1 H2]. apply Nat.leb_gt in H2.
  assert (E2 : forall b, Js.is_space2 a b = false).
  { intros b. unfold Js.is_space2.
    destruct (Nat.eqb_spec (nat_of_ascii a) 194); [lia | reflexivity]. }
  assert (E3 : forall b c, Js.is_space3 a b c = false).
  { intros b c. unfold Js.is_space3. cbv zeta.
    repeat match goal with
           | |- context [(nat_of_ascii a =? ?n)%nat] =>
               destruct (Nat.eqb_spec (nat_of_ascii a) n); [lia|]
           end.
    reflexivity. }
  destruct s as [|b [|c s]]; cbn [Js.trimStart]; now rewrite H1, ?E2, ?E3.
Qed.

(** [parseFloat] on an input that begins with a digit or a point: nothing
    is trimmed and there is no sign. *)
Lemma parseFloat_unsigned a (s : string) :
  Js.is_digit a || Ascii.eqb "." a = true ->
  parseFloat (String a s)
  = let '(ip, ni, s3) := span_digits (String a s) 0%N O in
    let '(m, nf, s4) :=
      match s3 with
      | String "." r => span_digits r ip O
      | _ => (ip, O, s3)
      end in
    if (ni + nf =? 0)%nat then nan
    else of_decimal false m (exponent_part s4 - Z.of_nat nf).
Proof.
  intros H. unfold parseFloat.
  rewrite trimStart_plain by
    (destruct a as [[] [] [] [] [] [] [] []]; first [discriminate H | reflexivity]).
  destruct a as [[] [] [] [] [] [] [] []];
    first [discriminate H | reflexivity].
Qed.

Lemma span_digits_count (s : string) acc n :
  span_digits s acc n
  = let '(m, c, r) := span_digits s acc O in (m, (n + c)%nat, r).
Proof.
  revert acc n. induction s as [|a s IH]; intros acc n; cbn [span_digits].
  - now rewrite Nat.add_0_r.
  - destruct (Js.is_digit a); [|now rewrite Nat.add_0_r].
    rewrite (IH _ (S n)), (IH _ 1%nat).
    destruct (span_digits s _ O) as [[m c] r]. do 2 f_equal. lia.
Qed.

Lemma span_digits_zero (s : string) n :
  span_digits (String "0" s) 0%N n = span_digits s 0%N (S n).
Proof. reflexivity. Qed.

Lemma span_digits_count_pos a (s : string) acc n :
  Js.is_digit a = true ->
  exists m c r, span_digits (String a s) acc n = (m, S c, r).
Proof.
  intros Ha. cbn [span_digits]. rewrite Ha. rewrite span_digits_count.
  destruct (span_digits s _ O) as [[m c] r]. exists m, (n + c)%nat, r.
  do 2 f_equal.
Qed.

Lemma span_digits_stop (s : string) acc n :
  starts_with_digit s = false -> span_digits s acc n = (acc, n, s).
Proof.
  destruct s as [|a s]; [reflexivity|]. cbn [starts_with_digit span_digits].
  now intros ->.
Qed.

(** A leading zero before a number does not change what is read. *)
Lemma parseFloat_leading_zero (t : string) :
  starts_with_digit t || starts_with_fraction t = true ->
  parseFloat (String "0" t) = parseFloat t.
Proof.
  intros Ht. rewrite parseFloat_unsigned by reflexivity.
  rewrite span_digits_zero, span_digits_count.
  destruct t as [|a t]; [discriminate|].
  cbn [starts_with_digit starts_with_fraction] in Ht.
  rewrite (parseFloat_unsigned a t)
    by (apply orb_true_iff in Ht as [Ht|Ht]; [now rewrite Ht|];
        apply andb_prop in Ht as [Ht _]; rewrite Ht; apply orb_true_r).
  destruct (Js.is_digit a) eqn:Ha.
  - destruct (span_digits_count_pos a t 0%N O Ha) as (m & c & r & E).
    rewrite E. cbv beta iota zeta.
    destruct (match r with String "." r0 => span_digits r0 m O | _ => (m, O, r) end)
      as [[m' nf] s4].
    reflexivity.
  - cbn [orb] in Ht. apply andb_prop in Ht as [Hdot Hd].
    apply Ascii.eqb_eq in Hdot as <-.
    rewrite span_digits_stop by reflexivity. cbv beta iota zeta.
    destruct t as [|b t]; [discriminate|]. cbn [starts_with_digit] in Hd.
    destruct (span_digits_count_pos b t 0%N O Hd) as (m & c & r & E).
    rewrite E. reflexivity.
Qed.

End ParseFacts.

Section CleanParse.

Lemma clean_zero (s : string) :
  WeebCentral.cleanChapterNumber (String "0" s) = WeebCentral.cleanChapterNumber s.
Proof. now rewrite !cleanChapterNumber_strip. Qed.

Lemma clean_fixed (s : string) :
  s <> "" -> Js.startsWith "0" s = false -> WeebCentral.cleanChapterNumber s = s.
Proof.
  intros Hne Hz. rewrite cleanChapterNumber_strip, strip_fixed by assumption.
  destruct (String.eqb_spec s ""); [congruence | reflexivity].
Qed.

Lemma clean_parse (d tail : string) :
  d <> "" -> Js.all_chars Js.is_digit d = true ->
  tail = "" \/ starts_with_fraction tail = true ->
  Number.parseFloat (WeebCentral.cleanChapterNumber (d +:+ tail))
  = Number.parseFloat (d +:+ tail).
Proof.
  intros Hne Hd Htail. induction d as [|a d IH]; [congruence|].
  cbn [Js.all_chars] in Hd. apply andb_prop in Hd as [Ha Hd].
  cbn [String.append].
  destruct (Ascii.eqb "0" a) eqn:E.
  - apply Ascii.eqb_eq in E as <-. rewrite clean_zero.
    destruct d as [|b d].
    + cbn [String.append]. destruct Htail as [-> | Hf]; [reflexivity|].
      rewrite parseFloat_leading_zero by (rewrite Hf; apply orb_true_r).
      rewrite clean_fixed; [reflexivity | now destruct tail |].
      destruct tail as [|x tail]; [discriminate|].
      cbn [starts_with_fraction] in Hf. apply andb_prop in Hf as [Hx _].
      apply Ascii.eqb_eq in Hx as <-. reflexivity.
    + rewrite IH by (first [discriminate | assumption]).
      rewrite parseFloat_leading_zero; [reflexivity|].
      cbn [Js.all_chars] in Hd. apply andb_prop in Hd as [Hb _].
      cbn [String.append starts_with_digit]. now rewrite Hb.
  - rewrite clean_fixed; [reflexivity | discriminate |].
    cbn [Js.startsWith]. now rewrite E.
Qed.

End CleanParse.

(** X12: [cleanChapterNumber] keeps the number.  For a non-empty digit
    string [d], and for [d.f] with non-empty digit strings [d] and [f],
    [parseFloat] reads the same number before and after the cleaning, so a
    chapter is sorted by the number written in its title. *)
Theorem X12_cleanChapterNumber_keeps_the_number (d : string) :
  d <> "" -> Js.all_chars Js.is_digit d = true ->
  Number.parseFloat (WeebCentral.cleanChapterNumber d) = Number.parseFloat d
  /\ (forall f, f <> "" -> Js.all_chars Js.is_digit f = true ->
        Number.parseFloat (WeebCentral.cleanChapterNumber (d +:+ "." +:+ f))
        = Number.parseFloat (d +:+ "." +:+ f)).
Proof.
  intros Hne Hd. split.
  - pose proof (clean_parse d "" Hne Hd (or_introl eq_refl)) as H.
    now rewrite string_app_nil_r in H.
  - intros f Hnf Hf. apply clean_parse; [assumption..|]. right.
    destruct f as [|x f]; [congruence|]. cbn [Js.all_chars] in Hf.
    apply andb_prop in Hf as [Hx _].
    cbn [String.append starts_with_fraction starts_with_digit]. now rewrite Hx.
Qed.

Lemma X12_cleanChapterNumber_keeps_the_number_witness :
  Number.parseFloat (WeebCentral.cleanChapterNumber "007") = Number.parseFloat "007"
  /\ (forall f, f <> "" -> Js.all_chars Js.is_digit f = true ->
        Number.parseFloat (WeebCentral.cleanChapterNumber ("007" +:+ "." +:+ f))
        = Number.parseFloat ("007" +:+ "." +:+ f)).
Proof.
  apply (X12_cleanChapterNumber_keeps_the_number "007");
    first [discriminate | reflexivity].
Defined.

(** ** What the pagination loops collect *)

Section Accumulation.
Import Host.

Lemma mangadex_fetch_all all cs rt seriesIdentifier :
  Forall2 (fun cd c => MangaDex.toChapter rt cd = inr c) all cs ->
  forall fuel k allChapters tr,
    length tr = k ->
    (length (drop (500 * k) all) / 500 < fuel)%nat ->
    MangaDex.fetchChapters fuel (feedOf all) rt seriesIdentifier
      (500 * Z.of_nat k) allChapters tr
    = (Return (allChapters ++ drop (500 * k) cs),
       tr ++ map (fun j => feedRequest (feedOf all) seriesIdentifier (500 * Z.of_nat j))
                 (seq k (S (length (drop (500 * k) all) / 500)))).
Proof.
  intros Hall. induction fuel as [|fuel IH]; intros k allChapters tr Hk Hfuel; [lia|].
  pose proof (Forall2_length _ _ _ Hall) as Hlen.
  set (rem := drop (500 * k) all) in *.
  assert (Hrem : Forall2 (fun cd c => MangaDex.toChapter rt cd = inr c)
                   rem (drop (500 * k) cs)) by now apply Forall2_drop.
  erewrite mangadex_round; [|cbn [http feedOf]; rewrite Hk; reflexivity | reflexivity].
  cbn [data MangaDex.fd_data]. fold rem.
  destruct (take 500 rem) as [|c entries] eqn:Epage.
  - assert (rem = []) as Hnil by (destruct rem; [reflexivity | discriminate]).
    rewrite Hnil in *. apply Forall2_nil_inv_l in Hrem. rewrite Hrem, app_nil_r.
    reflexivity.
  - rewrite <- Epage.
    rewrite (pushAll_Forall2 rt (take 500 rem) (take 500 (drop (500 * k) cs)))
      by now apply Forall2_take.
    rewrite length_take. unfold MangaDex.limit.
    destruct (Z.of_nat (500 `min` length rem) <? 500) eqn:Hshort.
    + apply Z.ltb_lt in Hshort.
      assert (Hlt : (length rem < 500)%nat) by lia.
      rewrite (Nat.div_small _ _ Hlt). cbn [seq map].
      rewrite (take_ge (drop (500 * k) cs))
        by (rewrite <- (Forall2_length _ _ _ Hrem); lia).
      reflexivity.
    + apply Z.ltb_ge in Hshort.
      assert (Hge : (500 <= length rem)%nat) by lia.
      assert (Hdrop : drop (500 * S k) all = drop 500 rem).
      { unfold rem. rewrite drop_drop. f_equal. lia. }
      assert (Hdiv : (length rem / 500 = S (length (drop 500 rem) / 500))%nat).
      { rewrite length_drop.
        pose proof (Nat.div_add (length rem - 500) 1 500 ltac:(lia)) as Hd.
        replace (length rem - 500 + 1 * 500)%nat with (length rem) in Hd by lia.
        rewrite Hd. lia. }
      replace (500 * Z.of_nat k + 500) with (500 * Z.of_nat (S k)) by lia.
      rewrite IH.
      * rewrite Hdrop, Hdiv.
        assert (Hcs : (allChapters ++ take 500 (drop (500 * k) cs))
                      ++ drop (500 * S k) cs
                      = allChapters ++ drop (500 * k) cs).
        { rewrite <- app_assoc. f_equal.
          replace (500 * S k)%nat with (500 * k + 500)%nat by lia.
          now rewrite <- drop_drop, take_drop. }
        rewrite Hcs, <- app_assoc. reflexivity.
      * rewrite length_app. cbn. lia.
      * rewrite Hdrop. lia.
Qed.

End Accumulation.

(** X13: the MangaDex [getChapters] on a feed served in pages of 500.  When
    every entry of the feed converts to a chapter, the function returns the
    chapters of the whole feed in reverse order, after the requests for the
    offsets 0, 500, 1000 and so on up to the first page shorter than 500:
    [length all / 500 + 1] requests, the last of which may be answered by an
    empty page. *)
Theorem X13_mangadex_pages_accumulate all cs rt seriesIdentifier fuel :
  Forall2 (fun cd c => MangaDex.toChapter rt cd = inr c) all cs ->
  (length all / 500 < fuel)%nat ->
  Host.run (MangaDex.getChapters fuel (feedOf all) rt seriesIdentifier)
  = (Host.Return (reverse cs),
     map (fun j => feedRequest (feedOf all) seriesIdentifier (500 * Z.of_nat j))
         (seq 0 (S (length all / 500)))).
Proof.
  intros Hall Hfuel. unfold Host.run, MangaDex.getChapters, Host.bind.
  change 0 with (500 * Z.of_nat 0).
  rewrite (mangadex_fetch_all all cs rt seriesIdentifier Hall fuel 0 [] [] eq_refl)
    by (rewrite Nat.mul_0_r; exact Hfuel).
  rewrite Nat.mul_0_r. reflexivity.
Qed.

Lemma X13_mangadex_pages_accumulate_witness :
  Host.run (MangaDex.getChapters 1
              (feedOf [feedChapter "c2" "1" "2"; feedChapter "c1" "1" "1"])
              fixedRuntime "manga-1")
  = (Host.Return (reverse [fedChapter "c2" "1" "2"; fedChapter "c1" "1" "1"]),
     map (fun j => feedRequest (feedOf [feedChapter "c2" "1" "2"; feedChapter "c1" "1" "1"])
                     "manga-1" (500 * Z.of_nat j))
         (seq 0 (S (length [feedChapter "c2" "1" "2"; feedChapter "c1" "1" "1"] / 500)))).
Proof.
  apply X13_mangadex_pages_accumulate.
  - repeat constructor.
  - cbn. lia.
Defined.

Section WebtoonsAccumulation.
Import Host.

Lemma webtoons_fetch_all (last : list Webtoons.Episode) lastCursor seriesId :
  lastCursor = None \/ lastCursor = Some 0 ->
  forall init done fuel cursor allEpisodes tr,
    Forall (fun p : list Webtoons.Episode * option Z =>
              exists c, p.2 = Some c /\ c <> 0) init ->
    length tr = length done ->
    (length init < fuel)%nat ->
    Webtoons.fetchEpisodes fuel (episodesOf (done ++ init ++ [(last, lastCursor)]))
      seriesId cursor allEpisodes tr
    = (Return (allEpisodes ++ concat (map fst init) ++ last),
       tr ++ map (episodesRequest seriesId) (cursor :: omap snd init)).
Proof.
  intros Hlast. induction init as [|[eps cur] init IH];
    intros done fuel cursor allEpisodes tr Hinit Hlen Hfuel;
    (destruct fuel as [|fuel]; [cbn in Hfuel; lia|]).
  - erewrite webtoons_round;
      [| cbn [http episodesOf app]; rewrite Hlen, list_lookup_middle by reflexivity;
         reflexivity
       | reflexivity ..].
    cbn [Webtoons.nextCursor fst snd concat map omap app].
    destruct Hlast as [-> | ->]; reflexivity.
  - apply Forall_cons in Hinit as [(c & Hc & Hc0) Hinit]. cbn [snd] in Hc. subst cur.
    erewrite webtoons_round;
      [| cbn [http episodesOf app]; rewrite Hlen, list_lookup_middle by reflexivity;
         reflexivity
       | reflexivity ..].
    cbn [Webtoons.nextCursor from_option id fst snd].
    apply Z.eqb_neq in Hc0. rewrite Hc0.
    replace (done ++ ((eps, Some c) :: init) ++ [(last, lastCursor)])
      with ((done ++ [(eps, Some c)]) ++ init ++ [(last, lastCursor)])
      by (rewrite <- !app_assoc; reflexivity).
    rewrite IH; [| assumption | rewrite !length_app; cbn; lia | cbn in Hfuel; lia].
    cbn [map concat omap fst snd]. rewrite <- !app_assoc. reflexivity.
Qed.

End WebtoonsAccumulation.

(** X14: the Webtoons [getChapters] on pages linked by their [nextCursor].
    It requests the cursor 0 and then the cursor of each page in turn, stops
    at the first page whose cursor is null or 0, and returns the chapters of
    the episodes of all these pages, sorted by chapter number. *)
Theorem X14_webtoons_pages_accumulate init last lastCursor rt seriesId fuel :
  Forall (fun p : list Webtoons.Episode * option Z =>
            exists c, p.2 = Some c /\ c <> 0) init ->
  lastCursor = None \/ lastCursor = Some 0 ->
  (length init < fuel)%nat ->
  Host.run (Webtoons.getChapters fuel (episodesOf (init ++ [(last, lastCursor)]))
              rt seriesId)
  = (Host.Return
       (Number.sort Webtoons.byChapter
          (map (Webtoons.toChapter rt seriesId) (concat (map fst init) ++ last))),
     map (episodesRequest seriesId) (0 :: omap snd init)).
Proof.
  intros Hinit Hlast Hfuel.
  unfold Host.run, Webtoons.getChapters, Host.try_catch, Host.bind.
  pose proof (webtoons_fetch_all last lastCursor seriesId Hlast init [] fuel 0 [] []
                Hinit eq_refl Hfuel) as H.
  cbn [app] in H. rewrite H. destruct (concat (map fst init) ++ last); reflexivity.
Qed.

Lemma X14_webtoons_pages_accumulate_witness :
  Host.run (Webtoons.getChapters 2
              (episodesOf
                 [([episode 3 "/en/a/ep-3/viewer?episode_no=3";
                    episode 2 "/en/a/ep-2/viewer?episode_no=2"], Some 100);
                  ([episode 1 "/en/a/ep-1/viewer?episode_no=1"], None)])
              fixedRuntime "6795")
  = (Host.Return
       (Number.sort Webtoons.byChapter
          (map (Webtoons.toChapter fixedRuntime "6795")
             (concat (map fst [([episode 3 "/en/a/ep-3/viewer?episode_no=3";
                                 episode 2 "/en/a/ep-2/viewer?episode_no=2"],
                                Some 100)])
              ++ [episode 1 "/en/a/ep-1/viewer?episode_no=1"]))),
     map (episodesRequest "6795")
         (0 :: omap snd [([episode 3 "/en/a/ep-3/viewer?episode_no=3";
                           episode 2 "/en/a/ep-2/viewer?episode_no=2"], Some 100)])).
Proof.
  apply (X14_webtoons_pages_accumulate
           [([episode 3 "/en/a/ep-3/viewer?episode_no=3";
              episode 2 "/en/a/ep-2/viewer?episode_no=2"], Some 100)]
           [episode 1 "/en/a/ep-1/viewer?episode_no=1"] None).
  - apply Forall_cons_2; [|apply Forall_nil_2]. exists 100. split; [reflexivity | lia].
  - now left.
  - cbn. lia.
Defined.

Section Dates.
Import Host.

Lemma toChapter_invalid_date rt cd p :
  MangaDex.publishAt (MangaDex.cd_attributes cd) = Some p -> p <> "" ->
  date_of_string rt p = None ->
  MangaDex.toChapter rt cd = inl (RangeError "Invalid time value").
Proof.
  intros Hp Hne Hd. unfold MangaDex.toChapter. rewrite Hp.
  cbn [Js.opt_str from_option id]. apply nonempty_true in Hne. now rewrite Hne, Hd.
Qed.

Lemma toChapter_error rt cd e :
  MangaDex.toChapter rt cd = inl e -> e = RangeError "Invalid time value".
Proof.
  unfold MangaDex.toChapter.
  destruct (Js.nonempty _); [|discriminate].
  destruct (date_of_string rt _); [discriminate|]. now intros [= <-].
Qed.

Lemma pushAll_invalid rt entries allChapters tr cd :
  cd ∈ entries ->
  MangaDex.toChapter rt cd = inl (RangeError "Invalid time value") ->
  MangaDex.pushAll rt entries allChapters tr
  = (Throw (RangeError "Invalid time value"), tr).
Proof.
  intros Hin Hcd. revert allChapters.
  induction entries as [|x entries IH]; intros allChapters; [now apply elem_of_nil in Hin|].
  cbn [MangaDex.pushAll].
  destruct (MangaDex.toChapter rt x) as [e|c] eqn:E.
  - now rewrite (toChapter_error _ _ _ E).
  - apply elem_of_cons in Hin as [-> | Hin]; [congruence | now apply IH].
Qed.

End Dates.

(** X15: dates that cannot be read.  A MangaDex feed entry whose [publishAt]
    is not a date makes [getChapters] throw the [RangeError] of
    [toISOString], whatever the other entries are; a Webtoons episode whose
    [exposureDateMillis] is missing or not a date is kept, with the current
    time as its date. *)
Theorem X15_invalid_dates :
  (forall fuel (mango : Host.Mango MangaDex.FeedData) rt seriesIdentifier
          response entries cd p,
     Host.http mango [] (feedRequest mango seriesIdentifier 0) = inr response ->
     Host.status response = 200 ->
     MangaDex.fd_data (Host.data response) = Some entries ->
     cd ∈ entries ->
     MangaDex.publishAt (MangaDex.cd_attributes cd) = Some p -> p <> "" ->
     Host.date_of_string rt p = None ->
     Host.run (MangaDex.getChapters (S fuel) mango rt seriesIdentifier)
     = (Host.Throw (Host.RangeError "Invalid time value"),
        [feedRequest mango seriesIdentifier 0]))
  /\ (forall rt seriesId episode,
     (forall ms, Webtoons.exposureDateMillis episode = Some ms ->
                 Host.date_of_millis rt ms = None) ->
     Webtoons.published_at (Webtoons.toChapter rt seriesId episode) = Host.date_now rt).
Proof.
  split.
  - intros fuel mango rt seriesIdentifier response entries cd p
      Hhttp Hst Hdata Hin Hp Hne Hdate.
    unfold Host.run, MangaDex.getChapters, Host.bind.
    rewrite (mangadex_round _ _ _ _ _ _ _ _ Hhttp Hst), Hdata.
    rewrite (pushAll_invalid rt entries [] _ cd Hin)
      by (eapply toChapter_invalid_date; eassumption).
    destruct entries; [now apply elem_of_nil in Hin | reflexivity].
  - intros rt seriesId episode Hms. unfold Webtoons.toChapter.
    cbn [Webtoons.published_at].
    destruct (Webtoons.exposureDateMillis episode) as [ms|]; [|reflexivity].
    rewrite (Hms ms eq_refl). now destruct (ms =? 0).
Qed.

Lemma X15_invalid_dates_witness :
  Host.run (MangaDex.getChapters 1
              (answering 200 "OK"
                 {| MangaDex.fd_data :=
                      Some [feedChapter "c2" "1" "2"; datedChapter "c1" "1" "soon"] |})
              noDates "manga-1")
  = (Host.Throw (Host.RangeError "Invalid time value"),
     [feedRequest (answering 200 "OK"
                     {| MangaDex.fd_data :=
                          Some [feedChapter "c2" "1" "2"; datedChapter "c1" "1" "soon"] |})
        "manga-1" 0])
  /\ Webtoons.published_at
       (Webtoons.toChapter noDates "6795" (episode 1 "/en/a/ep-1/viewer"))
     = Host.date_now noDates.
Proof.
  destruct X15_invalid_dates as (HM & HT). split.
  - eapply (HM O (answering 200 "OK"
                    {| MangaDex.fd_data :=
                         Some [feedChapter "c2" "1" "2"; datedChapter "c1" "1" "soon"] |})
               noDates "manga-1" _ _ (datedChapter "c1" "1" "soon") "soon");
      first [reflexivity | discriminate | idtac].
    apply list_elem_of_further, list_elem_of_here.
  - apply HT. reflexivity.
Defined.

(** ** Covers *)

Section CoverMap.

Lemma coverArtMapOf_snoc items item :
  MangaDex.coverArtMapOf (items ++ [item])
  = if String.eqb (MangaDex.rel_type item) "cover_art"
       && Js.nonempty (Js.opt_str (MangaDex.rel_id item))
    then
      let fileName := MangaDex.coverFileOf (MangaDex.rel_attributes item) in
      if Js.nonempty fileName
      then <[Js.opt_str (MangaDex.rel_id item) := fileName]> (MangaDex.coverArtMapOf items)
      else MangaDex.coverArtMapOf items
    else MangaDex.coverArtMapOf items.
Proof. unfold MangaDex.coverArtMapOf. now rewrite foldl_snoc. Qed.

Lemma covers_dec item i :
  (exists f, covers item i f) \/ (forall f, ~ covers item i f).
Proof.
  destruct (String.eqb_spec (MangaDex.rel_type item) "cover_art") as [Ht|Ht];
    [|right; intros f (H & _); congruence].
  destruct (MangaDex.rel_id item) as [j|] eqn:Hj;
    [|right; intros f (_ & H & _); congruence].
  destruct (String.eqb_spec j i) as [->|Hji];
    [|right; intros f (_ & H & _); congruence].
  destruct i as [|a i]; [right; intros f (_ & _ & H & _); congruence|].
  destruct (MangaDex.coverFileOf (MangaDex.rel_attributes item)) as [|b f] eqn:Hf.
  - right. intros f (_ & _ & _ & H1 & H2). congruence.
  - left. exists (String b f). repeat split; try assumption; discriminate.
Qed.

Lemma coverArtMapOf_hit items item i f :
  covers item i f -> MangaDex.coverArtMapOf (items ++ [item]) !! i = Some f.
Proof.
  intros (Ht & Hi & Hne & Hf & Hfne). rewrite coverArtMapOf_snoc. cbv zeta.
  rewrite Ht, Hi. cbn [Js.opt_str from_option id].
  apply nonempty_true in Hne, Hfne. rewrite Hf, Hne, Hfne. cbn.
  now rewrite lookup_insert_eq.
Qed.

Lemma coverArtMapOf_miss items item i :
  (forall f, ~ covers item i f) ->
  MangaDex.coverArtMapOf (items ++ [item]) !! i = MangaDex.coverArtMapOf items !! i.
Proof.
  intros Hno. rewrite coverArtMapOf_snoc. cbv zeta.
  destruct (String.eqb_spec (MangaDex.rel_type item) "cover_art") as [Ht|Ht];
    [|reflexivity].
  cbn [andb].
  destruct (Js.nonempty (Js.opt_str (MangaDex.rel_id item))) eqn:Hid; [|reflexivity].
  destruct (Js.nonempty (MangaDex.coverFileOf (MangaDex.rel_attributes item))) eqn:Hf;
    [|reflexivity].
  rewrite lookup_insert_ne; [reflexivity|].
  intros <-. apply (Hno (MangaDex.coverFileOf (MangaDex.rel_attributes item))).
  apply nonempty_true in Hid, Hf.
  repeat split; try assumption.
  destruct (MangaDex.rel_id item); [reflexivity | now elim Hid].
Qed.

End CoverMap.

(** X16: [coverArtMap] holds the file [f] at the id [i] exactly when the
    last entry of [included] that is a [cover_art] with the id [i] and a
    file name has the file name [f]: a later entry overwrites an earlier
    one, and an entry without a file name changes nothing. *)
Theorem X16_coverArtMap_holds_the_last_cover items i f :
  MangaDex.coverArtMapOf items !! i = Some f <->
  exists before item after,
    items = before ++ item :: after /\ covers item i f
    /\ Forall (fun later => forall f', ~ covers later i f') after.
Proof.
  induction items as [|item items IH] using rev_ind.
  - split; [discriminate|]. intros (before & item & after & H & _).
    now destruct before.
  - destruct (covers_dec item i) as [(f0 & Hcov) | Hno].
    + rewrite (coverArtMapOf_hit items item i f0 Hcov). split.
      * intros [= <-]. exists items, item, []. repeat split; try apply Hcov.
        apply Forall_nil_2.
      * intros (before & item' & after & Heq & Hcov' & Hafter).
        destruct after as [|x after _] using rev_ind.
        -- apply app_inj_tail in Heq as [_ <-].
           destruct Hcov as (_ & _ & _ & <- & _), Hcov' as (_ & _ & _ & <- & _).
           reflexivity.
        -- rewrite app_comm_cons, app_assoc in Heq.
           apply app_inj_tail in Heq as [_ <-].
           rewrite Forall_app, Forall_singleton in Hafter.
           now elim (proj2 Hafter f0).
    + rewrite (coverArtMapOf_miss items item i Hno), IH. split.
      * intros (before & item' & after & -> & Hcov & Hafter).
        exists before, item', (after ++ [item]). rewrite <- app_assoc. repeat split;
          try apply Hcov.
        rewrite Forall_app, Forall_singleton. now split.
      * intros (before & item' & after & Heq & Hcov' & Hafter).
        destruct after as [|x after _] using rev_ind.
        -- apply app_inj_tail in Heq as [_ <-]. now elim (Hno f).
        -- rewrite app_comm_cons, app_assoc in Heq.
           apply app_inj_tail in Heq as [-> <-].
           rewrite Forall_app in Hafter.
           exists before, item', after. repeat split; try apply Hcov'. apply Hafter.
Qed.

(** *** The shape of a cover URL *)

Section CoverShape.

Lemma mangadex_proxied (url : string) :
  Js.replace_first "http://localhost:8080" ""
    (MangaDex.constructProxyUrl url MangaDex.mangadexReferer)
  = "/api/proxy/resource?url=" +:+ Js.encodeURIComponent url
    +:+ "&referer=https%3A%2F%2Fmangadex.org%2F".
Proof.
  unfold MangaDex.constructProxyUrl, MangaDex.PROXY_BASE_URL.
  change (Js.nonempty (Host.referer MangaDex.mangadexReferer)) with true.
  cbn [app Js.join]. rewrite strip_proxy_host.
  change (Js.encodeURIComponent (Host.referer MangaDex.mangadexReferer))
    with "https%3A%2F%2Fmangadex.org%2F".
  rewrite !string_app_assoc. reflexivity.
Qed.

End CoverShape.

(** X17: a MangaDex cover that is not empty is the proxy URL, relative to
    the host and with the MangaDex referer, of
    [https://uploads.mangadex.org/covers/{id}/{file}.256.jpg] for the id of
    the result and a file name that is not empty.  A Webtoons thumbnail that
    is a path is served from the thumbnail host, after a [/] when the path
    does not begin with one, through the proxy with the Webtoons referer. *)
Theorem X17_cover_url_format :
  (forall m entry r,
     MangaDex.searchEntry m entry = Some r -> Host.cover_url r <> "" ->
     exists coverFileName,
       coverFileName <> ""
       /\ Host.cover_url r
          = "/api/proxy/resource?url="
            +:+ Js.encodeURIComponent
                  ("https://uploads.mangadex.org/covers/" +:+ Host.identifier r
                   +:+ "/" +:+ coverFileName +:+ ".256.jpg")
            +:+ "&referer=https%3A%2F%2Fmangadex.org%2F")
  /\ (forall item r thumbnail,
     Webtoons.searchEntry item = Some r ->
     Js.str_or (Js.opt_str (Webtoons.thumbnailImage2 item))
               (Js.opt_str (Webtoons.thumbnailMobile item)) = thumbnail ->
     thumbnail <> "" ->
     Js.startsWith "http://" thumbnail = false ->
     Js.startsWith "https://" thumbnail = false ->
     Host.cover_url r
     = "/api/proxy/resource?url="
       +:+ Js.encodeURIComponent
             ("https://webtoon-phinf.pstatic.net"
              +:+ (if Js.startsWith "/" thumbnail then thumbnail else "/" +:+ thumbnail))
       +:+ "&referer=https%3A%2F%2Fwww.webtoons.com%2F").
Proof.
  split.
  - intros m entry r. unfold MangaDex.searchEntry.
    destruct entry as [mangaData|]; [|discriminate].
    destruct (MangaDex.attributes mangaData) as [attrs|]; [|discriminate].
    destruct (MangaDex.attr_title attrs) as [titles|]; [|discriminate].
    cbv zeta. destruct (Js.nonempty (Js.opt_str (MangaDex.id mangaData))) eqn:Hid;
      [|discriminate].
    cbn [negb andb]. intros [= <-]. cbn [Host.cover_url Host.identifier].
    rewrite andb_true_r.
    destruct (Js.nonempty (MangaDex.findCover m _)) eqn:Hf; [|congruence].
    intros _. eexists. split; [apply nonempty_true; exact Hf|].
    rewrite <- mangadex_proxied. reflexivity.
  - intros item r thumbnail Hr Ht Hne Hhttp Hhttps.
    rewrite webtoons_entry_kept in Hr. destruct (Webtoons.titleNo item); [|discriminate].
    injection Hr as <-. cbn [Host.cover_url].
    assert (Hc : Webtoons.coverUrlOf item
                 = "https://webtoon-phinf.pstatic.net"
                   +:+ (if Js.startsWith "/" thumbnail then thumbnail
                        else "/" +:+ thumbnail)).
    { unfold Webtoons.coverUrlOf. cbv zeta. rewrite Ht.
      apply nonempty_true in Hne. now rewrite Hne, Hhttp, Hhttps. }
    rewrite Hc. apply webtoons_proxied_cover.
    unfold Webtoons.proxied. apply andb_true_intro. split; [reflexivity|].
    apply (includes_app_l _ "https://webtoon-phinf.pstatic.net"). reflexivity.
Qed.

Lemma X17_cover_url_format_witness :
  (exists coverFileName,
     coverFileName <> String.EmptyString
     /\ Host.cover_url (coveredResult "manga-1" "cover.jpg")
        = "/api/proxy/resource?url="
          +:+ Js.encodeURIComponent
                ("https://uploads.mangadex.org/covers/"
                 +:+ Host.identifier (coveredResult "manga-1" "cover.jpg")
                 +:+ "/" +:+ coverFileName +:+ ".256.jpg")
          +:+ "&referer=https%3A%2F%2Fmangadex.org%2F")
  /\ Host.cover_url (thumbnailResult 6795 "thumb.jpg")
     = "/api/proxy/resource?url="
       +:+ Js.encodeURIComponent
             ("https://webtoon-phinf.pstatic.net"
              +:+ (if Js.startsWith "/" "thumb.jpg" then "thumb.jpg"
                   else "/" +:+ "thumb.jpg"))
       +:+ "&referer=https%3A%2F%2Fwww.webtoons.com%2F".
Proof.
  destruct X17_cover_url_format as (HM & HT). split.
  - apply (HM ∅ (Some (coveredManga "manga-1" "cover.jpg")));
      first [reflexivity | discriminate].
  - apply (HT (thumbnailItem 6795 "thumb.jpg"));
      first [reflexivity | discriminate].
Defined.

(** ** From a Webtoons episode to its viewer *)

Section IntegerStrings.

Lemma decimal_digit_char (k : nat) :
  (k < 10)%nat -> Js.is_digit (ascii_of_nat (48 + k)) = true.
Proof.
  intros H. do 10 (destruct k as [|k]; [reflexivity|]). lia.
Qed.

Lemma digits_of_pos_chars fuel n (acc : string) :
  Js.all_chars Js.is_digit acc = true ->
  Js.all_chars Js.is_digit (Js.digits_of_pos fuel n acc) = true.
Proof.
  revert n acc. induction fuel as [|fuel IH]; intros n acc Hacc; [exact Hacc|].
  cbn [Js.digits_of_pos].
  assert (Hd : Js.is_digit (ascii_of_nat (48 + N.to_nat (n mod 10))) = true).
  { apply decimal_digit_char.
    pose proof (N.mod_upper_bound n 10). lia. }
  destruct (n <? 10)%N; [|apply IH]; cbn [Js.all_chars]; now rewrite Hd, Hacc.
Qed.

Lemma string_of_N_chars n : Js.all_chars Js.is_digit (Js.string_of_N n) = true.
Proof. now apply digits_of_pos_chars. Qed.

Lemma string_of_N_number n : Js.all_chars number_char (Js.string_of_N n) = true.
Proof.
  eapply all_chars_impl; [|apply string_of_N_chars].
  intros c Hc. unfold number_char. now rewrite Hc.
Qed.

Lemma zeros_number n : Js.all_chars number_char (Js.zeros n) = true.
Proof. induction n as [|n IH]; [reflexivity | exact IH]. Qed.

Lemma string_of_binary64_chars x :
  Js.all_chars number_char (Js.string_of_binary64 x) = true.
Proof.
  unfold Js.string_of_binary64.
  destruct (N.log2 x <? 53)%N; [apply string_of_N_number|].
  destruct (Js.shortest _ x _) as [s p].
  pose proof (string_of_N_number s) as Hs.
  destruct (_ <=? 21)%nat.
  { now rewrite all_chars_app, Hs, zeros_number. }
  destruct (Js.string_of_N s) as [|d [|d' more]]; [reflexivity | |].
  - cbn [Js.all_chars] in Hs. apply andb_prop in Hs as [Hd _].
    cbn [Js.all_chars]. now rewrite Hd, all_chars_app, string_of_N_number.
  - cbn [Js.all_chars] in Hs. apply andb_prop in Hs as [Hd Hm].
    cbn [Js.all_chars]. rewrite Hd, !all_chars_app, string_of_N_number.
    cbn [Js.all_chars]. now rewrite Hm.
Qed.

Lemma string_of_Z_chars z : Js.all_chars number_char (Js.string_of_Z z) = true.
Proof.
  assert (H : forall n, Js.all_chars number_char (Js.string_of_magnitude n) = true).
  { intros n. unfold Js.string_of_magnitude. cbv zeta.
    destruct (1024 <=? _)%N; [reflexivity | apply string_of_binary64_chars]. }
  destruct z; cbn [Js.string_of_Z]; [reflexivity | apply H |].
  cbn [Js.all_chars]. now rewrite H.
Qed.

Lemma number_char_plain c r :
  number_char c = true -> Js.line_terminator_at (String c r) = false.
Proof.
  destruct c as [[] [] [] [] [] [] [] []]; intros H;
    first [discriminate H | now destruct r as [|b [|c r]]].
Qed.

Lemma number_chars_no_line_terminator (s : string) :
  Js.all_chars number_char s = true -> no_line_terminator s = true.
Proof.
  induction s as [|c s IH]; [reflexivity|].
  cbn [Js.all_chars no_line_terminator]. intros H.
  apply andb_prop in H as [Hc Hs]. now rewrite (number_char_plain c s Hc), IH.
Qed.

Lemma no_chNum p (s : string) :
  p "c"%char = false -> Js.all_chars p s = true -> Js.includes "chNum" s = false.
Proof.
  intros Hp. induction s as [|x s IH]; [reflexivity|].
  cbn [Js.all_chars Js.includes Js.startsWith]. intros H.
  apply andb_prop in H as [Hx Hs]. rewrite (IH Hs), orb_false_r.
  destruct (Ascii.eqb_spec "c" x) as [<-|_]; [congruence | reflexivity].
Qed.

End IntegerStrings.

Section Viewer.

Lemma episode_number_chars rt seriesId episode :
  let N := Webtoons.chapter (Webtoons.toChapter rt seriesId episode) in
  N <> "" /\ Js.all_chars number_char N = true.
Proof.
  cbv zeta. unfold Webtoons.toChapter. cbn [Webtoons.chapter].
  destruct (Webtoons.episodeNo episode) as [n|]; [|split; [discriminate | reflexivity]].
  destruct (n =? 0); [split; [discriminate | reflexivity]|].
  split; [apply string_of_Z_nonempty | apply string_of_Z_chars].
Qed.

Lemma toChapter_identifier rt seriesId episode :
  Webtoons.identifier (Webtoons.toChapter rt seriesId episode)
  = Webtoons.encodeChapterId seriesId
      (Js.template (Webtoons.viewerLink episode))
      (Webtoons.chapter (Webtoons.toChapter rt seriesId episode)).
Proof. reflexivity. Qed.

End Viewer.

(** X18: [getPageURLs] opens the chapters that [getChapters] builds.  For a
    series id made of digits and an episode whose viewer link is a string
    that is not empty and holds no line terminator (line feed, carriage
    return, U+2028, U+2029), the identifier of the chapter of the episode
    decodes to the series id, the viewer link and the chapter number, each
    with [-] replaced by [_], and [getPageURLs] on that identifier requests
    the viewer link with its hyphens replaced. *)
Theorem X18_webtoons_chapter_opens_its_viewer
  (mango : Host.Mango string) rt seriesId episode V :
  seriesId <> "" -> Js.all_chars Js.is_digit seriesId = true ->
  Webtoons.viewerLink episode = Js.Value V ->
  V <> "" -> no_line_terminator V = true ->
  let c := Webtoons.toChapter rt seriesId episode in
  Webtoons.decodeChapterId (Webtoons.identifier c)
  = Some (seriesId, underscored V, underscored (Webtoons.chapter c))
  /\ snd (Host.run (Webtoons.getPageURLs mango (Webtoons.identifier c)))
     = [webtoonsViewerRequest (underscored V)].
Proof.
  intros HS1 HS2 HV HV1 HV2. cbv zeta.
  destruct (episode_number_chars rt seriesId episode) as [HN1 HN2].
  assert (Hdec : Webtoons.decodeChapterId
                   (Webtoons.identifier (Webtoons.toChapter rt seriesId episode))
                 = Some (seriesId, underscored V,
                         underscored (Webtoons.chapter
                                        (Webtoons.toChapter rt seriesId episode)))).
  { rewrite toChapter_identifier, HV. cbn [Js.template].
    rewrite encodeChapterId_shape by assumption.
    apply decode_shape;
      auto using underscored_nonempty, underscored_no_line_terminator,
        number_chars_no_line_terminator.
    rewrite underscored_includes_chNum. now apply (no_chNum number_char). }
  split; [exact Hdec|].
  unfold Host.run, Webtoons.getPageURLs. rewrite Hdec. unfold Host.http_get.
  apply (bind_send_trace mango (webtoonsViewerRequest (underscored V))).
  intros r tr'. no_request.
Qed.

Lemma X18_webtoons_chapter_opens_its_viewer_witness :
  let c := Webtoons.toChapter fixedRuntime "6795"
             (episode 12 "/en/drama/my-title/ep-12/viewer?title_no=6795&episode_no=12") in
  Webtoons.decodeChapterId (Webtoons.identifier c)
  = Some ("6795",
          underscored "/en/drama/my-title/ep-12/viewer?title_no=6795&episode_no=12",
          underscored (Webtoons.chapter c))
  /\ snd (Host.run (Webtoons.getPageURLs offline (Webtoons.identifier c)))
     = [webtoonsViewerRequest
          (underscored "/en/drama/my-title/ep-12/viewer?title_no=6795&episode_no=12")].
Proof.
  apply (X18_webtoons_chapter_opens_its_viewer offline fixedRuntime "6795"
           (episode 12 "/en/drama/my-title/ep-12/viewer?title_no=6795&episode_no=12")
           "/en/drama/my-title/ep-12/viewer?title_no=6795&episode_no=12");
    first [discriminate | reflexivity].
Defined.

(** ** Page URLs *)

Section Revisions.
Import Host.

Lemma omap_fmap_option {X Y Z : Type} (f : Y -> Z) (g : X -> option Y) (l : list X) :
  omap (fun x => f <$> g x) l = f <$> omap g l.
Proof.
  induction l as [|x l IH]; [reflexivity|]. cbn [omap list_omap].
  destruct (g x); cbn; now rewrite IH.
Qed.

Lemma pageEntry_proxied rt chapterIdentifier img :
  WeebCentral.pageEntry rt chapterIdentifier img
  = (fun src => WeebCentral.constructProxyUrl src (imageOptions rt chapterIdentifier src))
    <$> WeebCentralDirect.pageEntry img.
Proof.
  unfold WeebCentral.pageEntry, WeebCentralDirect.pageEntry, imageOptions. cbv zeta.
  destruct (_ && _); [|reflexivity]. cbn [fmap option_fmap option_map].
  now destruct (url_origin rt _).
Qed.

Lemma scrapePages_proxied rt chapterIdentifier doc :
  WeebCentral.scrapePages rt chapterIdentifier doc
  = (fun src => WeebCentral.constructProxyUrl src (imageOptions rt chapterIdentifier src))
    <$> WeebCentralDirect.scrapePages doc.
Proof.
  unfold WeebCentral.scrapePages, WeebCentralDirect.scrapePages. cbv zeta.
  rewrite <- omap_fmap_option.
  match goal with |- omap _ ?images = _ => generalize images end.
  intros l. induction l as [|img l IH]; [reflexivity|].
  cbn [omap list_omap]. now rewrite pageEntry_proxied, IH.
Qed.

End Revisions.

(** X19: the two revisions of the WeebCentral [getPageURLs] agree up to the
    proxy.  On every host the later revision issues the requests and throws
    the errors of the earlier one, and where the earlier one returns the
    sources of the images, the later one returns their proxy URLs, each with
    the options derived from its source. *)
Theorem X19_weebcentral_proxied_pages_refine_direct_pages
  (mango : Host.Mango string) rt chapterIdentifier :
  Host.run (WeebCentral.getPageURLs mango rt chapterIdentifier)
  = match Host.run (WeebCentralDirect.getPageURLs mango chapterIdentifier) with
    | (Host.Return pages, tr) =>
        (Host.Return
           (map (fun src => WeebCentral.constructProxyUrl src
                              (imageOptions rt chapterIdentifier src))
                pages), tr)
    | (Host.Throw e, tr) => (Host.Throw e, tr)
    | (Host.OutOfFuel, tr) => (Host.OutOfFuel, tr)
    end.
Proof.
  unfold Host.run, WeebCentral.getPageURLs, WeebCentralDirect.getPageURLs,
    Host.bind, Host.http_get, Host.send. cbv zeta.
  destruct (Host.http mango [] _) as [e|response]; [reflexivity|].
  destruct (negb _); [reflexivity|].
  destruct (Host.parseHTML mango) as [parse|]; [|reflexivity].
  destruct (parse (Host.data response)) as [doc|]; [|reflexivity].
  rewrite scrapePages_proxied, length_fmap.
  destruct (length _ =? 0)%nat; reflexivity.
Qed.

Section PageUrls.

Lemma join_head sep x (l : list string) :
  exists rest, Js.join sep (x :: l) = x +:+ rest.
Proof.
  destruct l as [|y l]; cbn [Js.join]; [exists ""; now rewrite string_app_nil_r | eauto].
Qed.

Lemma proxy_prefix (base query : string) x l :
  query = Js.join "&" (("url=" +:+ x) :: l) ->
  Js.startsWith (base +:+ "?url=") (base +:+ "?" +:+ query) = true.
Proof.
  intros ->. destruct (join_head "&" ("url=" +:+ x) l) as (rest & ->).
  replace (base +:+ "?" +:+ ("url=" +:+ x) +:+ rest)
    with ((base +:+ "?url=") +:+ x +:+ rest)
    by (rewrite !string_app_assoc; reflexivity).
  apply startsWith_app.
Qed.

Lemma weebcentral_proxy_prefix imageUrl o :
  Js.startsWith "http://localhost:8080/api/proxy/resource?url="
    (WeebCentral.constructProxyUrl imageUrl o) = true.
Proof.
  unfold WeebCentral.constructProxyUrl. cbv zeta.
  eapply (proxy_prefix WeebCentral.PROXY_BASE_URL). reflexivity.
Qed.

Lemma webtoons_proxy_prefix imageUrl o :
  Js.startsWith "http://localhost:8080/api/proxy/resource?url="
    (Webtoons.constructProxyUrl imageUrl o) = true.
Proof.
  unfold Webtoons.constructProxyUrl. cbv zeta.
  eapply (proxy_prefix Webtoons.PROXY_BASE_URL). reflexivity.
Qed.

Lemma mangadex_proxy_prefix imageUrl o :
  Js.startsWith "http://localhost:8080/api/proxy/resource?url="
    (MangaDex.constructProxyUrl imageUrl o) = true.
Proof.
  unfold MangaDex.constructProxyUrl. cbv zeta.
  eapply (proxy_prefix MangaDex.PROXY_BASE_URL). reflexivity.
Qed.

End PageUrls.

(** X20: every page URL that an adapter returns goes through the proxy: it
    begins with [http://localhost:8080/api/proxy/resource?url=]. *)
Theorem X20_page_urls_go_through_the_proxy :
  (forall (mango : Host.Mango string) rt chapterIdentifier out tr u,
     Host.run (WeebCentral.getPageURLs mango rt chapterIdentifier) = (Host.Return out, tr) ->
     u ∈ out ->
     Js.startsWith "http://localhost:8080/api/proxy/resource?url=" u = true)
  /\ (forall (mango : Host.Mango string) chapterId out tr u,
     Host.run (Webtoons.getPageURLs mango chapterId) = (Host.Return out, tr) ->
     u ∈ out ->
     Js.startsWith "http://localhost:8080/api/proxy/resource?url=" u = true)
  /\ (forall (mango : Host.Mango MangaDex.AtHome) chapterIdentifier out tr u,
     Host.run (MangaDex.getPageURLs mango chapterIdentifier) = (Host.Return out, tr) ->
     u ∈ out ->
     Js.startsWith "http://localhost:8080/api/proxy/resource?url=" u = true).
Proof.
  split; [|split].
  - intros mango rt chapterIdentifier out tr u H Hu.
    unfold Host.run, WeebCentral.getPageURLs in H.
    apply bind_Return in H as (resp & tr1 & _ & H).
    destruct (negb _); [discriminate|].
    destruct (Host.parseHTML mango) as [parse|]; [|discriminate].
    destruct (parse _) as [doc|]; [|discriminate].
    cbv zeta in H. rewrite scrapePages_proxied in H.
    destruct (length _ =? 0)%nat; [discriminate|].
    injection H as <- _. apply list_elem_of_fmap in Hu as (src & -> & _).
    apply weebcentral_proxy_prefix.
  - intros mango chapterId out tr u H Hu.
    unfold Host.run, Webtoons.getPageURLs in H.
    destruct (Webtoons.decodeChapterId chapterId) as [[[mangaID viewerLink] n]|];
      [|discriminate].
    apply bind_Return in H as (resp & tr1 & _ & H).
    destruct (Host.status resp =? 200); [|discriminate].
    destruct (Regex.exec Webtoons.imageListDivRegex (Host.data resp)); [|discriminate].
    destruct (length _ =? 0)%nat; [discriminate|].
    injection H as <- _. apply list_elem_of_fmap in Hu as (src & -> & _).
    apply webtoons_proxy_prefix.
  - intros mango chapterIdentifier out tr u H Hu.
    unfold Host.run, MangaDex.getPageURLs in H.
    apply bind_Return in H as (resp & tr1 & _ & H).
    destruct (negb _); [discriminate|].
    injection H as <- _. apply list_elem_of_fmap in Hu as (src & -> & _).
    apply mangadex_proxy_prefix.
Qed.

Lemma X20_page_urls_go_through_the_proxy_witness :
  (forall u,
     u ∈ map (fun i => Webtoons.constructProxyUrl (img_url i) Webtoons.refererOnly)
             threeImages ->
     Js.startsWith "http://localhost:8080/api/proxy/resource?url=" u = true)
  /\ (forall u,
     u ∈ [MangaDex.constructProxyUrl "https://s2.mangadex.org/data/abc123/1-a.png"
            MangaDex.mangadexReferer;
          MangaDex.constructProxyUrl "https://s2.mangadex.org/data/abc123/2-b.png"
            MangaDex.mangadexReferer] ->
     Js.startsWith "http://localhost:8080/api/proxy/resource?url=" u = true).
Proof.
  destruct X20_page_urls_go_through_the_proxy as (_ & HT & HM).
  split.
  - intros u. apply (HT (answering 200 "OK" threeImagesPage)
                        "id6795viewerLink/en/a/ep_1/viewer?episode_no=1chNum1" _
                        [webtoonsViewerRequest "/en/a/ep_1/viewer?episode_no=1"]).
    vm_compute. reflexivity.
  - intros u. apply (HM twoFiles "chapter-123" _ [mangadexPageRequest twoFiles "chapter-123"]).
    reflexivity.
Defined.

(** ** The image list of a Webtoons viewer *)

Section ImageFacts.
Import Regex.

Lemma imageListRegex_unfold :
  Webtoons.imageListRegex
  = Seq (lit_i "<img") (Seq (Plus (not_char ">")) dataUrlRegex).
Proof. reflexivity. Qed.

Lemma rmatch_lit_i_app (t s : string) k pos c :
  rmatch (lit_i t) k pos (t +:+ s) c = k (pos + String.length t)%nat s c.
Proof.
  revert pos. induction t as [|x t IH]; intros pos; cbn [lit_i rmatch String.append].
  - now rewrite Nat.add_0_r.
  - unfold char_i at 1. cbn [rmatch]. rewrite Ascii.eqb_refl, IH.
    cbn [String.length]. f_equal. lia.
Qed.

Lemma rmatch_lit_i_fail (t s : string) k pos c :
  Js.startsWith (lower t) (lower s) = false -> rmatch (lit_i t) k pos s c = None.
Proof.
  revert s pos. induction t as [|x t IH]; intros s pos; cbn [lit_i rmatch]; [discriminate|].
  destruct s as [|y s]; [reflexivity|]. unfold char_i at 1. cbn [rmatch].
  unfold lower. cbn [Js.map_chars Js.startsWith].
  destruct (Ascii.eqb (Js.to_lower x) (Js.to_lower y)); cbn [andb];
    [apply IH | reflexivity].
Qed.

Lemma to_lower_lt b :
  Ascii.eqb (Js.to_lower "<") (Js.to_lower b) = true -> b = "<"%char.
Proof.
  destruct b as [[] [] [] [] [] [] [] []]; intros H;
    first [reflexivity | discriminate H].
Qed.

Lemma image_no_start pos b (s : string) :
  not_char "<" b = true ->
  rmatch Webtoons.imageListRegex accept pos (String b s) [] = None.
Proof.
  intros Hb. rewrite imageListRegex_unfold, rmatch_seq.
  apply rmatch_lit_i_fail. unfold lower. cbn [Js.map_chars Js.startsWith].
  destruct (Ascii.eqb (Js.to_lower "<") (Js.to_lower b)) eqn:E; [|reflexivity].
  apply to_lower_lt in E. subst b. discriminate.
Qed.

Lemma exec_from_gap (g s : string) pos :
  Js.all_chars (not_char "<") g = true ->
  exec_from Webtoons.imageListRegex pos (g +:+ s)
  = exec_from Webtoons.imageListRegex (pos + String.length g)%nat s.
Proof.
  revert pos. induction g as [|b g IH]; intros pos Hg.
  - cbn. now rewrite Nat.add_0_r.
  - cbn [Js.all_chars] in Hg. apply andb_prop in Hg as [Hb Hg].
    cbn [String.append]. rewrite exec_from_step by now apply image_no_start.
    rewrite IH by assumption. cbn [String.length]. f_equal. lia.
Qed.

Lemma exec_from_gap_end (g : string) pos :
  Js.all_chars (not_char "<") g = true ->
  exec_from Webtoons.imageListRegex pos g = None.
Proof.
  intros Hg. rewrite <- (string_app_nil_r g), exec_from_gap by assumption.
  reflexivity.
Qed.

(** The greedy star gives back the characters after the last position at
    which the rest of the pattern matches. *)
Lemma star_greedy_run_here p k pos (t u : string) c :
  Js.all_chars p t = true ->
  match u with String x _ => p x = false | EmptyString => True end ->
  (forall j, (0 < j <= String.length t)%nat ->
             k (pos + j)%nat (Js.drop j (t +:+ u)) c = None) ->
  star_greedy p k pos (t +:+ u) c = k pos (t +:+ u) c.
Proof.
  revert pos. induction t as [|x t IH]; intros pos Ht Hu Hk.
  - cbn [String.append]. now apply star_greedy_stop'.
  - cbn [Js.all_chars] in Ht. apply andb_prop in Ht as [Hx Ht].
    cbn [String.append star_greedy]. rewrite Hx, IH; try assumption.
    + specialize (Hk 1%nat). cbn [Js.drop String.append] in Hk.
      replace (pos + 1)%nat with (S pos) in Hk by lia.
      rewrite ?drop_0 in Hk. rewrite Hk; [reflexivity | cbn [String.length]; lia].
    + intros j Hj. specialize (Hk (S j)). cbn [Js.drop String.append] in Hk.
      replace (pos + S j)%nat with (S pos + j)%nat in Hk by lia.
      apply Hk. cbn [String.length]. lia.
Qed.

Lemma quote_cases q : quote q = true -> q = Js.chr 34 \/ q = Js.chr 39.
Proof.
  unfold quote. intros H. apply orb_true_iff in H as [H|H];
    apply Ascii.eqb_eq in H; auto.
Qed.

Lemma rmatch_chr p k pos a (s : string) c :
  rmatch (Chr p) k pos (String a s) c = if p a then k (S pos) s c else None.
Proof. reflexivity. Qed.

Lemma rmatch_eps k pos (s : string) c : rmatch Eps k pos s c = k pos s c.
Proof. reflexivity. Qed.

Lemma dataUrl_here q (url rest : string) pos c :
  quote q = true -> url <> "" -> Js.all_chars not_quote url = true ->
  rmatch dataUrlRegex accept pos ("data-url=" +:+ String q (url +:+ String q rest)) c
  = Some ((pos + 9 + 1 + String.length url + 1)%nat, (1%nat, url) :: c).
Proof.
  intros Hq Hne Hurl. unfold dataUrlRegex. cbn [seq].
  rewrite rmatch_seq, rmatch_lit_i_app, rmatch_seq, rmatch_chr, Hq, rmatch_seq.
  apply rmatch_group_plus; [assumption..|].
  rewrite star_greedy_stop by (unfold not_quote; now rewrite Hq).
  cbv beta. rewrite rmatch_seq, rmatch_chr, Hq, rmatch_eps. unfold accept.
  rewrite take_split. cbn [String.length]. do 2 f_equal. lia.
Qed.

Lemma dataUrl_fail (s : string) k pos c :
  Js.startsWith "data-url=" (lower s) = false -> rmatch dataUrlRegex k pos s c = None.
Proof.
  intros H. unfold dataUrlRegex. cbn [seq]. rewrite rmatch_seq.
  now apply rmatch_lit_i_fail.
Qed.

Lemma startsWith_cut (p x R : string) c :
  Js.all_chars (fun a => negb (Ascii.eqb a c)) p = true ->
  Js.startsWith p (x +:+ String c R) = Js.startsWith p x.
Proof.
  revert x. induction p as [|a p IH]; intros x Hp; [reflexivity|].
  cbn [Js.all_chars] in Hp. apply andb_prop in Hp as [Ha Hp].
  destruct x as [|y x]; cbn [String.append Js.startsWith].
  - apply negb_true_iff in Ha. now rewrite Ha.
  - now rewrite IH.
Qed.

Lemma lower_app (a b : string) : lower (a +:+ b) = lower a +:+ lower b.
Proof. apply map_chars_app. Qed.

Lemma no_later_dataUrl (X R : string) j :
  Js.includes "data-url=" (lower X) = false -> (j <= String.length X)%nat ->
  Js.startsWith "data-url=" (lower (Js.drop j (X +:+ String ">" R))) = false.
Proof.
  revert j. induction X as [|x X IH]; intros j H Hj.
  - cbn [String.length] in Hj. replace j with O by lia. reflexivity.
  - destruct j as [|j].
    + rewrite drop_0, lower_app.
      change (lower (String ">" R)) with (String ">" (lower R)).
      rewrite startsWith_cut by reflexivity. now apply includes_startsWith.
    + cbn [String.append Js.drop]. apply IH.
      * unfold lower in H |- *. cbn [Js.map_chars] in H.
        eapply includes_tail. exact H.
      * cbn [String.length] in Hj. lia.
Qed.

Lemma quote_not_gt q : quote q = true -> not_char ">" q = true.
Proof. intros [-> | ->]%quote_cases; reflexivity. Qed.

Lemma quote_not_d q : quote q = true -> Ascii.eqb "d" (Js.to_lower q) = false.
Proof. intros [-> | ->]%quote_cases; reflexivity. Qed.

Lemma image_here q (before url after R : string) pos :
  quote q = true ->
  before <> "" -> Js.all_chars (not_char ">") before = true ->
  url <> "" ->
  Js.all_chars (fun c => not_quote c && not_char ">" c) url = true ->
  Js.all_chars (fun c => not_char "<" c && not_char ">" c) after = true ->
  Js.includes "data-url=" (lower (url +:+ String q after)) = false ->
  rmatch Webtoons.imageListRegex accept pos (imgTag q before url after +:+ R) []
  = Some ((pos + String.length (imgMatched q before url))%nat, [(1%nat, url)]).
Proof.
  intros Hq Hb1 Hb2 Hu1 Hu2 Ha Hno.
  assert (Hu3 : Js.all_chars not_quote url = true).
  { eapply all_chars_impl; [|exact Hu2]. intros c Hc. now apply andb_prop in Hc. }
  assert (Hu4 : Js.all_chars (not_char ">") url = true).
  { eapply all_chars_impl; [|exact Hu2]. intros c Hc. now apply andb_prop in Hc. }
  assert (Ha2 : Js.all_chars (not_char ">") after = true).
  { eapply all_chars_impl; [|exact Ha]. intros c Hc. now apply andb_prop in Hc. }
  destruct before as [|b0 before]; [congruence|].
  cbn [Js.all_chars] in Hb2. apply andb_prop in Hb2 as [Hb0 Hb2].
  set (T := "data-url=" +:+ String q (url +:+ String q after)).
  assert (E : imgTag q (String b0 before) url after +:+ R
              = "<img" +:+ String b0 (before +:+ T +:+ String ">" R)).
  { unfold imgTag, imgMatched, T. rewrite !string_app_assoc. cbn [String.append].
    rewrite !string_app_assoc. reflexivity. }
  rewrite E, imageListRegex_unfold, rmatch_seq, rmatch_lit_i_app, rmatch_seq, rmatch_plus.
  rewrite Hb0.
  apply star_greedy_app; [exact Hb2|].
  rewrite star_greedy_run_here.
  - unfold T. rewrite string_app_assoc. cbn [String.append].
    rewrite !string_app_assoc.
    change (String "d" (String "a" (String "t" (String "a" (String "-" (String "u"
             (String "r" (String "l" (String "=" ?x)))))))))
      with ("data-url=" +:+ x).
    cbn [String.append].
    change (String "d" (String "a" (String "t" (String "a" (String "-" (String "u"
             (String "r" (String "l" (String "=" ?x)))))))))
      with ("data-url=" +:+ x).
    rewrite dataUrl_here by assumption.
    do 2 f_equal. unfold imgMatched. rewrite !string_app_length.
    cbn [String.length]. rewrite !string_app_length. cbn [String.length]. lia.
  - unfold T. rewrite !all_chars_app. cbn [Js.all_chars].
    rewrite all_chars_app. cbn [Js.all_chars].
    rewrite (quote_not_gt q Hq), Hu4, Ha2. reflexivity.
  - reflexivity.
  - intros j Hj. apply dataUrl_fail.
    unfold T in *. clear E. 
    do 9 (destruct j as [|j]; [first [lia | reflexivity]|]).
    destruct j as [|j].
    { cbn [Js.drop String.append]. unfold lower. cbn [Js.map_chars Js.startsWith].
      now rewrite (quote_not_d q Hq). }
    cbn [Js.drop String.append].
    rewrite string_app_assoc. cbn [String.append].
    change (String q (after +:+ String ">" R)) with (String q after +:+ String ">" R).
    rewrite <- string_app_assoc.
    apply no_later_dataUrl; [exact Hno|].
    rewrite string_app_length in Hj. cbn [String.length] in Hj.
    rewrite !string_app_length in Hj |- *. cbn [String.length] in Hj |- *. lia.
Qed.

Lemma exec_loop_images q rest :
  quote q = true -> Js.all_chars (not_char "<") rest = true ->
  forall images fuel (done g : string),
    Forall (image_ok q) images ->
    Js.all_chars (not_char "<") g = true ->
    (length images < fuel)%nat ->
    map (fun m => Js.opt_str (group 1 (groups m)))
        (exec_loop fuel Webtoons.imageListRegex
           (done +:+ g +:+ imageList q images rest) (String.length done))
    = map img_url images.
Proof.
  intros Hq Hrest. induction images as [|i images IH];
    intros fuel done g Hok Hg Hfuel;
    (destruct fuel as [|fuel]; [cbn in Hfuel; lia|]).
  - cbn [exec_loop imageList]. rewrite drop_app_length.
    rewrite exec_from_gap_end; [reflexivity|].
    rewrite all_chars_app, Hg, Hrest. reflexivity.
  - apply Forall_cons in Hok as [(Hgap & Hb1 & Hb2 & Hu1 & Hu2 & Ha & Hno) Hok].
    set (S := done +:+ g +:+ imageList q (i :: images) rest).
    set (done' := done +:+ (g +:+ img_gap i)
                  +:+ imgMatched q (img_before i) (img_url i)).
    assert (Hdrop : Js.drop (String.length done) S
                    = (g +:+ img_gap i)
                      +:+ imgTag q (img_before i) (img_url i) (img_after i)
                      +:+ imageList q images rest).
    { unfold S. rewrite drop_app_length. cbn [imageList].
      now rewrite !string_app_assoc. }
    assert (HS : S = done' +:+ (img_after i +:+ ">") +:+ imageList q images rest).
    { unfold S, done', imgTag. cbn [imageList]. unfold imgTag.
      now rewrite !string_app_assoc. }
    assert (Hl : (String.length done + String.length (g +:+ img_gap i)
                  + String.length (imgMatched q (img_before i) (img_url i)))%nat
                 = String.length done').
    { unfold done'. rewrite !string_app_length. lia. }
    cbn [exec_loop]. rewrite Hdrop.
    rewrite exec_from_gap by (rewrite all_chars_app, Hg, Hgap; reflexivity).
    rewrite (exec_from_here _ _ _ _ _
               (image_here q _ _ _ _ _ Hq Hb1 Hb2 Hu1 Hu2 Ha Hno)).
    cbn [map groups group Nat.eqb Js.opt_str from_option id lastIndex]. f_equal.
    rewrite Hl, HS. apply IH; [assumption | | cbn in Hfuel; lia].
    rewrite all_chars_app. cbn [Js.all_chars]. rewrite andb_true_r.
    eapply all_chars_impl; [|exact Ha]. intros c Hc. now apply andb_prop in Hc.
Qed.

Lemma imageList_length q images rest :
  (length images <= String.length (imageList q images rest))%nat.
Proof.
  induction images as [|i images IH]; cbn [imageList length]; [lia|].
  unfold imgTag, imgMatched. rewrite !string_app_length. cbn [String.length]. lia.
Qed.

End ImageFacts.

(** X21: the scan of the image list of the Webtoons viewer.  On a sequence
    of well-formed [<img ... data-url=q url q ...>] tags, whatever text
    without [<] separates and follows them, the scan yields the [data-url]
    of every tag, in the order of the page. *)
Theorem X21_webtoons_image_urls q images rest :
  Regex.quote q = true ->
  Forall (image_ok q) images ->
  Js.all_chars (Regex.not_char "<") rest = true ->
  Webtoons.imageUrlsOf (imageList q images rest) = map img_url images.
Proof.
  intros Hq Hok Hrest. unfold Webtoons.imageUrlsOf, Regex.exec_all.
  apply (exec_loop_images q rest Hq Hrest images _ "" "" Hok eq_refl).
  pose proof (imageList_length q images rest). lia.
Qed.

Lemma X21_webtoons_image_urls_witness :
  Webtoons.imageUrlsOf (imageList dquote threeImages " ")
  = map img_url threeImages.
Proof.
  apply X21_webtoons_image_urls; try reflexivity.
  repeat (apply Forall_cons_2 || apply Forall_nil_2);
    repeat split; first [reflexivity | discriminate].
Defined.

(** ** The viewer page *)

Section DivFacts.
Import Regex.

Lemma imageListDivRegex_unfold :
  Webtoons.imageListDivRegex
  = Seq (lit_i "<div") (Seq (Star (not_char ">")) imageListIdRegex).
Proof. reflexivity. Qed.

(** The lazy star stops at the first position at which the rest of the
    pattern matches. *)
Lemma star_lazy_first p k pos (t u : string) c m :
  Js.all_chars p t = true ->
  (forall j, (j < String.length t)%nat ->
             k (pos + j)%nat (Js.drop j (t +:+ u)) c = None) ->
  k (pos + String.length t)%nat u c = Some m ->
  star_lazy p k pos (t +:+ u) c = Some m.
Proof.
  revert pos. induction t as [|x t IH]; intros pos Ht Hk Hm.
  - cbn [String.append String.length] in *. rewrite Nat.add_0_r in Hm.
    destruct u; cbn [star_lazy]; now rewrite Hm.
  - cbn [Js.all_chars] in Ht. apply andb_prop in Ht as [Hx Ht].
    cbn [String.append star_lazy].
    pose proof (Hk O ltac:(cbn [String.length]; lia)) as H0.
    rewrite Nat.add_0_r in H0. cbn [Js.drop String.append] in H0. rewrite H0, Hx.
    apply IH; [assumption | |].
    + intros j Hj. specialize (Hk (S j)). cbn [Js.drop String.append] in Hk.
      replace (pos + S j)%nat with (S pos + j)%nat in Hk by lia.
      apply Hk. cbn [String.length]. lia.
    + cbn [String.length] in Hm.
      now replace (S pos + String.length t)%nat
        with (pos + S (String.length t))%nat by lia.
Qed.

Lemma no_later (p X R : string) j :
  Js.all_chars (fun a => negb (Ascii.eqb a ">")) p = true -> p <> "" ->
  Js.includes p (lower X) = false -> (j <= String.length X)%nat ->
  Js.startsWith p (lower (Js.drop j (X +:+ String ">" R))) = false.
Proof.
  intros Hp Hne. revert j. induction X as [|x X IH]; intros j H Hj.
  - cbn [String.length] in Hj. replace j with O by lia.
    cbn [Js.drop String.append]. destruct p as [|a p]; [congruence|].
    cbn [Js.all_chars] in Hp. apply andb_prop in Hp as [Ha _].
    apply negb_true_iff in Ha. unfold lower. cbn [Js.map_chars Js.startsWith].
    change (Js.to_lower ">") with ">"%char. now rewrite Ha.
  - destruct j as [|j].
    + rewrite drop_0, lower_app.
      change (lower (String ">" R)) with (String ">" (lower R)).
      rewrite startsWith_cut by assumption. now apply includes_startsWith.
    + cbn [String.append Js.drop]. apply IH.
      * unfold lower in H |- *. cbn [Js.map_chars] in H.
        eapply includes_tail. exact H.
      * cbn [String.length] in Hj. lia.
Qed.

Lemma drop_app_le j (S R : string) :
  (j <= String.length S)%nat -> Js.drop j (S +:+ R) = Js.drop j S +:+ R.
Proof.
  revert j. induction S as [|x S IH]; intros j Hj.
  - cbn [String.length] in Hj. replace j with O by lia. now rewrite !drop_0.
  - destruct j as [|j]; [reflexivity|]. cbn [String.append Js.drop].
    apply IH. cbn [String.length] in Hj. lia.
Qed.

Lemma drop_length j (S : string) :
  String.length (Js.drop j S) = (String.length S - j)%nat.
Proof.
  revert j. induction S as [|x S IH]; intros [|j]; try reflexivity.
  cbn [Js.drop String.length]. now rewrite IH.
Qed.

Lemma lower_length (s : string) : String.length (lower s) = String.length s.
Proof. apply map_chars_length. Qed.

(** No occurrence of the pattern begins inside [X] when none is found in
    [X] followed by all of the pattern but its last character. *)
Lemma no_later_window (p X Y R : string) j :
  Js.includes p (lower (X +:+ Y)) = false ->
  (String.length p <= String.length Y + 1)%nat -> (j < String.length X)%nat ->
  Js.startsWith p (lower (Js.drop j ((X +:+ Y) +:+ R))) = false.
Proof.
  intros H Hp Hj. rewrite drop_app_le by (rewrite string_app_length; lia).
  rewrite lower_app, startsWith_window.
  - revert H. generalize (X +:+ Y). intros S. clear. revert j.
    induction S as [|x S IH]; intros j H.
    + destruct j; exact (includes_startsWith _ _ H).
    + destruct j as [|j]; [exact (includes_startsWith _ _ H)|].
      cbn [Js.drop]. apply IH. unfold lower in H |- *. cbn [Js.map_chars] in H.
      eapply includes_tail. exact H.
  - rewrite lower_length, drop_length, string_app_length. lia.
Qed.

Lemma imageListId_fail (s : string) k pos c :
  Js.startsWith "id=" (lower s) = false -> rmatch imageListIdRegex k pos s c = None.
Proof.
  intros H. unfold imageListIdRegex. cbn [seq]. rewrite rmatch_seq.
  now apply rmatch_lit_i_fail.
Qed.

Lemma closing_fail (s : string) k pos c :
  Js.startsWith "</div>" (lower s) = false ->
  rmatch (Seq (lit_i "</div>") Eps) k pos s c = None.
Proof. intros H. rewrite rmatch_seq. now apply rmatch_lit_i_fail. Qed.

Lemma quote_lower q : quote q = true -> Js.to_lower q = q.
Proof. intros [-> | ->]%quote_cases; reflexivity. Qed.

Lemma quote_not_i q : quote q = true -> Ascii.eqb "i" q = false.
Proof. intros [-> | ->]%quote_cases; reflexivity. Qed.

(** The content of the image list: from the end of the opening tag to the
    first [</div>]. *)
Lemma imageListId_here q (a2 content post : string) pos :
  quote q = true ->
  Js.all_chars (not_char ">") a2 = true ->
  Js.includes "</div>" (lower (content +:+ "</div")) = false ->
  exists e,
    rmatch imageListIdRegex accept pos
      ("id=" +:+ String q ("_imageList" +:+ String q (a2 +:+ ">"))
       +:+ content +:+ "</div>" +:+ post) []
    = Some (e, [(1%nat, content)]).
Proof.
  intros Hq Ha2 Hc. eexists.
  assert (E : "id=" +:+ String q ("_imageList" +:+ String q (a2 +:+ ">"))
              +:+ content +:+ "</div>" +:+ post
              = "id=" +:+ String q ("_imageList" +:+ String q
                  (a2 +:+ String ">" (content +:+ "</div>" +:+ post)))).
  { repeat (progress (rewrite ?string_app_assoc; cbn [String.append])). reflexivity. }
  rewrite E. unfold imageListIdRegex. cbn [seq].
  rewrite rmatch_seq, rmatch_lit_i_app, rmatch_seq, rmatch_chr, Hq.
  rewrite rmatch_seq, rmatch_lit_i_app, rmatch_seq, rmatch_chr, Hq, rmatch_seq.
  change (rmatch (Star (not_char ">")) ?k ?p ?s ?c)
    with (star_greedy (not_char ">") k p s c).
  erewrite star_greedy_app; [reflexivity | exact Ha2 |].
  rewrite star_greedy_stop by reflexivity.
  rewrite rmatch_seq. unfold char at 1. rewrite rmatch_chr.
  change (Ascii.eqb ">" ">") with true. cbv iota.
  rewrite rmatch_seq, rmatch_group.
  change (rmatch (LazyStar any) ?k ?p ?s ?c) with (star_lazy any k p s c).
  apply star_lazy_first.
  - clear. induction content; [reflexivity | assumption].
  - intros j Hj. cbv beta. apply closing_fail.
    assert (E2 : content +:+ "</div>" +:+ post
                 = (content +:+ "</div") +:+ String ">" post).
    { rewrite string_app_assoc. reflexivity. }
    rewrite E2.
    apply no_later_window; [exact Hc | cbn [String.length]; lia | exact Hj].
  - cbv beta. rewrite rmatch_seq, rmatch_lit_i_app, rmatch_eps. unfold accept.
    rewrite take_split. reflexivity.
Qed.

Lemma rmatch_lit_i_lower (t : string) k pos (s : string) c m :
  rmatch (lit_i t) k pos s c = Some m ->
  exists t' s', s = t' +:+ s' /\ lower t' = lower t
                /\ k (pos + String.length t)%nat s' c = Some m.
Proof.
  revert pos s. induction t as [|x t IH]; intros pos s; cbn [lit_i rmatch].
  - intros H. exists "", s. now rewrite Nat.add_0_r.
  - intros H. apply rmatch_chr_inv in H as (a & s' & -> & Ha & H).
    apply IH in H as (t' & s'' & -> & Hl & H).
    exists (String a t'), s''. cbn [String.length]. rewrite Nat.add_succ_r.
    repeat split; [|assumption]. unfold lower in *. cbn [Js.map_chars].
    apply Ascii.eqb_eq in Ha. now rewrite Hl, Ha.
Qed.

Lemma to_lower_gt c : Js.to_lower c = ">"%char -> c = ">"%char.
Proof.
  destruct c as [[] [] [] [] [] [] [] []]; intros H;
    first [reflexivity | discriminate H].
Qed.

Lemma lower_no_gt (t p : string) :
  lower t = p -> Js.all_chars (not_char ">") p = true ->
  Js.all_chars (not_char ">") t = true.
Proof.
  intros <-. induction t as [|x t IH]; [reflexivity|].
  unfold lower. cbn [Js.map_chars Js.all_chars]. intros H.
  apply andb_prop in H as [Hx Ht]. rewrite (IH Ht), andb_true_r.
  unfold not_char in *. apply negb_true_iff. apply negb_true_iff in Hx.
  apply Ascii.eqb_neq. intros ->. now rewrite Ascii.eqb_refl in Hx.
Qed.

Lemma prefix_no_gt (A B X R : string) :
  A +:+ B = X +:+ String ">" R -> Js.all_chars (not_char ">") A = true ->
  exists X', X = A +:+ X'.
Proof.
  revert X. induction A as [|a A IH]; intros X H HA; [now exists X|].
  cbn [Js.all_chars] in HA. apply andb_prop in HA as [Ha HA].
  destruct X as [|x X]; cbn [String.append] in H.
  - injection H as -> _. discriminate.
  - injection H as -> H. destruct (IH X H HA) as (X' & ->). now exists X'.
Qed.

Lemma startsWith_includes (p s : string) :
  Js.startsWith p s = true -> Js.includes p s = true.
Proof. intros H. destruct s; cbn [Js.includes]; now rewrite H. Qed.

Lemma includes_middle (p a b : string) : Js.includes p (a +:+ p +:+ b) = true.
Proof.
  induction a as [|x a IH]; cbn [String.append].
  - apply startsWith_includes, startsWith_app.
  - cbn [Js.includes]. rewrite IH. apply orb_true_r.
Qed.

(** Before the image list, in a text that ends a tag and does not name the
    list, the pattern does not match. *)
Lemma imageListDiv_not_before (X R : string) pos :
  Js.includes "_imagelist" (lower (X +:+ ">")) = false ->
  rmatch Webtoons.imageListDivRegex accept pos ((X +:+ ">") +:+ R) [] = None.
Proof.
  intros Hno.
  destruct (rmatch _ accept pos _ []) as [m|] eqn:E; [exfalso | reflexivity].
  rewrite imageListDivRegex_unfold, rmatch_seq in E.
  apply rmatch_lit_i_lower in E as (t4 & s1 & E1 & L4 & E).
  rewrite rmatch_seq in E.
  change (rmatch (Star (not_char ">")) ?k ?p ?s ?c)
    with (star_greedy (not_char ">") k p s c) in E.
  apply star_greedy_inv in E as (run & s2 & -> & Hrun & E).
  unfold imageListIdRegex in E. cbn [seq] in E. rewrite rmatch_seq in E.
  apply rmatch_lit_i_lower in E as (t3 & s3 & -> & L3 & E).
  rewrite rmatch_seq in E.
  apply rmatch_chr_inv in E as (q' & s4 & -> & Hq' & E).
  rewrite rmatch_seq in E.
  apply rmatch_lit_i_lower in E as (t10 & s5 & -> & L10 & _).
  assert (HM : Js.all_chars (not_char ">")
                 (t4 +:+ run +:+ t3 +:+ String q' t10) = true).
  { rewrite !all_chars_app. cbn [Js.all_chars].
    rewrite (lower_no_gt t4 _ L4 eq_refl), Hrun, (lower_no_gt t3 _ L3 eq_refl),
      (quote_not_gt q' Hq'), (lower_no_gt t10 _ L10 eq_refl).
    reflexivity. }
  assert (E2 : (t4 +:+ run +:+ t3 +:+ String q' t10) +:+ s5
               = X +:+ String ">" R).
  { rewrite string_app_assoc in E1. cbn [String.append] in E1. rewrite E1.
    repeat (progress (rewrite ?string_app_assoc; cbn [String.append])).
    reflexivity. }
  destruct (prefix_no_gt _ _ _ _ E2 HM) as (X' & ->).
  assert (Hin : Js.includes "_imagelist"
                  (lower (((t4 +:+ run +:+ t3 +:+ String q' t10) +:+ X') +:+ ">"))
                = true).
  { replace (((t4 +:+ run +:+ t3 +:+ String q' t10) +:+ X') +:+ ">")
      with ((t4 +:+ run +:+ t3 +:+ String q' "") +:+ t10 +:+ (X' +:+ ">"))
      by (repeat (progress (rewrite ?string_app_assoc; cbn [String.append]));
          reflexivity).
    rewrite !lower_app, L10. apply includes_middle. }
  congruence.
Qed.

(** The part of the pattern after [<div], on the rest of the opening tag of
    the image list and what follows it. *)
Lemma imageListTail_here q (a1 a2 content post : string) pos :
  quote q = true ->
  Js.all_chars (not_char ">") a1 = true ->
  Js.all_chars (not_char ">") a2 = true ->
  Js.includes "id=" (lower a2) = false ->
  Js.includes "</div>" (lower (content +:+ "</div")) = false ->
  exists e,
    rmatch (Seq (Star (not_char ">")) imageListIdRegex) accept pos
      (a1 +:+ "id=" +:+ String q ("_imageList" +:+ String q (a2 +:+ ">"))
       +:+ content +:+ "</div>" +:+ post) []
    = Some (e, [(1%nat, content)]).
Proof.
  intros Hq Ha1 Ha2 Hid Hc.
  set (R := content +:+ "</div>" +:+ post).
  set (T := "id=" +:+ String q ("_imageList" +:+ String q a2)).
  destruct (imageListId_here q a2 content post
              (pos + String.length a1) Hq Ha2 Hc) as (e & He).
  exists e.
  assert (E2 : "id=" +:+ String q ("_imageList" +:+ String q (a2 +:+ ">")) +:+ R
               = T +:+ String ">" R).
  { unfold T.
    repeat (progress (rewrite ?string_app_assoc; cbn [String.append])). reflexivity. }
  fold R in He. rewrite E2 in He.
  change (a1 +:+ "id=" +:+ String q ("_imageList" +:+ String q (a2 +:+ ">")) +:+ R)
    with (a1 +:+ ("id=" +:+ String q ("_imageList" +:+ String q (a2 +:+ ">")) +:+ R)).
  rewrite E2, rmatch_seq.
  change (rmatch (Star (not_char ">")) ?k ?p ?s ?c)
    with (star_greedy (not_char ">") k p s c).
  apply star_greedy_app; [exact Ha1|].
  rewrite star_greedy_run_here; [exact He | | reflexivity |].
  - unfold T. rewrite all_chars_app. cbn [Js.all_chars].
    rewrite all_chars_app. cbn [Js.all_chars].
    rewrite (quote_not_gt q Hq), Ha2. reflexivity.
  - intros j Hj. apply imageListId_fail. unfold T in *.
    pose proof (quote_lower q Hq) as Hl. pose proof (quote_not_i q Hq) as Hi.
    do 15 (destruct j as [|j];
           [first [lia
                  | reflexivity
                  | cbn [Js.drop String.append]; unfold lower;
                    cbn [Js.map_chars Js.startsWith]; now rewrite Hl, Hi]|]).
    cbn [Js.drop String.append].
    repeat (progress (rewrite ?string_app_assoc; cbn [String.append])).
    apply no_later; [reflexivity | discriminate | exact Hid |].
    rewrite string_app_length in Hj. cbn [String.length] in Hj.
    rewrite string_app_length in Hj. cbn [String.length] in Hj. lia.
Qed.

Lemma imageListDiv_here q (a1 a2 content post : string) pos :
  quote q = true ->
  Js.all_chars (not_char ">") a1 = true ->
  Js.all_chars (not_char ">") a2 = true ->
  Js.includes "id=" (lower a2) = false ->
  Js.includes "</div>" (lower (content +:+ "</div")) = false ->
  exists e,
    rmatch Webtoons.imageListDivRegex accept pos
      (imageListOpen q a1 a2 +:+ content +:+ "</div>" +:+ post) []
    = Some (e, [(1%nat, content)]).
Proof.
  intros Hq Ha1 Ha2 Hid Hc.
  destruct (imageListTail_here q a1 a2 content post (pos + String.length "<div")
              Hq Ha1 Ha2 Hid Hc) as (e & He).
  exists e. rewrite imageListDivRegex_unfold, rmatch_seq.
  replace (imageListOpen q a1 a2 +:+ content +:+ "</div>" +:+ post)
    with ("<div" +:+ a1 +:+ "id=" +:+ String q ("_imageList" +:+ String q (a2 +:+ ">"))
          +:+ content +:+ "</div>" +:+ post).
  - now rewrite rmatch_lit_i_app.
  - unfold imageListOpen.
    repeat (progress (rewrite ?string_app_assoc; cbn [String.append])). reflexivity.
Qed.

(** A text with a [>] ends a tag somewhere. *)
Lemma first_gt (s : string) :
  Js.all_chars (not_char ">") s = false -> exists X R, s = (X +:+ ">") +:+ R.
Proof.
  induction s as [|x s IH]; [discriminate|]. cbn [Js.all_chars].
  destruct (not_char ">" x) eqn:Hx.
  - intros H. destruct (IH H) as (X & R & ->). now exists (String x X), R.
  - intros _. unfold not_char in Hx. apply negb_false_iff, Ascii.eqb_eq in Hx.
    subst x. now exists "", s.
Qed.

Lemma includes_prefix_false (p a b : string) :
  Js.includes p (a +:+ b) = false -> Js.includes p a = false.
Proof.
  intros H. destruct (Js.includes p a) eqn:E; [|reflexivity].
  now rewrite (includes_app_l _ _ b E) in H.
Qed.

(** Where the pattern begins inside a text that is followed by [<div], its
    first four characters lie in the text. *)
Lemma div_inside (x : ascii) (pre Y t4 s1 : string) :
  String x pre +:+ "<div" +:+ Y = t4 +:+ s1 -> lower t4 = "<div" ->
  exists W, String x pre = t4 +:+ W /\ s1 = W +:+ "<div" +:+ Y.
Proof.
  intros E L.
  destruct t4 as [|a [|b [|c [|d [|? ?]]]]]; try discriminate L.
  unfold lower in L. cbn [Js.map_chars] in L. injection L as La Lb Lc Ld.
  destruct pre as [|y [|z [|w pre]]]; cbn [String.append] in E.
  - injection E as -> <- _ _ _. discriminate Lb.
  - injection E as -> -> <- _ _. discriminate Lc.
  - injection E as -> -> -> <- _. discriminate Ld.
  - injection E as -> -> -> -> <-. now exists pre.
Qed.

Lemma all_chars_suffix p (a b : string) :
  Js.all_chars p (a +:+ b) = true -> Js.all_chars p b = true.
Proof. rewrite all_chars_app. intros H. now apply andb_prop in H. Qed.

(** Wherever the pattern matches in a page that names the image list for
    the first time in its opening tag, it reads the content of that list. *)
Lemma exec_from_pre q (pre a1 a2 content post : string) pos :
  quote q = true ->
  Js.includes "_imagelist" (lower pre) = false ->
  Js.all_chars (not_char ">") a1 = true ->
  Js.all_chars (not_char ">") a2 = true ->
  Js.includes "id=" (lower a2) = false ->
  Js.includes "</div>" (lower (content +:+ "</div")) = false ->
  exists m,
    exec_from Webtoons.imageListDivRegex pos
      (pre +:+ imageListOpen q a1 a2 +:+ content +:+ "</div>" +:+ post) = Some m
    /\ Js.opt_str (group 1 (groups m)) = content.
Proof.
  intros Hq Hno Ha1 Ha2 Hid Hc. revert pos Hno.
  induction pre as [|x pre IH]; intros pos Hno.
  - destruct (imageListDiv_here q a1 a2 content post pos Hq Ha1 Ha2 Hid Hc)
      as (e & He).
    eexists. split; [exact (exec_from_here _ _ _ _ _ He) | reflexivity].
  - assert (Hno' : Js.includes "_imagelist" (lower pre) = false).
    { unfold lower in Hno |- *. cbn [Js.map_chars] in Hno.
      eapply includes_tail. exact Hno. }
    destruct (rmatch Webtoons.imageListDivRegex accept pos
                (String x pre +:+ imageListOpen q a1 a2 +:+ content
                 +:+ "</div>" +:+ post) []) as [[e c]|] eqn:E.
    + rewrite (exec_from_here _ _ _ _ _ E). eexists. split; [reflexivity|].
      cbn [groups].
      destruct (Js.all_chars (not_char ">") (String x pre)) eqn:Hgt.
      * rewrite imageListDivRegex_unfold, rmatch_seq in E.
        apply rmatch_lit_i_lower in E as (t4 & s1 & E1 & L4 & E).
        assert (E1' : String x pre +:+ "<div"
                      +:+ (a1 +:+ "id="
                           +:+ String q ("_imageList" +:+ String q (a2 +:+ ">"))
                           +:+ content +:+ "</div>" +:+ post)
                      = t4 +:+ s1).
        { rewrite <- E1. unfold imageListOpen.
          repeat (progress (rewrite ?string_app_assoc; cbn [String.append])).
          reflexivity. }
        destruct (div_inside _ _ _ _ _ E1' L4) as (W & EW & ->).
        rewrite EW in Hgt. apply all_chars_suffix in Hgt.
        destruct (imageListTail_here q (W +:+ "<div" +:+ a1) a2 content post
                    (pos + String.length "<div") Hq) as (e' & He'); try assumption.
        { rewrite !all_chars_app, Hgt, Ha1. reflexivity. }
        replace ((W +:+ "<div" +:+ a1) +:+ "id="
                 +:+ String q ("_imageList" +:+ String q (a2 +:+ ">"))
                 +:+ content +:+ "</div>" +:+ post)
          with (W +:+ "<div" +:+ a1 +:+ "id="
                +:+ String q ("_imageList" +:+ String q (a2 +:+ ">"))
                +:+ content +:+ "</div>" +:+ post) in He'
          by (repeat (progress (rewrite ?string_app_assoc; cbn [String.append]));
              reflexivity).
        rewrite He' in E. now injection E as _ <-.
      * destruct (first_gt _ Hgt) as (X & R & EX). exfalso.
        rewrite EX, string_app_assoc in E.
        rewrite imageListDiv_not_before in E; [discriminate|].
        apply (includes_prefix_false _ _ (lower R)). rewrite <- lower_app, <- EX. exact Hno.
    + cbn [String.append] in E |- *. rewrite (exec_from_step _ _ _ _ E).
      now apply IH.
Qed.

(** The content that [getPageURLs] reads from a viewer page. *)
Lemma exec_imageListDiv q (pre a1 a2 content post : string) :
  quote q = true ->
  Js.includes "_imagelist" (lower pre) = false ->
  Js.all_chars (not_char ">") a1 = true ->
  Js.all_chars (not_char ">") a2 = true ->
  Js.includes "id=" (lower a2) = false ->
  Js.includes "</div>" (lower (content +:+ "</div")) = false ->
  exists m,
    exec Webtoons.imageListDivRegex (viewerPage q pre a1 a2 content post) = Some m
    /\ Js.opt_str (group 1 (groups m)) = content.
Proof. intros. unfold exec, viewerPage. now apply exec_from_pre. Qed.

End DivFacts.

(** X22: the Webtoons [getPageURLs] from the identifier to the pages.  On a
    viewer page that holds a [div] with the id [_imageList], whatever comes
    before it as long as it does not name [_imageList], and whose image
    list holds well-formed image tags, the function returns the proxy URL
    of the [data-url] of every image, in the order of the page and with the
    Webtoons referer, after the one request for the viewer. *)
Theorem X22_webtoons_pages_of_a_viewer_page
  (mango : Host.Mango string) chapterId mangaID viewerLink n resp
  q pre a1 a2 images rest post :
  Webtoons.decodeChapterId chapterId = Some (mangaID, viewerLink, n) ->
  Host.http mango [] (webtoonsViewerRequest viewerLink) = inr resp ->
  Host.status resp = 200 ->
  Host.data resp = viewerPage q pre a1 a2 (imageList q images rest) post ->
  viewer_ok q pre a1 a2 images rest ->
  images <> [] ->
  Host.run (Webtoons.getPageURLs mango chapterId)
  = (Host.Return
       (map (fun i => Webtoons.constructProxyUrl (img_url i) Webtoons.refererOnly) images),
     [webtoonsViewerRequest viewerLink]).
Proof.
  intros Hdec Hhttp Hst Hdata (Hq & Hno & Ha1 & Ha2 & Hid & Hok & Hrest & Hc) Hne.
  destruct (exec_imageListDiv q pre a1 a2 (imageList q images rest) post
              Hq Hno Ha1 Ha2 Hid Hc) as (m & Hm & Hg).
  unfold Host.run, Webtoons.getPageURLs, Host.bind, Host.http_get, Host.send.
  rewrite Hdec. fold (webtoonsViewerRequest viewerLink).
  rewrite Hhttp, Hst. cbv beta iota zeta. rewrite Hdata, Hm. cbv beta iota zeta.
  assert (Hurls : Webtoons.imageUrlsOf (imageList q images rest) = map img_url images).
  { unfold Webtoons.imageUrlsOf, Regex.exec_all.
    apply (exec_loop_images q rest Hq Hrest images _ "" "" Hok eq_refl).
    pose proof (imageList_length q images rest). lia. }
  rewrite Hg, Hurls.
  rewrite length_map. destruct images; [congruence|]. cbn [length Nat.eqb].
  now rewrite <- list_fmap_compose.
Qed.

Lemma X22_webtoons_pages_of_a_viewer_page_witness :
  Host.run (Webtoons.getPageURLs (answering 200 "OK" spacedViewerPage)
              "id6795viewerLink/en/a/ep_1/viewer?episode_no=1chNum1")
  = (Host.Return
       (map (fun i => Webtoons.constructProxyUrl (img_url i) Webtoons.refererOnly)
            spacedImages),
     [webtoonsViewerRequest "/en/a/ep_1/viewer?episode_no=1"]).
Proof.
  apply (X22_webtoons_pages_of_a_viewer_page
           (answering 200 "OK" spacedViewerPage) _ "6795"
           "/en/a/ep_1/viewer?episode_no=1" "1"
           (Host.Response 200 "OK" spacedViewerPage)
           dquote spacedHead " " "" spacedImages (String newline "  ")
           (String newline "</body></html>"));
    try reflexivity; [|discriminate].
  repeat split; try reflexivity.
  repeat (apply Forall_cons_2 || apply Forall_nil_2);
    repeat split; first [reflexivity | discriminate].
Defined.

(** ** The cover of a WeebCentral search result *)

Section Srcset.

(** The first candidate of a [srcset] with several. *)
Lemma first_candidate (first rest u t : string) :
  Js.includes "," first = false ->
  Js.trim first = u +:+ t -> Js.includes " " u = false ->
  t = "" \/ (exists d, t = " " +:+ d) ->
  default "" (head (Js.split " "
    (Js.trim (default "" (head (Js.split "," (first +:+ "," +:+ rest)))))))
  = u.
Proof.
  intros Hcomma Htrim Hu Ht.
  rewrite split_first; [|discriminate|cbn [String.length Nat.sub Js.take];
                         now rewrite string_app_nil_r].
  cbn [head from_option id]. rewrite Htrim.
  destruct Ht as [-> | (d & ->)].
  - now rewrite string_app_nil_r, split_none.
  - rewrite split_first; [reflexivity|discriminate|].
    cbn [String.length Nat.sub Js.take]. now rewrite string_app_nil_r.
Qed.

End Srcset.

(** X23: the cover of a WeebCentral search result whose link holds a
    [source] element with a [srcset].  When the [srcset] holds a comma, the
    cover is read from what comes before the first comma, trimmed: it is
    what comes before the first space of it, the URL of the first candidate
    without its descriptor, provided that is not empty.  A [srcset] without
    a comma is the cover as it is, descriptor included. *)
Theorem X23_weebcentral_cover_of_a_srcset link r source srcset :
  WeebCentral.searchEntry link = Some r ->
  Dom.querySelector "source" link = Some source ->
  Dom.getAttribute "srcset" source = Some srcset ->
  (forall first rest u d,
     srcset = first +:+ "," +:+ rest -> Js.includes "," first = false ->
     Js.trim first = u +:+ " " +:+ d ->
     u <> "" -> Js.includes " " u = false ->
     Host.cover_url r = u)
  /\ (forall first rest u,
     srcset = first +:+ "," +:+ rest -> Js.includes "," first = false ->
     Js.trim first = u ->
     u <> "" -> Js.includes " " u = false ->
     Host.cover_url r = u)
  /\ (srcset <> "" -> Js.includes "," srcset = false -> Host.cover_url r = srcset).
Proof.
  intros H Hsource Hsrcset.
  unfold WeebCentral.searchEntry in H. cbv zeta in H.
  destruct (negb _); [discriminate|].
  match type of H with (if ?c then _ else _) = _ => destruct c end; [|discriminate].
  injection H as <-. cbn [Host.cover_url].
  rewrite Hsource, Hsrcset. cbn [Js.opt_str from_option id].
  assert (E : srcset <> "" ->
              Js.str_or srcset (Js.opt_str (Dom.getAttribute "src" source)) = srcset).
  { intros Hne. unfold Js.str_or. destruct srcset; [congruence | reflexivity]. }
  assert (Hne : forall first rest, first +:+ "," +:+ rest <> "").
  { intros [|] rest; discriminate. }
  split; [|split].
  - intros first rest u d -> Hcomma Htrim Hu Hblank.
    rewrite !E, includes_middle by apply Hne.
    rewrite (first_candidate first rest u (" " +:+ d)); eauto.
    destruct u; [congruence | reflexivity].
  - intros first rest u -> Hcomma Htrim Hu Hblank.
    rewrite !E, includes_middle by apply Hne.
    rewrite (first_candidate first rest u ""); auto.
    + destruct u; [congruence | reflexivity].
    + now rewrite string_app_nil_r.
  - intros Hne' Hinc. rewrite !E, Hinc by assumption.
    destruct srcset; [congruence | reflexivity].
Qed.

Lemma X23_weebcentral_cover_of_a_srcset_witness :
  let srcset :=
    "https://temp.compsci88.com/cover/small/01J76XY.webp 1x,https://temp.compsci88.com/cover/normal/01J76XY.webp 2x" in
  let link := pictureLink "/series/01J76XY/One-Piece" "One Piece" srcset in
  let r := {| Host.title := "One Piece";
              Host.cover_url := "https://temp.compsci88.com/cover/small/01J76XY.webp";
              Host.identifier := "01J76XY" |} in
  WeebCentral.searchEntry link = Some r
  /\ Js.trim "https://temp.compsci88.com/cover/small/01J76XY.webp 1x"
     = "https://temp.compsci88.com/cover/small/01J76XY.webp" +:+ " " +:+ "1x"
  /\ Host.cover_url r = "https://temp.compsci88.com/cover/small/01J76XY.webp".
Proof.
  cbv zeta. split; [reflexivity|]. split; [reflexivity|].
  refine (proj1 (X23_weebcentral_cover_of_a_srcset
            (pictureLink "/series/01J76XY/One-Piece" "One Piece"
               "https://temp.compsci88.com/cover/small/01J76XY.webp 1x,https://temp.compsci88.com/cover/normal/01J76XY.webp 2x")
            _ (Dom.Element [("srcset", "https://temp.compsci88.com/cover/small/01J76XY.webp 1x,https://temp.compsci88.com/cover/normal/01J76XY.webp 2x")] "" [])
            _ eq_refl eq_refl eq_refl)
          "https://temp.compsci88.com/cover/small/01J76XY.webp 1x"
          "https://temp.compsci88.com/cover/normal/01J76XY.webp 2x"
          "https://temp.compsci88.com/cover/small/01J76XY.webp" "1x" _ _ _ _ _);
    first [reflexivity | discriminate].
Defined.

(** ** Responses that are not what an adapter expects *)

Section NoImageList.
Import Regex.

Lemma imageListDiv_needs_id (s : string) pos :
  Js.includes "_imagelist" (lower s) = false ->
  rmatch Webtoons.imageListDivRegex accept pos s [] = None.
Proof.
  intros Hno.
  destruct (rmatch _ accept pos _ []) as [m|] eqn:E; [exfalso | reflexivity].
  rewrite imageListDivRegex_unfold, rmatch_seq in E.
  apply rmatch_lit_i_lower in E as (t4 & s1 & -> & L4 & E).
  rewrite rmatch_seq in E.
  change (rmatch (Star (not_char ">")) ?k ?p ?s ?c)
    with (star_greedy (not_char ">") k p s c) in E.
  apply star_greedy_inv in E as (run & s2 & -> & Hrun & E).
  unfold imageListIdRegex in E. cbn [seq] in E. rewrite rmatch_seq in E.
  apply rmatch_lit_i_lower in E as (t3 & s3 & -> & L3 & E).
  rewrite rmatch_seq in E.
  apply rmatch_chr_inv in E as (q' & s4 & -> & Hq' & E).
  rewrite rmatch_seq in E.
  apply rmatch_lit_i_lower in E as (t10 & s5 & -> & L10 & _).
  assert (Hin : Js.includes "_imagelist"
                  (lower (t4 +:+ run +:+ t3 +:+ String q' (t10 +:+ s5))) = true).
  { replace (t4 +:+ run +:+ t3 +:+ String q' (t10 +:+ s5))
      with ((t4 +:+ run +:+ t3 +:+ String q' "") +:+ t10 +:+ s5)
      by (repeat (progress (rewrite ?string_app_assoc; cbn [String.append]));
          reflexivity).
    rewrite !lower_app, L10. apply includes_middle. }
  congruence.
Qed.

Lemma exec_from_imageListDiv_none (s : string) pos :
  Js.includes "_imagelist" (lower s) = false ->
  exec_from Webtoons.imageListDivRegex pos s = None.
Proof.
  revert pos. induction s as [|a s IH]; intros pos Hno; cbn [exec_from];
    rewrite (imageListDiv_needs_id _ pos Hno); [reflexivity|].
  apply IH. unfold lower in Hno. cbn [Js.map_chars] in Hno.
  eapply includes_tail. exact Hno.
Qed.

End NoImageList.

(** X24: a viewer page that names no [_imageList], in whatever case, makes
    the Webtoons [getPageURLs] throw "_imageList div not found in chapter
    viewer" after its one request. *)
Theorem X24_webtoons_viewer_without_image_list
  (mango : Host.Mango string) chapterId mangaID viewerLink n resp :
  Webtoons.decodeChapterId chapterId = Some (mangaID, viewerLink, n) ->
  Host.http mango [] (webtoonsViewerRequest viewerLink) = inr resp ->
  Host.status resp = 200 ->
  Js.includes "_imagelist" (lower (Host.data resp)) = false ->
  Host.run (Webtoons.getPageURLs mango chapterId)
  = (Host.Throw (Host.Error "_imageList div not found in chapter viewer"),
     [webtoonsViewerRequest viewerLink]).
Proof.
  intros Hdec Hhttp Hst Hno.
  unfold Webtoons.getPageURLs. rewrite Hdec. unfold webtoonsViewerRequest in Hhttp.
  run_with Hhttp. rewrite Hst. cbv beta iota zeta.
  unfold Regex.exec. now rewrite exec_from_imageListDiv_none.
Qed.

Lemma X24_webtoons_viewer_without_image_list_witness :
  Host.run (Webtoons.getPageURLs
              (answering 200 "OK" "<html><body><div id='content'>Sign in</div></body></html>")
              "id6795viewerLink/en/a/ep_1/viewer?episode_no=1chNum1")
  = (Host.Throw (Host.Error "_imageList div not found in chapter viewer"),
     [webtoonsViewerRequest "/en/a/ep_1/viewer?episode_no=1"]).
Proof.
  apply (X24_webtoons_viewer_without_image_list
           (answering 200 "OK" "<html><body><div id='content'>Sign in</div></body></html>")
           _ "6795" "/en/a/ep_1/viewer?episode_no=1" "1"
           (Host.Response 200 "OK"
              "<html><body><div id='content'>Sign in</div></body></html>"));
    reflexivity.
Defined.

(** X25: a success response of the episodes endpoint that is not what the
    Webtoons [getChapters] expects makes it throw: "Episodes API returned no
    data" for a null body, "Episodes API returned success=false" for a body
    whose [success] is false, and "Invalid API response structure" for a
    body without [result] or without [episodeList], each after the prefix
    "Failed to get chapters: ". *)
Theorem X25_webtoons_malformed_episodes :
  forall fuel (mango : Host.Mango (option Webtoons.EpisodesData)) rt seriesId response,
    Host.http mango [] (episodesRequest seriesId 0) = inr response ->
    Host.status response = 200 ->
    (Host.data response = None ->
     Host.run (Webtoons.getChapters (S fuel) mango rt seriesId)
     = (Host.Throw (Host.Error "Failed to get chapters: Episodes API returned no data"),
        [episodesRequest seriesId 0]))
    /\ (forall d,
        Host.data response = Some d -> Webtoons.success d = false ->
        Host.run (Webtoons.getChapters (S fuel) mango rt seriesId)
        = (Host.Throw (Host.Error
             "Failed to get chapters: Episodes API returned success=false"),
           [episodesRequest seriesId 0]))
    /\ (forall d,
        Host.data response = Some d -> Webtoons.success d = true ->
        (Webtoons.ep_result d = None
         \/ exists page, Webtoons.ep_result d = Some page
                         /\ Webtoons.episodeList page = None) ->
        Host.run (Webtoons.getChapters (S fuel) mango rt seriesId)
        = (Host.Throw (Host.Error
             "Failed to get chapters: Invalid API response structure"),
           [episodesRequest seriesId 0])).
Proof.
  intros fuel mango rt seriesId response Hhttp Hst.
  unfold episodesRequest in Hhttp.
  split; [|split].
  - intros Hd. unfold Webtoons.getChapters. cbn [Webtoons.fetchEpisodes].
    run_with Hhttp. rewrite Hst, Hd. reflexivity.
  - intros d Hd Hs. unfold Webtoons.getChapters. cbn [Webtoons.fetchEpisodes].
    run_with Hhttp. rewrite Hst, Hd. cbv beta iota zeta. rewrite Hs. reflexivity.
  - intros d Hd Hs Hbad. unfold Webtoons.getChapters. cbn [Webtoons.fetchEpisodes].
    run_with Hhttp. rewrite Hst, Hd. cbv beta iota zeta. rewrite Hs.
    destruct Hbad as [-> | (page & -> & ->)]; reflexivity.
Qed.

Lemma X25_webtoons_malformed_episodes_witness :
  Host.run (Webtoons.getChapters 1 (answering 200 "OK" (episodesBody false None))
              fixedRuntime "6795")
  = (Host.Throw (Host.Error
       "Failed to get chapters: Episodes API returned success=false"),
     [episodesRequest "6795" 0]).
Proof.
  refine (proj1 (proj2 (X25_webtoons_malformed_episodes O
            (answering 200 "OK" (episodesBody false None)) fixedRuntime "6795"
            (Host.Response 200 "OK" (episodesBody false None)) eq_refl eq_refl))
          _ eq_refl eq_refl).
Defined.

(** X26: the WeebCentral adapter and the parser of the host.  On a success
    response, a host without [mango.utils.parseHTML] makes each function
    throw "parseHTML not available in mango.utils", the [search] only when
    the body is not blank.  When the parser returns null, [search] throws
    "Failed to parse HTML response", while [getChapters] and [getPageURLs]
    throw the [TypeError] of the call on null. *)
Theorem X26_weebcentral_without_parser :
  (forall (mango : Host.Mango string) query response,
     Host.http mango [] (weebcentralSearchRequest query) = inr response ->
     Host.status response = 200 ->
     Js.trim (Host.data response) <> "" ->
     (Host.parseHTML mango = None ->
      Host.run (WeebCentral.search mango query)
      = (Host.Throw (Host.Error "parseHTML not available in mango.utils"),
         [weebcentralSearchRequest query]))
     /\ (forall parse,
         Host.parseHTML mango = Some parse -> parse (Host.data response) = None ->
         Host.run (WeebCentral.search mango query)
         = (Host.Throw (Host.Error "Failed to parse HTML response"),
            [weebcentralSearchRequest query])))
  /\ (forall (mango : Host.Mango string) seriesIdentifier response,
     Host.http mango [] (weebcentralChaptersRequest seriesIdentifier) = inr response ->
     Host.status response = 200 ->
     (Host.parseHTML mango = None ->
      Host.run (WeebCentral.getChapters mango seriesIdentifier)
      = (Host.Throw (Host.Error "parseHTML not available in mango.utils"),
         [weebcentralChaptersRequest seriesIdentifier]))
     /\ (forall parse,
         Host.parseHTML mango = Some parse -> parse (Host.data response) = None ->
         exists message,
           Host.run (WeebCentral.getChapters mango seriesIdentifier)
           = (Host.Throw (Host.TypeError message),
              [weebcentralChaptersRequest seriesIdentifier])))
  /\ (forall (mango : Host.Mango string) rt chapterIdentifier response,
     Host.http mango [] (weebcentralPageRequest chapterIdentifier) = inr response ->
     Host.status response = 200 ->
     (Host.parseHTML mango = None ->
      Host.run (WeebCentral.getPageURLs mango rt chapterIdentifier)
      = (Host.Throw (Host.Error "parseHTML not available in mango.utils"),
         [weebcentralPageRequest chapterIdentifier]))
     /\ (forall parse,
         Host.parseHTML mango = Some parse -> parse (Host.data response) = None ->
         exists message,
           Host.run (WeebCentral.getPageURLs mango rt chapterIdentifier)
           = (Host.Throw (Host.TypeError message),
              [weebcentralPageRequest chapterIdentifier]))).
Proof.
  split; [|split].
  - intros mango query response Hhttp Hst Hne.
    assert (Hblank : negb (Js.nonempty (Host.data response))
                     || (String.length (Js.trim (Host.data response)) =? 0)%nat = false).
    { destruct (Host.data response) as [|a s] eqn:E; [now elim Hne|].
      cbn [Js.nonempty negb orb]. destruct (Js.trim (String a s)); [now elim Hne|].
      reflexivity. }
    unfold weebcentralSearchRequest in Hhttp. split.
    + intros Hp. unfold WeebCentral.search. run_with Hhttp.
      rewrite Hst. cbv beta iota zeta. cbn [Z.eqb Pos.eqb negb].
      rewrite Hblank, Hp. reflexivity.
    + intros parse Hp Hnull. unfold WeebCentral.search. run_with Hhttp.
      rewrite Hst. cbv beta iota zeta. cbn [Z.eqb Pos.eqb negb].
      rewrite Hblank, Hp, Hnull. reflexivity.
  - intros mango seriesIdentifier response Hhttp Hst.
    unfold weebcentralChaptersRequest in Hhttp. split.
    + intros Hp. unfold WeebCentral.getChapters. run_with Hhttp.
      rewrite Hst, Hp. reflexivity.
    + intros parse Hp Hnull. eexists. unfold WeebCentral.getChapters. run_with Hhttp.
      rewrite Hst, Hp. cbv beta iota zeta. rewrite Hnull. reflexivity.
  - intros mango rt chapterIdentifier response Hhttp Hst.
    unfold weebcentralPageRequest in Hhttp. split.
    + intros Hp. unfold WeebCentral.getPageURLs. run_with Hhttp.
      rewrite Hst, Hp. reflexivity.
    + intros parse Hp Hnull. eexists. unfold WeebCentral.getPageURLs. run_with Hhttp.
      rewrite Hst, Hp. cbv beta iota zeta. rewrite Hnull. reflexivity.
Qed.

Lemma X26_weebcentral_without_parser_witness :
  Host.run (WeebCentral.search (answering 200 "OK" "<div></div>") "naruto")
  = (Host.Throw (Host.Error "parseHTML not available in mango.utils"),
     [weebcentralSearchRequest "naruto"])
  /\ Host.run (WeebCentral.search (parsing "<div></div>" (fun _ => None)) "naruto")
     = (Host.Throw (Host.Error "Failed to parse HTML response"),
        [weebcentralSearchRequest "naruto"])
  /\ exists message,
       Host.run (WeebCentral.getChapters (parsing "<div></div>" (fun _ => None)) "01J76XY")
       = (Host.Throw (Host.TypeError message), [weebcentralChaptersRequest "01J76XY"]).
Proof.
  destruct X26_weebcentral_without_parser as (HS & HC & _).
  split; [|split].
  - apply (HS (answering 200 "OK" "<div></div>") "naruto"
              (Host.Response 200 "OK" "<div></div>"));
      first [reflexivity | discriminate].
  - apply (proj2 (HS (parsing "<div></div>" (fun _ => None)) "naruto"
                     (Host.Response 200 "OK" "<div></div>") eq_refl eq_refl
                     ltac:(discriminate)) (fun _ => None));
      reflexivity.
  - apply (proj2 (HC (parsing "<div></div>" (fun _ => None)) "01J76XY"
                     (Host.Response 200 "OK" "<div></div>") eq_refl eq_refl)
                 (fun _ => None));
      reflexivity.
Defined.

(** ** The pages of a MangaDex chapter *)

Section MangaDexPages.

Lemma string_app_inv_tail (a b s : string) : a +:+ s = b +:+ s -> a = b.
Proof.
  revert b. induction a as [|x a IH]; intros [|y b] H.
  - reflexivity.
  - apply (f_equal String.length) in H. cbn [String.append String.length] in H.
    rewrite string_app_length in H. lia.
  - apply (f_equal String.length) in H. cbn [String.append String.length] in H.
    rewrite string_app_length in H. lia.
  - cbn [String.append] in H. injection H as -> H. f_equal. now apply IH.
Qed.

Lemma mangadexPageUrl_inj d f g : mangadexPageUrl d f = mangadexPageUrl d g -> f = g.
Proof.
  unfold mangadexPageUrl. intros H.
  apply string_app_inv_head, string_app_inv_tail, encodeURIComponent_inj in H.
  now do 4 apply string_app_inv_head in H.
Qed.

End MangaDexPages.

(** X27: on a success response the MangaDex [getPageURLs] returns one URL
    per page file, in the order of the files: the proxy URL, with the
    MangaDex referer, of [{baseUrl}/data/{hash}/{file}].  Files with
    different names get different URLs. *)
Theorem X27_mangadex_page_urls
  (mango : Host.Mango MangaDex.AtHome) chapterIdentifier response :
  Host.http mango [] (mangadexPageRequest mango chapterIdentifier) = inr response ->
  Host.status response = 200 ->
  let d := Host.data response in
  let pageFiles := default [] (MangaDex.ah_data (MangaDex.ah_chapter d)) in
  Host.run (MangaDex.getPageURLs mango chapterIdentifier)
  = (Host.Return (map (mangadexPageUrl d) pageFiles),
     [mangadexPageRequest mango chapterIdentifier])
  /\ (NoDup pageFiles -> NoDup (map (mangadexPageUrl d) pageFiles)).
Proof.
  intros Hhttp Hst d pageFiles. split.
  - unfold MangaDex.getPageURLs. unfold mangadexPageRequest in Hhttp.
    run_with Hhttp. rewrite Hst. cbv beta iota zeta. cbn [Z.eqb Pos.eqb negb].
    unfold Host.ret. do 2 f_equal.
  - intros Hnd.
    assert (Hinj : Inj eq eq (mangadexPageUrl d))
      by (intros f g; apply mangadexPageUrl_inj).
    now apply (NoDup_fmap_2 (mangadexPageUrl d)).
Qed.

Lemma X27_mangadex_page_urls_witness :
  Host.run (MangaDex.getPageURLs twoFiles "chapter-123")
  = (Host.Return
       ["http://localhost:8080/api/proxy/resource?url=https%3A%2F%2Fs2.mangadex.org%2Fdata%2Fabc123%2F1-a.png&referer=https%3A%2F%2Fmangadex.org%2F";
        "http://localhost:8080/api/proxy/resource?url=https%3A%2F%2Fs2.mangadex.org%2Fdata%2Fabc123%2F2-b.png&referer=https%3A%2F%2Fmangadex.org%2F"],
     [mangadexPageRequest twoFiles "chapter-123"]).
Proof.
  exact (proj1 (X27_mangadex_page_urls twoFiles "chapter-123"
                  (Host.Response 200 "OK"
                     {| MangaDex.baseUrl := "https://s2.mangadex.org";
                        MangaDex.ah_chapter :=
                          {| MangaDex.hash := "abc123";
                             MangaDex.ah_data := Some ["1-a.png"; "2-b.png"] |} |})
                  eq_refl eq_refl)).
Defined.
